(** * cctl: machine lifecycle and etcd recovery commands

    A shallow embedding of [cmd/machine.go] (the [create machine],
    [delete machine] commands and the [recover etcd] command that is
    concatenated to it) and of the provider-config codec
    ([SSHProviderConfigCodec]), with the properties of the design
    document proved or refuted on the embedding.

    Go strings are byte strings ([string]); Go slices are lists; a Go
    pointer that may be [nil] is an [option]; a function returning an
    [error] returns an [outcome]; the remote machines, the actuator and
    the codec helpers of ssh-provider are collaborators given as a
    record of functions. *)

From Stdlib Require Import NArith ZArith Ascii Lia.
From stdpp Require Import gmap strings list fin_maps sorting.

Open Scope string_scope.
Open Scope list_scope.

(** ** Errors, log lines and outcomes *)

(** An error built by [fmt.Errorf], a line given to [log.Printf] or the
    diagnostic of [log.Fatalf]: the format string of the source and its
    arguments, left unformatted. *)
Inductive error : Type :=
| Errorf (format : string) (args : list arg)
with arg : Type :=
| AStr (s : string)
| AInt (z : Z)
| AMember (id : N) (name : string) (peerURLs clientURLs : list string)
| AErr (e : error).

(** How a Go function ends: it returns (with a value, or with a non-nil
    [error]), the process exits in [log.Fatalf], or the runtime panics
    on a nil pointer dereference. *)
Inductive outcome (A : Type) : Type :=
| Ret (a : A)
| Err (e : error)
| Exit (e : error)
| Panic.
Arguments Ret {A} a.
Arguments Err {A} e.
Arguments Exit {A} e.
Arguments Panic {A}.

(** ** strings.Fields

    [strings.Fields] splits around runs of white space as defined by
    [unicode.IsSpace], decoding the string as UTF-8; an invalid byte
    decodes to [RuneError] with width 1 and is not white space. *)
Module GoStrings.

Definition rune := N.
Definition RuneError : rune := 0xFFFD%N.

Definition inRange (lo hi b : N) : bool := (lo <=? b)%N && (b <=? hi)%N.

(** [utf8.DecodeRuneInString]: the rune at the head of [s] and its width
    in bytes ([s] is not empty where it is called). *)
Definition DecodeRune (s : list N) : rune * nat :=
  match s with
  | [] => (RuneError, 0%nat)
  | s0 :: t =>
    if (s0 <? 0x80)%N then (s0, 1%nat)
    else
      (* size of the sequence and accepted range of the second byte *)
      let info : option (nat * N * N) :=
        if inRange 0xC2%N 0xDF%N s0 then Some (2%nat, 0x80, 0xBF)%N
        else if (s0 =? 0xE0)%N then Some (3%nat, 0xA0, 0xBF)%N
        else if inRange 0xE1%N 0xEC%N s0 then Some (3%nat, 0x80, 0xBF)%N
        else if (s0 =? 0xED)%N then Some (3%nat, 0x80, 0x9F)%N
        else if inRange 0xEE%N 0xEF%N s0 then Some (3%nat, 0x80, 0xBF)%N
        else if (s0 =? 0xF0)%N then Some (4%nat, 0x90, 0xBF)%N
        else if inRange 0xF1%N 0xF3%N s0 then Some (4%nat, 0x80, 0xBF)%N
        else if (s0 =? 0xF4)%N then Some (4%nat, 0x80, 0x8F)%N
        else None
      in
      match info with
      | None => (RuneError, 1%nat)
      | Some (sz, lo, hi) =>
        let cont (b : N) := inRange 0x80%N 0xBF%N b in
        let low6 (b : N) := N.land b 0x3F%N in
        match sz, t with
        | 2%nat, s1 :: _ =>
          if inRange lo hi s1
          then (N.lor (N.shiftl (N.land s0 0x1F%N) 6%N) (low6 s1), 2%nat)
          else (RuneError, 1%nat)
        | 3%nat, s1 :: s2 :: _ =>
          if inRange lo hi s1 && cont s2
          then (N.lor (N.lor (N.shiftl (N.land s0 0x0F%N) 12%N)
                             (N.shiftl (low6 s1) 6%N)) (low6 s2), 3%nat)
          else (RuneError, 1%nat)
        | 4%nat, s1 :: s2 :: s3 :: _ =>
          if inRange lo hi s1 && cont s2 && cont s3
          then (N.lor (N.lor (N.lor (N.shiftl (N.land s0 0x07%N) 18%N)
                                    (N.shiftl (low6 s1) 12%N))
                             (N.shiftl (low6 s2) 6%N)) (low6 s3), 4%nat)
          else (RuneError, 1%nat)
        | _, _ => (RuneError, 1%nat)
        end
      end
  end.

(** [unicode.IsSpace]: the Latin-1 spaces and the White_Space table. *)
Definition IsSpace (r : rune) : bool :=
  (inRange 0x09 0x0D r || (r =? 0x20) || (r =? 0x85) || (r =? 0xA0)
   || (r =? 0x1680) || inRange 0x2000 0x200A r || (r =? 0x2028)
   || (r =? 0x2029) || (r =? 0x202F) || (r =? 0x205F) || (r =? 0x3000))%N.

Definition closeField (cur : list ascii) (fields : list string) : list string :=
  match cur with
  | [] => fields
  | _ => String.string_of_list_ascii cur :: fields
  end.

(** [strings.FieldsFunc]: [pending] bytes of the rune being read are
    still to come, kept in the current field when [keep]. *)
Fixpoint fieldsLoop (f : rune -> bool) (s : list ascii) (pending : nat)
    (keep : bool) (cur : list ascii) : list string :=
  match s with
  | [] => closeField cur []
  | b :: rest =>
    match pending with
    | S k => fieldsLoop f rest k keep (if keep then cur ++ [b] else cur)
    | O =>
      let '(r, size) := DecodeRune (N_of_ascii <$> s) in
      if f r
      then closeField cur (fieldsLoop f rest (Nat.pred size) false [])
      else fieldsLoop f rest (Nat.pred size) true (cur ++ [b])
    end
  end.

Definition FieldsFunc (s : string) (f : rune -> bool) : list string :=
  fieldsLoop f (String.list_ascii_of_string s) 0 true [].

Definition Fields (s : string) : list string := FieldsFunc s IsSpace.

(** [strings.Split] for a separator of one byte: the substrings between
    the separators ([Split "" sep] is one empty string). *)
Fixpoint splitLoop (sep : ascii) (s cur : list ascii) : list string :=
  match s with
  | [] => [String.string_of_list_ascii cur]
  | c :: rest =>
    if Ascii.eqb c sep
    then String.string_of_list_ascii cur :: splitLoop sep rest []
    else splitLoop sep rest (cur ++ [c])
  end.

Definition Split (s : string) (sep : ascii) : list string :=
  splitLoop sep (String.list_ascii_of_string s) [].

End GoStrings.

(** ** Join-token output parsing *)

(** [tokenAndCAHashFromKubeadmJoinCommand]: successful output has the
    shape [kubeadm join <server:port> --token <token>
    --discovery-token-ca-cert-hash <sha>]. *)
Definition tokenAndCAHashFromKubeadmJoinCommand (cmdStdout : string)
  : outcome (string * string) :=
  let fields := GoStrings.Fields cmdStdout in
  if negb (length fields =? 7)%nat
  then Err (Errorf "expected 7 fields, found %v" [AInt (Z.of_nat (length fields))])
  else
    let token := nth 4 fields "" in
    let caHash := nth 6 fields "" in
    Ret (token, caHash).

(** ** Objects of the store and provider types

    Nested struct fields are flattened: [Machine_Spec_Roles m] is
    [m.Spec.Roles]. Only the fields the commands touch are kept. *)

Record TypeMeta := { Kind : string; APIVersion : string }.

Record ObjectMeta := {
  ObjectMeta_Name : string;
  ObjectMeta_Namespace : string;
  ObjectMeta_CreationTimestamp : Z
}.

Record RawExtension := { Raw : string }.

(** [clusterv1.ProviderConfig]: [Value] is a pointer. *)
Record ProviderConfig := { Value : option RawExtension }.

Definition MachineRole := string.
Definition MasterRole : MachineRole := "Master".
Definition NodeRole : MachineRole := "Node".

(** [clusterutil.RoleContains]. *)
Definition RoleContains (a : MachineRole) (roles : list MachineRole) : bool :=
  existsb (String.eqb a) roles.

Record Machine := {
  Machine_TypeMeta : TypeMeta;
  Machine_ObjectMeta : ObjectMeta;
  Machine_Spec_Roles : list MachineRole;
  Machine_Spec_ProviderConfig : ProviderConfig;
  Machine_Status_ProviderStatus : option RawExtension
}.

Record Cluster := {
  Cluster_TypeMeta : TypeMeta;
  Cluster_ObjectMeta : ObjectMeta;
  Cluster_Spec_ProviderConfig : ProviderConfig;
  Cluster_Status_ProviderStatus : option RawExtension
}.

Record LocalObjectReference := { LocalObjectReference_Name : string }.

Record SSHConfig := {
  Host : string;
  Port : Z;
  PublicKeys : list string;
  CredentialSecret : LocalObjectReference
}.

Record ProvisionedMachine := {
  ProvisionedMachine_TypeMeta : TypeMeta;
  ProvisionedMachine_ObjectMeta : ObjectMeta;
  ProvisionedMachine_Spec_SSHConfig : option SSHConfig;
  ProvisionedMachine_Spec_VIPNetworkInterface : string
}.

Record Secret := {
  Secret_TypeMeta : TypeMeta;
  Secret_ObjectMeta : ObjectMeta;
  Secret_Data : gmap string string
}.

Definition Machine_Name (m : Machine) : string :=
  ObjectMeta_Name (Machine_ObjectMeta m).
Definition Machine_Namespace (m : Machine) : string :=
  ObjectMeta_Namespace (Machine_ObjectMeta m).
Definition ProvisionedMachine_Name (p : ProvisionedMachine) : string :=
  ObjectMeta_Name (ProvisionedMachine_ObjectMeta p).
Definition Secret_Name (x : Secret) : string :=
  ObjectMeta_Name (Secret_ObjectMeta x).

(** Modelled from the spec: the declaration of [spv1.EtcdMember] (the
    MembershipRecord) is not in the sources; it identifies a participant
    by a stable id and carries its advertised endpoints. *)
Record EtcdMember := {
  ID : N;
  Name : string;
  PeerURLs : list string;
  ClientURLs : list string
}.

(** An [EtcdMember] as the argument of a format. *)
Definition AEtcdMember (m : EtcdMember) : arg :=
  AMember (ID m) (Name m) (PeerURLs m) (ClientURLs m).

(** Provider payloads of ssh-provider, with the fields the commands
    read or write ([EtcdMember] and [SSHConfig] are pointers). *)
Record SPMachineSpec := {
  SPMachineSpec_TypeMeta : TypeMeta;
  ProvisionedMachineName : string;
  SPMachineSpec_Roles : list MachineRole
}.

Record SPMachineStatus := {
  SPMachineStatus_TypeMeta : TypeMeta;
  SPMachineStatus_EtcdMember : option EtcdMember;
  SPMachineStatus_SSHConfig : option SSHConfig
}.

Record SPClusterSpec := { EtcdCASecret : LocalObjectReference }.

Record SPClusterStatus := { EtcdMembers : list EtcdMember }.

(** The constants of package [common]. *)
Definition DefaultNamespace : string := "default".
(** Modelled from the spec: the values of these names of package
    [common] are not in the sources; the commands only pass them on. *)
Definition DefaultClusterName : string := "default-cluster".
Definition DefaultSSHCredentialSecretName : string := "sshCredential".
Definition DefaultBootstrapTokenSecretName : string := "bootstrapToken".
Definition EtcdSnapshotRemotePath : string := "/tmp/snapshot.db".

(** ** MembershipSet *)

(** Modelled from the spec: [setsutil.EtcdMemberSet] is not in the
    sources. It is a set of membership records keyed by id: inserting an
    existing id replaces the record, deleting matches by id only and is
    a no-op for an absent id, and the listing has a stable order (here:
    ascending id). *)
Module EtcdMemberSet.

Definition Insert (m : EtcdMember) (s : gmap N EtcdMember) : gmap N EtcdMember :=
  <[ID m := m]> s.

Definition Delete (m : EtcdMember) (s : gmap N EtcdMember) : gmap N EtcdMember :=
  delete (ID m) s.

Definition NewEtcdMemberSet (members : list EtcdMember) : gmap N EtcdMember :=
  foldl (fun s m => Insert m s) ∅ members.

Definition idLe (a b : EtcdMember) : Prop := (ID a <= ID b)%N.

#[global] Instance idLe_dec a b : Decision (idLe a b).
Proof. unfold idLe. apply _. Defined.

Definition List (s : gmap N EtcdMember) : list EtcdMember :=
  merge_sort idLe ((map_to_list s).*2).

(** A sequence of mutations of a set. *)
Inductive Op := OpInsert (m : EtcdMember) | OpDelete (m : EtcdMember).

Definition opMember (o : Op) : EtcdMember :=
  match o with OpInsert m | OpDelete m => m end.

Definition applyOp (s : gmap N EtcdMember) (o : Op) : gmap N EtcdMember :=
  match o with
  | OpInsert m => Insert m s
  | OpDelete m => Delete m s
  end.

Definition applyOps (ops : list Op) (s : gmap N EtcdMember) : gmap N EtcdMember :=
  foldl applyOp s ops.

(** [r] is inserted and not deleted: some insert of [r] is followed by
    no operation (insert or delete) on its id. *)
Definition inserted_not_deleted (ops : list Op) (r : EtcdMember) : Prop :=
  exists before after,
    ops = before ++ OpInsert r :: after /\
    Forall (fun o => ID (opMember o) <> ID r) after.

(** Every record is stored under its own id. *)
Definition keyed (s : gmap N EtcdMember) : Prop :=
  forall k r, s !! k = Some r -> ID r = k.

(** The effect of one operation on the record under [id]. *)
Definition touch (id : N) (acc : option EtcdMember) (o : Op) : option EtcdMember :=
  if decide (ID (opMember o) = id)
  then match o with OpInsert m => Some m | OpDelete _ => None end
  else acc.

End EtcdMemberSet.

(** ** The object store

    Modelled from the spec: the store clients ([state.ClusterClient],
    [state.SPClient], [state.KubeClient]) are not in the sources. The
    store does CRUD by namespace and name, reports a distinguishable
    "not found", and updates the status as a sub-resource. *)

Record Store := {
  Clusters : list Cluster;
  Machines : list Machine;
  ProvisionedMachines : list ProvisionedMachine;
  Secrets : list Secret
}.

Definition NotFound (resource name : string) : error :=
  Errorf "%s %q not found" [AStr resource; AStr name].
Definition AlreadyExists (resource name : string) : error :=
  Errorf "%s %q already exists" [AStr resource; AStr name].

(** [apierrors.IsNotFound]. *)
Definition IsNotFound (e : error) : bool :=
  match e with Errorf format _ => String.eqb format "%s %q not found" end.

Section Objects.
Context {A : Type} (meta : A -> ObjectMeta).

Definition hasKey (ns name : string) (a : A) : bool :=
  String.eqb (ObjectMeta_Namespace (meta a)) ns
  && String.eqb (ObjectMeta_Name (meta a)) name.

Definition getObject (ns name : string) (l : list A) : option A :=
  List.find (hasKey ns name) l.

Definition listObjects (ns : string) (l : list A) : list A :=
  List.filter (fun a => String.eqb (ObjectMeta_Namespace (meta a)) ns) l.

Definition createObject (ns : string) (a : A) (l : list A) : option (list A) :=
  match getObject ns (ObjectMeta_Name (meta a)) l with
  | Some _ => None
  | None => Some (l ++ [a])
  end.

Fixpoint updateObject (ns name : string) (f : A -> A) (l : list A)
  : option (list A) :=
  match l with
  | [] => None
  | a :: l' =>
    if hasKey ns name a then Some (f a :: l')
    else option_map (cons a) (updateObject ns name f l')
  end.

Fixpoint deleteObject (ns name : string) (l : list A) : option (list A) :=
  match l with
  | [] => None
  | a :: l' =>
    if hasKey ns name a then Some l'
    else option_map (cons a) (deleteObject ns name l')
  end.
End Objects.

(** The mutating calls the commands make on the store; the object of a
    create is a pointer. *)
Inductive StoreOp :=
| CreateProvisionedMachine (p : option ProvisionedMachine)
| CreateMachine (m : option Machine)
| CreateSecret (x : Secret)
| UpdateSecret (x : Secret)
| UpdateClusterStatus (c : Cluster)
| UpdateMachineStatus (m : Machine)
| DeleteMachine (name : string)
| DeleteProvisionedMachine (name : string).

(** ** Remote sessions and what a run does to the outside *)

(** An [sshmachine.Client], as the arguments [sshmachine.NewClient] was
    given. *)
Record Client := {
  Client_host : string;
  Client_port : Z;
  Client_username : string;
  Client_privateKey : string;
  Client_publicKeys : list string;
  Client_insecureIgnoreHostKey : bool
}.

(** The calls that leave the process, in the order they are made, each
    with the error it returned, and the log lines. *)
Inductive Event :=
| RunCommandEv (c : Client) (cmd : string) (stdOut stdErr : string) (err : option error)
| ReadFileEv (c : Client) (path : string) (err : option error)
| WriteFileEv (c : Client) (path : string) (mode : N) (data : string) (err : option error)
| MkdirAllEv (c : Client) (path : string) (mode : N) (err : option error)
| MoveFileEv (c : Client) (src dst : string) (err : option error)
| StoreEv (op : StoreOp) (err : option error)
| ActuatorCreateEv (m : Machine) (err : option error)
| ActuatorDeleteEv (m : Machine) (err : option error)
| PullFromAPIsEv (err : option error)
| LogEv (format : string) (args : list arg).

(** The collaborators that are not in the sources, over a state [W] of
    the outside (the remote machines, the local files, the clock):
    ssh-provider's helpers for provider payloads, the ssh transport, the
    actuator, the on-disk state of cctl and the Go library functions the
    commands call. A helper that returns a Go [error] returns [inl]. *)
Record Collaborators (W : Type) := {
  GetMachineSpec : Machine -> error + SPMachineSpec;
  PutMachineSpec : SPMachineSpec -> Machine -> error + Machine;
  GetMachineStatus : Machine -> error + SPMachineStatus;
  PutMachineStatus : SPMachineStatus -> Machine -> error + Machine;
  GetClusterSpec : Cluster -> error + SPClusterSpec;
  GetClusterStatus : Cluster -> error + SPClusterStatus;
  PutClusterStatus : SPClusterStatus -> Cluster -> error + Cluster;
  BindMachineAndProvisionedMachine :
    Machine -> ProvisionedMachine -> error + (Machine * ProvisionedMachine);
  UsernameAndKeyFromSecret : Secret -> error + (string * string);
  (* sshmachine *)
  NewClient : Client -> option error;
  transport_RunCommand : Client -> string -> W -> (string * string * option error) * W;
  transport_ReadFile : Client -> string -> W -> (string * option error) * W;
  transport_WriteFile : Client -> string -> N -> string -> W -> option error * W;
  transport_MkdirAll : Client -> string -> N -> W -> option error * W;
  transport_MoveFile : Client -> string -> string -> W -> option error * W;
  (* the actuator may change the store, the outside and both objects *)
  actuator_Create : bool -> Cluster -> Machine -> Store -> W ->
                    (error + (Cluster * Machine)) * Store * W;
  actuator_Delete : bool -> Cluster -> Machine -> Store -> W ->
                    (error + (Cluster * Machine)) * Store * W;
  state_PullFromAPIs : Store -> W -> option error * W;
  (* what a store client does with a nil object: the error it returns,
     or [None] when it dereferences the pointer *)
  store_rejectsNil : option error;
  (* Go and library functions *)
  ioutil_ReadFile : string -> W -> error + string;
  sshutil_PublicKeyFromFile : string -> W -> error + string;
  ssh_MarshalAuthorizedKey : string -> string;
  json_Unmarshal_EtcdMember : string -> error + EtcdMember;
  metav1_Now : W -> Z;
  strings_Title : string -> string;
  strings_TrimSpace : string -> string;
  strconv_Atoi : string -> error + Z;
  filepath_Dir : string -> string;
  fmt_Duration : Z -> string;
  fmt_Int : Z -> string
}.

Arguments GetMachineSpec {W}. Arguments PutMachineSpec {W}.
Arguments GetMachineStatus {W}. Arguments PutMachineStatus {W}.
Arguments GetClusterSpec {W}. Arguments GetClusterStatus {W}.
Arguments PutClusterStatus {W}.
Arguments BindMachineAndProvisionedMachine {W}.
Arguments UsernameAndKeyFromSecret {W}. Arguments NewClient {W}.
Arguments transport_RunCommand {W}. Arguments transport_ReadFile {W}.
Arguments transport_WriteFile {W}. Arguments transport_MkdirAll {W}.
Arguments transport_MoveFile {W}. Arguments actuator_Create {W}.
Arguments actuator_Delete {W}. Arguments state_PullFromAPIs {W}.
Arguments store_rejectsNil {W}. Arguments ioutil_ReadFile {W}.
Arguments sshutil_PublicKeyFromFile {W}.
Arguments ssh_MarshalAuthorizedKey {W}.
Arguments json_Unmarshal_EtcdMember {W}. Arguments metav1_Now {W}.
Arguments strings_Title {W}. Arguments strings_TrimSpace {W}.
Arguments strconv_Atoi {W}. Arguments filepath_Dir {W}.
Arguments fmt_Duration {W}. Arguments fmt_Int {W}.

(** What a run can change: the store and the outside. *)
Record State (W : Type) := { store : Store; world : W }.
Arguments store {W}. Arguments world {W}.
Arguments Build_State {W}.

(** ** The monad of the commands

    A computation takes the state and gives its outcome, the state it
    leaves and the events it made; a computation that does not return
    stops the ones after it. *)
Definition M (W A : Type) : Type :=
  State W -> outcome A * State W * list Event.

Definition castFailure {A B : Type} (o : outcome A) : outcome B :=
  match o with
  | Ret _ => Panic
  | Err e => Err e
  | Exit e => Exit e
  | Panic => Panic
  end.

#[global] Instance M_ret {W} : MRet (M W) := fun A a s => (Ret a, s, []).

#[global] Instance M_bind {W} : MBind (M W) := fun A B f m s =>
  match m s with
  | (Ret a, s1, t1) =>
    let '(o, s2, t2) := f a s1 in (o, s2, t1 ++ t2)
  | (o, s1, t1) => (castFailure o, s1, t1)
  end.

Section Monad.
Context {W : Type}.

Definition stop {A} (o : outcome A) : M W A := fun s => (o, s, []).
Definition throw {A} (e : error) : M W A := stop (Err e).
Definition panic {A} : M W A := stop Panic.
Definition emit (ev : Event) : M W unit := fun s => (Ret tt, s, [ev]).

(** [return fmt.Errorf(..., err)] around a call: [if err != nil]. *)
Definition annotate {A} (wrap : error -> error) (m : M W A) : M W A :=
  fun s =>
    match m s with
    | (Err e, s1, t1) => (Err (wrap e), s1, t1)
    | r => r
    end.

(** [log.Fatalf(..., err)] around a call. *)
Definition orFatalf {A} (wrap : error -> error) (m : M W A) : M W A :=
  fun s =>
    match m s with
    | (Err e, s1, t1) => (Exit (wrap e), s1, t1)
    | r => r
    end.

(** The [err] of a call, for an [if err != nil] that goes on. *)
Definition try {A} (m : M W A) : M W (error + A) :=
  fun s =>
    match m s with
    | (Ret a, s1, t1) => (Ret (inr a), s1, t1)
    | (Err e, s1, t1) => (Ret (inl e), s1, t1)
    | (Exit e, s1, t1) => (Exit e, s1, t1)
    | (Panic, s1, t1) => (Panic, s1, t1)
    end.

Definition lift {A} (r : error + A) : M W A :=
  match r with inl e => throw e | inr a => mret a end.

Definition Fatalf {A} (format : string) (args : list arg) : M W A :=
  stop (Exit (Errorf format args)).

(** [log.Printf] and [log.Println]. *)
Definition Printf (format : string) (args : list arg) : M W unit :=
  emit (LogEv format args).

(** A nil pointer dereference panics. *)
Definition deref {A} (p : option A) : M W A :=
  match p with Some a => mret a | None => panic end.
End Monad.

(** ** The commands *)

Record mastersWithClientEntry := {
  MWC_Machine : Machine;
  MWC_Client : Client
}.

Section Commands.
Context {W : Type} (env : Collaborators W).

(** *** Store clients *)

Definition storeRead {A} (f : Store -> error + A) : M W A :=
  fun s => (match f (store s) with inl e => Err e | inr a => Ret a end, s, []).

Definition storeWrite (op : StoreOp) (f : Store -> error + Store) : M W unit :=
  fun s =>
    match f (store s) with
    | inl e => (Err e, s, [StoreEv op (Some e)])
    | inr st => (Ret tt, {| store := st; world := world s |}, [StoreEv op None])
    end.

(** A create handed a nil pointer. *)
Definition storeWriteNil (op : StoreOp) : M W unit :=
  fun s =>
    (match store_rejectsNil env with Some e => Err e | None => Panic end,
     s, [StoreEv op (store_rejectsNil env)]).

Definition found {A} (resource name : string) (o : option A) : error + A :=
  match o with Some a => inr a | None => inl (NotFound resource name) end.

Definition Clusters_Get (ns name : string) : M W Cluster :=
  storeRead (fun st =>
    found "clusters" name (getObject Cluster_ObjectMeta ns name (Clusters st))).

Definition Machines_Get (ns name : string) : M W Machine :=
  storeRead (fun st =>
    found "machines" name (getObject Machine_ObjectMeta ns name (Machines st))).

Definition Machines_List (ns : string) : M W (list Machine) :=
  storeRead (fun st => inr (listObjects Machine_ObjectMeta ns (Machines st))).

Definition ProvisionedMachines_Get (ns name : string) : M W ProvisionedMachine :=
  storeRead (fun st =>
    found "provisionedmachines" name
      (getObject ProvisionedMachine_ObjectMeta ns name (ProvisionedMachines st))).

Definition Secrets_Get (ns name : string) : M W Secret :=
  storeRead (fun st =>
    found "secrets" name (getObject Secret_ObjectMeta ns name (Secrets st))).

Definition ProvisionedMachines_Create (ns : string) (p : option ProvisionedMachine)
  : M W unit :=
  match p with
  | None => storeWriteNil (CreateProvisionedMachine None)
  | Some pm =>
    storeWrite (CreateProvisionedMachine p) (fun st =>
      match createObject ProvisionedMachine_ObjectMeta ns pm (ProvisionedMachines st) with
      | Some l => inr {| Clusters := Clusters st; Machines := Machines st;
                         ProvisionedMachines := l; Secrets := Secrets st |}
      | None => inl (AlreadyExists "provisionedmachines" (ProvisionedMachine_Name pm))
      end)
  end.

Definition Machines_Create (ns : string) (m : option Machine) : M W unit :=
  match m with
  | None => storeWriteNil (CreateMachine None)
  | Some machine =>
    storeWrite (CreateMachine m) (fun st =>
      match createObject Machine_ObjectMeta ns machine (Machines st) with
      | Some l => inr {| Clusters := Clusters st; Machines := l;
                         ProvisionedMachines := ProvisionedMachines st;
                         Secrets := Secrets st |}
      | None => inl (AlreadyExists "machines" (Machine_Name machine))
      end)
  end.

Definition Secrets_Create (ns : string) (x : Secret) : M W unit :=
  storeWrite (CreateSecret x) (fun st =>
    match createObject Secret_ObjectMeta ns x (Secrets st) with
    | Some l => inr {| Clusters := Clusters st; Machines := Machines st;
                       ProvisionedMachines := ProvisionedMachines st; Secrets := l |}
    | None => inl (AlreadyExists "secrets" (Secret_Name x))
    end).

Definition Secrets_Update (ns : string) (x : Secret) : M W unit :=
  storeWrite (UpdateSecret x) (fun st =>
    match updateObject Secret_ObjectMeta ns (Secret_Name x) (fun _ => x) (Secrets st) with
    | Some l => inr {| Clusters := Clusters st; Machines := Machines st;
                       ProvisionedMachines := ProvisionedMachines st; Secrets := l |}
    | None => inl (NotFound "secrets" (Secret_Name x))
    end).

Definition setClusterStatus (c old : Cluster) : Cluster :=
  {| Cluster_TypeMeta := Cluster_TypeMeta old;
     Cluster_ObjectMeta := Cluster_ObjectMeta old;
     Cluster_Spec_ProviderConfig := Cluster_Spec_ProviderConfig old;
     Cluster_Status_ProviderStatus := Cluster_Status_ProviderStatus c |}.

Definition Clusters_UpdateStatus (ns : string) (c : Cluster) : M W unit :=
  let name := ObjectMeta_Name (Cluster_ObjectMeta c) in
  storeWrite (UpdateClusterStatus c) (fun st =>
    match updateObject Cluster_ObjectMeta ns name (setClusterStatus c) (Clusters st) with
    | Some l => inr {| Clusters := l; Machines := Machines st;
                       ProvisionedMachines := ProvisionedMachines st;
                       Secrets := Secrets st |}
    | None => inl (NotFound "clusters" name)
    end).

Definition setMachineStatus (m old : Machine) : Machine :=
  {| Machine_TypeMeta := Machine_TypeMeta old;
     Machine_ObjectMeta := Machine_ObjectMeta old;
     Machine_Spec_Roles := Machine_Spec_Roles old;
     Machine_Spec_ProviderConfig := Machine_Spec_ProviderConfig old;
     Machine_Status_ProviderStatus := Machine_Status_ProviderStatus m |}.

Definition Machines_UpdateStatus (ns : string) (m : Machine) : M W unit :=
  storeWrite (UpdateMachineStatus m) (fun st =>
    match updateObject Machine_ObjectMeta ns (Machine_Name m) (setMachineStatus m)
                       (Machines st) with
    | Some l => inr {| Clusters := Clusters st; Machines := l;
                       ProvisionedMachines := ProvisionedMachines st;
                       Secrets := Secrets st |}
    | None => inl (NotFound "machines" (Machine_Name m))
    end).

Definition Machines_Delete (ns name : string) : M W unit :=
  storeWrite (DeleteMachine name) (fun st =>
    match deleteObject Machine_ObjectMeta ns name (Machines st) with
    | Some l => inr {| Clusters := Clusters st; Machines := l;
                       ProvisionedMachines := ProvisionedMachines st;
                       Secrets := Secrets st |}
    | None => inl (NotFound "machines" name)
    end).

Definition ProvisionedMachines_Delete (ns name : string) : M W unit :=
  storeWrite (DeleteProvisionedMachine name) (fun st =>
    match deleteObject ProvisionedMachine_ObjectMeta ns name (ProvisionedMachines st) with
    | Some l => inr {| Clusters := Clusters st; Machines := Machines st;
                       ProvisionedMachines := l; Secrets := Secrets st |}
    | None => inl (NotFound "provisionedmachines" name)
    end).

(** *** The transport, the actuator and the local state *)

Definition RunCommand (c : Client) (cmd : string)
  : M W (string * string * option error) :=
  fun s =>
    let '((stdOut, stdErr, err), w) := transport_RunCommand env c cmd (world s) in
    (Ret (stdOut, stdErr, err), {| store := store s; world := w |},
     [RunCommandEv c cmd stdOut stdErr err]).

Definition effect (r : option error * W) (ev : option error -> Event) (s : State W)
  : outcome unit * State W * list Event :=
  (match r.1 with Some e => Err e | None => Ret tt end,
   {| store := store s; world := r.2 |}, [ev r.1]).

Definition ReadFile (c : Client) (path : string) : M W string :=
  fun s =>
    let '((data, err), w) := transport_ReadFile env c path (world s) in
    (match err with Some e => Err e | None => Ret data end,
     {| store := store s; world := w |}, [ReadFileEv c path err]).

Definition WriteFile (c : Client) (path : string) (mode : N) (data : string)
  : M W unit :=
  fun s => effect (transport_WriteFile env c path mode data (world s))
                  (WriteFileEv c path mode data) s.

Definition MkdirAll (c : Client) (path : string) (mode : N) : M W unit :=
  fun s => effect (transport_MkdirAll env c path mode (world s))
                  (MkdirAllEv c path mode) s.

Definition MoveFile (c : Client) (src dst : string) : M W unit :=
  fun s => effect (transport_MoveFile env c src dst (world s))
                  (MoveFileEv c src dst) s.

Definition PullFromAPIs : M W unit :=
  fun s => effect (state_PullFromAPIs env (store s) (world s)) PullFromAPIsEv s.

Definition actuate
    (call : bool -> Cluster -> Machine -> Store -> W ->
            (error + (Cluster * Machine)) * Store * W)
    (ev : Machine -> option error -> Event)
    (insecureIgnoreHostKey : bool) (cluster : Cluster) (machine : Machine)
  : M W (Cluster * Machine) :=
  fun s =>
    let '(r, st, w) := call insecureIgnoreHostKey cluster machine (store s) (world s) in
    match r with
    | inl e => (Err e, {| store := st; world := w |}, [ev machine (Some e)])
    | inr cm => (Ret cm, {| store := st; world := w |}, [ev machine None])
    end.

(** Reading the outside without changing it. *)
Definition ask {A} (f : W -> A) : M W A := fun s => (Ret (f (world s)), s, []).

Definition Println (line : string) : M W unit := Printf "%s" [AStr line].

(** *** machine.go *)

(** [sshMachineClientFromSSHConfig]: [sshConfig] is a pointer, first
    dereferenced for the name of the credential secret. *)
Definition sshMachineClientFromSSHConfig (sshConfig : option SSHConfig) : M W Client :=
  cfg ← deref sshConfig;
  let name := LocalObjectReference_Name (CredentialSecret cfg) in
  r ← try (Secrets_Get DefaultNamespace name);
  sshCredentialSecret ← match r with
    | inl err =>
      if IsNotFound err
      then throw (Errorf "unable to find SSH credential %q" [AStr name])
      else throw (Errorf "unable to get SSH credential secret: %v" [AErr err])
    | inr x => mret x
    end;
  '(username, privateKey) ←
    annotate (fun err => Errorf "unable to read SSH credential from secret: %v" [AErr err])
             (lift (UsernameAndKeyFromSecret env sshCredentialSecret));
  let insecureIgnoreHostKey := (length (PublicKeys cfg) =? 0)%nat in
  (if insecureIgnoreHostKey
   then Printf "Not able to verify machine SSH identity: No public keys given. Continuing..." []
   else mret tt);;
  let client := {| Client_host := Host cfg; Client_port := Port cfg;
                   Client_username := username; Client_privateKey := privateKey;
                   Client_publicKeys := PublicKeys cfg;
                   Client_insecureIgnoreHostKey := insecureIgnoreHostKey |} in
  lift (match NewClient env client with Some err => inl err | None => inr client end).

Definition newProvisionedMachineAndMachine (name : string) (role : MachineRole)
    (vipNetworkInterface : string) (sshConfig : SSHConfig)
  : M W (ProvisionedMachine * Machine) :=
  now1 ← ask (metav1_Now env);
  let newProvisionedMachine := {|
    ProvisionedMachine_TypeMeta :=
      {| Kind := "ProvisionedMachine";
         APIVersion := "sshprovider.platform9.com/v1alpha1" |};
    ProvisionedMachine_ObjectMeta :=
      {| ObjectMeta_Name := name; ObjectMeta_Namespace := DefaultNamespace;
         ObjectMeta_CreationTimestamp := now1 |};
    ProvisionedMachine_Spec_SSHConfig := Some sshConfig;
    ProvisionedMachine_Spec_VIPNetworkInterface := vipNetworkInterface |} in
  now2 ← ask (metav1_Now env);
  let newMachine := {|
    Machine_TypeMeta := {| Kind := "Machine"; APIVersion := "cluster.k8s.io/v1alpha1" |};
    Machine_ObjectMeta :=
      {| ObjectMeta_Name := name; ObjectMeta_Namespace := DefaultNamespace;
         ObjectMeta_CreationTimestamp := now2 |};
    Machine_Spec_Roles := [role];
    Machine_Spec_ProviderConfig := {| Value := None |};
    Machine_Status_ProviderStatus := None |} in
  let machineProviderSpec := {|
    SPMachineSpec_TypeMeta :=
      {| Kind := "MachineSpec"; APIVersion := "sshprovider.platform9.com/v1alpha1" |};
    ProvisionedMachineName := ProvisionedMachine_Name newProvisionedMachine;
    SPMachineSpec_Roles := [role] |} in
  newMachine ←
    annotate (fun err => Errorf "unable to encode machine provider spec: %v" [AErr err])
             (lift (PutMachineSpec env machineProviderSpec newMachine));
  let machineProviderStatus := {|
    SPMachineStatus_TypeMeta :=
      {| Kind := "MachineStatus"; APIVersion := "sshprovider.platform9.com/v1alpha1" |};
    SPMachineStatus_EtcdMember := None;
    SPMachineStatus_SSHConfig := None |} in
  newMachine ←
    annotate (fun err => Errorf "unable to encode machine provider status: %v" [AErr err])
             (lift (PutMachineStatus env machineProviderStatus newMachine));
  '(newMachine, newProvisionedMachine) ←
    annotate (fun err => Errorf
                "unable to create bi-directional bind between machine and provisioned machine: %v"
                [AErr err])
             (lift (BindMachineAndProvisionedMachine env newMachine newProvisionedMachine));
  mret (newProvisionedMachine, newMachine).

(** The first machine of the list with the Master role. *)
Definition masterMachineAndProvisionedMachine : M W (Machine * ProvisionedMachine) :=
  machineList ← annotate (fun err => Errorf "unable to list machines: %v" [AErr err])
                         (Machines_List DefaultNamespace);
  match List.find (fun machine => RoleContains MasterRole (Machine_Spec_Roles machine))
                  machineList with
  | None =>
    throw (Errorf "unable to find any machine with Master role, cannot obtain bootstrap token" [])
  | Some masterMachine =>
    masterMachineSpec ←
      annotate (fun err => Errorf "unable to decode machine spec: %v" [AErr err])
               (lift (GetMachineSpec env masterMachine));
    masterProvisionedMachine ←
      annotate (fun err => Errorf "unable to get provisioned machine: %v" [AErr err])
               (ProvisionedMachines_Get DefaultNamespace
                  (ProvisionedMachineName masterMachineSpec));
    mret (masterMachine, masterProvisionedMachine)
  end.

Definition bootstrapTokenSecretFromMachine (machine : Machine)
    (provisionedMachine : ProvisionedMachine) : M W Secret :=
  machineClient ←
    annotate (fun err => Errorf "unable to create machine client for machine %q: %v"
                                [AStr (Machine_Name machine); AErr err])
             (sshMachineClientFromSSHConfig (ProvisionedMachine_Spec_SSHConfig provisionedMachine));
  let cmd := "/opt/bin/kubeadm token create --print-join-command" in
  '(stdOut, stdErr, err) ← RunCommand machineClient cmd;
  match err with
  | Some err =>
    throw (Errorf "error running %q: %v (%s) (%s)"
                  [AStr cmd; AErr err; AStr stdOut; AStr stdErr])
  | None =>
    '(token, caHash) ←
      annotate (fun _ => Errorf "unable to parse bootstrap token from stdout of %q: %q"
                                [AStr cmd; AStr stdOut])
               (stop (tokenAndCAHashFromKubeadmJoinCommand stdOut));
    now ← ask (metav1_Now env);
    mret {| Secret_TypeMeta := {| Kind := "Secret"; APIVersion := "v1" |};
            Secret_ObjectMeta :=
              {| ObjectMeta_Name := DefaultBootstrapTokenSecretName;
                 ObjectMeta_Namespace := DefaultNamespace;
                 ObjectMeta_CreationTimestamp := now |};
            Secret_Data := {[ "token" := token; "cahash" := caHash ]} |}
  end.

Definition adminKubeconfigFromMachine (machine : Machine)
    (provisionedMachine : ProvisionedMachine) : M W string :=
  machineClient ←
    annotate (fun err => Errorf "unable to create machine client for machine %q: %v"
                                [AStr (Machine_Name machine); AErr err])
             (sshMachineClientFromSSHConfig (ProvisionedMachine_Spec_SSHConfig provisionedMachine));
  ReadFile machineClient "/etc/kubernetes/admin.conf".

(** File modes are octal in the source: 0600 is 384. *)
Definition writeAdminKubeconfigToMachine (kubeconfig : string) (machine : Machine)
    (provisionedMachine : ProvisionedMachine) : M W unit :=
  machineClient ←
    annotate (fun err => Errorf "unable to create machine client for machine %q: %v"
                                [AStr (Machine_Name machine); AErr err])
             (sshMachineClientFromSSHConfig (ProvisionedMachine_Spec_SSHConfig provisionedMachine));
  WriteFile machineClient "/etc/kubernetes/admin.conf" 384 kubeconfig.

(** The package variables set by the flags of [delete machine]. *)
Context (drainTimeout : Z) (drainGracePeriodSeconds : Z).

Definition drainAndDeleteNodeForMachine (targetMachine : Machine)
    (targetProvisionedMachine : ProvisionedMachine) : M W unit :=
  targetMachineClient ←
    annotate (fun err => Errorf "unable to create machine client for machine %q: %v"
                                [AStr (Machine_Name targetMachine); AErr err])
             (sshMachineClientFromSSHConfig
                (ProvisionedMachine_Spec_SSHConfig targetProvisionedMachine));
  '(stdOut, stdErr, err) ← RunCommand targetMachineClient
    "/opt/bin/kubectl --kubeconfig=/etc/kubernetes/admin.conf get node --selector kubernetes.io/hostname=$(hostname -f) -oname";
  match err with
  | Some err =>
    throw (Errorf "unable to identify the cluster node: %v (%s) (%s)"
                  [AErr err; AStr stdOut; AStr stdErr])
  | None =>
    let nodeName := strings_TrimSpace env stdOut in
    if negb (String.length nodeName =? 0)%nat then
      Printf "Draining cluster node %q for machine %q"
             [AStr nodeName; AStr (Machine_Name targetMachine)];;
      '(stdOut, stdErr, err) ← RunCommand targetMachineClient
        ("/opt/bin/kubectl --kubeconfig=/etc/kubernetes/admin.conf drain --timeout="
         +:+ fmt_Duration env drainTimeout +:+ " --grace-period="
         +:+ fmt_Int env drainGracePeriodSeconds +:+ " --ignore-daemonsets " +:+ nodeName);
      match err with
      | Some err =>
        throw (Errorf "unable to drain cluster node %q: %v (%s) (%s)"
                      [AStr nodeName; AErr err; AStr stdOut; AStr stdErr])
      | None =>
        Println stdOut;;
        Printf "Deleting cluster node %q for machine %q"
               [AStr nodeName; AStr (Machine_Name targetMachine)];;
        '(stdOut, stdErr, err) ← RunCommand targetMachineClient
          ("/opt/bin/kubectl --kubeconfig=/etc/kubernetes/admin.conf delete " +:+ nodeName);
        match err with
        | Some err =>
          throw (Errorf "unable to delete cluster node %q: %v (%s) (%s)"
                        [AStr nodeName; AErr err; AStr stdOut; AStr stdErr])
        | None => Println stdOut
        end
      end
    else mret tt
  end.

(** The two counters of [deleteMustNotOrphanNodes]: one step of the
    inner loop, the [switch] on the role. A counter is at most the
    number of roles listed, so the Go [int] does not wrap. *)
Definition countRole (counts : Z * Z) (role : MachineRole) : Z * Z :=
  let '(countMasters, countNodes) := counts in
  if String.eqb role MasterRole then (countMasters + 1, countNodes)%Z
  else if String.eqb role NodeRole then (countMasters, countNodes + 1)%Z
  else (countMasters, countNodes).

Definition countRoles (items : list Machine) : Z * Z :=
  foldl (fun counts machine => foldl countRole counts (Machine_Spec_Roles machine))
        (0, 0)%Z items.

(** The diagnostic of the check below: the WouldOrphanNodes error of
    the design document. *)
Definition WouldOrphanNodes (countNodes : Z) : error :=
  Errorf "Not deleting last master while %v nodes are in the cluster. Delete the nodes first."
         [AInt countNodes].

Definition deleteMustNotOrphanNodes (targetMachine : Machine) : M W unit :=
  if RoleContains MasterRole (Machine_Spec_Roles targetMachine) then
    machineList ← orFatalf (fun err => Errorf "Unable to list machines: %v" [AErr err])
                           (Machines_List DefaultNamespace);
    let '(countMasters, countNodes) := countRoles machineList in
    if (countMasters =? 1)%Z && (0 <? countNodes)%Z
    then stop (Exit (WouldOrphanNodes countNodes))
    else mret tt
  else mret tt.

(** The block [if machineStatus.EtcdMember != nil] of
    [machineCmdDelete]: the cluster status is updated only when the
    machine status carries a member. *)
Definition machineCmdDelete_updateClusterStatus (machineStatus : SPMachineStatus)
    (cluster : Cluster) : M W unit :=
  match SPMachineStatus_EtcdMember machineStatus with
  | Some etcdMember =>
    clusterStatus ← orFatalf (fun err => Errorf "Unable to get cluster status: %v" [AErr err])
                             (lift (GetClusterStatus env cluster));
    let etcdMemberSet := EtcdMemberSet.NewEtcdMemberSet (EtcdMembers clusterStatus) in
    let etcdMemberSet := EtcdMemberSet.Delete etcdMember etcdMemberSet in
    let clusterStatus := {| EtcdMembers := EtcdMemberSet.List etcdMemberSet |} in
    cluster ← orFatalf (fun err => Errorf "Unable to update cluster status: %v" [AErr err])
                       (lift (PutClusterStatus env clusterStatus cluster));
    orFatalf (fun err => Errorf "Unable to update cluster: %v" [AErr err])
             (Clusters_UpdateStatus DefaultNamespace cluster)
  | None => mret tt
  end.

(** The [Run] of [machineCmdDelete], given the value of the [ip]
    flag. *)
Definition machineCmdDelete (ip : string) : M W unit :=
  targetMachine ←
    orFatalf (fun err => Errorf "Unable to get machine %q: %v" [AStr ip; AErr err])
             (Machines_Get DefaultNamespace ip);
  targetMachineSpec ←
    orFatalf (fun err => Errorf "Unable to decode machine %q spec: %v"
                                [AStr (Machine_Name targetMachine); AErr err])
             (lift (GetMachineSpec env targetMachine));
  targetProvisionedMachine ←
    orFatalf (fun err => Errorf "Unable to get provisioned machine %q: %v"
                                [AStr (ProvisionedMachineName targetMachineSpec); AErr err])
             (ProvisionedMachines_Get DefaultNamespace
                (ProvisionedMachineName targetMachineSpec));
  cluster ← orFatalf (fun err => Errorf "Unable to get cluster: %v" [AErr err])
                     (Clusters_Get DefaultNamespace DefaultClusterName);
  deleteMustNotOrphanNodes targetMachine;;
  orFatalf (fun err => Errorf "Unable to drain and delete cluster node for machine %q: %v"
                              [AStr (Machine_Name targetMachine); AErr err])
           (drainAndDeleteNodeForMachine targetMachine targetProvisionedMachine);;
  sshConfig ← deref (ProvisionedMachine_Spec_SSHConfig targetProvisionedMachine);
  let insecureIgnoreHostKey := (length (PublicKeys sshConfig) =? 0)%nat in
  (if insecureIgnoreHostKey
   then Printf "Not able to verify machine SSH identity: No public keys given. Continuing..." []
   else mret tt);;
  Println "Deleting machine";;
  '(cluster, targetMachine) ←
    orFatalf (fun err => Errorf "Unable to delete machine: %v" [AErr err])
             (actuate (actuator_Delete env) ActuatorDeleteEv
                      insecureIgnoreHostKey cluster targetMachine);
  Println "Updating cluster status";;
  machineStatus ←
    orFatalf (fun err => Errorf "Unable to get machine %q status: %v"
                                [AStr (Machine_Name targetMachine); AErr err])
             (lift (GetMachineStatus env targetMachine));
  machineCmdDelete_updateClusterStatus machineStatus cluster;;
  orFatalf (fun err => Errorf "unable to delete machine %q: %v"
                              [AStr (Machine_Name targetMachine); AErr err])
           (Machines_Delete DefaultNamespace (Machine_Name targetMachine));;
  orFatalf (fun err => Errorf "unable to delete provisioned machine %q: %v"
                              [AStr (ProvisionedMachine_Name targetProvisionedMachine); AErr err])
           (ProvisionedMachines_Delete DefaultNamespace
              (ProvisionedMachine_Name targetProvisionedMachine));;
  orFatalf (fun err => Errorf "Unable to sync on-disk state: %v" [AErr err]) PullFromAPIs;;
  Println "Machine deleted successfully.".

(** The block [if machineStatus.EtcdMember != nil] of
    [machineCmdCreate]: the cluster status is updated only when the
    machine status carries a member. *)
Definition machineCmdCreate_updateClusterStatus (machineStatus : SPMachineStatus)
    (cluster : Cluster) : M W unit :=
  match SPMachineStatus_EtcdMember machineStatus with
  | Some etcdMember =>
    clusterStatus ← orFatalf (fun err => Errorf "Unable to get cluster status: %v" [AErr err])
                             (lift (GetClusterStatus env cluster));
    let etcdMemberSet := EtcdMemberSet.NewEtcdMemberSet (EtcdMembers clusterStatus) in
    let etcdMemberSet := EtcdMemberSet.Insert etcdMember etcdMemberSet in
    let clusterStatus := {| EtcdMembers := EtcdMemberSet.List etcdMemberSet |} in
    cluster ← orFatalf (fun err => Errorf "Unable to update cluster status: %v" [AErr err])
                       (lift (PutClusterStatus env clusterStatus cluster));
    orFatalf (fun err => Errorf "Unable to update cluster: %v" [AErr err])
             (Clusters_UpdateStatus DefaultNamespace cluster)
  | None => mret tt
  end.

(** The loop of [machineCmdCreate] over the public key files. *)
Fixpoint publicKeysLoop (files publicKeys : list string) : M W (list string) :=
  match files with
  | [] => mret publicKeys
  | file :: files' =>
    publicKey ←
      orFatalf (fun err => Errorf "Unable to parse SSH public key from %q: %v"
                                  [AStr file; AErr err])
               (r ← ask (sshutil_PublicKeyFromFile env file); lift r);
    publicKeysLoop files' (publicKeys ++ [ssh_MarshalAuthorizedKey env publicKey])
  end.

(** The [Run] of [machineCmdCreate], given the values of its flags.
    The [err] of [newProvisionedMachineAndMachine] is assigned and not
    tested: on an error both pointers are nil and the run goes on. *)
Definition machineCmdCreate (ipFlag ifaceFlag roleFlag portFlag publicKeysFlag : string)
  : M W unit :=
  let ip := ipFlag in
  let iface := ifaceFlag in
  let role : MachineRole := strings_Title env roleFlag in
  (if negb (String.eqb role MasterRole) && negb (String.eqb role NodeRole)
   then Fatalf "Machine role %q is not supported, must be %q or %q."
               [AStr role; AStr MasterRole; AStr NodeRole]
   else mret tt);;
  port ← orFatalf (fun err => Errorf "Invalid port %v" [AErr err])
                  (lift (strconv_Atoi env portFlag));
  let publicKeyFiles := publicKeysFlag in
  publicKeys ← publicKeysLoop (GoStrings.Split publicKeyFiles ",") [];
  r ← try (Clusters_Get DefaultNamespace DefaultClusterName);
  cluster ← match r with
    | inl err =>
      if IsNotFound err
      then Fatalf "No cluster found. Create a cluster before creating a machine." []
      else Fatalf "Unable to get cluster: %v" [AErr err]
    | inr c => mret c
    end;
  r ← try (Secrets_Get DefaultNamespace DefaultSSHCredentialSecretName);
  sshCredentialSecret ← match r with
    | inl err =>
      if IsNotFound err
      then Fatalf "No SSH credential found. Create a credential before creating a machine." []
      else Fatalf "Unable to get SSH credential secret: %v" [AErr err]
    | inr x => mret x
    end;
  let newSSHConfig := {|
    Host := ip; Port := port; PublicKeys := publicKeys;
    CredentialSecret := {| LocalObjectReference_Name := Secret_Name sshCredentialSecret |} |} in
  r ← try (newProvisionedMachineAndMachine ip role iface newSSHConfig);
  let '(newProvisionedMachine, newMachine) :=
    match r with
    | inl _ => (None, None)
    | inr (p, m) => (Some p, Some m)
    end in
  orFatalf (fun err => Errorf "Unable to create provisioned machine: %v" [AErr err])
           (ProvisionedMachines_Create DefaultNamespace newProvisionedMachine);;
  orFatalf (fun err => Errorf "Unable to create machine: %v" [AErr err])
           (Machines_Create DefaultNamespace newMachine);;
  newMachine ← deref newMachine;
  let isNode := RoleContains NodeRole (Machine_Spec_Roles newMachine) in
  master ←
    (if isNode
     then mp ← orFatalf (fun err => Errorf
                           "Unable to get a master machine and provisioned machine: %v"
                           [AErr err])
                        masterMachineAndProvisionedMachine;
          mret (Some mp)
     else mret None);
  (if isNode then
     Println "Getting a bootstrap token from a master";;
     '(masterMachine, masterProvisionedMachine) ← deref master;
     newBootstrapTokenSecret ←
       orFatalf (fun err => Errorf "Unable to read bootstrap token from master: %v" [AErr err])
                (bootstrapTokenSecretFromMachine masterMachine masterProvisionedMachine);
     r ← try (Secrets_Get DefaultNamespace DefaultBootstrapTokenSecretName);
     match r with
     | inl err =>
       if negb (IsNotFound err)
       then Fatalf "Unable to get bootstrap token secret: %v" [AErr err]
       else orFatalf (fun err => Errorf "Unable to create bootstrap token secret: %v" [AErr err])
                     (Secrets_Create DefaultNamespace newBootstrapTokenSecret)
     | inr _ =>
       orFatalf (fun err => Errorf "Unable to update bootstrap token secret: %v" [AErr err])
                (Secrets_Update DefaultNamespace newBootstrapTokenSecret)
     end
   else mret tt);;
  let insecureIgnoreHostKey := (length publicKeys =? 0)%nat in
  (if insecureIgnoreHostKey
   then Printf "Not able to verify machine SSH identity: No public keys given. Continuing..." []
   else mret tt);;
  '(cluster, newMachine) ←
    orFatalf (fun err => Errorf "Unable to create machine: %v" [AErr err])
             (actuate (actuator_Create env) ActuatorCreateEv
                      insecureIgnoreHostKey cluster newMachine);
  (if RoleContains NodeRole (Machine_Spec_Roles newMachine) then
     Println "Writing admin kubeconfig to machine";;
     '(masterMachine, masterProvisionedMachine) ← deref master;
     kubeconfig ←
       orFatalf (fun err => Errorf "Unable to get admin kubeconfig from master: %v" [AErr err])
                (adminKubeconfigFromMachine masterMachine masterProvisionedMachine);
     newProvisionedMachine ← deref newProvisionedMachine;
     orFatalf (fun err => Errorf "Unable to write admin kubeconfig to machine: %v" [AErr err])
              (writeAdminKubeconfigToMachine kubeconfig newMachine newProvisionedMachine)
   else mret tt);;
  Println "Updating cluster status";;
  machineStatus ←
    orFatalf (fun err => Errorf "Unable to get machine %q status: %v"
                                [AStr (Machine_Name newMachine); AErr err])
             (lift (GetMachineStatus env newMachine));
  machineCmdCreate_updateClusterStatus machineStatus cluster;;
  orFatalf (fun err => Errorf "Unable to sync on-disk state: %v" [AErr err]) PullFromAPIs;;
  Println "Machine created successfully.".

(** *** The etcd recovery command *)

Definition etcdadm : string := "/opt/bin/etcdadm".

Definition commandError (cmd stdOut stdErr : string) (err : error) : error :=
  Errorf "error running %q: %v (stdout: %q, stderr: %q)"
         [AStr cmd; AErr err; AStr stdOut; AStr stdErr].

(** The shape shared by the functions that run one remote command and
    return only its error. *)
Definition runChecked (client : Client) (cmd : string) : M W string :=
  '(stdOut, stdErr, err) ← RunCommand client cmd;
  match err with
  | Some err => throw (commandError cmd stdOut stdErr err)
  | None => mret stdOut
  end.

Definition resetEtcdSkipRemoveMember (client : Client) : M W unit :=
  let cmd := etcdadm +:+ " reset --skip-remove-member" in
  runChecked client cmd;; mret tt.

Definition writeEtcdSnapshot (localPath remotePath : string) (client : Client)
  : M W unit :=
  b ← annotate (fun err => Errorf "unable to read etcd snapshot %q: %v"
                                  [AStr localPath; AErr err])
               (r ← ask (ioutil_ReadFile env localPath); lift r);
  WriteFile client remotePath 384 b.

Definition etcdadmInitFromSnapshot (remotePath : string) (client : Client) : M W unit :=
  let cmd := etcdadm +:+ " init --snapshot " +:+ remotePath in
  runChecked client cmd;; mret tt.

Definition etcdadmJoin (endpoint : string) (client : Client) : M W unit :=
  let cmd := etcdadm +:+ " join " +:+ endpoint in
  runChecked client cmd;; mret tt.

(** File modes: 0755 is 493, 0644 is 420, 0600 is 384. The secret is
    a pointer. *)
Definition writeSecretToMachine (machineClient : Client) (secret : option Secret)
    (certKey keyKey certPath keyPath : string) : M W unit :=
  secret ← deref secret;
  match Secret_Data secret !! certKey with
  | None => throw (Errorf "did not find key %q in secret %q"
                          [AStr certKey; AStr (Secret_Name secret)])
  | Some cert =>
    match Secret_Data secret !! keyKey with
    | None => throw (Errorf "did not find key %q in secret %q"
                            [AStr keyKey; AStr (Secret_Name secret)])
    | Some key =>
      let certDir := filepath_Dir env certPath in
      annotate (fun err => Errorf "unable to create cert dir %q on machine: %v"
                                  [AStr certDir; AErr err])
               (MkdirAll machineClient certDir 493);;
      let keyDir := filepath_Dir env keyPath in
      annotate (fun err => Errorf "unable to create key dir %q on machine: %v"
                                  [AStr keyDir; AErr err])
               (MkdirAll machineClient keyDir 493);;
      let tmpCertPath := "/tmp/" +:+ certKey in
      let tmpKeyPath := "/tmp/" +:+ keyKey in
      annotate (fun err => Errorf "unable to write cert to %q on machine: %v"
                                  [AStr tmpCertPath; AErr err])
               (WriteFile machineClient tmpCertPath 420 cert);;
      annotate (fun err => Errorf "unable to write key to %q on machine: %v"
                                  [AStr tmpKeyPath; AErr err])
               (WriteFile machineClient tmpKeyPath 384 key);;
      MoveFile machineClient tmpCertPath certPath;;
      MoveFile machineClient tmpKeyPath keyPath
    end
  end.

Definition etcdMemberFromMachine (machineClient : Client) : M W EtcdMember :=
  let cmd := etcdadm +:+ " info" in
  stdOut ← runChecked machineClient cmd;
  annotate (fun err => Errorf "error unmarshalling etcdadm info output: %v" [AErr err])
           (lift (json_Unmarshal_EtcdMember env stdOut)).

Definition restartKubelet (client : Client) : M W unit :=
  let cmd := "systemctl restart kubelet" in
  runChecked client cmd;; mret tt.

Definition setEtcdMember (etcdMember : EtcdMember) (machineStatus : SPMachineStatus)
  : SPMachineStatus :=
  {| SPMachineStatus_TypeMeta := SPMachineStatus_TypeMeta machineStatus;
     SPMachineStatus_EtcdMember := Some etcdMember;
     SPMachineStatus_SSHConfig := SPMachineStatus_SSHConfig machineStatus |}.

(** The three functions below change the object behind their pointer
    argument; they return it as changed. *)
Definition updateMachineEtcdMember (etcdMember : EtcdMember) (machine : Machine)
  : M W Machine :=
  machineStatus ← annotate (fun err => Errorf "unable to decode machine status: %v" [AErr err])
                           (lift (GetMachineStatus env machine));
  let machineStatus := setEtcdMember etcdMember machineStatus in
  machine ← annotate (fun err => Errorf "unable to encode machine status: %v" [AErr err])
                     (lift (PutMachineStatus env machineStatus machine));
  annotate (fun err => Errorf "error updating machine %q: %v"
                              [AStr (Machine_Name machine); AErr err])
           (Machines_UpdateStatus (Machine_Namespace machine) machine);;
  mret machine.

Definition insertClusterEtcdMember (etcdMember : EtcdMember) (cluster : Cluster)
  : M W Cluster :=
  clusterStatus ← annotate (fun err => Errorf "unable to decode cluster status: %v" [AErr err])
                           (lift (GetClusterStatus env cluster));
  let etcdMemberSet := EtcdMemberSet.NewEtcdMemberSet (EtcdMembers clusterStatus) in
  let etcdMemberSet := EtcdMemberSet.Insert etcdMember etcdMemberSet in
  let clusterStatus := {| EtcdMembers := EtcdMemberSet.List etcdMemberSet |} in
  cluster ← annotate (fun err => Errorf "unable to encode cluster status: %v" [AErr err])
                     (lift (PutClusterStatus env clusterStatus cluster));
  annotate (fun err => Errorf "unable to update cluster: %v" [AErr err])
           (Clusters_UpdateStatus DefaultNamespace cluster);;
  mret cluster.

Definition removeClusterEtcdMember (etcdMember : EtcdMember) (cluster : Cluster)
  : M W Cluster :=
  clusterStatus ← annotate (fun err => Errorf "unable to decode cluster status: %v" [AErr err])
                           (lift (GetClusterStatus env cluster));
  let etcdMemberSet := EtcdMemberSet.NewEtcdMemberSet (EtcdMembers clusterStatus) in
  let etcdMemberSet := EtcdMemberSet.Delete etcdMember etcdMemberSet in
  let clusterStatus := {| EtcdMembers := EtcdMemberSet.List etcdMemberSet |} in
  cluster ← annotate (fun err => Errorf "unable to encode cluster status: %v" [AErr err])
                     (lift (PutClusterStatus env clusterStatus cluster));
  annotate (fun err => Errorf "unable to update cluster: %v" [AErr err])
           (Clusters_UpdateStatus DefaultNamespace cluster);;
  mret cluster.

(** The loops of [recoverEtcd], in the order of the source. *)

(** [for i, master := range masters]: a session for every master. *)
Fixpoint mastersWithClientLoop (masters : list Machine)
  : M W (list mastersWithClientEntry) :=
  match masters with
  | [] => mret []
  | master :: masters' =>
    machineStatus ←
      annotate (fun err => Errorf "unable to decode machine %q spec: %v"
                                  [AStr (Machine_Name master); AErr err])
               (lift (GetMachineStatus env master));
    client ←
      annotate (fun err => Errorf "unable to create machine client for machine %q: %v"
                                  [AStr (Machine_Name master); AErr err])
               (sshMachineClientFromSSHConfig (SPMachineStatus_SSHConfig machineStatus));
    mastersWithClient ← mastersWithClientLoop masters';
    mret ({| MWC_Machine := master; MWC_Client := client |} :: mastersWithClient)
  end.

(** "Reset all masters": [*machineStatus.EtcdMember] dereferences the
    pointer without a nil test. *)
Fixpoint resetLoop (mastersWithClient : list mastersWithClientEntry) (cluster : Cluster)
  : M W Cluster :=
  match mastersWithClient with
  | [] => mret cluster
  | mwc :: rest =>
    annotate (fun err => Errorf "unable to reset etcd on machine %q: %v"
                                [AStr (Machine_Name (MWC_Machine mwc)); AErr err])
             (resetEtcdSkipRemoveMember (MWC_Client mwc));;
    machineStatus ←
      annotate (fun err => Errorf "unable to decode machine status: %v" [AErr err])
               (lift (GetMachineStatus env (MWC_Machine mwc)));
    etcdMember ← deref (SPMachineStatus_EtcdMember machineStatus);
    cluster ←
      annotate (fun err => Errorf
                  "unable to remove etcd member information for machine %q from cluster status: %v"
                  [AStr (Machine_Name (MWC_Machine mwc)); AErr err])
               (removeClusterEtcdMember etcdMember cluster);
    resetLoop rest cluster
  end.

(** "Write etcd CA to all masters". *)
Fixpoint writeCALoop (mastersWithClient : list mastersWithClientEntry)
    (etcdCASecret : option Secret) : M W unit :=
  match mastersWithClient with
  | [] => mret tt
  | mwc :: rest =>
    annotate (fun err => Errorf "unable to write etcd CA cert and key to machine %q: %v"
                                [AStr (Machine_Name (MWC_Machine mwc)); AErr err])
             (writeSecretToMachine (MWC_Client mwc) etcdCASecret "tls.crt" "tls.key"
                                   "/etc/etcd/pki/ca.crt" "/etc/etcd/pki/ca.key");;
    writeCALoop rest etcdCASecret
  end.

(** "Recover the first master": the snapshot goes to the first master,
    which is initialized from it; its member is read back, recorded on
    the machine and inserted in the cluster status. *)
Definition recoverFirstMaster (localPath remotePath : string)
    (firstMWC : mastersWithClientEntry) (cluster : Cluster)
  : M W (EtcdMember * Cluster) :=
  let name := Machine_Name (MWC_Machine firstMWC) in
  Printf "[recover etcd] Initializing new etcd cluster from snapshot on master %q"
         [AStr name];;
  annotate (fun err => Errorf "unable to write etcd snapshot to machine %q: %v"
                              [AStr name; AErr err])
           (writeEtcdSnapshot localPath remotePath (MWC_Client firstMWC));;
  annotate (fun err => Errorf "error running etcdadm init on machine %q: %v"
                              [AStr name; AErr err])
           (etcdadmInitFromSnapshot remotePath (MWC_Client firstMWC));;
  firstEtcdMember ←
    annotate (fun err => Errorf "error reading etcd member data from machine %q: %v"
                                [AStr name; AErr err])
             (etcdMemberFromMachine (MWC_Client firstMWC));
  annotate (fun err => Errorf "unable to update machine %q status with etcd member %q: %v"
                              [AStr name; AEtcdMember firstEtcdMember; AErr err])
           (updateMachineEtcdMember firstEtcdMember (MWC_Machine firstMWC));;
  cluster ←
    annotate (fun err => Errorf "unable to update cluster status with etcd member %q: %v"
                                [AEtcdMember firstEtcdMember; AErr err])
             (insertClusterEtcdMember firstEtcdMember cluster);
  mret (firstEtcdMember, cluster).

(** "Recover the other masters". *)
Fixpoint joinLoop (endpoint : string) (otherMWCs : list mastersWithClientEntry)
    (cluster : Cluster) : M W Cluster :=
  match otherMWCs with
  | [] => mret cluster
  | mwc :: rest =>
    let name := Machine_Name (MWC_Machine mwc) in
    Printf "[recover etcd] Joining master %q to new etcd cluster" [AStr name];;
    annotate (fun err => Errorf "error running etcdadm join on machine %q: %v"
                                [AStr name; AErr err])
             (etcdadmJoin endpoint (MWC_Client mwc));;
    etcdMember ←
      annotate (fun err => Errorf "error reading etcd member data from machine %q: %v"
                                  [AStr name; AErr err])
               (etcdMemberFromMachine (MWC_Client mwc));
    annotate (fun err => Errorf "unable to update machine %q status with etcd member %q: %v"
                                [AStr name; AEtcdMember etcdMember; AErr err])
             (updateMachineEtcdMember etcdMember (MWC_Machine mwc));;
    cluster ←
      annotate (fun err => Errorf "unable to update cluster status with etcd member %q: %v"
                                  [AEtcdMember etcdMember; AErr err])
               (insertClusterEtcdMember etcdMember cluster);
    joinLoop endpoint rest cluster
  end.

(** The last loop: a failed restart is logged and the loop goes on. *)
Fixpoint restartLoop (mastersWithClient : list mastersWithClientEntry) : M W unit :=
  match mastersWithClient with
  | [] => mret tt
  | mwc :: rest =>
    let name := Machine_Name (MWC_Machine mwc) in
    Printf "[recover etcd] Restarting kubelet on master %q to trigger immediate API server restart"
           [AStr name];;
    r ← try (restartKubelet (MWC_Client mwc));
    match r with
    | inl err => Printf "Warning: Unable to restart kubelet on machine %q: %v"
                        [AStr name; AErr err]
    | inr _ => mret tt
    end;;
    restartLoop rest
  end.

Definition recoverEtcd (localPath remotePath : string) (etcdCASecret : option Secret)
    (cluster : Cluster) (masters : list Machine) : M W unit :=
  if (length masters =? 0)%nat then mret tt
  else
    mastersWithClient ← mastersWithClientLoop masters;
    Println "[recover etcd] Cleaning up degraded etcd cluster on all masters";;
    cluster ← resetLoop mastersWithClient cluster;
    Println "[recover etcd] Writing etcd CA to all masters";;
    writeCALoop mastersWithClient etcdCASecret;;
    match mastersWithClient with
    | [] => panic
    | firstMWC :: otherMWCs =>
      '(firstEtcdMember, cluster) ← recoverFirstMaster localPath remotePath firstMWC cluster;
      match ClientURLs firstEtcdMember with
      | [] =>
        throw (Errorf "unable to proceed: etcd member for machine %q has no client URLs"
                      [AStr (Machine_Name (MWC_Machine firstMWC))])
      | endpoint :: _ =>
        joinLoop endpoint otherMWCs cluster;;
        restartLoop mastersWithClient;;
        mret tt
      end
    end.

(** The masters of [recoverEtcdCmd]: a machine is appended once for
    every Master entry of its roles. *)
Fixpoint mastersOfRoles (machine : Machine) (roles : list MachineRole)
    (masters : list Machine) : M W (list Machine) :=
  match roles with
  | [] => mret masters
  | role :: roles' =>
    if String.eqb role MasterRole then
      Printf "[recover etcd] Found master %q" [AStr (Machine_Name machine)];;
      mastersOfRoles machine roles' (masters ++ [machine])
    else mastersOfRoles machine roles' masters
  end.

Fixpoint mastersOfItems (items : list Machine) (masters : list Machine)
  : M W (list Machine) :=
  match items with
  | [] => mret masters
  | machine :: items' =>
    masters ← mastersOfRoles machine (Machine_Spec_Roles machine) masters;
    mastersOfItems items' masters
  end.

(** The [Run] of [recoverEtcdCmd], given the value of the [snapshot]
    flag. An error of the CA secret lookup other than "not found" is
    not tested and leaves the pointer nil. *)
Definition recoverEtcdCmd (localPath : string) : M W unit :=
  let remotePath := EtcdSnapshotRemotePath in
  r ← try (Clusters_Get DefaultNamespace DefaultClusterName);
  cluster ← match r with
    | inl err =>
      if IsNotFound err
      then Fatalf "No cluster found. Create a cluster before creating a machine." []
      else Fatalf "Unable to get cluster: %v" [AErr err]
    | inr c => mret c
    end;
  clusterProviderSpec ←
    orFatalf (fun err => Errorf "Unable to decode cluster spec: %v" [AErr err])
             (lift (GetClusterSpec env cluster));
  r ← try (Secrets_Get DefaultNamespace
             (LocalObjectReference_Name (EtcdCASecret clusterProviderSpec)));
  etcdCASecret ← match r with
    | inl err =>
      if IsNotFound err
      then Fatalf "Unable to get etcd CA secret: %v" [AErr err]
      else mret None
    | inr x => mret (Some x)
    end;
  machineList ← orFatalf (fun err => Errorf "Unable to list machines: %v" [AErr err])
                         (Machines_List DefaultNamespace);
  masters ← mastersOfItems machineList [];
  orFatalf (fun err => Errorf "Unable to recover etcd: %v" [AErr err])
           (recoverEtcd localPath remotePath etcdCASecret cluster masters);;
  orFatalf (fun err => Errorf "Unable to sync on-disk state: %v" [AErr err]) PullFromAPIs;;
  Println "Recovered etcd successfully.".
End Commands.

(** ** Views used to state the properties *)

(** How often a role is listed among the roles of the machines of a
    list. *)
Definition roleEntries (role : MachineRole) (items : list Machine) : Z :=
  Z.of_nat (length (List.filter (String.eqb role)
                                (concat (Machine_Spec_Roles <$> items)))).

(** The machines of a list that hold a role. *)
Definition machinesWithRole (role : MachineRole) (items : list Machine) : list Machine :=
  List.filter (fun m => RoleContains role (Machine_Spec_Roles m)) items.

(** The remote commands of the recovery. *)
Definition resetCommand : string := etcdadm +:+ " reset --skip-remove-member".
Definition initCommand (remotePath : string) : string :=
  etcdadm +:+ " init --snapshot " +:+ remotePath.
Definition joinCommand (endpoint : string) : string := etcdadm +:+ " join " +:+ endpoint.
Definition infoCommand : string := etcdadm +:+ " info".
Definition restartCommand : string := "systemctl restart kubelet".

(** [p] is a prefix of [s]. *)
Fixpoint hasPrefix (p s : string) : bool :=
  match p, s with
  | EmptyString, _ => true
  | String a p', String b s' => Ascii.eqb a b && hasPrefix p' s'
  | String _ _, EmptyString => false
  end.

(** What an event of a recovery run is. *)
Inductive EventKind :=
| KLog | KReset | KInit | KJoin | KInfo | KRestart | KCommand | KFile | KStore | KOther.

#[global] Instance EventKind_eq_dec : EqDecision EventKind.
Proof. solve_decision. Defined.

Definition commandKind (cmd : string) : EventKind :=
  if String.eqb cmd resetCommand then KReset
  else if hasPrefix (etcdadm +:+ " init --snapshot ") cmd then KInit
  else if hasPrefix (etcdadm +:+ " join ") cmd then KJoin
  else if String.eqb cmd infoCommand then KInfo
  else if String.eqb cmd restartCommand then KRestart
  else KCommand.

Definition kindOf (ev : Event) : EventKind :=
  match ev with
  | RunCommandEv _ cmd _ _ _ => commandKind cmd
  | WriteFileEv _ _ _ _ _ | MkdirAllEv _ _ _ _ | MoveFileEv _ _ _ _ => KFile
  | StoreEv _ _ => KStore
  | LogEv _ _ => KLog
  | _ => KOther
  end.

(** Bootstrapping the new etcd cluster: the seed initialization and the
    joins. *)
Definition isBootstrap (ev : Event) : Prop :=
  kindOf ev = KInit \/ kindOf ev = KJoin.

(** The commands of a kind in a trace, each with the client it ran on. *)
Definition commandsOf (k : EventKind) (tr : list Event) : list (Client * string) :=
  omap (fun ev => match ev with
                  | RunCommandEv c cmd _ _ _ =>
                    if decide (commandKind cmd = k) then Some (c, cmd) else None
                  | _ => None
                  end) tr.

(** The outputs of the [etcdadm info] commands that succeeded. *)
Definition infoOutputs (tr : list Event) : list (Client * string) :=
  omap (fun ev => match ev with
                  | RunCommandEv c cmd stdOut _ None =>
                    if decide (commandKind cmd = KInfo) then Some (c, stdOut) else None
                  | _ => None
                  end) tr.

(** All events of a computation satisfy [P], however it ends. *)
Definition emits {W A : Type} (P : Event -> Prop) (m : M W A) : Prop :=
  forall s o s' tr, m s = (o, s', tr) -> Forall P tr.

(** The store after the status update of a cluster that succeeded:
    the stored cluster of that name carries the status of [cluster]. *)
Definition statusUpdated (cluster : Cluster) (st st' : Store) : Prop :=
  exists l,
    updateObject Cluster_ObjectMeta DefaultNamespace
                 (ObjectMeta_Name (Cluster_ObjectMeta cluster))
                 (setClusterStatus cluster) (Clusters st) = Some l
    /\ st' = {| Clusters := l; Machines := Machines st;
                ProvisionedMachines := ProvisionedMachines st;
                Secrets := Secrets st |}.

(** The loop "Reset all masters" when it completes, from a cluster
    object and a store to the cluster object and the store it leaves,
    with its events: for every master in order, its reset command
    succeeded; then the status of the cluster object was decoded, the
    member of the master was taken out of the set of its members (the
    records that remain are those of the set under another id), and
    the status with the remaining records was encoded into the cluster
    object and persisted by a status update that succeeded. The next
    master starts from that cluster object and that store. *)
Inductive resetTrace {W : Type} (env : Collaborators W)
  : list mastersWithClientEntry -> Cluster -> Store -> Cluster -> Store
    -> list Event -> Prop :=
| resetTrace_nil cluster st : resetTrace env [] cluster st cluster st []
| resetTrace_cons mwc rest tr stdOut stdErr machineStatus etcdMember
                  clusterStatus remaining cluster st cluster1 st1 cluster' st' :
    GetMachineStatus env (MWC_Machine mwc) = inr machineStatus ->
    SPMachineStatus_EtcdMember machineStatus = Some etcdMember ->
    GetClusterStatus env cluster = inr clusterStatus ->
    remaining =
      EtcdMemberSet.List
        (EtcdMemberSet.Delete etcdMember
           (EtcdMemberSet.NewEtcdMemberSet (EtcdMembers clusterStatus))) ->
    (forall r, r ∈ remaining <->
               r ∈ EtcdMemberSet.List
                     (EtcdMemberSet.NewEtcdMemberSet (EtcdMembers clusterStatus))
               /\ ID r <> ID etcdMember) ->
    PutClusterStatus env {| EtcdMembers := remaining |} cluster = inr cluster1 ->
    statusUpdated cluster1 st st1 ->
    resetTrace env rest cluster1 st1 cluster' st' tr ->
    resetTrace env (mwc :: rest) cluster st cluster' st'
      (RunCommandEv (MWC_Client mwc) resetCommand stdOut stdErr None
       :: StoreEv (UpdateClusterStatus cluster1) None :: tr).

(** The payload helpers round-trip the status of a cluster: a cluster
    object that [PutClusterStatus] returned decodes to the status that
    was put. *)
Definition statusRoundTrip {W : Type} (env : Collaborators W) : Prop :=
  forall clusterStatus cluster cluster',
    PutClusterStatus env clusterStatus cluster = inr cluster' ->
    GetClusterStatus env cluster' = inr clusterStatus.

(** The status of a cluster object decodes, and holds no record with
    the id of the member of a master. *)
Definition memberAbsent {W : Type} (env : Collaborators W) (cluster : Cluster)
    (mwc : mastersWithClientEntry) : Prop :=
  exists machineStatus etcdMember clusterStatus,
    GetMachineStatus env (MWC_Machine mwc) = inr machineStatus
    /\ SPMachineStatus_EtcdMember machineStatus = Some etcdMember
    /\ GetClusterStatus env cluster = inr clusterStatus
    /\ forall r, r ∈ EtcdMembers clusterStatus -> ID r <> ID etcdMember.

(** The kind of an event is one of [ks]. *)
Definition hasKind (ks : list EventKind) (ev : Event) : Prop :=
  existsb (fun k => bool_decide (kindOf ev = k)) ks = true.

(** ** A small deployment

    Collaborators over an outside without state, for concrete runs: the
    machine status payload says whether the machine carries an etcd
    member; the remote commands print nothing; [bindFails] makes the
    bidirectional bind fail, [restartFails] makes the kubelet restart
    fail, and [seedURLs] are the client URLs every member reports. *)
Module Example.

Definition sshConfig : SSHConfig :=
  {| Host := "10.0.0.1"; Port := 22; PublicKeys := ["ssh-ed25519 AAAA"];
     CredentialSecret := {| LocalObjectReference_Name := "sshCredential" |} |}.

Definition member (id : N) (urls : list string) : EtcdMember :=
  {| ID := id; Name := "member"; PeerURLs := []; ClientURLs := urls |}.

Definition providerTypeMeta (kind : string) : TypeMeta :=
  {| Kind := kind; APIVersion := "sshprovider.platform9.com/v1alpha1" |}.

Definition rawOf (p : option RawExtension) : string :=
  match p with Some r => Raw r | None => "" end.

Definition getMachineStatus (m : Machine) : error + SPMachineStatus :=
  let raw := rawOf (Machine_Status_ProviderStatus m) in
  if String.eqb raw "member" then
    inr {| SPMachineStatus_TypeMeta := providerTypeMeta "MachineStatus";
           SPMachineStatus_EtcdMember := Some (member 1 ["https://10.0.0.1:2379"]);
           SPMachineStatus_SSHConfig := Some sshConfig |}
  else if String.eqb raw "nomember" then
    inr {| SPMachineStatus_TypeMeta := providerTypeMeta "MachineStatus";
           SPMachineStatus_EtcdMember := None;
           SPMachineStatus_SSHConfig := Some sshConfig |}
  else inl (Errorf "cannot decode %q" [AStr raw]).

Definition putMachineStatus (st : SPMachineStatus) (m : Machine) : error + Machine :=
  inr {| Machine_TypeMeta := Machine_TypeMeta m;
         Machine_ObjectMeta := Machine_ObjectMeta m;
         Machine_Spec_Roles := Machine_Spec_Roles m;
         Machine_Spec_ProviderConfig := Machine_Spec_ProviderConfig m;
         Machine_Status_ProviderStatus :=
           Some {| Raw := match SPMachineStatus_EtcdMember st with
                          | Some _ => "member"
                          | None => "nomember"
                          end |} |}.

Definition collaborators (bindFails restartFails : bool) (seedURLs : list string)
  : Collaborators unit :=
  {| GetMachineSpec := fun m =>
       inr {| SPMachineSpec_TypeMeta := providerTypeMeta "MachineSpec";
              ProvisionedMachineName := Machine_Name m;
              SPMachineSpec_Roles := Machine_Spec_Roles m |};
     PutMachineSpec := fun _ m => inr m;
     GetMachineStatus := getMachineStatus;
     PutMachineStatus := putMachineStatus;
     GetClusterSpec := fun _ =>
       inr {| EtcdCASecret := {| LocalObjectReference_Name := "etcd-ca" |} |};
     GetClusterStatus := fun _ => inr {| EtcdMembers := [] |};
     PutClusterStatus := fun _ c => inr c;
     BindMachineAndProvisionedMachine := fun m p =>
       if bindFails then inl (Errorf "encoding failed: %v" [AStr "no serializer"])
       else inr (m, p);
     UsernameAndKeyFromSecret := fun _ => inr ("root", "private key");
     NewClient := fun _ => None;
     transport_RunCommand := fun _ cmd w =>
       if restartFails && String.eqb cmd restartCommand
       then (("", "", Some (Errorf "exit status 1" [])), w)
       else (("", "", None), w);
     transport_ReadFile := fun _ _ w => (("", None), w);
     transport_WriteFile := fun _ _ _ _ w => (None, w);
     transport_MkdirAll := fun _ _ _ w => (None, w);
     transport_MoveFile := fun _ _ _ w => (None, w);
     actuator_Create := fun _ c m st w => (inr (c, m), st, w);
     actuator_Delete := fun _ c m st w => (inr (c, m), st, w);
     state_PullFromAPIs := fun _ w => (None, w);
     store_rejectsNil := Some (Errorf "object is nil" []);
     ioutil_ReadFile := fun _ _ => inr "snapshot";
     sshutil_PublicKeyFromFile := fun _ _ => inr "AAAA";
     ssh_MarshalAuthorizedKey := fun k => "ssh-ed25519 " +:+ k;
     json_Unmarshal_EtcdMember := fun _ => inr (member 7 seedURLs);
     metav1_Now := fun _ => 0%Z;
     strings_Title := fun s => s;
     strings_TrimSpace := fun s => s;
     strconv_Atoi := fun _ => inr 22%Z;
     filepath_Dir := fun _ => "/etc/etcd/pki";
     fmt_Duration := fun _ => "5m0s";
     fmt_Int := fun _ => "30" |}.

Definition objectMeta (name : string) : ObjectMeta :=
  {| ObjectMeta_Name := name; ObjectMeta_Namespace := DefaultNamespace;
     ObjectMeta_CreationTimestamp := 0 |}.

Definition machine (name : string) (roles : list MachineRole) (status : string) : Machine :=
  {| Machine_TypeMeta := {| Kind := "Machine"; APIVersion := "cluster.k8s.io/v1alpha1" |};
     Machine_ObjectMeta := objectMeta name;
     Machine_Spec_Roles := roles;
     Machine_Spec_ProviderConfig := {| Value := None |};
     Machine_Status_ProviderStatus := Some {| Raw := status |} |}.

Definition provisionedMachine (name : string) : ProvisionedMachine :=
  {| ProvisionedMachine_TypeMeta :=
       {| Kind := "ProvisionedMachine";
          APIVersion := "sshprovider.platform9.com/v1alpha1" |};
     ProvisionedMachine_ObjectMeta := objectMeta name;
     ProvisionedMachine_Spec_SSHConfig := Some sshConfig;
     ProvisionedMachine_Spec_VIPNetworkInterface := "eth0" |}.

Definition cluster : Cluster :=
  {| Cluster_TypeMeta := {| Kind := "Cluster"; APIVersion := "cluster.k8s.io/v1alpha1" |};
     Cluster_ObjectMeta := objectMeta DefaultClusterName;
     Cluster_Spec_ProviderConfig := {| Value := None |};
     Cluster_Status_ProviderStatus := None |}.

Definition secret (name : string) (data : gmap string string) : Secret :=
  {| Secret_TypeMeta := {| Kind := "Secret"; APIVersion := "v1" |};
     Secret_ObjectMeta := objectMeta name;
     Secret_Data := data |}.

Definition etcdCA : Secret :=
  secret "etcd-ca" {[ "tls.crt" := "certificate"; "tls.key" := "key" ]}.

(** One master, one node, and what they need in the store. *)
Definition master1 : Machine := machine "10.0.0.1" [MasterRole] "member".
Definition master2 : Machine := machine "10.0.0.2" [MasterRole] "member".
Definition node1 : Machine := machine "10.0.0.3" [NodeRole] "nomember".

Definition deployment (machines : list Machine) : State unit :=
  {| store := {| Clusters := [cluster];
                 Machines := machines;
                 ProvisionedMachines :=
                   (fun m => provisionedMachine (Machine_Name m)) <$> machines;
                 Secrets := [secret "sshCredential" ∅; etcdCA] |};
     world := tt |}.

End Example.

(** ** The course of a recovery run

    The log lines between the steps of [recoverEtcd]. *)
Definition cleaningLog : Event :=
  LogEv "%s" [AStr "[recover etcd] Cleaning up degraded etcd cluster on all masters"].
Definition writingCALog : Event :=
  LogEv "%s" [AStr "[recover etcd] Writing etcd CA to all masters"].

Definition noClientURLs (firstMWC : mastersWithClientEntry) : error :=
  Errorf "unable to proceed: etcd member for machine %q has no client URLs"
         [AStr (Machine_Name (MWC_Machine firstMWC))].

Definition failed {A : Type} (o : outcome A) : Prop := forall a, o <> Ret a.

(** How far a run of [recoverEtcd] over a list of masters that is not
    empty gets: the step that does not return ends the run with its
    outcome, and the trace is the traces of the steps run, in order. *)
Inductive recoverRun {W : Type} (env : Collaborators W)
    (localPath remotePath : string) (etcdCASecret : option Secret)
    (cluster : Cluster) (masters : list Machine) (s : State W)
  : outcome unit -> State W -> list Event -> Prop :=
| run_sessions o1 s' tr :
    mastersWithClientLoop env masters s = (o1, s', tr) -> failed o1 ->
    recoverRun env localPath remotePath etcdCASecret cluster masters s
               (castFailure o1) s' tr
| run_reset mwcs s0 t0 o2 s' t2 :
    mastersWithClientLoop env masters s = (Ret mwcs, s0, t0) ->
    resetLoop env mwcs cluster s0 = (o2, s', t2) -> failed o2 ->
    recoverRun env localPath remotePath etcdCASecret cluster masters s
               (castFailure o2) s' (t0 ++ cleaningLog :: t2)
| run_writeCA mwcs s0 t0 cluster1 s1 t2 o3 s' t3 :
    mastersWithClientLoop env masters s = (Ret mwcs, s0, t0) ->
    resetLoop env mwcs cluster s0 = (Ret cluster1, s1, t2) ->
    writeCALoop env mwcs etcdCASecret s1 = (o3, s', t3) -> failed o3 ->
    recoverRun env localPath remotePath etcdCASecret cluster masters s
               (castFailure o3) s' (t0 ++ cleaningLog :: t2 ++ writingCALog :: t3)
| run_first firstMWC otherMWCs s0 t0 cluster1 s1 t2 s2 t3 o4 s' t4 :
    mastersWithClientLoop env masters s = (Ret (firstMWC :: otherMWCs), s0, t0) ->
    resetLoop env (firstMWC :: otherMWCs) cluster s0 = (Ret cluster1, s1, t2) ->
    writeCALoop env (firstMWC :: otherMWCs) etcdCASecret s1 = (Ret tt, s2, t3) ->
    recoverFirstMaster env localPath remotePath firstMWC cluster1 s2 = (o4, s', t4) ->
    failed o4 ->
    recoverRun env localPath remotePath etcdCASecret cluster masters s
               (castFailure o4) s'
               (t0 ++ cleaningLog :: t2 ++ writingCALog :: t3 ++ t4)
| run_noClientURLs firstMWC otherMWCs s0 t0 cluster1 s1 t2 s2 t3
                   firstEtcdMember cluster2 s' t4 :
    mastersWithClientLoop env masters s = (Ret (firstMWC :: otherMWCs), s0, t0) ->
    resetLoop env (firstMWC :: otherMWCs) cluster s0 = (Ret cluster1, s1, t2) ->
    writeCALoop env (firstMWC :: otherMWCs) etcdCASecret s1 = (Ret tt, s2, t3) ->
    recoverFirstMaster env localPath remotePath firstMWC cluster1 s2 =
      (Ret (firstEtcdMember, cluster2), s', t4) ->
    ClientURLs firstEtcdMember = [] ->
    recoverRun env localPath remotePath etcdCASecret cluster masters s
               (Err (noClientURLs firstMWC)) s'
               (t0 ++ cleaningLog :: t2 ++ writingCALog :: t3 ++ t4)
| run_join firstMWC otherMWCs s0 t0 cluster1 s1 t2 s2 t3
           firstEtcdMember cluster2 s3 t4 endpoint urls o5 s' t5 :
    mastersWithClientLoop env masters s = (Ret (firstMWC :: otherMWCs), s0, t0) ->
    resetLoop env (firstMWC :: otherMWCs) cluster s0 = (Ret cluster1, s1, t2) ->
    writeCALoop env (firstMWC :: otherMWCs) etcdCASecret s1 = (Ret tt, s2, t3) ->
    recoverFirstMaster env localPath remotePath firstMWC cluster1 s2 =
      (Ret (firstEtcdMember, cluster2), s3, t4) ->
    ClientURLs firstEtcdMember = endpoint :: urls ->
    joinLoop env endpoint otherMWCs cluster2 s3 = (o5, s', t5) -> failed o5 ->
    recoverRun env localPath remotePath etcdCASecret cluster masters s
               (castFailure o5) s'
               (t0 ++ cleaningLog :: t2 ++ writingCALog :: t3 ++ t4 ++ t5)
| run_completed firstMWC otherMWCs s0 t0 cluster1 s1 t2 s2 t3
                firstEtcdMember cluster2 s3 t4 endpoint urls cluster3 s4 t5 s' t6 :
    mastersWithClientLoop env masters s = (Ret (firstMWC :: otherMWCs), s0, t0) ->
    resetLoop env (firstMWC :: otherMWCs) cluster s0 = (Ret cluster1, s1, t2) ->
    writeCALoop env (firstMWC :: otherMWCs) etcdCASecret s1 = (Ret tt, s2, t3) ->
    recoverFirstMaster env localPath remotePath firstMWC cluster1 s2 =
      (Ret (firstEtcdMember, cluster2), s3, t4) ->
    ClientURLs firstEtcdMember = endpoint :: urls ->
    joinLoop env endpoint otherMWCs cluster2 s3 = (Ret cluster3, s4, t5) ->
    restartLoop env (firstMWC :: otherMWCs) s4 = (Ret tt, s', t6) ->
    recoverRun env localPath remotePath etcdCASecret cluster masters s
               (Ret tt) s'
               (t0 ++ cleaningLog :: t2 ++ writingCALog :: t3 ++ t4 ++ t5 ++ t6).

Definition restartingLog (mwc : mastersWithClientEntry) : Event :=
  LogEv "[recover etcd] Restarting kubelet on master %q to trigger immediate API server restart"
        [AStr (Machine_Name (MWC_Machine mwc))].

(** The events of the last loop of [recoverEtcd]: every master, in
    order, has its kubelet restarted; a restart that failed is followed
    by its warning and the loop goes on with the next master. *)
Inductive restartTrace : list mastersWithClientEntry -> list Event -> Prop :=
| restartTrace_nil : restartTrace [] []
| restartTrace_restarted mwc rest tr stdOut stdErr :
    restartTrace rest tr ->
    restartTrace (mwc :: rest)
      (restartingLog mwc
       :: RunCommandEv (MWC_Client mwc) restartCommand stdOut stdErr None :: tr)
| restartTrace_warned mwc rest tr stdOut stdErr err :
    restartTrace rest tr ->
    restartTrace (mwc :: rest)
      (restartingLog mwc
       :: RunCommandEv (MWC_Client mwc) restartCommand stdOut stdErr (Some err)
       :: LogEv "Warning: Unable to restart kubelet on machine %q: %v"
                [AStr (Machine_Name (MWC_Machine mwc));
                 AErr (commandError restartCommand stdOut stdErr err)]
       :: tr).

(** The steps before the last loop restart no kubelet. *)
Definition beforeRestartKinds : list EventKind :=
  [KLog; KReset; KStore; KFile; KInit; KInfo; KJoin].

(** The steps before the first master is recovered start no
    bootstrapping. *)
Definition beforeBootstrapKinds : list EventKind := [KLog; KReset; KStore; KFile].

Definition initializingLog (firstMWC : mastersWithClientEntry) : Event :=
  LogEv "[recover etcd] Initializing new etcd cluster from snapshot on master %q"
        [AStr (Machine_Name (MWC_Machine firstMWC))].

(** The join commands of the masters after the first, in their order. *)
Definition expectedJoins (endpoint : string) (otherMWCs : list mastersWithClientEntry)
  : list (Client * string) :=
  (fun mwc => (MWC_Client mwc, joinCommand endpoint)) <$> otherMWCs.

(** What the seed reports: the output of the first [etcdadm info] that
    succeeded, on the client of the seed, decodes to a member. *)
Definition seedReports {W : Type} (env : Collaborators W) (tr : list Event)
    (seed : Client) (etcdMember : EtcdMember) : Prop :=
  exists stdOut,
    head (infoOutputs tr) = Some (seed, stdOut) /\
    json_Unmarshal_EtcdMember env stdOut = inr etcdMember.

(** The seed initialization of a trace: one initialization, on the
    seed, from the remote path the snapshot was written to just before. *)
Definition seedInitialized {W : Type} (env : Collaborators W)
    (localPath remotePath : string) (seed : Client) (tr : list Event) : Prop :=
  commandsOf KInit tr = [(seed, initCommand remotePath)] /\
  exists data w pre stdOut stdErr err post,
    ioutil_ReadFile env localPath w = inr data /\
    tr = pre ++ WriteFileEv seed remotePath 384 data None
             :: RunCommandEv seed (initCommand remotePath) stdOut stdErr err :: post.

(** A computation that ends only by returning or with a Go error: it
    neither exits the process nor panics. *)
Definition errs {W A : Type} (m : M W A) : Prop :=
  forall s o s' tr, m s = (o, s', tr) -> (exists a, o = Ret a) \/ (exists e, o = Err e).

Module ExampleSessions.
(** The session of the masters of the small deployment. *)
Definition client : Client :=
  {| Client_host := "10.0.0.1"; Client_port := 22;
     Client_username := "root"; Client_privateKey := "private key";
     Client_publicKeys := ["ssh-ed25519 AAAA"];
     Client_insecureIgnoreHostKey := false |}.
Definition mwc1 : mastersWithClientEntry :=
  {| MWC_Machine := Example.master1; MWC_Client := client |}.
Definition mwc2 : mastersWithClientEntry :=
  {| MWC_Machine := Example.master2; MWC_Client := client |}.
End ExampleSessions.

(** ** The provider-config codec

    [SSHProviderConfigCodec] wraps a [runtime.Encoder] and a
    [runtime.Decoder]; [Decode data nil into] decodes into the object
    [into], whose shape tells what is expected. *)
Module Codec.
Section Codec.
Context {Object : Type}.

Record Encoder := { Encode : Object -> error + string }.
Record Decoder := { Decode : string -> Object -> error + Object }.

Record SSHProviderConfigCodec := {
  encoder : Encoder;
  decoder : Decoder
}.

(** [serializer.CodecFactory], as far as [NewCodec] uses it. *)
Record CodecFactory := {
  SupportedMediaTypes : list Encoder;
  UniversalDecoder : Decoder
}.

Definition newEncoder (codecFactory : CodecFactory) : error + Encoder :=
  match SupportedMediaTypes codecFactory with
  | [] => inl (Errorf "unable to find any serializers" [])
  | info :: _ => inr info
  end.

(** [NewCodec], given what [NewScheme] and [NewCodecFactory] built. *)
Definition NewCodec (scheme : error + CodecFactory) : error + SSHProviderConfigCodec :=
  match scheme with
  | inl err => inl err
  | inr codecFactory =>
    match newEncoder codecFactory with
    | inl err => inl err
    | inr enc => inr {| encoder := enc; decoder := UniversalDecoder codecFactory |}
    end
  end.

(** [providerConfig.Value] is a pointer and is dereferenced. *)
Definition DecodeFromProviderConfig (codec : SSHProviderConfigCodec)
    (providerConfig : ProviderConfig) (out : Object) : outcome Object :=
  match Value providerConfig with
  | None => Panic
  | Some value =>
    match Decode (decoder codec) (Raw value) out with
    | inl err => Err (Errorf "decoding failed: %v" [AErr err])
    | inr obj => Ret obj
    end
  end.

Definition EncodeToProviderConfig (codec : SSHProviderConfigCodec) (obj : Object)
  : outcome ProviderConfig :=
  match Encode (encoder codec) obj with
  | inl err => Err (Errorf "encoding failed: %v" [AErr err])
  | inr buf => Ret {| Value := Some {| Raw := buf |} |}
  end.

(** Total and lossless: every object is encoded, and its payload
    decodes, into an object of its shape, to the object. *)
Definition lossless {K} (shape : Object -> K) (codec : SSHProviderConfigCodec) : Prop :=
  forall x out, shape out = shape x ->
    exists buf, Encode (encoder codec) x = inr buf
                /\ Decode (decoder codec) buf out = inr x.

End Codec.
Arguments Encoder : clear implicits.
Arguments Decoder : clear implicits.
Arguments SSHProviderConfigCodec : clear implicits.
Arguments CodecFactory : clear implicits.
End Codec.

(** ** The payloads

    Modelled from the spec: the serializer behind the codec is not in
    the sources. A payload records the kind and the version of the
    typed object and then its fields; decoding into a shape with
    another kind or version is a SchemaMismatch; no field is lost. *)
Module Wire.

(** The shapes of typed provider configuration. *)
Inductive TypedProviderConfig :=
| ClusterSpecConfig (x : SPClusterSpec)
| ClusterStatusConfig (x : SPClusterStatus)
| MachineSpecConfig (x : SPMachineSpec)
| MachineStatusConfig (x : SPMachineStatus)
| ProvisionedMachineSpecConfig (sshConfig : option SSHConfig) (vipNetworkInterface : string).

Definition version : string := "sshprovider.platform9.com/v1alpha1".

Definition kindOfConfig (x : TypedProviderConfig) : string :=
  match x with
  | ClusterSpecConfig _ => "ClusterSpec"
  | ClusterStatusConfig _ => "ClusterStatus"
  | MachineSpecConfig _ => "MachineSpec"
  | MachineStatusConfig _ => "MachineStatus"
  | ProvisionedMachineSpecConfig _ _ => "ProvisionedMachineSpec"
  end.

Definition SchemaMismatch (found expected : string) : error :=
  Errorf "schema mismatch: payload is %q, target is %q" [AStr found; AStr expected].
Definition Malformed : error := Errorf "malformed payload" [].

(** Writers: binary digits for numbers, a length before a string or a
    list, a tag before an optional value. *)
Fixpoint put_positive (p : positive) : list ascii :=
  match p with
  | xH => ["."%char]
  | xO q => "0"%char :: put_positive q
  | xI q => "1"%char :: put_positive q
  end.

Definition put_N (n : N) : list ascii :=
  match n with
  | N0 => ["z"%char]
  | Npos p => "p"%char :: put_positive p
  end.

Definition put_Z (z : Z) : list ascii :=
  match z with
  | Z0 => ["z"%char]
  | Zpos p => "+"%char :: put_positive p
  | Zneg p => "-"%char :: put_positive p
  end.

Definition put_string (s : string) : list ascii :=
  put_N (N.of_nat (String.length s)) ++ String.list_ascii_of_string s.

Definition put_list {A} (put : A -> list ascii) (l : list A) : list ascii :=
  put_N (N.of_nat (length l)) ++ concat (put <$> l).

Definition put_option {A} (put : A -> list ascii) (o : option A) : list ascii :=
  match o with
  | None => ["n"%char]
  | Some x => "s"%char :: put x
  end.

(** Readers: the value read and what follows it. *)
Definition reader (A : Type) : Type := list ascii -> option (A * list ascii).

Fixpoint get_positive (s : list ascii) : option (positive * list ascii) :=
  match s with
  | [] => None
  | c :: r =>
    if Ascii.eqb c "."%char then Some (xH, r)
    else if Ascii.eqb c "0"%char then
      match get_positive r with Some (p, r') => Some (xO p, r') | None => None end
    else if Ascii.eqb c "1"%char then
      match get_positive r with Some (p, r') => Some (xI p, r') | None => None end
    else None
  end.

Definition get_N : reader N := fun s =>
  match s with
  | [] => None
  | c :: r =>
    if Ascii.eqb c "z"%char then Some (N0, r)
    else if Ascii.eqb c "p"%char then
      match get_positive r with Some (p, r') => Some (Npos p, r') | None => None end
    else None
  end.

Definition get_Z : reader Z := fun s =>
  match s with
  | [] => None
  | c :: r =>
    if Ascii.eqb c "z"%char then Some (Z0, r)
    else if Ascii.eqb c "+"%char then
      match get_positive r with Some (p, r') => Some (Zpos p, r') | None => None end
    else if Ascii.eqb c "-"%char then
      match get_positive r with Some (p, r') => Some (Zneg p, r') | None => None end
    else None
  end.

Definition get_string : reader string := fun s =>
  match get_N s with
  | Some (n, r) =>
    let k := N.to_nat n in
    if (k <=? length r)%nat
    then Some (String.string_of_list_ascii (take k r), drop k r)
    else None
  | None => None
  end.

Fixpoint get_many {A} (get : reader A) (n : nat) (s : list ascii)
  : option (list A * list ascii) :=
  match n with
  | O => Some ([], s)
  | S n' =>
    match get s with
    | Some (a, r) =>
      match get_many get n' r with
      | Some (l, r') => Some (a :: l, r')
      | None => None
      end
    | None => None
    end
  end.

Definition get_list {A} (get : reader A) : reader (list A) := fun s =>
  match get_N s with
  | Some (n, r) => get_many get (N.to_nat n) r
  | None => None
  end.

Definition get_option {A} (get : reader A) : reader (option A) := fun s =>
  match s with
  | [] => None
  | c :: r =>
    if Ascii.eqb c "n"%char then Some (None, r)
    else if Ascii.eqb c "s"%char then
      match get r with Some (a, r') => Some (Some a, r') | None => None end
    else None
  end.

Definition get_bind {A B} (get : reader A) (f : A -> reader B) : reader B := fun s =>
  match get s with
  | Some (a, r) => f a r
  | None => None
  end.

Definition get_ret {A} (a : A) : reader A := fun s => Some (a, s).

(** [get] reads back what [put] wrote, whatever follows it. *)
Definition reads {A} (put : A -> list ascii) (get : reader A) : Prop :=
  forall x rest, get (put x ++ rest) = Some (x, rest).

(** The fields of each record, in the order of its declaration. *)
Definition put_TypeMeta (t : TypeMeta) : list ascii :=
  put_string (Kind t) ++ put_string (APIVersion t).
Definition get_TypeMeta : reader TypeMeta :=
  get_bind get_string (fun k => get_bind get_string (fun v =>
  get_ret {| Kind := k; APIVersion := v |})).

Definition put_SSHConfig (c : SSHConfig) : list ascii :=
  put_string (Host c) ++ put_Z (Port c) ++ put_list put_string (PublicKeys c)
  ++ put_string (LocalObjectReference_Name (CredentialSecret c)).
Definition get_SSHConfig : reader SSHConfig :=
  get_bind get_string (fun h => get_bind get_Z (fun p =>
  get_bind (get_list get_string) (fun ks => get_bind get_string (fun n =>
  get_ret {| Host := h; Port := p; PublicKeys := ks;
             CredentialSecret := {| LocalObjectReference_Name := n |} |})))).

Definition put_EtcdMember (m : EtcdMember) : list ascii :=
  put_N (ID m) ++ put_string (Name m) ++ put_list put_string (PeerURLs m)
  ++ put_list put_string (ClientURLs m).
Definition get_EtcdMember : reader EtcdMember :=
  get_bind get_N (fun i => get_bind get_string (fun n =>
  get_bind (get_list get_string) (fun ps => get_bind (get_list get_string) (fun cs =>
  get_ret {| ID := i; Name := n; PeerURLs := ps; ClientURLs := cs |})))).

Definition put_body (x : TypedProviderConfig) : list ascii :=
  match x with
  | ClusterSpecConfig c => put_string (LocalObjectReference_Name (EtcdCASecret c))
  | ClusterStatusConfig c => put_list put_EtcdMember (EtcdMembers c)
  | MachineSpecConfig m =>
    put_TypeMeta (SPMachineSpec_TypeMeta m) ++ put_string (ProvisionedMachineName m)
    ++ put_list put_string (SPMachineSpec_Roles m)
  | MachineStatusConfig m =>
    put_TypeMeta (SPMachineStatus_TypeMeta m)
    ++ put_option put_EtcdMember (SPMachineStatus_EtcdMember m)
    ++ put_option put_SSHConfig (SPMachineStatus_SSHConfig m)
  | ProvisionedMachineSpecConfig c v => put_option put_SSHConfig c ++ put_string v
  end.

(** The reader of the body is chosen by the target shape. *)
Definition get_body (into : TypedProviderConfig) : reader TypedProviderConfig :=
  match into with
  | ClusterSpecConfig _ =>
    get_bind get_string (fun n =>
    get_ret (ClusterSpecConfig {| EtcdCASecret := {| LocalObjectReference_Name := n |} |}))
  | ClusterStatusConfig _ =>
    get_bind (get_list get_EtcdMember) (fun ms =>
    get_ret (ClusterStatusConfig {| EtcdMembers := ms |}))
  | MachineSpecConfig _ =>
    get_bind get_TypeMeta (fun t => get_bind get_string (fun n =>
    get_bind (get_list get_string) (fun rs =>
    get_ret (MachineSpecConfig {| SPMachineSpec_TypeMeta := t;
                                  ProvisionedMachineName := n;
                                  SPMachineSpec_Roles := rs |}))))
  | MachineStatusConfig _ =>
    get_bind get_TypeMeta (fun t => get_bind (get_option get_EtcdMember) (fun m =>
    get_bind (get_option get_SSHConfig) (fun c =>
    get_ret (MachineStatusConfig {| SPMachineStatus_TypeMeta := t;
                                    SPMachineStatus_EtcdMember := m;
                                    SPMachineStatus_SSHConfig := c |}))))
  | ProvisionedMachineSpecConfig _ _ =>
    get_bind (get_option get_SSHConfig) (fun c => get_bind get_string (fun v =>
    get_ret (ProvisionedMachineSpecConfig c v)))
  end.

Definition encode (x : TypedProviderConfig) : error + string :=
  inr (String.string_of_list_ascii
         (put_string (kindOfConfig x) ++ put_string version ++ put_body x)).

Definition decode (data : string) (into : TypedProviderConfig)
  : error + TypedProviderConfig :=
  match get_bind get_string (fun k => get_bind get_string (fun v => get_ret (k, v)))
                 (String.list_ascii_of_string data) with
  | None => inl Malformed
  | Some ((k, v), body) =>
    if negb (String.eqb k (kindOfConfig into)) then
      inl (SchemaMismatch k (kindOfConfig into))
    else if negb (String.eqb v version) then inl (SchemaMismatch v version)
    else
      match get_body into body with
      | Some (x, []) => inr x
      | _ => inl Malformed
      end
  end.

Definition codec : Codec.SSHProviderConfigCodec TypedProviderConfig :=
  {| Codec.encoder := {| Codec.Encode := encode |};
     Codec.decoder := {| Codec.Decode := decode |} |}.

End Wire.

(** ** More views of a run *)

(** The error an event carries: the error the call returned. *)
Definition errorOf (ev : Event) : option error :=
  match ev with
  | RunCommandEv _ _ _ _ err | ReadFileEv _ _ err | WriteFileEv _ _ _ _ err
  | MkdirAllEv _ _ _ err | MoveFileEv _ _ _ err | StoreEv _ err
  | ActuatorCreateEv _ err | ActuatorDeleteEv _ err | PullFromAPIsEv err => err
  | LogEv _ _ => None
  end.

(** A byte that is white space in ASCII: tab, line feed, vertical tab,
    form feed, carriage return or space. *)
Definition asciiSpace (b : ascii) : bool :=
  let n := N_of_ascii b in ((9 <=? n) && (n <=? 13) || (n =? 32))%N.

(** Every run of a computation leaves a state related by [R] to the
    state it started from, however it ends. *)
Definition preserves {W A : Type} (R : State W -> State W -> Prop) (m : M W A) : Prop :=
  forall s o s' tr, m s = (o, s', tr) -> R s s'.

(** The store is as it was. *)
Definition sameStore {W : Type} (s s' : State W) : Prop := store s' = store s.

(** A computation that never exits the process. *)
Definition neverExits {W A : Type} (m : M W A) : Prop :=
  forall s o s' tr, m s = (o, s', tr) -> forall e, o <> Exit e.

(** A call that returned an error is the last thing a computation
    does, and the computation does not return. *)
Definition stopsAtError {W A : Type} (m : M W A) : Prop :=
  forall s o s' tr, m s = (o, s', tr) ->
  forall pre ev post, tr = pre ++ ev :: post -> errorOf ev <> None ->
    post = [] /\ failed o.

(** The warning of a session opened without public keys of the host. *)
Definition sshIdentityWarning : Event :=
  LogEv "Not able to verify machine SSH identity: No public keys given. Continuing..." [].

(** The command [bootstrapTokenSecretFromMachine] runs on a master. *)
Definition kubeadmTokenCommand : string :=
  "/opt/bin/kubeadm token create --print-join-command".

(** Collaborators whose machines answer the commands as [run] says,
    and are otherwise those of [env]. *)
Definition withRunCommand {W : Type} (env : Collaborators W)
    (run : Client -> string -> W -> (string * string * option error) * W)
  : Collaborators W :=
  {| GetMachineSpec := GetMachineSpec env;
     PutMachineSpec := PutMachineSpec env;
     GetMachineStatus := GetMachineStatus env;
     PutMachineStatus := PutMachineStatus env;
     GetClusterSpec := GetClusterSpec env;
     GetClusterStatus := GetClusterStatus env;
     PutClusterStatus := PutClusterStatus env;
     BindMachineAndProvisionedMachine := BindMachineAndProvisionedMachine env;
     UsernameAndKeyFromSecret := UsernameAndKeyFromSecret env;
     NewClient := NewClient env;
     transport_RunCommand := run;
     transport_ReadFile := transport_ReadFile env;
     transport_WriteFile := transport_WriteFile env;
     transport_MkdirAll := transport_MkdirAll env;
     transport_MoveFile := transport_MoveFile env;
     actuator_Create := actuator_Create env;
     actuator_Delete := actuator_Delete env;
     state_PullFromAPIs := state_PullFromAPIs env;
     store_rejectsNil := store_rejectsNil env;
     ioutil_ReadFile := ioutil_ReadFile env;
     sshutil_PublicKeyFromFile := sshutil_PublicKeyFromFile env;
     ssh_MarshalAuthorizedKey := ssh_MarshalAuthorizedKey env;
     json_Unmarshal_EtcdMember := json_Unmarshal_EtcdMember env;
     metav1_Now := metav1_Now env;
     strings_Title := strings_Title env;
     strings_TrimSpace := strings_TrimSpace env;
     strconv_Atoi := strconv_Atoi env;
     filepath_Dir := filepath_Dir env;
     fmt_Duration := fmt_Duration env;
     fmt_Int := fmt_Int env |}.

(** The commands [drainAndDeleteNodeForMachine] runs on the machine:
    the lookup of its node, the drain and the deletion of the node. *)
Definition lookupNodeCommand : string :=
  "/opt/bin/kubectl --kubeconfig=/etc/kubernetes/admin.conf get node --selector kubernetes.io/hostname=$(hostname -f) -oname".

Definition drainCommand {W : Type} (env : Collaborators W)
    (drainTimeout drainGracePeriodSeconds : Z) (nodeName : string) : string :=
  "/opt/bin/kubectl --kubeconfig=/etc/kubernetes/admin.conf drain --timeout="
  +:+ fmt_Duration env drainTimeout +:+ " --grace-period="
  +:+ fmt_Int env drainGracePeriodSeconds +:+ " --ignore-daemonsets " +:+ nodeName.

Definition deleteNodeCommand (nodeName : string) : string :=
  "/opt/bin/kubectl --kubeconfig=/etc/kubernetes/admin.conf delete " +:+ nodeName.

(** The commands of a trace, in order: the command, its standard
    output and its error. *)
Definition commandsRun (tr : list Event) : list (string * string * option error) :=
  omap (fun ev => match ev with
                  | RunCommandEv _ cmd stdOut _ err => Some (cmd, stdOut, err)
                  | _ => None
                  end) tr.

(** The small deployment with machines that answer two commands: the
    master prints a join command, and the node lookup prints the name
    of the node. *)
Module ExampleNode.

Definition joinCommandLine : string :=
  "kubeadm join 10.0.0.1:6443 --token abcdef.123456 --discovery-token-ca-cert-hash sha256:deadbeef".

Definition collaborators : Collaborators unit :=
  withRunCommand (Example.collaborators false false [])
    (fun _ cmd w =>
       if String.eqb cmd kubeadmTokenCommand then ((joinCommandLine, "", None), w)
       else if String.eqb cmd lookupNodeCommand then (("node/node1", "", None), w)
       else (("", "", None), w)).

(** The bootstrap token secret read from that master. *)
Definition tokenSecret : Secret :=
  {| Secret_TypeMeta := {| Kind := "Secret"; APIVersion := "v1" |};
     Secret_ObjectMeta :=
       {| ObjectMeta_Name := DefaultBootstrapTokenSecretName;
          ObjectMeta_Namespace := DefaultNamespace;
          ObjectMeta_CreationTimestamp := 0 |};
     Secret_Data := {[ "token" := "abcdef.123456"; "cahash" := "sha256:deadbeef" ]} |}.

End ExampleNode.

(** The small deployment with machines on which every command fails. *)
Module ExampleFailing.

Definition exitStatus : error := Errorf "exit status 1" [].

Definition collaborators : Collaborators unit :=
  withRunCommand (Example.collaborators false false [])
    (fun _ _ w => (("", "permission denied", Some exitStatus), w)).

End ExampleFailing.

(** ** The order of the steps of a command *)

(** The runs of a computation go through the steps of one of the
    [patterns], in order, as far as they get: the steps of a run, read
    off its events by [step], are the beginning of a pattern, and the
    whole of it when the computation returns. *)
Definition follows {W A : Type} (step : Event -> option nat)
    (patterns : list (list nat)) (m : M W A) : Prop :=
  forall s o s' tr, m s = (o, s', tr) ->
    exists p, p ∈ patterns
              /\ omap step tr `prefix_of` p
              /\ ((exists a, o = Ret a) -> omap step tr = p).

(** The events of a run are first events of [P], then events of [Q]. *)
Definition splits {W A : Type} (P Q : Event -> Prop) (m : M W A) : Prop :=
  forall s o s' tr, m s = (o, s', tr) ->
    exists before after, tr = before ++ after /\ Forall P before /\ Forall Q after.

(** The steps of [delete machine] once the node is drained: the
    teardown by the actuator (0), the update of the cluster status (1),
    the deletion of the machine (2) and of the provisioned machine (3),
    and the sync of the on-disk state (4). Log lines and remote
    commands are no steps; any other event is out of order (9). *)
Definition deleteStep (ev : Event) : option nat :=
  match ev with
  | ActuatorDeleteEv _ _ => Some 0%nat
  | StoreEv (UpdateClusterStatus _) _ => Some 1%nat
  | StoreEv (DeleteMachine _) _ => Some 2%nat
  | StoreEv (DeleteProvisionedMachine _) _ => Some 3%nat
  | PullFromAPIsEv _ => Some 4%nat
  | LogEv _ _ | RunCommandEv _ _ _ _ _ => None
  | _ => Some 9%nat
  end.

(** A log line or a remote command. *)
Definition commandOrLog (ev : Event) : bool :=
  match ev with
  | LogEv _ _ | RunCommandEv _ _ _ _ _ => true
  | _ => false
  end.

(** A log line, a call of the actuator or of the store, or the sync of
    the on-disk state. *)
Definition teardownOrLog (ev : Event) : bool :=
  match ev with
  | LogEv _ _ | ActuatorDeleteEv _ _ | StoreEv _ _ | PullFromAPIsEv _ => true
  | _ => false
  end.

(** The steps of [create machine]: the creation of the provisioned
    machine (0) and of the machine (1), the command that issues the
    bootstrap token (2), the creation or update of the token secret
    (3), the provisioning by the actuator (4), the reading (5) and the
    writing (6) of the admin kubeconfig, the update of the cluster
    status (7) and the sync of the on-disk state (8). Log lines are no
    steps; any other event is out of order (9). *)
Definition createStep (ev : Event) : option nat :=
  match ev with
  | StoreEv (CreateProvisionedMachine _) _ => Some 0%nat
  | StoreEv (CreateMachine _) _ => Some 1%nat
  | RunCommandEv _ _ _ _ _ => Some 2%nat
  | StoreEv (CreateSecret _) _ | StoreEv (UpdateSecret _) _ => Some 3%nat
  | ActuatorCreateEv _ _ => Some 4%nat
  | ReadFileEv _ _ _ => Some 5%nat
  | WriteFileEv _ _ _ _ _ => Some 6%nat
  | StoreEv (UpdateClusterStatus _) _ => Some 7%nat
  | PullFromAPIsEv _ => Some 8%nat
  | LogEv _ _ => None
  | _ => Some 9%nat
  end.

(** The sequences of steps of [create machine]: for a master, for a
    node, and for a machine that is a node before the actuator runs and
    not after; each without and with the update of the cluster
    status. *)
Definition createPatterns : list (list nat) :=
  [[0; 1; 4; 8]; [0; 1; 4; 7; 8];
   [0; 1; 2; 3; 4; 5; 6; 8]; [0; 1; 2; 3; 4; 5; 6; 7; 8];
   [0; 1; 2; 3; 4; 8]; [0; 1; 2; 3; 4; 7; 8]]%nat.

(** A computation that only looks things up: it makes no event, leaves
    the state as it was, and returns, with a value or with an error. *)
Definition looksUp {W A : Type} (m : M W A) : Prop :=
  forall s o s' tr, m s = (o, s', tr) ->
    s' = s /\ tr = [] /\ ((exists a, o = Ret a) \/ (exists e, o = Err e)).

(** A computation that only checks: it makes no event, leaves the state
    as it was, and returns or exits the process. *)
Definition checks {W A : Type} (m : M W A) : Prop :=
  forall s o s' tr, m s = (o, s', tr) ->
    s' = s /\ tr = [] /\ ((exists a, o = Ret a) \/ (exists e, o = Exit e)).

(** The runs of a computation that stop while checking make no event,
    leave the state as it was and exit the process; the other runs
    satisfy [Q]. *)
Definition checksThen {W A : Type}
    (Q : State W -> outcome A -> State W -> list Event -> Prop) (m : M W A) : Prop :=
  forall s o s' tr, m s = (o, s', tr) ->
    (tr = [] /\ s' = s /\ exists e, o = Exit e) \/ Q s o s' tr.

(** The creation of the machine object. *)
Definition isCreateMachine (ev : Event) : bool :=
  match ev with
  | StoreEv (CreateMachine _) _ => true
  | _ => false
  end.

(** What a run of [create machine] that got past its checks has done:
    its first event is the creation of the provisioned machine; and
    when the store refuses the machine, the run ends there, exiting,
    with the provisioned machine created and left in the store. *)
Definition persisted {W : Type} (s : State W) (o : outcome unit) (s' : State W)
    (tr : list Event) : Prop :=
  (exists p err rest, tr = StoreEv (CreateProvisionedMachine p) err :: rest)
  /\ forall m e,
       StoreEv (CreateMachine m) (Some e) ∈ tr ->
       exists pm,
         tr = [StoreEv (CreateProvisionedMachine (Some pm)) None;
               StoreEv (CreateMachine m) (Some e)]
         /\ o = Exit (Errorf "Unable to create machine: %v" [AErr e])
         /\ ProvisionedMachines (store s') = ProvisionedMachines (store s) ++ [pm]
         /\ Machines (store s') = Machines (store s).

(** A store that holds a machine without its provisioned machine. *)
Module ExampleOrphan.

Definition machine : Machine := Example.machine "10.0.0.9" [MasterRole] "nomember".

Definition state : State unit :=
  {| store := {| Clusters := [Example.cluster];
                 Machines := [machine];
                 ProvisionedMachines := [];
                 Secrets := [Example.secret "sshCredential" ∅] |};
     world := tt |}.

End ExampleOrphan.

(** ** Views of the recovery command *)

(** The masters [recoverEtcdCmd] finds: a machine once for every Master
    entry of its roles, in the order of the list. *)
Definition masterEntriesOf (machine : Machine) : list Machine :=
  (fun _ => machine)
    <$> List.filter (fun role => String.eqb role MasterRole) (Machine_Spec_Roles machine).

Definition masterEntries (items : list Machine) : list Machine :=
  concat (masterEntriesOf <$> items).

Definition foundMasterLog (machine : Machine) : Event :=
  LogEv "[recover etcd] Found master %q" [AStr (Machine_Name machine)].

(** The events of [writeSecretToMachine] for the etcd CA on one
    machine when every call succeeds, and on all masters. *)
Definition caEvents {W : Type} (env : Collaborators W) (client : Client)
    (cert key : string) : list Event :=
  [MkdirAllEv client (filepath_Dir env "/etc/etcd/pki/ca.crt") 493 None;
   MkdirAllEv client (filepath_Dir env "/etc/etcd/pki/ca.key") 493 None;
   WriteFileEv client "/tmp/tls.crt" 420 cert None;
   WriteFileEv client "/tmp/tls.key" 384 key None;
   MoveFileEv client "/tmp/tls.crt" "/etc/etcd/pki/ca.crt" None;
   MoveFileEv client "/tmp/tls.key" "/etc/etcd/pki/ca.key" None].

Definition caTrace {W : Type} (env : Collaborators W)
    (mwcs : list mastersWithClientEntry) (cert key : string) : list Event :=
  concat ((fun mwc => caEvents env (MWC_Client mwc) cert key) <$> mwcs).

(** ** [get machine]

    The printers of [machineCmdGet] are not in the sources: the YAML
    and JSON marshallers and the text template of package [common].
    [template_Parse] is the error of parsing the template, on which
    [template.Must] panics; [template_Execute] gives what the template
    wrote to the standard output and its error. *)
Record Printers := {
  yaml_Marshal : list Machine -> error + string;
  json_Marshal : list Machine -> error + string;
  template_Parse : option error;
  template_Execute : list Machine -> string * option error
}.

(** The [switch outputFmt] of [machineCmdGet]: how it ends and what it
    wrote to the standard output. *)
Definition machineCmdGet_print (printers : Printers) (outputFmt : string)
    (items : list Machine) : outcome unit * string :=
  if String.eqb outputFmt "yaml" then
    match yaml_Marshal printers items with
    | inl err =>
      (Exit (Errorf "Unable to marshal cluster spec file to yaml: %s" [AErr err]), "")
    | inr bytes => (Ret tt, bytes)
    end
  else if String.eqb outputFmt "json" then
    match json_Marshal printers items with
    | inl err =>
      (Exit (Errorf "Unable to marshal cluster spec file to json: %s" [AErr err]), "")
    | inr bytes => (Ret tt, bytes)
    end
  else if String.eqb outputFmt "" then
    match template_Parse printers with
    | Some _ => (Panic, "")
    | None =>
      let '(written, err) := template_Execute printers items in
      (match err with
       | Some err => Exit (Errorf "Could not pretty print cluster details: %s" [AErr err])
       | None => Ret tt
       end, written)
    end
  else (Exit (Errorf "Unsupported output format %q" [AStr outputFmt]), "").

(** The machines [machineCmdGet] prints: all of the namespace when the
    [ip] flag is empty, and the machine of that name otherwise. *)
Definition machineCmdGet_items {W : Type} (ip : string) : M W (list Machine) :=
  if (String.length ip =? 0)%nat then
    orFatalf (fun err => Errorf "Unable to list machines: %v" [AErr err])
             (Machines_List DefaultNamespace)
  else
    machine ← orFatalf (fun err => Errorf "Unable to get machine %q: %v" [AStr ip; AErr err])
                       (Machines_Get DefaultNamespace ip);
    mret [machine].

(** The [Run] of [machineCmdGet], given the value of the [ip] flag and
    the output format: the run and what it wrote to the standard
    output. *)
Definition machineCmdGet {W : Type} (printers : Printers) (outputFmt ip : string)
    (s : State W) : (outcome unit * State W * list Event) * string :=
  match machineCmdGet_items ip s with
  | (Ret items, s1, t1) =>
    let '(o, written) := machineCmdGet_print printers outputFmt items in
    ((o, s1, t1), written)
  | (o, s1, t1) => ((castFailure o, s1, t1), "")
  end.

(** Printers for concrete runs. *)
Module ExamplePrinters.

Definition names (items : list Machine) : string :=
  String.concat "," (Machine_Name <$> items).

Definition printers : Printers :=
  {| yaml_Marshal := fun items => inr ("yaml:" +:+ names items);
     json_Marshal := fun items => inr ("json:" +:+ names items);
     template_Parse := None;
     template_Execute := fun items => (names items, None) |}.

End ExamplePrinters.

(** ** A deployment with encoded payloads

    The statuses of the machines and of the cluster are decoded from,
    and encoded into, the objects themselves, with the payloads of
    [Wire]: every master carries a member of its own, and the status
    of the cluster lists the members of the masters and one more. *)
Module ExampleMembers.

Definition payload (x : Wire.TypedProviderConfig) : option RawExtension :=
  match Wire.encode x with
  | inr buf => Some {| Raw := buf |}
  | inl _ => None
  end.

Definition decodePayload (p : option RawExtension) (into : Wire.TypedProviderConfig)
  : error + Wire.TypedProviderConfig :=
  match p with
  | Some r => Wire.decode (Raw r) into
  | None => inl Wire.Malformed
  end.

Definition getMachineStatus (m : Machine) : error + SPMachineStatus :=
  match decodePayload (Machine_Status_ProviderStatus m)
          (Wire.MachineStatusConfig
             {| SPMachineStatus_TypeMeta := {| Kind := ""; APIVersion := "" |};
                SPMachineStatus_EtcdMember := None;
                SPMachineStatus_SSHConfig := None |}) with
  | inr (Wire.MachineStatusConfig st) => inr st
  | inr _ => inl Wire.Malformed
  | inl e => inl e
  end.

Definition putMachineStatus (st : SPMachineStatus) (m : Machine) : error + Machine :=
  inr {| Machine_TypeMeta := Machine_TypeMeta m;
         Machine_ObjectMeta := Machine_ObjectMeta m;
         Machine_Spec_Roles := Machine_Spec_Roles m;
         Machine_Spec_ProviderConfig := Machine_Spec_ProviderConfig m;
         Machine_Status_ProviderStatus := payload (Wire.MachineStatusConfig st) |}.

Definition getClusterStatus (c : Cluster) : error + SPClusterStatus :=
  match decodePayload (Cluster_Status_ProviderStatus c)
          (Wire.ClusterStatusConfig {| EtcdMembers := [] |}) with
  | inr (Wire.ClusterStatusConfig st) => inr st
  | inr _ => inl Wire.Malformed
  | inl e => inl e
  end.

Definition putClusterStatus (st : SPClusterStatus) (c : Cluster) : error + Cluster :=
  inr {| Cluster_TypeMeta := Cluster_TypeMeta c;
         Cluster_ObjectMeta := Cluster_ObjectMeta c;
         Cluster_Spec_ProviderConfig := Cluster_Spec_ProviderConfig c;
         Cluster_Status_ProviderStatus := payload (Wire.ClusterStatusConfig st) |}.

Definition seedURLs : list string := ["https://10.0.0.1:2379"].

(** The collaborators of [Example], with these payload helpers. *)
Definition collaborators : Collaborators unit :=
  let env := Example.collaborators false false seedURLs in
  {| GetMachineSpec := GetMachineSpec env;
     PutMachineSpec := PutMachineSpec env;
     GetMachineStatus := getMachineStatus;
     PutMachineStatus := putMachineStatus;
     GetClusterSpec := GetClusterSpec env;
     GetClusterStatus := getClusterStatus;
     PutClusterStatus := putClusterStatus;
     BindMachineAndProvisionedMachine := BindMachineAndProvisionedMachine env;
     UsernameAndKeyFromSecret := UsernameAndKeyFromSecret env;
     NewClient := NewClient env;
     transport_RunCommand := transport_RunCommand env;
     transport_ReadFile := transport_ReadFile env;
     transport_WriteFile := transport_WriteFile env;
     transport_MkdirAll := transport_MkdirAll env;
     transport_MoveFile := transport_MoveFile env;
     actuator_Create := actuator_Create env;
     actuator_Delete := actuator_Delete env;
     state_PullFromAPIs := state_PullFromAPIs env;
     store_rejectsNil := store_rejectsNil env;
     ioutil_ReadFile := ioutil_ReadFile env;
     sshutil_PublicKeyFromFile := sshutil_PublicKeyFromFile env;
     ssh_MarshalAuthorizedKey := ssh_MarshalAuthorizedKey env;
     json_Unmarshal_EtcdMember := json_Unmarshal_EtcdMember env;
     metav1_Now := metav1_Now env;
     strings_Title := strings_Title env;
     strings_TrimSpace := strings_TrimSpace env;
     strconv_Atoi := strconv_Atoi env;
     filepath_Dir := filepath_Dir env;
     fmt_Duration := fmt_Duration env;
     fmt_Int := fmt_Int env |}.

Definition member (id : N) : EtcdMember := Example.member id seedURLs.

Definition master (name : string) (id : N) : Machine :=
  {| Machine_TypeMeta := {| Kind := "Machine"; APIVersion := "cluster.k8s.io/v1alpha1" |};
     Machine_ObjectMeta := Example.objectMeta name;
     Machine_Spec_Roles := [MasterRole];
     Machine_Spec_ProviderConfig := {| Value := None |};
     Machine_Status_ProviderStatus :=
       payload (Wire.MachineStatusConfig
                  {| SPMachineStatus_TypeMeta := Example.providerTypeMeta "MachineStatus";
                     SPMachineStatus_EtcdMember := Some (member id);
                     SPMachineStatus_SSHConfig := Some Example.sshConfig |}) |}.

Definition master1 : Machine := master "10.0.0.1" 1.
Definition master2 : Machine := master "10.0.0.2" 2.

Definition clusterWith (members : list EtcdMember) : Cluster :=
  {| Cluster_TypeMeta := Cluster_TypeMeta Example.cluster;
     Cluster_ObjectMeta := Cluster_ObjectMeta Example.cluster;
     Cluster_Spec_ProviderConfig := Cluster_Spec_ProviderConfig Example.cluster;
     Cluster_Status_ProviderStatus :=
       payload (Wire.ClusterStatusConfig {| EtcdMembers := members |}) |}.

(** The cluster lists the members of both masters and a third one. *)
Definition cluster : Cluster := clusterWith [member 1; member 2; member 9].

Definition state : State unit :=
  {| store := {| Clusters := [cluster];
                 Machines := [master1; master2];
                 ProvisionedMachines :=
                   [Example.provisionedMachine "10.0.0.1";
                    Example.provisionedMachine "10.0.0.2"];
                 Secrets := [Example.secret "sshCredential" ∅; Example.etcdCA] |};
     world := tt |}.

Definition mwc1 : mastersWithClientEntry :=
  {| MWC_Machine := master1; MWC_Client := ExampleSessions.client |}.
Definition mwc2 : mastersWithClientEntry :=
  {| MWC_Machine := master2; MWC_Client := ExampleSessions.client |}.

End ExampleMembers.

(** A sole master that lists the Master role twice, and a node. *)
Module ExampleRepeated.

Definition master : Machine :=
  Example.machine "10.0.0.1" [MasterRole; MasterRole] "member".

Definition state : State unit := Example.deployment [master; Example.node1].

End ExampleRepeated.

(** * Properties *)

(** ** Join-token output parsing *)

(** C6: output that splits into exactly 7 whitespace-separated fields
    parses to the field at index 4 as the token and the field at index 6
    as the discovery hash; any other field count is an error; the
    sample output of the design document yields its token and hash. *)
Theorem tokenAndCAHash_seven_fields (cmdStdout : string) :
  (length (GoStrings.Fields cmdStdout) = 7 ->
   exists token caHash,
     GoStrings.Fields cmdStdout !! 4 = Some token /\
     GoStrings.Fields cmdStdout !! 6 = Some caHash /\
     tokenAndCAHashFromKubeadmJoinCommand cmdStdout = Ret (token, caHash))
  /\ (length (GoStrings.Fields cmdStdout) <> 7 ->
      tokenAndCAHashFromKubeadmJoinCommand cmdStdout =
      Err (Errorf "expected 7 fields, found %v"
                  [AInt (Z.of_nat (length (GoStrings.Fields cmdStdout)))]))
  /\ tokenAndCAHashFromKubeadmJoinCommand
       "kubeadm join 1.2.3.4:6443 --token abcdef.123456 --discovery-token-ca-cert-hash sha256:deadbeef"
     = Ret ("abcdef.123456", "sha256:deadbeef").
Proof.
  unfold tokenAndCAHashFromKubeadmJoinCommand.
  split; [|split].
  - intros Hlen. rewrite Hlen. simpl.
    destruct (GoStrings.Fields cmdStdout)
      as [|f0 [|f1 [|f2 [|f3 [|f4 [|f5 [|f6 [|f7 fs]]]]]]]]; try discriminate.
    exists f4, f6. repeat split.
  - intros Hlen.
    destruct (Nat.eqb_spec (length (GoStrings.Fields cmdStdout)) 7) as [E|E];
      [contradiction|reflexivity].
  - vm_compute. reflexivity.
Qed.

Lemma tokenAndCAHash_seven_fields_witness :
  length (GoStrings.Fields "a b c d tok f hash") = 7 /\
  exists token caHash,
    GoStrings.Fields "a b c d tok f hash" !! 4 = Some token /\
    GoStrings.Fields "a b c d tok f hash" !! 6 = Some caHash /\
    tokenAndCAHashFromKubeadmJoinCommand "a b c d tok f hash" = Ret (token, caHash).
Proof.
  split; [vm_compute; reflexivity|].
  apply (tokenAndCAHash_seven_fields "a b c d tok f hash").
  vm_compute; reflexivity.
Defined.

(** ** MembershipSet *)

Module EtcdMemberSetFacts.
Import EtcdMemberSet.

Lemma applyOp_lookup s o id : applyOp s o !! id = touch id (s !! id) o.
Proof.
  unfold touch. destruct o as [m|m]; simpl; unfold Insert, Delete.
  - rewrite lookup_insert. destruct (decide (ID m = id)); reflexivity.
  - rewrite lookup_delete. destruct (decide (ID m = id)); reflexivity.
Qed.

Lemma applyOps_lookup ops s id :
  applyOps ops s !! id = foldl (touch id) (s !! id) ops.
Proof.
  unfold applyOps. revert s.
  induction ops as [|o ops IH]; intros s; simpl; [reflexivity|].
  rewrite IH, applyOp_lookup. reflexivity.
Qed.

Lemma keyed_empty : keyed ∅.
Proof. intros k r H. rewrite lookup_empty in H. discriminate. Qed.

Lemma keyed_applyOp s o : keyed s -> keyed (applyOp s o).
Proof.
  intros Hs k r. rewrite applyOp_lookup. unfold touch.
  destruct (decide (ID (opMember o) = k)) as [E|E].
  - destruct o; simpl in *; [|discriminate]. intros [= <-]. exact E.
  - apply Hs.
Qed.

Lemma keyed_applyOps ops s : keyed s -> keyed (applyOps ops s).
Proof.
  unfold applyOps. revert s.
  induction ops as [|o ops IH]; intros s Hs; simpl; [exact Hs|].
  apply IH, keyed_applyOp, Hs.
Qed.

Lemma foldl_touch_untouched id acc ops :
  Forall (fun o => ID (opMember o) <> id) ops -> foldl (touch id) acc ops = acc.
Proof.
  intros H. revert acc. induction H as [|o ops Ho _ IH]; intros acc; simpl.
  - reflexivity.
  - rewrite IH. unfold touch. destruct (decide _); [contradiction|reflexivity].
Qed.

Lemma foldl_touch_Some id ops r :
  foldl (touch id) None ops = Some r <-> ID r = id /\ inserted_not_deleted ops r.
Proof.
  split.
  - induction ops as [|o ops IH] using rev_ind; simpl; [discriminate|].
    rewrite foldl_app. simpl. unfold touch at 1.
    destruct (decide (ID (opMember o) = id)) as [E|E].
    + destruct o as [m|m]; [|discriminate]. intros [= ->]. split; [exact E|].
      exists ops, []. split; [reflexivity|constructor].
    + intros H. destruct (IH H) as [Hid (before & after & -> & Hafter)].
      split; [exact Hid|].
      exists before, (after ++ [o]). split.
      * rewrite <- app_assoc. reflexivity.
      * apply Forall_app. split; [exact Hafter|].
        constructor; [congruence|constructor].
  - intros [Hid (before & after & -> & Hafter)]. subst id.
    rewrite foldl_app. simpl.
    rewrite foldl_touch_untouched by exact Hafter.
    unfold touch. simpl. destruct (decide (ID r = ID r)); [reflexivity|contradiction].
Qed.

Lemma List_Permutation s : List s ≡ₚ (map_to_list s).*2.
Proof. unfold List. apply merge_sort_Permutation. Qed.

Lemma elem_of_List s r : keyed s -> (r ∈ List s <-> s !! ID r = Some r).
Proof.
  intros Hs. rewrite List_Permutation. rewrite list_elem_of_fmap. split.
  - intros ([k x] & -> & Hin). simpl. apply elem_of_map_to_list in Hin.
    rewrite (Hs _ _ Hin). exact Hin.
  - intros H. exists (ID r, r). split; [reflexivity|].
    apply elem_of_map_to_list. exact H.
Qed.

Lemma NoDup_List_ids s : keyed s -> NoDup (ID <$> List s).
Proof.
  intros Hs. rewrite List_Permutation.
  assert (ID <$> (map_to_list s).*2 = (map_to_list s).*1) as ->.
  { rewrite <- list_fmap_compose. apply Forall_fmap_ext, Forall_forall.
    intros [k r] Hin. simpl. apply Hs. apply elem_of_map_to_list. exact Hin. }
  apply NoDup_fst_map_to_list.
Qed.

Lemma NewEtcdMemberSet_applyOps members :
  NewEtcdMemberSet members = applyOps (OpInsert <$> members) ∅.
Proof.
  unfold NewEtcdMemberSet, applyOps. generalize (∅ : gmap N EtcdMember).
  induction members as [|m ms IH]; intros s; simpl; [reflexivity|]. apply IH.
Qed.

Lemma keyed_NewEtcdMemberSet members : keyed (NewEtcdMemberSet members).
Proof. rewrite NewEtcdMemberSet_applyOps. apply keyed_applyOps, keyed_empty. Qed.

Lemma elem_of_List_applyOps ops r :
  r ∈ List (applyOps ops ∅) <-> inserted_not_deleted ops r.
Proof.
  rewrite elem_of_List by apply keyed_applyOps, keyed_empty.
  rewrite applyOps_lookup, lookup_empty, foldl_touch_Some. tauto.
Qed.

(** Listing and rebuilding a set gives the set back: what the commands
    persist is the set itself. *)
Lemma NewEtcdMemberSet_List s : keyed s -> NewEtcdMemberSet (List s) = s.
Proof.
  intros Hs. apply map_eq. intros id. apply option_eq. intros r.
  rewrite NewEtcdMemberSet_applyOps, applyOps_lookup, lookup_empty, foldl_touch_Some.
  split.
  - intros [Hid (before & after & Heq & _)]. subst id.
    apply elem_of_List; [exact Hs|].
    assert (OpInsert r ∈ OpInsert <$> List s) as Hin
      by (rewrite Heq; apply elem_of_app; right; left).
    apply list_elem_of_fmap in Hin. destruct Hin as (x & [= ->] & Hx). exact Hx.
  - intros Hr. pose proof (Hs _ _ Hr) as Hid. split; [exact Hid|]. subst id.
    apply (elem_of_List s r Hs) in Hr.
    apply list_elem_of_split in Hr. destruct Hr as (l1 & l2 & Hl).
    pose proof (NoDup_List_ids s Hs) as Hnd. rewrite Hl in Hnd |- *.
    exists (OpInsert <$> l1), (OpInsert <$> l2). split.
    + rewrite fmap_app. reflexivity.
    + rewrite fmap_app in Hnd. apply NoDup_app in Hnd. destruct Hnd as (_ & _ & Hnd).
      simpl in Hnd. apply NoDup_cons in Hnd. destruct Hnd as [Hnotin _].
      apply Forall_fmap, Forall_forall. intros x Hx. simpl. intros E.
      apply Hnotin. rewrite <- E. apply list_elem_of_fmap. exists x. split; [reflexivity|exact Hx].
Qed.

End EtcdMemberSetFacts.

(** C7: after any sequence of Insert and Delete operations, [List]
    holds exactly one record per id that was inserted and not deleted
    afterwards, whatever the order and the repetitions; an Insert of an
    id already present replaces its record; Delete looks at the id only. *)
Theorem EtcdMemberSet_List_exact (ops : list EtcdMemberSet.Op) :
  let s := EtcdMemberSet.applyOps ops ∅ in
  NoDup (ID <$> EtcdMemberSet.List s)
  /\ (forall r, r ∈ EtcdMemberSet.List s <-> EtcdMemberSet.inserted_not_deleted ops r)
  /\ (forall m, m ∈ EtcdMemberSet.List (EtcdMemberSet.Insert m s)
               /\ forall r, r ∈ EtcdMemberSet.List (EtcdMemberSet.Insert m s) ->
                            ID r = ID m -> r = m)
  /\ (forall m m', ID m = ID m' ->
                   EtcdMemberSet.Delete m s = EtcdMemberSet.Delete m' s)
  /\ (forall m r, r ∈ EtcdMemberSet.List (EtcdMemberSet.Delete m s) <->
                  r ∈ EtcdMemberSet.List s /\ ID r <> ID m).
Proof.
  intros s.
  assert (Hs : EtcdMemberSet.keyed s)
    by apply EtcdMemberSetFacts.keyed_applyOps, EtcdMemberSetFacts.keyed_empty.
  split; [|split; [|split; [|split]]].
  - apply EtcdMemberSetFacts.NoDup_List_ids, Hs.
  - apply EtcdMemberSetFacts.elem_of_List_applyOps.
  - intros m.
    assert (Hi : EtcdMemberSet.keyed (EtcdMemberSet.Insert m s))
      by apply (EtcdMemberSetFacts.keyed_applyOp s (EtcdMemberSet.OpInsert m) Hs).
    split.
    + apply EtcdMemberSetFacts.elem_of_List; [exact Hi|].
      unfold EtcdMemberSet.Insert. apply lookup_insert_eq.
    + intros r Hr E. apply EtcdMemberSetFacts.elem_of_List in Hr; [|exact Hi].
      unfold EtcdMemberSet.Insert in Hr. rewrite E, lookup_insert_eq in Hr.
      congruence.
  - intros m m' E. unfold EtcdMemberSet.Delete. rewrite E. reflexivity.
  - intros m r.
    assert (Hd : EtcdMemberSet.keyed (EtcdMemberSet.Delete m s))
      by apply (EtcdMemberSetFacts.keyed_applyOp s (EtcdMemberSet.OpDelete m) Hs).
    rewrite !EtcdMemberSetFacts.elem_of_List by assumption.
    unfold EtcdMemberSet.Delete. rewrite lookup_delete.
    destruct (decide (ID m = ID r)) as [E|E]; split.
    + discriminate.
    + intros [_ H]. congruence.
    + intros H. split; [exact H|congruence].
    + intros [H _]. exact H.
Qed.

(** ** Running computations *)

Section Running.
Context {W : Type}.

Lemma run_bind {A B} (m : M W A) (f : A -> M W B) (s : State W) :
  (m ≫= f) s =
  match m s with
  | (Ret a, s1, t1) => let '(o, s2, t2) := f a s1 in (o, s2, t1 ++ t2)
  | (o, s1, t1) => (castFailure o, s1, t1)
  end.
Proof. reflexivity. Qed.

Lemma run_bind_Ret {A B} (m : M W A) (f : A -> M W B) s a s1 t1 :
  m s = (Ret a, s1, t1) ->
  (m ≫= f) s = let '(o, s2, t2) := f a s1 in (o, s2, t1 ++ t2).
Proof. intros H. rewrite run_bind, H. reflexivity. Qed.

Lemma run_bind_Exit {A B} (m : M W A) (f : A -> M W B) s e s1 t1 :
  m s = (Exit e, s1, t1) -> (m ≫= f) s = (Exit e, s1, t1).
Proof. intros H. rewrite run_bind, H. reflexivity. Qed.

Lemma run_bind_Err {A B} (m : M W A) (f : A -> M W B) s e s1 t1 :
  m s = (Err e, s1, t1) -> (m ≫= f) s = (Err e, s1, t1).
Proof. intros H. rewrite run_bind, H. reflexivity. Qed.

Lemma run_bind_Panic {A B} (m : M W A) (f : A -> M W B) s s1 t1 :
  m s = (Panic, s1, t1) -> (m ≫= f) s = (Panic, s1, t1).
Proof. intros H. rewrite run_bind, H. reflexivity. Qed.

Lemma run_orFatalf_Ret {A} wrap (m : M W A) s a s1 t1 :
  m s = (Ret a, s1, t1) -> orFatalf wrap m s = (Ret a, s1, t1).
Proof. intros H. unfold orFatalf. rewrite H. reflexivity. Qed.

Lemma run_annotate_Ret {A} wrap (m : M W A) s a s1 t1 :
  m s = (Ret a, s1, t1) -> annotate wrap m s = (Ret a, s1, t1).
Proof. intros H. unfold annotate. rewrite H. reflexivity. Qed.

End Running.

(** ** The check of [delete machine] *)

#[local] Arguments String.eqb : simpl never.

Lemma countRole_fold (roles : list MachineRole) (a b : Z) :
  foldl countRole (a, b) roles =
  ((a + Z.of_nat (length (List.filter (String.eqb MasterRole) roles)))%Z,
   (b + Z.of_nat (length (List.filter (String.eqb NodeRole) roles)))%Z).
Proof.
  revert a b. induction roles as [|r roles IH]; intros a b; simpl.
  - f_equal; lia.
  - rewrite (String.eqb_sym MasterRole r), (String.eqb_sym NodeRole r).
    destruct (String.eqb_spec r MasterRole) as [->|Hm].
    + rewrite IH. change (String.eqb MasterRole NodeRole) with false.
      simpl. f_equal; lia.
    + destruct (String.eqb_spec r NodeRole) as [->|Hn].
      * rewrite IH. simpl. f_equal; lia.
      * rewrite IH. reflexivity.
Qed.

Lemma countRoles_entries (items : list Machine) :
  countRoles items = (roleEntries MasterRole items, roleEntries NodeRole items).
Proof.
  unfold countRoles, roleEntries.
  assert (forall a b,
    foldl (fun counts machine => foldl countRole counts (Machine_Spec_Roles machine))
          (a, b) items =
    ((a + Z.of_nat (length (List.filter (String.eqb MasterRole)
                              (concat (Machine_Spec_Roles <$> items)))))%Z,
     (b + Z.of_nat (length (List.filter (String.eqb NodeRole)
                              (concat (Machine_Spec_Roles <$> items)))))%Z)) as H.
  { induction items as [|m items IH]; intros a b; simpl.
    - f_equal; lia.
    - rewrite countRole_fold, IH. rewrite !List.filter_app, !length_app.
      rewrite !Nat2Z.inj_add, !Z.add_assoc. reflexivity. }
  rewrite H. reflexivity.
Qed.

Lemma RoleContains_filter role roles :
  RoleContains role roles = true <-> List.filter (String.eqb role) roles <> [].
Proof.
  unfold RoleContains. induction roles as [|r roles IH]; simpl.
  - split; [discriminate|congruence].
  - destruct (String.eqb role r); simpl; [split; [discriminate|reflexivity]|exact IH].
Qed.

Lemma RoleContains_false_filter role roles :
  RoleContains role roles = false -> List.filter (String.eqb role) roles = [].
Proof.
  intros H. destruct (List.filter (String.eqb role) roles) eqn:E; [reflexivity|].
  assert (RoleContains role roles = true) by (apply RoleContains_filter; congruence).
  congruence.
Qed.

(** A role listed by a machine whose roles have no repetition counts
    once. *)
Lemma filter_eqb_NoDup role (roles : list MachineRole) :
  NoDup roles -> RoleContains role roles = true ->
  length (List.filter (String.eqb role) roles) = 1.
Proof.
  intros Hnd. induction Hnd as [|r roles Hnotin Hnd IH]; simpl; [discriminate|].
  destruct (String.eqb_spec role r) as [->|Hne]; simpl.
  - intros _. rewrite RoleContains_false_filter; [reflexivity|].
    destruct (RoleContains r roles) eqn:E; [|reflexivity].
    exfalso. apply Hnotin. unfold RoleContains in E.
    apply existsb_exists in E. destruct E as (x & Hx & Heq).
    apply String.eqb_eq in Heq. subst x. apply list_elem_of_In. exact Hx.
  - exact IH.
Qed.

Lemma roleEntries_cons role m items :
  roleEntries role (m :: items) =
  (Z.of_nat (length (List.filter (String.eqb role) (Machine_Spec_Roles m)))
   + roleEntries role items)%Z.
Proof.
  unfold roleEntries. simpl. rewrite List.filter_app, length_app, Nat2Z.inj_add.
  reflexivity.
Qed.

Lemma roleEntries_nonneg role items : (0 <= roleEntries role items)%Z.
Proof. unfold roleEntries. lia. Qed.

Lemma roleEntries_none role items :
  machinesWithRole role items = [] -> roleEntries role items = 0%Z.
Proof.
  induction items as [|m items IH]; [reflexivity|].
  unfold machinesWithRole. simpl.
  destruct (RoleContains role (Machine_Spec_Roles m)) eqn:E; [discriminate|].
  intros H. rewrite roleEntries_cons, (RoleContains_false_filter _ _ E).
  simpl. apply IH, H.
Qed.

Lemma roleEntries_sole role items target :
  machinesWithRole role items = [target] ->
  NoDup (Machine_Spec_Roles target) ->
  roleEntries role items = 1%Z.
Proof.
  intros H Hnd. induction items as [|m items IH]; [discriminate|].
  unfold machinesWithRole in H. simpl in H. rewrite roleEntries_cons.
  destruct (RoleContains role (Machine_Spec_Roles m)) eqn:E.
  - injection H as -> Hrest.
    rewrite (filter_eqb_NoDup _ _ Hnd E), (roleEntries_none _ _ Hrest). reflexivity.
  - rewrite (RoleContains_false_filter _ _ E). simpl. apply IH, H.
Qed.

Lemma roleEntries_some role items m :
  m ∈ items -> RoleContains role (Machine_Spec_Roles m) = true ->
  (0 < roleEntries role items)%Z.
Proof.
  intros Hin Hm. induction Hin as [m items|m m' items Hin IH];
    rewrite roleEntries_cons.
  - apply RoleContains_filter in Hm.
    destruct (List.filter (String.eqb role) (Machine_Spec_Roles m)); [congruence|].
    pose proof (roleEntries_nonneg role items). simpl. lia.
  - specialize (IH Hm). lia.
Qed.

Lemma machinesWithRole_holds role items m :
  m ∈ machinesWithRole role items ->
  m ∈ items /\ RoleContains role (Machine_Spec_Roles m) = true.
Proof.
  unfold machinesWithRole. rewrite !list_elem_of_In, List.filter_In. tauto.
Qed.

(** The abort of [delete machine] when no role is repeated: when the
    machine to delete resolves (the machine, its provider spec, its
    provisioned machine and the cluster are found), lists its roles
    without repetition, is the only machine with the Master role and
    some machine has the Node role, [delete machine] exits with the
    WouldOrphanNodes diagnostic; it has made no call that changes
    anything (no drain, no actuator, no status update, no deletion) and
    leaves the state as it was. *)
Theorem machineCmdDelete_sole_master_aborts
    {W : Type} (env : Collaborators W) (drainTimeout drainGracePeriodSeconds : Z)
    (ip : string) (s : State W)
    (target : Machine) (spec : SPMachineSpec) (pm : ProvisionedMachine)
    (cluster : Cluster) :
  getObject Machine_ObjectMeta DefaultNamespace ip (Machines (store s)) = Some target ->
  GetMachineSpec env target = inr spec ->
  getObject ProvisionedMachine_ObjectMeta DefaultNamespace (ProvisionedMachineName spec)
            (ProvisionedMachines (store s)) = Some pm ->
  getObject Cluster_ObjectMeta DefaultNamespace DefaultClusterName
            (Clusters (store s)) = Some cluster ->
  NoDup (Machine_Spec_Roles target) ->
  machinesWithRole MasterRole
    (listObjects Machine_ObjectMeta DefaultNamespace (Machines (store s))) = [target] ->
  machinesWithRole NodeRole
    (listObjects Machine_ObjectMeta DefaultNamespace (Machines (store s))) <> [] ->
  exists countNodes,
    (0 < countNodes)%Z /\
    machineCmdDelete env drainTimeout drainGracePeriodSeconds ip s =
    (Exit (WouldOrphanNodes countNodes), s, []).
Proof.
  intros Hget Hspec Hpm Hcl Hnd Hsole Hnode.
  set (items := listObjects Machine_ObjectMeta DefaultNamespace (Machines (store s))) in *.
  exists (roleEntries NodeRole items). split.
  - destruct (machinesWithRole NodeRole items) as [|m ms] eqn:E; [congruence|].
    assert (m ∈ machinesWithRole NodeRole items) as Hm by (rewrite E; left).
    apply machinesWithRole_holds in Hm. destruct Hm as [Hin Hm].
    exact (roleEntries_some _ _ _ Hin Hm).
  - assert (RoleContains MasterRole (Machine_Spec_Roles target) = true) as Hmaster.
    { assert (target ∈ machinesWithRole MasterRole items) as Ht by (rewrite Hsole; left).
      apply machinesWithRole_holds in Ht. tauto. }
    assert (Hcheck : deleteMustNotOrphanNodes target s =
                     (Exit (WouldOrphanNodes (roleEntries NodeRole items)), s, [])).
    { unfold deleteMustNotOrphanNodes. rewrite Hmaster.
      rewrite run_bind. unfold orFatalf, Machines_List, storeRead. fold items.
      rewrite countRoles_entries, (roleEntries_sole _ _ _ Hsole Hnd).
      assert ((0 <? roleEntries NodeRole items)%Z = true) as ->.
      { apply Z.ltb_lt.
        destruct (machinesWithRole NodeRole items) as [|m ms] eqn:E; [congruence|].
        assert (m ∈ machinesWithRole NodeRole items) as Hm by (rewrite E; left).
        apply machinesWithRole_holds in Hm. destruct Hm as [Hin Hm].
        exact (roleEntries_some _ _ _ Hin Hm). }
      reflexivity. }
    unfold machineCmdDelete.
    rewrite (run_bind_Ret _ _ s target s []);
      [|unfold orFatalf, Machines_Get, storeRead; rewrite Hget; reflexivity].
    rewrite (run_bind_Ret _ _ s spec s []);
      [|unfold orFatalf, lift; rewrite Hspec; reflexivity].
    rewrite (run_bind_Ret _ _ s pm s []);
      [|unfold orFatalf, ProvisionedMachines_Get, storeRead; rewrite Hpm; reflexivity].
    rewrite (run_bind_Ret _ _ s cluster s []);
      [|unfold orFatalf, Clusters_Get, storeRead; rewrite Hcl; reflexivity].
    rewrite (run_bind_Exit _ _ s _ s [] Hcheck). reflexivity.
Qed.

(** ** The events of a computation *)

Section Emits.
Context {W : Type} (P : Event -> Prop).

Lemma emits_mret {A} (a : A) : emits (W:=W) P (mret a).
Proof. intros s o s' tr [= <- <- <-]. constructor. Qed.

Lemma emits_stop {A} (o : outcome A) : emits (W:=W) P (stop o).
Proof. intros s o' s' tr [= <- <- <-]. constructor. Qed.

Lemma emits_lift {A} (r : error + A) : emits (W:=W) P (lift r).
Proof. destruct r; [apply emits_stop|apply emits_mret]. Qed.

Lemma emits_deref {A} (p : option A) : emits (W:=W) P (deref p).
Proof. destruct p; [apply emits_mret|apply emits_stop]. Qed.

Lemma emits_ask {A} (f : W -> A) : emits P (ask f).
Proof. intros s o s' tr [= <- <- <-]. constructor. Qed.

Lemma emits_emit ev : P ev -> emits (W:=W) P (emit ev).
Proof. intros H s o s' tr [= <- <- <-]. constructor; [exact H|constructor]. Qed.

Lemma emits_bind {A B} (m : M W A) (f : A -> M W B) :
  emits P m -> (forall a, emits P (f a)) -> emits P (m ≫= f).
Proof.
  intros Hm Hf s o s' tr. rewrite run_bind.
  destruct (m s) as [[o1 s1] t1] eqn:E1. specialize (Hm _ _ _ _ E1).
  destruct o1 as [a|e|e|]; try (intros [= <- <- <-]; exact Hm).
  destruct (f a s1) as [[o2 s2] t2] eqn:E2. intros [= <- <- <-].
  apply Forall_app. split; [exact Hm|exact (Hf _ _ _ _ _ E2)].
Qed.

Lemma emits_annotate {A} wrap (m : M W A) : emits P m -> emits P (annotate wrap m).
Proof.
  intros Hm s o s' tr. unfold annotate.
  destruct (m s) as [[o1 s1] t1] eqn:E1. specialize (Hm _ _ _ _ E1).
  destruct o1; intros [= <- <- <-]; exact Hm.
Qed.

Lemma emits_orFatalf {A} wrap (m : M W A) : emits P m -> emits P (orFatalf wrap m).
Proof.
  intros Hm s o s' tr. unfold orFatalf.
  destruct (m s) as [[o1 s1] t1] eqn:E1. specialize (Hm _ _ _ _ E1).
  destruct o1; intros [= <- <- <-]; exact Hm.
Qed.

Lemma emits_try {A} (m : M W A) : emits P m -> emits P (try m).
Proof.
  intros Hm s o s' tr. unfold try.
  destruct (m s) as [[o1 s1] t1] eqn:E1. specialize (Hm _ _ _ _ E1).
  destruct o1; intros [= <- <- <-]; exact Hm.
Qed.

Lemma emits_storeRead {A} (f : Store -> error + A) : emits (W:=W) P (storeRead f).
Proof. intros s o s' tr [= <- <- <-]. constructor. Qed.

Lemma emits_storeWrite op f :
  (forall err, P (StoreEv op err)) -> emits (W:=W) P (storeWrite op f).
Proof.
  intros H s o s' tr. unfold storeWrite.
  destruct (f (store s)); intros [= <- <- <-]; (constructor; [apply H|constructor]).
Qed.

Context (env : Collaborators W).

Lemma emits_RunCommand c cmd :
  (forall stdOut stdErr err, P (RunCommandEv c cmd stdOut stdErr err)) ->
  emits P (RunCommand env c cmd).
Proof.
  intros H s o s' tr. unfold RunCommand.
  destruct (transport_RunCommand env c cmd (world s)) as [[[stdOut stdErr] err] w].
  intros [= <- <- <-]. constructor; [apply H|constructor].
Qed.

Lemma emits_WriteFile c path mode data :
  (forall err, P (WriteFileEv c path mode data err)) ->
  emits P (WriteFile env c path mode data).
Proof.
  intros H s o s' tr [= <- <- <-]. constructor; [apply H|constructor].
Qed.

Lemma emits_MkdirAll c path mode :
  (forall err, P (MkdirAllEv c path mode err)) -> emits P (MkdirAll env c path mode).
Proof.
  intros H s o s' tr [= <- <- <-]. constructor; [apply H|constructor].
Qed.

Lemma emits_MoveFile c src dst :
  (forall err, P (MoveFileEv c src dst err)) -> emits P (MoveFile env c src dst).
Proof.
  intros H s o s' tr [= <- <- <-]. constructor; [apply H|constructor].
Qed.

Lemma emits_runChecked c cmd :
  (forall stdOut stdErr err, P (RunCommandEv c cmd stdOut stdErr err)) ->
  emits P (runChecked env c cmd).
Proof.
  intros H. unfold runChecked. apply emits_bind; [apply emits_RunCommand, H|].
  intros [[stdOut stdErr] [err|]]; [apply emits_stop|apply emits_mret].
Qed.

End Emits.

Lemma emits_impl {W A} (P Q : Event -> Prop) (m : M W A) :
  (forall ev, P ev -> Q ev) -> emits P m -> emits Q m.
Proof. intros H Hm s o s' tr E. eapply Forall_impl; [exact (Hm _ _ _ _ E)|exact H]. Qed.

(** ** The kinds of events of each step of the recovery *)

Lemma hasKind_elem ks ev : hasKind ks ev <-> kindOf ev ∈ ks.
Proof.
  unfold hasKind. rewrite existsb_exists. split.
  - intros (k & Hin & Hk). apply bool_decide_eq_true in Hk. subst k.
    apply list_elem_of_In, Hin.
  - intros H. exists (kindOf ev). split; [apply list_elem_of_In, H|].
    apply bool_decide_eq_true. reflexivity.
Qed.

Lemma hasKind_weaken ks ks' ev : ks ⊆ ks' -> hasKind ks ev -> hasKind ks' ev.
Proof. rewrite !hasKind_elem. intros H Hin. apply H, Hin. Qed.

Ltac kinds_subset := apply (bool_decide_unpack _); vm_compute; exact I.

Ltac emits_step :=
  first
    [ apply emits_mret | apply emits_stop | apply emits_lift | apply emits_deref
    | apply emits_ask | apply emits_storeRead
    | apply emits_annotate | apply emits_orFatalf | apply emits_try
    | apply emits_storeWrite; intros; reflexivity
    | apply emits_emit; reflexivity
    | apply emits_runChecked; intros; reflexivity
    | apply emits_RunCommand; intros; reflexivity
    | apply emits_WriteFile; intros; reflexivity
    | apply emits_MkdirAll; intros; reflexivity
    | apply emits_MoveFile; intros; reflexivity
    | apply emits_bind; [|intros ?]
    | match goal with
      | |- emits _ (match ?x with _ => _ end) => destruct x
      | |- emits _ (let '(_, _) := ?x in _) => destruct x
      end ].

Ltac emits_auto := unfold Printf, Println, throw, panic, Fatalf; repeat emits_step.

Section Kinds.
Context {W : Type} (env : Collaborators W).

Lemma emits_sshMachineClientFromSSHConfig sshConfig :
  emits (hasKind [KLog]) (sshMachineClientFromSSHConfig env sshConfig).
Proof. unfold sshMachineClientFromSSHConfig, Secrets_Get. emits_auto. Qed.

Lemma emits_mastersWithClientLoop masters :
  emits (hasKind [KLog]) (mastersWithClientLoop env masters).
Proof.
  induction masters as [|master masters IH]; simpl; [apply emits_mret|].
  apply emits_bind; [emits_auto|intros machineStatus].
  apply emits_bind; [apply emits_annotate, emits_sshMachineClientFromSSHConfig|intros c].
  apply emits_bind; [exact IH|intros mwcs]. apply emits_mret.
Qed.

Lemma emits_removeClusterEtcdMember etcdMember cluster :
  emits (hasKind [KStore]) (removeClusterEtcdMember env etcdMember cluster).
Proof. unfold removeClusterEtcdMember, Clusters_UpdateStatus. emits_auto. Qed.

Lemma emits_insertClusterEtcdMember etcdMember cluster :
  emits (hasKind [KStore]) (insertClusterEtcdMember env etcdMember cluster).
Proof. unfold insertClusterEtcdMember, Clusters_UpdateStatus. emits_auto. Qed.

Lemma emits_updateMachineEtcdMember etcdMember machine :
  emits (hasKind [KStore]) (updateMachineEtcdMember env etcdMember machine).
Proof. unfold updateMachineEtcdMember, Machines_UpdateStatus. emits_auto. Qed.

Lemma emits_etcdMemberFromMachine client :
  emits (hasKind [KInfo]) (etcdMemberFromMachine env client).
Proof. unfold etcdMemberFromMachine. emits_auto. Qed.

Lemma emits_resetLoop mwcs cluster :
  emits (hasKind [KReset; KStore]) (resetLoop env mwcs cluster).
Proof.
  revert cluster. induction mwcs as [|mwc rest IH]; intros cluster; simpl;
    [apply emits_mret|].
  apply emits_bind; [unfold resetEtcdSkipRemoveMember; emits_auto|intros _].
  apply emits_bind; [emits_auto|intros machineStatus].
  apply emits_bind; [emits_auto|intros etcdMember].
  apply emits_bind; [|intros cluster'; apply IH].
  apply emits_annotate.
  eapply emits_impl; [|apply emits_removeClusterEtcdMember].
  intros ev. apply hasKind_weaken. kinds_subset.
Qed.

Lemma emits_writeSecretToMachine client secret certKey keyKey certPath keyPath :
  emits (hasKind [KFile])
        (writeSecretToMachine env client secret certKey keyKey certPath keyPath).
Proof. unfold writeSecretToMachine. emits_auto. Qed.

Lemma emits_writeCALoop mwcs secret :
  emits (hasKind [KFile]) (writeCALoop env mwcs secret).
Proof.
  induction mwcs as [|mwc rest IH]; simpl; [apply emits_mret|].
  apply emits_bind; [apply emits_annotate, emits_writeSecretToMachine|intros _; exact IH].
Qed.

Lemma emits_recoverFirstMaster localPath remotePath firstMWC cluster :
  emits (hasKind [KLog; KFile; KInit; KInfo; KStore])
        (recoverFirstMaster env localPath remotePath firstMWC cluster).
Proof.
  unfold recoverFirstMaster.
  apply emits_bind; [emits_auto|intros _].
  apply emits_bind; [unfold writeEtcdSnapshot; emits_auto|intros _].
  apply emits_bind; [unfold etcdadmInitFromSnapshot; emits_auto|intros _].
  apply emits_bind; [|intros firstEtcdMember].
  { apply emits_annotate. eapply emits_impl; [|apply emits_etcdMemberFromMachine].
    intros ev. apply hasKind_weaken. kinds_subset. }
  apply emits_bind; [|intros _].
  { apply emits_annotate. eapply emits_impl; [|apply emits_updateMachineEtcdMember].
    intros ev. apply hasKind_weaken. kinds_subset. }
  apply emits_bind; [|intros cluster'; apply emits_mret].
  apply emits_annotate. eapply emits_impl; [|apply emits_insertClusterEtcdMember].
  intros ev. apply hasKind_weaken. kinds_subset.
Qed.

Lemma emits_joinLoop endpoint others cluster :
  emits (hasKind [KLog; KJoin; KInfo; KStore]) (joinLoop env endpoint others cluster).
Proof.
  revert cluster. induction others as [|mwc rest IH]; intros cluster; simpl;
    [apply emits_mret|].
  apply emits_bind; [emits_auto|intros _].
  apply emits_bind; [unfold etcdadmJoin; emits_auto|intros _].
  apply emits_bind; [|intros etcdMember].
  { apply emits_annotate. eapply emits_impl; [|apply emits_etcdMemberFromMachine].
    intros ev. apply hasKind_weaken. kinds_subset. }
  apply emits_bind; [|intros _].
  { apply emits_annotate. eapply emits_impl; [|apply emits_updateMachineEtcdMember].
    intros ev. apply hasKind_weaken. kinds_subset. }
  apply emits_bind; [|intros cluster'; apply IH].
  apply emits_annotate. eapply emits_impl; [|apply emits_insertClusterEtcdMember].
  intros ev. apply hasKind_weaken. kinds_subset.
Qed.

Lemma emits_restartLoop mwcs :
  emits (hasKind [KLog; KRestart]) (restartLoop env mwcs).
Proof.
  induction mwcs as [|mwc rest IH]; simpl; [apply emits_mret|].
  apply emits_bind; [emits_auto|intros _].
  apply emits_bind; [unfold restartKubelet; emits_auto|intros r].
  apply emits_bind; [destruct r; emits_auto|intros _; exact IH].
Qed.

End Kinds.

Lemma machineCmdDelete_sole_master_aborts_witness :
  exists countNodes,
    (0 < countNodes)%Z /\
    machineCmdDelete (Example.collaborators false false []) 300 30 "10.0.0.1"
                     (Example.deployment [Example.master1; Example.node1]) =
    (Exit (WouldOrphanNodes countNodes),
     Example.deployment [Example.master1; Example.node1], []).
Proof.
  apply (machineCmdDelete_sole_master_aborts
           (Example.collaborators false false []) 300 30 "10.0.0.1"
           (Example.deployment [Example.master1; Example.node1])
           Example.master1
           {| SPMachineSpec_TypeMeta := Example.providerTypeMeta "MachineSpec";
              ProvisionedMachineName := "10.0.0.1";
              SPMachineSpec_Roles := [MasterRole] |}
           (Example.provisionedMachine "10.0.0.1") Example.cluster);
    try reflexivity.
  - apply NoDup_singleton.
  - discriminate.
Defined.

(** ** Recovery without masters *)

(** C5: with an empty list of masters [recoverEtcd] returns [nil]; it
    makes no event at all (no remote command, no call that changes the
    store) and leaves the state as it was. *)
Theorem recoverEtcd_no_masters {W : Type} (env : Collaborators W)
    (localPath remotePath : string) (etcdCASecret : option Secret)
    (cluster : Cluster) (s : State W) :
  recoverEtcd env localPath remotePath etcdCASecret cluster [] s = (Ret tt, s, []).
Proof. reflexivity. Qed.

(** ** The unchecked error of [machineCmdCreate] *)

(** C2, on the code as written: when the bidirectional bind fails,
    [newProvisionedMachineAndMachine] returns the encoding error, but
    [machineCmdCreate] does not test it: it hands the nil provisioned
    machine to the store and exits with the error of that create. *)
Theorem machineCmdCreate_bind_error_dropped :
  let env := Example.collaborators true false [] in
  let s := Example.deployment [Example.master1] in
  let sshConfig :=
    {| Host := "10.0.0.9"; Port := 22; PublicKeys := ["ssh-ed25519 AAAA"];
       CredentialSecret := {| LocalObjectReference_Name := "sshCredential" |} |} in
  newProvisionedMachineAndMachine env "10.0.0.9" MasterRole "eth0" sshConfig s =
    (Err (Errorf
            "unable to create bi-directional bind between machine and provisioned machine: %v"
            [AErr (Errorf "encoding failed: %v" [AStr "no serializer"])]), s, [])
  /\ machineCmdCreate env "10.0.0.9" "eth0" "Master" "22" "host.pub" s =
     (Exit (Errorf "Unable to create provisioned machine: %v"
                   [AErr (Errorf "object is nil" [])]),
      s,
      [StoreEv (CreateProvisionedMachine None) (Some (Errorf "object is nil" []))]).
Proof. split; vm_compute; reflexivity. Qed.

(** ** Inverting runs *)

Section Inverting.
Context {W : Type}.

Lemma bind_inv {A B} (m : M W A) (f : A -> M W B) s o s' tr :
  (m ≫= f) s = (o, s', tr) ->
  (exists a s1 t1 t2,
      m s = (Ret a, s1, t1) /\ f a s1 = (o, s', t2) /\ tr = t1 ++ t2)
  \/ (exists o1, m s = (o1, s', tr) /\ (forall a, o1 <> Ret a) /\ o = castFailure o1).
Proof.
  rewrite run_bind. destruct (m s) as [[o1 s1] t1].
  destruct o1 as [a|e|e|].
  - destruct (f a s1) as [[o2 s2] t2] eqn:E2. intros [= <- <- <-].
    left. exists a, s1, t1, t2. repeat split. exact E2.
  - intros [= <- <- <-]. right. exists (Err e). repeat split. discriminate.
  - intros [= <- <- <-]. right. exists (Exit e). repeat split. discriminate.
  - intros [= <- <- <-]. right. exists Panic. repeat split. discriminate.
Qed.

Lemma bind_inv_Ret {A B} (m : M W A) (f : A -> M W B) s b s' tr :
  (m ≫= f) s = (Ret b, s', tr) ->
  exists a s1 t1 t2,
    m s = (Ret a, s1, t1) /\ f a s1 = (Ret b, s', t2) /\ tr = t1 ++ t2.
Proof.
  intros H. apply bind_inv in H. destruct H as [H|(o1 & _ & _ & H)]; [exact H|].
  destruct o1; discriminate.
Qed.

Lemma annotate_inv_Ret {A} wrap (m : M W A) s a s' tr :
  annotate wrap m s = (Ret a, s', tr) -> m s = (Ret a, s', tr).
Proof.
  unfold annotate. destruct (m s) as [[o s1] t1]. destruct o; intros [= <- <- <-];
    reflexivity.
Qed.

Lemma annotate_not_Exit {A} wrap (m : M W A) s e s' tr :
  annotate wrap m s = (Exit e, s', tr) -> m s = (Exit e, s', tr).
Proof.
  unfold annotate. destruct (m s) as [[o s1] t1]. destruct o; intros [= <- <- <-];
    reflexivity.
Qed.

Lemma annotate_inv_Panic {A} wrap (m : M W A) s s' tr :
  annotate wrap m s = (Panic, s', tr) -> m s = (Panic, s', tr).
Proof.
  unfold annotate. destruct (m s) as [[o s1] t1]. destruct o; intros [= <- <-];
    reflexivity.
Qed.

Lemma annotate_inv_Err {A} wrap (m : M W A) s e s' tr :
  annotate wrap m s = (Err e, s', tr) -> exists e0, e = wrap e0 /\ m s = (Err e0, s', tr).
Proof.
  unfold annotate. destruct (m s) as [[o s1] t1]. destruct o; intros [= <- <- <-].
  eexists; split; reflexivity.
Qed.

End Inverting.

(** ** The nil member of the reset loop *)

Section ResetLoop.
Context {W : Type} (env : Collaborators W).

Lemma mastersWithClientLoop_machines masters s mwcs s0 t0 :
  mastersWithClientLoop env masters s = (Ret mwcs, s0, t0) ->
  MWC_Machine <$> mwcs = masters.
Proof.
  revert s mwcs s0 t0. induction masters as [|master masters IH];
    intros s mwcs s0 t0; simpl.
  - intros [= <- <- <-]. reflexivity.
  - intros H.
    apply bind_inv_Ret in H. destruct H as (st & s1 & t1 & t2 & _ & H & _).
    apply bind_inv_Ret in H. destruct H as (c & s2 & t3 & t4 & _ & H & _).
    apply bind_inv_Ret in H. destruct H as (rest & s3 & t5 & t6 & Hrest & H & _).
    injection H as <- <- <-. simpl. f_equal. exact (IH _ _ _ _ Hrest).
Qed.

Lemma resetLoop_app before rest cluster s cluster1 s1 t1 :
  resetLoop env before cluster s = (Ret cluster1, s1, t1) ->
  resetLoop env (before ++ rest) cluster s =
  let '(o, s2, t2) := resetLoop env rest cluster1 s1 in (o, s2, t1 ++ t2).
Proof.
  revert cluster s t1. induction before as [|mwc before IH]; intros cluster s t1; simpl.
  - intros [= <- <- <-]. destruct (resetLoop env rest cluster s) as [[o s2] t2].
    reflexivity.
  - intros H.
    apply bind_inv_Ret in H. destruct H as ([] & sa & ta & ta' & Ha & H & ->).
    apply bind_inv_Ret in H. destruct H as (st & sb & tb & tb' & Hb & H & ->).
    apply bind_inv_Ret in H. destruct H as (mem & sc & tc & tc' & Hc & H & ->).
    apply bind_inv_Ret in H. destruct H as (cl & sd & td & td' & Hd & H & ->).
    rewrite (run_bind_Ret _ _ _ _ _ _ Ha), (run_bind_Ret _ _ _ _ _ _ Hb),
            (run_bind_Ret _ _ _ _ _ _ Hc), (run_bind_Ret _ _ _ _ _ _ Hd).
    rewrite (IH _ _ _ H).
    destruct (resetLoop env rest cluster1 s1) as [[o s2] t2].
    rewrite <- !app_assoc. reflexivity.
Qed.

Lemma resetLoop_nil_member mwc rest cluster s machineStatus stdOut stdErr w :
  transport_RunCommand env (MWC_Client mwc) resetCommand (world s) =
    ((stdOut, stdErr, None), w) ->
  GetMachineStatus env (MWC_Machine mwc) = inr machineStatus ->
  SPMachineStatus_EtcdMember machineStatus = None ->
  resetLoop env (mwc :: rest) cluster s =
  (Panic, {| store := store s; world := w |},
   [RunCommandEv (MWC_Client mwc) resetCommand stdOut stdErr None]).
Proof.
  intros Hrun Hst Hnil. simpl.
  rewrite (run_bind_Ret _ _ s tt {| store := store s; world := w |}
             [RunCommandEv (MWC_Client mwc) resetCommand stdOut stdErr None]).
  2:{ unfold annotate, resetEtcdSkipRemoveMember, runChecked, RunCommand.
      rewrite !run_bind. fold resetCommand. rewrite Hrun. reflexivity. }
  rewrite (run_bind_Ret _ _ _ machineStatus {| store := store s; world := w |} []).
  2:{ unfold annotate, lift. rewrite Hst. reflexivity. }
  rewrite (run_bind_Panic _ _ _ {| store := store s; world := w |} []).
  2:{ rewrite Hnil. reflexivity. }
  reflexivity.
Qed.

End ResetLoop.

(** C10: the loop "Reset all masters" of [recoverEtcd] dereferences
    [machineStatus.EtcdMember] without a nil test: when the sessions are
    established, the masters before one are reset, its own reset
    command succeeds and its decoded status carries no member, the
    recovery panics; it does not return an error. The blocks of the
    create and delete commands test the pointer and skip the cluster
    status update without any event. *)
Theorem recoverEtcd_nil_member_panics {W : Type} (env : Collaborators W)
    (localPath remotePath : string) (etcdCASecret : option Secret)
    (cluster : Cluster) (masters : list Machine) (s : State W)
    (before after : list mastersWithClientEntry) (mwc : mastersWithClientEntry)
    (s0 s1 : State W) (t0 t1 : list Event) (cluster1 : Cluster)
    (machineStatus : SPMachineStatus) (stdOut stdErr : string) (w : W) :
  mastersWithClientLoop env masters s = (Ret (before ++ mwc :: after), s0, t0) ->
  resetLoop env before cluster s0 = (Ret cluster1, s1, t1) ->
  transport_RunCommand env (MWC_Client mwc) resetCommand (world s1) =
    ((stdOut, stdErr, None), w) ->
  GetMachineStatus env (MWC_Machine mwc) = inr machineStatus ->
  SPMachineStatus_EtcdMember machineStatus = None ->
  (exists s' tr,
     recoverEtcd env localPath remotePath etcdCASecret cluster masters s = (Panic, s', tr))
  /\ machineCmdCreate_updateClusterStatus env machineStatus cluster s = (Ret tt, s, [])
  /\ machineCmdDelete_updateClusterStatus env machineStatus cluster s = (Ret tt, s, []).
Proof.
  intros Hsess Hbefore Hrun Hst Hnil. split.
  - unfold recoverEtcd.
    assert ((length masters =? 0)%nat = false) as ->.
    { apply mastersWithClientLoop_machines in Hsess. rewrite <- Hsess.
      rewrite length_fmap, length_app. simpl. apply Nat.eqb_neq. lia. }
    rewrite (run_bind_Ret _ _ _ _ _ _ Hsess).
    rewrite (run_bind_Ret _ _ s0 tt s0
               [LogEv "%s" [AStr "[recover etcd] Cleaning up degraded etcd cluster on all masters"]])
      by reflexivity.
    rewrite (run_bind_Panic (resetLoop env (before ++ mwc :: after) cluster) _ s0
               {| store := store s1; world := w |}
               (t1 ++ [RunCommandEv (MWC_Client mwc) resetCommand stdOut stdErr None])).
    + eexists _, _. reflexivity.
    + rewrite (resetLoop_app env _ _ _ _ _ _ _ Hbefore).
      rewrite (resetLoop_nil_member env mwc after cluster1 s1 machineStatus
                 stdOut stdErr w Hrun Hst Hnil).
      reflexivity.
  - unfold machineCmdCreate_updateClusterStatus, machineCmdDelete_updateClusterStatus.
    rewrite Hnil. split; reflexivity.
Qed.

Lemma recoverEtcd_nil_member_panics_witness :
  exists s' tr,
    recoverEtcd (Example.collaborators false false ["https://10.0.0.1:2379"])
                "snapshot.db" EtcdSnapshotRemotePath (Some Example.etcdCA) Example.cluster
                [Example.master1; Example.machine "10.0.0.2" [MasterRole] "nomember"]
                (Example.deployment
                   [Example.master1; Example.machine "10.0.0.2" [MasterRole] "nomember"])
    = (Panic, s', tr).
Proof.
  pose (env := Example.collaborators false false ["https://10.0.0.1:2379"]).
  pose (m2 := Example.machine "10.0.0.2" [MasterRole] "nomember").
  pose (s := Example.deployment [Example.master1; m2]).
  pose (c := {| Client_host := "10.0.0.1"; Client_port := 22;
                Client_username := "root"; Client_privateKey := "private key";
                Client_publicKeys := ["ssh-ed25519 AAAA"];
                Client_insecureIgnoreHostKey := false |}).
  refine (proj1 (recoverEtcd_nil_member_panics env
            "snapshot.db" EtcdSnapshotRemotePath (Some Example.etcdCA) Example.cluster
            [Example.master1; m2] s
            [{| MWC_Machine := Example.master1; MWC_Client := c |}] []
            {| MWC_Machine := m2; MWC_Client := c |}
            s s [] _ Example.cluster
            {| SPMachineStatus_TypeMeta := Example.providerTypeMeta "MachineStatus";
               SPMachineStatus_EtcdMember := None;
               SPMachineStatus_SSHConfig := Some Example.sshConfig |}
            "" "" tt _ _ _ _ _)); vm_compute; reflexivity.
Defined.

(** ** The course of a recovery run *)

Section Course.
Context {W : Type} (env : Collaborators W).

Lemma try_restartKubelet_returns client s :
  exists r s1 ev,
    try (restartKubelet env client) s = (Ret r, s1, [ev]) /\ kindOf ev = KRestart.
Proof.
  unfold restartKubelet, runChecked, RunCommand, try. rewrite !run_bind.
  destruct (transport_RunCommand env client "systemctl restart kubelet" (world s))
    as [[[stdOut stdErr] err] w].
  destruct err as [e|]; eexists _, _, _; (split; [reflexivity|reflexivity]).
Qed.

Lemma restartLoop_returns mwcs s :
  exists s' tr, restartLoop env mwcs s = (Ret tt, s', tr).
Proof.
  revert s. induction mwcs as [|mwc rest IH]; intros s; simpl.
  - eexists _, _. reflexivity.
  - rewrite (run_bind_Ret _ _ s tt s
               [LogEv "[recover etcd] Restarting kubelet on master %q to trigger immediate API server restart"
                      [AStr (Machine_Name (MWC_Machine mwc))]]) by reflexivity.
    destruct (try_restartKubelet_returns (MWC_Client mwc) s) as (r & s1 & ev & E & _).
    rewrite (run_bind_Ret _ _ _ _ _ _ E).
    destruct (IH s1) as (s2 & t2 & E2).
    destruct r as [err|[]].
    + rewrite (run_bind_Ret _ _ s1 tt s1
                 [LogEv "Warning: Unable to restart kubelet on machine %q: %v"
                        [AStr (Machine_Name (MWC_Machine mwc)); AErr err]]) by reflexivity.
      rewrite E2. eexists _, _. reflexivity.
    + rewrite (run_bind_Ret _ _ s1 tt s1 []) by reflexivity.
      rewrite E2. eexists _, _. reflexivity.
Qed.

Lemma recoverEtcd_recoverRun localPath remotePath etcdCASecret cluster masters s o s' tr :
  masters <> [] ->
  recoverEtcd env localPath remotePath etcdCASecret cluster masters s = (o, s', tr) ->
  recoverRun env localPath remotePath etcdCASecret cluster masters s o s' tr.
Proof.
  intros Hne. unfold recoverEtcd.
  destruct masters as [|m0 ms]; [congruence|]. cbn [length Nat.eqb].
  set (masters := m0 :: ms).
  rewrite run_bind.
  destruct (mastersWithClientLoop env masters s) as [[o1 s0] t0] eqn:E1.
  destruct o1 as [mwcs|e|e|];
    try (intros [= <- <- <-];
         first [ exact (run_sessions env _ _ _ _ _ s (Err e) _ _ E1 ltac:(intros ?; discriminate))
               | exact (run_sessions env _ _ _ _ _ s (Exit e) _ _ E1 ltac:(intros ?; discriminate))
               | exact (run_sessions env _ _ _ _ _ s Panic _ _ E1 ltac:(intros ?; discriminate)) ]).
  rewrite run_bind. cbn [Println Printf emit].
  rewrite run_bind.
  destruct (resetLoop env mwcs cluster s0) as [[o2 s1] t2] eqn:E2.
  destruct o2 as [cluster1|e|e|];
    try (intros [= <- <- <-];
         first [ exact (run_reset env _ _ _ _ _ s _ _ _ (Err e) _ _ E1 E2 ltac:(intros ?; discriminate))
               | exact (run_reset env _ _ _ _ _ s _ _ _ (Exit e) _ _ E1 E2 ltac:(intros ?; discriminate))
               | exact (run_reset env _ _ _ _ _ s _ _ _ Panic _ _ E1 E2 ltac:(intros ?; discriminate)) ]).
  rewrite run_bind. cbn [Println Printf emit].
  rewrite run_bind.
  destruct (writeCALoop env mwcs etcdCASecret s1) as [[o3 s2] t3] eqn:E3.
  destruct o3 as [[]|e|e|];
    try (intros [= <- <- <-];
         first [ exact (run_writeCA env _ _ _ _ _ s _ _ _ _ _ _ (Err e) _ _ E1 E2 E3 ltac:(intros ?; discriminate))
               | exact (run_writeCA env _ _ _ _ _ s _ _ _ _ _ _ (Exit e) _ _ E1 E2 E3 ltac:(intros ?; discriminate))
               | exact (run_writeCA env _ _ _ _ _ s _ _ _ _ _ _ Panic _ _ E1 E2 E3 ltac:(intros ?; discriminate)) ]).
  destruct mwcs as [|firstMWC otherMWCs].
  { apply mastersWithClientLoop_machines in E1. discriminate. }
  rewrite run_bind.
  destruct (recoverFirstMaster env localPath remotePath firstMWC cluster1 s2)
    as [[o4 s3] t4] eqn:E4.
  destruct o4 as [[firstEtcdMember cluster2]|e|e|];
    try (intros [= <- <- <-];
         first [ exact (run_first env _ _ _ _ _ s _ _ _ _ _ _ _ _ _ (Err e) _ _ E1 E2 E3 E4 ltac:(intros ?; discriminate))
               | exact (run_first env _ _ _ _ _ s _ _ _ _ _ _ _ _ _ (Exit e) _ _ E1 E2 E3 E4 ltac:(intros ?; discriminate))
               | exact (run_first env _ _ _ _ _ s _ _ _ _ _ _ _ _ _ Panic _ _ E1 E2 E3 E4 ltac:(intros ?; discriminate)) ]).
  destruct (ClientURLs firstEtcdMember) as [|endpoint urls] eqn:Eurls.
  { intros [= <- <- <-]. rewrite app_nil_r.
    exact (run_noClientURLs env _ _ _ _ _ s _ _ _ _ _ _ _ _ _ _ _ _ _ E1 E2 E3 E4 Eurls). }
  rewrite run_bind.
  destruct (joinLoop env endpoint otherMWCs cluster2 s3) as [[o5 s4] t5] eqn:E5.
  destruct o5 as [cluster3|e|e|];
    try (intros [= <- <- <-];
         first [ exact (run_join env _ _ _ _ _ s _ _ _ _ _ _ _ _ _ _ _ _ _ _ _ (Err e) _ _ E1 E2 E3 E4 Eurls E5 ltac:(intros ?; discriminate))
               | exact (run_join env _ _ _ _ _ s _ _ _ _ _ _ _ _ _ _ _ _ _ _ _ (Exit e) _ _ E1 E2 E3 E4 Eurls E5 ltac:(intros ?; discriminate))
               | exact (run_join env _ _ _ _ _ s _ _ _ _ _ _ _ _ _ _ _ _ _ _ _ Panic _ _ E1 E2 E3 E4 Eurls E5 ltac:(intros ?; discriminate)) ]).
  rewrite run_bind.
  destruct (restartLoop_returns (firstMWC :: otherMWCs) s4) as (s5 & t6 & E6).
  rewrite E6. intros [= <- <- <-]. rewrite app_nil_r.
  exact (run_completed env _ _ _ _ _ s _ _ _ _ _ _ _ _ _ _ _ _ _ _ _ _ _ _ _ _
                       E1 E2 E3 E4 Eurls E5 E6).
Qed.

End Course.

(** ** The kubelet restarts *)

Section Restart.
Context {W : Type} (env : Collaborators W).

Lemma try_restartKubelet_run client s :
  exists stdOut stdErr err w,
    try (restartKubelet env client) s =
    (Ret (match err with
          | Some e => inl (commandError restartCommand stdOut stdErr e)
          | None => inr tt
          end),
     {| store := store s; world := w |},
     [RunCommandEv client restartCommand stdOut stdErr err]).
Proof.
  unfold restartKubelet, runChecked, RunCommand, try. rewrite !run_bind.
  fold restartCommand.
  destruct (transport_RunCommand env client restartCommand (world s))
    as [[[stdOut stdErr] err] w].
  exists stdOut, stdErr, err, w. destruct err; reflexivity.
Qed.

Lemma restartLoop_restartTrace mwcs s o s' tr :
  restartLoop env mwcs s = (o, s', tr) -> o = Ret tt /\ restartTrace mwcs tr.
Proof.
  revert s o s' tr. induction mwcs as [|mwc rest IH]; intros s o s' tr; simpl.
  - intros [= <- <- <-]. split; [reflexivity|constructor].
  - rewrite (run_bind_Ret _ _ s tt s [restartingLog mwc]) by reflexivity.
    destruct (try_restartKubelet_run (MWC_Client mwc) s) as (stdOut & stdErr & err & w & E).
    rewrite (run_bind_Ret _ _ _ _ _ _ E).
    destruct err as [e|].
    + rewrite (run_bind_Ret _ _ _ tt {| store := store s; world := w |}
                 [LogEv "Warning: Unable to restart kubelet on machine %q: %v"
                        [AStr (Machine_Name (MWC_Machine mwc));
                         AErr (commandError restartCommand stdOut stdErr e)]])
        by reflexivity.
      destruct (restartLoop env rest {| store := store s; world := w |})
        as [[o2 s2] t2] eqn:E2.
      destruct (IH _ _ _ _ E2) as [-> Htr]. intros [= <- <- <-].
      split; [reflexivity|]. apply restartTrace_warned, Htr.
    + rewrite (run_bind_Ret _ _ _ tt {| store := store s; world := w |} [])
        by reflexivity.
      destruct (restartLoop env rest {| store := store s; world := w |})
        as [[o2 s2] t2] eqn:E2.
      destruct (IH _ _ _ _ E2) as [-> Htr]. intros [= <- <- <-].
      split; [reflexivity|]. apply restartTrace_restarted, Htr.
Qed.

Ltac phase_kinds :=
  repeat first [ apply Forall_app; split
               | apply Forall_cons; split; [reflexivity|]
               | apply Forall_nil; exact I ];
  try match goal with
  | E : mastersWithClientLoop _ _ _ = (_, _, ?t) |- Forall _ ?t =>
    eapply Forall_impl; [exact (emits_mastersWithClientLoop _ _ _ _ _ _ E)|]
  | E : resetLoop _ _ _ _ = (_, _, ?t) |- Forall _ ?t =>
    eapply Forall_impl; [exact (emits_resetLoop _ _ _ _ _ _ _ E)|]
  | E : writeCALoop _ _ _ _ = (_, _, ?t) |- Forall _ ?t =>
    eapply Forall_impl; [exact (emits_writeCALoop _ _ _ _ _ _ _ E)|]
  | E : recoverFirstMaster _ _ _ _ _ _ = (_, _, ?t) |- Forall _ ?t =>
    eapply Forall_impl; [exact (emits_recoverFirstMaster _ _ _ _ _ _ _ _ _ E)|]
  | E : joinLoop _ _ _ _ _ = (_, _, ?t) |- Forall _ ?t =>
    eapply Forall_impl; [exact (emits_joinLoop _ _ _ _ _ _ _ _ E)|]
  | E : restartLoop _ _ _ = (_, _, ?t) |- Forall _ ?t =>
    eapply Forall_impl; [exact (emits_restartLoop _ _ _ _ _ _ E)|]
  end;
  try (intros ?; apply hasKind_weaken; kinds_subset).

Lemma hasKind_not ks k ev : hasKind ks ev -> k ∉ ks -> kindOf ev <> k.
Proof. rewrite hasKind_elem. intros H Hk E. apply Hk. rewrite <- E. exact H. Qed.

Lemma recoverRun_restarts localPath remotePath etcdCASecret cluster masters s o s' tr :
  recoverRun env localPath remotePath etcdCASecret cluster masters s o s' tr ->
  (Forall (hasKind beforeRestartKinds) tr /\ failed o)
  \/ (o = Ret tt /\
      exists mwcs t_before t_restart,
        MWC_Machine <$> mwcs = masters /\
        tr = t_before ++ t_restart /\
        Forall (hasKind beforeRestartKinds) t_before /\
        restartTrace mwcs t_restart).
Proof.
  intros Hrun. destruct Hrun.
  1-4,6: left; (split; [phase_kinds|]);
         match goal with H : failed ?o |- _ =>
           destruct o; [exfalso; eapply H; reflexivity|intros ?; discriminate..]
         end.
  - left. split; [phase_kinds|intros ?; discriminate].
  - right. split; [reflexivity|].
    exists (firstMWC :: otherMWCs),
           (t0 ++ cleaningLog :: t2 ++ writingCALog :: t3 ++ t4 ++ t5), t6.
    split; [eapply mastersWithClientLoop_machines; eassumption|].
    split; [rewrite <- !app_assoc; simpl; rewrite <- !app_assoc; simpl;
            rewrite <- !app_assoc; reflexivity|].
    split; [phase_kinds|].
    match goal with H : restartLoop _ _ _ = _ |- _ =>
      apply restartLoop_restartTrace in H; destruct H as [_ H]; exact H end.
Qed.

End Restart.

(** C9: in a run of [recoverEtcd] that reaches the last step (a kubelet
    restart is attempted), the result is success whatever the restarts
    return: the trace ends with the restart of every master in order,
    where a restart that failed is followed by its warning in the log
    and by the restarts of the masters after it. *)
Theorem recoverEtcd_restart_failures_not_fatal {W : Type} (env : Collaborators W)
    (localPath remotePath : string) (etcdCASecret : option Secret)
    (cluster : Cluster) (masters : list Machine)
    (s : State W) (o : outcome unit) (s' : State W) (tr : list Event) :
  recoverEtcd env localPath remotePath etcdCASecret cluster masters s = (o, s', tr) ->
  (exists ev, ev ∈ tr /\ kindOf ev = KRestart) ->
  o = Ret tt /\
  exists mwcs t_before t_restart,
    MWC_Machine <$> mwcs = masters /\
    tr = t_before ++ t_restart /\
    Forall (hasKind beforeRestartKinds) t_before /\
    restartTrace mwcs t_restart.
Proof.
  intros Hrun (ev & Hin & Hkind).
  destruct masters as [|m0 ms].
  { injection Hrun as <- <- <-. inversion Hin. }
  apply recoverEtcd_recoverRun in Hrun; [|discriminate].
  apply recoverRun_restarts in Hrun. destruct Hrun as [[Hall _]|Hdone].
  - exfalso. rewrite Forall_forall in Hall. specialize (Hall _ Hin).
    apply (hasKind_not _ KRestart) in Hall; [contradiction|].
    apply (bool_decide_unpack _). vm_compute. exact I.
  - exact Hdone.
Qed.

Lemma recoverEtcd_restart_failures_not_fatal_witness :
  exists o s' tr,
    recoverEtcd (Example.collaborators false true ["https://10.0.0.1:2379"])
                "snapshot.db" EtcdSnapshotRemotePath (Some Example.etcdCA)
                Example.cluster [Example.master1; Example.master2]
                (Example.deployment [Example.master1; Example.master2]) = (o, s', tr)
    /\ o = Ret tt
    /\ exists mwcs t_before t_restart,
         MWC_Machine <$> mwcs = [Example.master1; Example.master2] /\
         tr = t_before ++ t_restart /\
         Forall (hasKind beforeRestartKinds) t_before /\
         restartTrace mwcs t_restart.
Proof.
  eexists _, _, _. split; [vm_compute; reflexivity|].
  eapply (recoverEtcd_restart_failures_not_fatal
            (Example.collaborators false true ["https://10.0.0.1:2379"])
            "snapshot.db" EtcdSnapshotRemotePath (Some Example.etcdCA)
            Example.cluster [Example.master1; Example.master2]
            (Example.deployment [Example.master1; Example.master2])).
  - vm_compute. reflexivity.
  - exists (RunCommandEv
              {| Client_host := "10.0.0.1"; Client_port := 22;
                 Client_username := "root"; Client_privateKey := "private key";
                 Client_publicKeys := ["ssh-ed25519 AAAA"];
                 Client_insecureIgnoreHostKey := false |}
              restartCommand "" "" (Some (Errorf "exit status 1" []))).
    split; [|reflexivity].
    repeat first [apply list_elem_of_here | apply list_elem_of_further].
Defined.

(** ** Resetting before bootstrapping *)

Section Reset.
Context {W : Type} (env : Collaborators W).

Lemma runChecked_inv client cmd s o s' tr :
  runChecked env client cmd s = (o, s', tr) ->
  exists stdOut stdErr err,
    tr = [RunCommandEv client cmd stdOut stdErr err] /\
    o = match err with
        | Some e => Err (commandError cmd stdOut stdErr e)
        | None => Ret stdOut
        end.
Proof.
  unfold runChecked, RunCommand. rewrite run_bind.
  destruct (transport_RunCommand env client cmd (world s)) as [[[stdOut stdErr] err] w].
  destruct err; intros [= <- <- <-]; eexists _, _, _; split; reflexivity.
Qed.

Lemma resetEtcdSkipRemoveMember_inv client s o s' tr :
  resetEtcdSkipRemoveMember env client s = (o, s', tr) ->
  exists stdOut stdErr err,
    tr = [RunCommandEv client resetCommand stdOut stdErr err] /\
    o = match err with
        | Some e => Err (commandError resetCommand stdOut stdErr e)
        | None => Ret tt
        end.
Proof.
  unfold resetEtcdSkipRemoveMember. fold resetCommand. intros H.
  apply bind_inv in H. destruct H as [(a & s1 & t1 & t2 & H1 & H2 & ->)|(o1 & H1 & Hf & ->)].
  - injection H2 as <- <- <-. apply runChecked_inv in H1.
    destruct H1 as (stdOut & stdErr & err & -> & Ho).
    exists stdOut, stdErr, err. split; [reflexivity|]. destruct err; [discriminate|reflexivity].
  - apply runChecked_inv in H1. destruct H1 as (stdOut & stdErr & err & -> & ->).
    exists stdOut, stdErr, err. split; [reflexivity|].
    destruct err; [reflexivity|]. exfalso. eapply Hf. reflexivity.
Qed.

Lemma resetEtcdSkipRemoveMember_store client s o s' tr :
  resetEtcdSkipRemoveMember env client s = (o, s', tr) -> store s' = store s.
Proof.
  unfold resetEtcdSkipRemoveMember, runChecked, RunCommand.
  cbv [mbind M_bind mret M_ret throw stop].
  destruct (transport_RunCommand env client _ (world s)) as [[[stdOut stdErr] err] w].
  destruct err; intros [= <- <- <-]; reflexivity.
Qed.

Lemma removeClusterEtcdMember_Ret etcdMember cluster s cluster' s' tr :
  removeClusterEtcdMember env etcdMember cluster s = (Ret cluster', s', tr) ->
  exists clusterStatus,
    GetClusterStatus env cluster = inr clusterStatus /\
    PutClusterStatus env
      {| EtcdMembers :=
           EtcdMemberSet.List
             (EtcdMemberSet.Delete etcdMember
                (EtcdMemberSet.NewEtcdMemberSet (EtcdMembers clusterStatus))) |}
      cluster = inr cluster' /\
    tr = [StoreEv (UpdateClusterStatus cluster') None] /\
    statusUpdated cluster' (store s) (store s').
Proof.
  unfold removeClusterEtcdMember. intros H.
  apply bind_inv_Ret in H. destruct H as (cs & s1 & t1 & t2 & H1 & H & ->).
  apply bind_inv_Ret in H. destruct H as (cl & s2 & t3 & t4 & H2 & H & ->).
  apply bind_inv_Ret in H. destruct H as ([] & s3 & t5 & t6 & H3 & H & ->).
  injection H as <- <- <-.
  apply annotate_inv_Ret in H1, H2, H3.
  unfold lift in H1, H2.
  destruct (GetClusterStatus env cluster) as [e|cs0] eqn:Eget; [discriminate|].
  injection H1 as <- <- <-.
  destruct (PutClusterStatus env _ cluster) as [e|cl0] eqn:Eput; [discriminate|].
  injection H2 as <- <- <-.
  unfold Clusters_UpdateStatus, storeWrite in H3.
  destruct (updateObject _ _ _ _ _) as [l|] eqn:Eupd; [|discriminate].
  injection H3 as <- <-.
  exists cs0. split; [reflexivity|]. split; [exact Eput|]. split; [reflexivity|].
  exists l. split; [exact Eupd|reflexivity].
Qed.

Lemma deleted_member_absent etcdMember members r :
  r ∈ EtcdMemberSet.List
        (EtcdMemberSet.Delete etcdMember (EtcdMemberSet.NewEtcdMemberSet members)) ->
  ID r <> ID etcdMember.
Proof.
  intros Hr E.
  apply EtcdMemberSetFacts.elem_of_List in Hr.
  - unfold EtcdMemberSet.Delete in Hr. rewrite E, lookup_delete_eq in Hr. discriminate.
  - apply (EtcdMemberSetFacts.keyed_applyOp _ (EtcdMemberSet.OpDelete etcdMember)).
    apply EtcdMemberSetFacts.keyed_NewEtcdMemberSet.
Qed.

Lemma remaining_members etcdMember members r :
  r ∈ EtcdMemberSet.List
        (EtcdMemberSet.Delete etcdMember (EtcdMemberSet.NewEtcdMemberSet members))
  <-> r ∈ EtcdMemberSet.List (EtcdMemberSet.NewEtcdMemberSet members)
      /\ ID r <> ID etcdMember.
Proof.
  pose proof (EtcdMemberSetFacts.keyed_NewEtcdMemberSet members) as Hk.
  rewrite !EtcdMemberSetFacts.elem_of_List;
    [|exact Hk
     |exact (EtcdMemberSetFacts.keyed_applyOp _ (EtcdMemberSet.OpDelete etcdMember) Hk)].
  unfold EtcdMemberSet.Delete. rewrite lookup_delete_Some. split.
  - intros [Hne H]. split; [exact H|congruence].
  - intros [H Hne]. split; [congruence|exact H].
Qed.

Lemma resetLoop_resetTrace mwcs cluster s cluster' s' tr :
  resetLoop env mwcs cluster s = (Ret cluster', s', tr) ->
  resetTrace env mwcs cluster (store s) cluster' (store s') tr.
Proof.
  revert cluster s tr. induction mwcs as [|mwc rest IH]; intros cluster s tr; simpl.
  - intros [= <- <- <-]. constructor.
  - intros H.
    apply bind_inv_Ret in H. destruct H as ([] & s1 & t1 & t2 & H1 & H & ->).
    apply bind_inv_Ret in H. destruct H as (st & s2 & t3 & t4 & H2 & H & ->).
    apply bind_inv_Ret in H. destruct H as (member & s3 & t5 & t6 & H3 & H & ->).
    apply bind_inv_Ret in H. destruct H as (cl & s4 & t7 & t8 & H4 & H & ->).
    apply annotate_inv_Ret in H1, H2, H4.
    pose proof (resetEtcdSkipRemoveMember_store _ _ _ _ _ H1) as Hstore.
    apply resetEtcdSkipRemoveMember_inv in H1.
    destruct H1 as (stdOut & stdErr & err & -> & Herr).
    destruct err; [discriminate|].
    unfold lift in H2.
    destruct (GetMachineStatus env (MWC_Machine mwc)) as [e|st0] eqn:Est; [discriminate|].
    injection H2 as <- <- <-.
    unfold deref in H3.
    destruct (SPMachineStatus_EtcdMember st0) as [member0|] eqn:Emem; [|discriminate].
    injection H3 as <- <- <-.
    apply removeClusterEtcdMember_Ret in H4.
    destruct H4 as (cs & Hget & Hput & -> & Hupd).
    rewrite Hstore in Hupd.
    simpl. eapply resetTrace_cons;
      [exact Est|exact Emem|exact Hget|reflexivity| |exact Hput|exact Hupd
      |exact (IH _ _ _ H)].
    intros r. apply remaining_members.
Qed.

(** What a completed reset loop leaves in the status of the cluster
    object, when the payload helpers round-trip it. *)
Lemma NewEtcdMemberSet_members members r :
  r ∈ EtcdMemberSet.List (EtcdMemberSet.NewEtcdMemberSet members) -> r ∈ members.
Proof.
  rewrite EtcdMemberSetFacts.NewEtcdMemberSet_applyOps,
    EtcdMemberSetFacts.elem_of_List_applyOps.
  intros (before & after & Heq & _).
  assert (EtcdMemberSet.OpInsert r ∈ EtcdMemberSet.OpInsert <$> members) as Hin
    by (rewrite Heq; apply elem_of_app; right; left).
  apply list_elem_of_fmap in Hin. destruct Hin as (x & [= ->] & Hx). exact Hx.
Qed.

Lemma resetTrace_members mwcs cluster st cluster' st' tr clusterStatus :
  statusRoundTrip env ->
  resetTrace env mwcs cluster st cluster' st' tr ->
  GetClusterStatus env cluster = inr clusterStatus ->
  exists clusterStatus',
    GetClusterStatus env cluster' = inr clusterStatus'
    /\ forall r, r ∈ EtcdMembers clusterStatus' -> r ∈ EtcdMembers clusterStatus.
Proof.
  intros Hlaw Htr. revert clusterStatus.
  induction Htr as [cluster st|mwc rest tr stdOut stdErr machineStatus etcdMember
                    cs remaining cluster st cluster1 st1 cluster' st'
                    Hst Hmem Hget Hrem Hiff Hput Hupd Htr IH];
    intros clusterStatus Hcs.
  - exists clusterStatus. split; [exact Hcs|auto].
  - destruct (IH _ (Hlaw _ _ _ Hput)) as (cs' & Hget' & Hsub).
    exists cs'. split; [exact Hget'|].
    intros r Hr. apply Hsub in Hr. simpl in Hr. apply Hiff in Hr.
    rewrite Hget in Hcs. injection Hcs as <-.
    exact (NewEtcdMemberSet_members _ _ (proj1 Hr)).
Qed.

Lemma resetTrace_memberAbsent mwcs cluster st cluster' st' tr :
  statusRoundTrip env ->
  resetTrace env mwcs cluster st cluster' st' tr ->
  Forall (memberAbsent env cluster') mwcs.
Proof.
  intros Hlaw Htr.
  induction Htr as [cluster st|mwc rest tr stdOut stdErr machineStatus etcdMember
                    cs remaining cluster st cluster1 st1 cluster' st'
                    Hst Hmem Hget Hrem Hiff Hput Hupd Htr IH].
  - constructor.
  - constructor; [|exact IH].
    destruct (resetTrace_members _ _ _ _ _ _ _ Hlaw Htr (Hlaw _ _ _ Hput))
      as (cs' & Hget' & Hsub).
    exists machineStatus, etcdMember, cs'.
    split; [exact Hst|]. split; [exact Hmem|]. split; [exact Hget'|].
    intros r Hr. apply Hsub in Hr. simpl in Hr. apply Hiff in Hr. exact (proj2 Hr).
Qed.

End Reset.

Lemma app_split_after {A : Type} (P : A -> Prop) (l1 l2 pre : list A) ev post :
  l1 ++ l2 = pre ++ ev :: post ->
  Forall (fun x => ~ P x) l1 -> P ev ->
  exists pre', pre = l1 ++ pre' /\ l2 = pre' ++ ev :: post.
Proof.
  revert pre. induction l1 as [|x l1 IH]; intros pre Heq Hall Hev.
  - exists pre. split; [reflexivity|exact Heq].
  - apply Forall_cons in Hall. destruct Hall as [Hx Hall].
    destruct pre as [|y pre]; simpl in Heq.
    + injection Heq as -> _. contradiction.
    + injection Heq as <- Heq. destruct (IH _ Heq Hall Hev) as (pre' & -> & ->).
      exists pre'. split; reflexivity.
Qed.

Lemma beforeBootstrap_not_bootstrap ev :
  hasKind beforeBootstrapKinds ev -> ~ isBootstrap ev.
Proof.
  intros H [E|E]; revert E; apply (hasKind_not _ _ _ H);
    apply (bool_decide_unpack _); vm_compute; exact I.
Qed.

Section ResetFirst.
Context {W : Type} (env : Collaborators W).

Ltac phase_kinds :=
  repeat first [ apply Forall_app; split
               | apply Forall_cons; split; [reflexivity|]
               | apply Forall_nil; exact I ];
  try match goal with
  | E : mastersWithClientLoop _ _ _ = (_, _, ?t) |- Forall _ ?t =>
    eapply Forall_impl; [exact (emits_mastersWithClientLoop _ _ _ _ _ _ E)|]
  | E : resetLoop _ _ _ _ = (_, _, ?t) |- Forall _ ?t =>
    eapply Forall_impl; [exact (emits_resetLoop _ _ _ _ _ _ _ E)|]
  | E : writeCALoop _ _ _ _ = (_, _, ?t) |- Forall _ ?t =>
    eapply Forall_impl; [exact (emits_writeCALoop _ _ _ _ _ _ _ E)|]
  end;
  try (intros ?; apply hasKind_weaken; kinds_subset).

(** Up to the end of the reset loop nothing is bootstrapped. *)
Lemma reset_prefix_kinds masters s mwcs s0 t0 cluster o2 s2 t2 :
  mastersWithClientLoop env masters s = (Ret mwcs, s0, t0) ->
  resetLoop env mwcs cluster s0 = (o2, s2, t2) ->
  Forall (hasKind beforeBootstrapKinds) (t0 ++ cleaningLog :: t2).
Proof. intros E1 E2. phase_kinds. Qed.

Lemma recoverRun_bootstrap localPath remotePath etcdCASecret cluster masters s o s' tr :
  recoverRun env localPath remotePath etcdCASecret cluster masters s o s' tr ->
  Forall (hasKind beforeBootstrapKinds) tr
  \/ exists mwcs s0 t0 cluster1 s1 t2 t_rest,
       mastersWithClientLoop env masters s = (Ret mwcs, s0, t0) /\
       resetLoop env mwcs cluster s0 = (Ret cluster1, s1, t2) /\
       tr = (t0 ++ cleaningLog :: t2) ++ t_rest.
Proof.
  intros Hrun. destruct Hrun.
  1-3: left; phase_kinds.
  all: right; eexists _, _, _, _, _, _, _;
       (split; [eassumption|]); (split; [eassumption|]);
       rewrite <- app_assoc; reflexivity.
Qed.

Lemma recoverEtcd_reset_failed localPath remotePath etcdCASecret cluster masters s
      mwcs s0 t0 o2 s2 t2 :
  mastersWithClientLoop env masters s = (Ret mwcs, s0, t0) ->
  resetLoop env mwcs cluster s0 = (o2, s2, t2) -> failed o2 ->
  masters <> [] ->
  recoverEtcd env localPath remotePath etcdCASecret cluster masters s =
  (castFailure o2, s2, t0 ++ cleaningLog :: t2).
Proof.
  intros E1 E2 Hf Hne. unfold recoverEtcd.
  destruct masters as [|m0 ms]; [congruence|]. cbn [length Nat.eqb].
  rewrite (run_bind_Ret _ _ _ _ _ _ E1).
  rewrite (run_bind_Ret _ _ s0 tt s0 [cleaningLog]) by reflexivity.
  rewrite run_bind, E2.
  destruct o2 as [a|e|e|]; [exfalso; eapply Hf; reflexivity|reflexivity..].
Qed.

End ResetFirst.

Section ResetFails.
Context {W : Type} (env : Collaborators W).

Lemma resetLoop_reset_fails mwc after cluster s e s1 t :
  resetEtcdSkipRemoveMember env (MWC_Client mwc) s = (Err e, s1, t) ->
  resetLoop env (mwc :: after) cluster s =
  (Err (Errorf "unable to reset etcd on machine %q: %v"
               [AStr (Machine_Name (MWC_Machine mwc)); AErr e]), s1, t).
Proof.
  intros H. simpl. rewrite run_bind. unfold annotate at 1. rewrite H. reflexivity.
Qed.

Lemma resetLoop_removal_fails mwc after cluster s s1 t machineStatus etcdMember e s2 t2 :
  resetEtcdSkipRemoveMember env (MWC_Client mwc) s = (Ret tt, s1, t) ->
  GetMachineStatus env (MWC_Machine mwc) = inr machineStatus ->
  SPMachineStatus_EtcdMember machineStatus = Some etcdMember ->
  removeClusterEtcdMember env etcdMember cluster s1 = (Err e, s2, t2) ->
  resetLoop env (mwc :: after) cluster s =
  (Err (Errorf
          "unable to remove etcd member information for machine %q from cluster status: %v"
          [AStr (Machine_Name (MWC_Machine mwc)); AErr e]), s2, t ++ t2).
Proof.
  intros H1 H2 H3 H4. simpl.
  rewrite (run_bind_Ret _ _ s tt s1 t) by (apply run_annotate_Ret, H1).
  rewrite (run_bind_Ret _ _ s1 machineStatus s1 [])
    by (unfold annotate, lift; rewrite H2; reflexivity).
  rewrite (run_bind_Ret _ _ s1 etcdMember s1 []) by (rewrite H3; reflexivity).
  rewrite run_bind. unfold annotate at 1. rewrite H4. reflexivity.
Qed.

End ResetFails.


(** ** The seed and the joins *)

Lemma commandsOf_app k t1 t2 : commandsOf k (t1 ++ t2) = commandsOf k t1 ++ commandsOf k t2.
Proof. apply omap_app. Qed.

Lemma infoOutputs_app t1 t2 : infoOutputs (t1 ++ t2) = infoOutputs t1 ++ infoOutputs t2.
Proof. apply omap_app. Qed.

Lemma commandsOf_none k ks tr :
  Forall (hasKind ks) tr -> k ∉ ks -> commandsOf k tr = [].
Proof.
  intros Hall Hk. induction Hall as [|ev tr Hev _ IH]; [reflexivity|].
  destruct ev; try exact IH.
  change (commandsOf k (RunCommandEv c cmd stdOut stdErr err :: tr))
    with (match (if decide (commandKind cmd = k) then Some (c, cmd) else None) with
          | Some x => x :: commandsOf k tr
          | None => commandsOf k tr
          end).
  destruct (decide (commandKind cmd = k)) as [E|E]; [|exact IH].
  exfalso. exact (hasKind_not _ _ _ Hev Hk E).
Qed.

Lemma infoOutputs_none ks tr :
  Forall (hasKind ks) tr -> KInfo ∉ ks -> infoOutputs tr = [].
Proof.
  intros Hall Hk. induction Hall as [|ev tr Hev _ IH]; [reflexivity|].
  destruct ev; try exact IH. destruct err; [exact IH|].
  change (infoOutputs (RunCommandEv c cmd stdOut stdErr None :: tr))
    with (match (if decide (commandKind cmd = KInfo) then Some (c, stdOut) else None) with
          | Some x => x :: infoOutputs tr
          | None => infoOutputs tr
          end).
  destruct (decide (commandKind cmd = KInfo)) as [E|E]; [|exact IH].
  exfalso. exact (hasKind_not _ _ _ Hev Hk E).
Qed.

Ltac kind_absent := apply (bool_decide_unpack _); vm_compute; exact I.

Section Skipping.
Context {W : Type}.

Lemma failed_castFailure {A B} (o : outcome A) : failed o -> failed (@castFailure A B o).
Proof. intros Hf b. destruct o; [exfalso; eapply Hf; reflexivity|discriminate..]. Qed.

(** A step that runs no command of kind [k]: either the run stops in it
    with no such command, or it goes on and the commands of kind [k]
    are those of what follows. *)
Lemma bind_skip {A B} k ks (m : M W A) (f : A -> M W B) s o s' tr :
  emits (hasKind ks) m -> k ∉ ks ->
  (m ≫= f) s = (o, s', tr) ->
  (failed o /\ commandsOf k tr = [] /\ Forall (hasKind ks) tr)
  \/ exists a s1 t1 t2,
       m s = (Ret a, s1, t1) /\ f a s1 = (o, s', t2) /\ tr = t1 ++ t2 /\
       commandsOf k tr = commandsOf k t2.
Proof.
  intros Hm Hk H. apply bind_inv in H.
  destruct H as [(a & s1 & t1 & t2 & H1 & H2 & ->)|(o1 & H1 & Hf & ->)].
  - right. exists a, s1, t1, t2. repeat split; try assumption.
    rewrite commandsOf_app, (commandsOf_none k ks t1 (Hm _ _ _ _ H1) Hk). reflexivity.
  - left. split; [apply failed_castFailure; exact Hf|].
    split; [exact (commandsOf_none k ks tr (Hm _ _ _ _ H1) Hk)|exact (Hm _ _ _ _ H1)].
Qed.

End Skipping.

Section Seed.
Context {W : Type} (env : Collaborators W).

Lemma writeEtcdSnapshot_Ret localPath remotePath client s s' tr :
  writeEtcdSnapshot env localPath remotePath client s = (Ret tt, s', tr) ->
  exists data,
    ioutil_ReadFile env localPath (world s) = inr data /\
    tr = [WriteFileEv client remotePath 384 data None].
Proof.
  unfold writeEtcdSnapshot. intros H.
  apply bind_inv_Ret in H. destruct H as (b & s1 & t1 & t2 & H1 & H2 & ->).
  apply annotate_inv_Ret in H1.
  apply bind_inv_Ret in H1. destruct H1 as (r & s2 & t3 & t4 & Hask & Hlift & ->).
  injection Hask as <- <- <-.
  unfold lift in Hlift.
  destruct (ioutil_ReadFile env localPath (world s)) as [e|data] eqn:E; [discriminate|].
  injection Hlift as <- <- <-.
  unfold WriteFile, effect in H2.
  destruct (transport_WriteFile env client remotePath 384 data (world s)) as [[e|] w];
    simpl in H2; [discriminate|].
  injection H2 as <- <-. exists data. split; reflexivity.
Qed.

Lemma emits_writeEtcdSnapshot localPath remotePath client :
  emits (hasKind [KFile]) (writeEtcdSnapshot env localPath remotePath client).
Proof. unfold writeEtcdSnapshot. emits_auto. Qed.

Lemma etcdadmInitFromSnapshot_inv remotePath client s o s' tr :
  etcdadmInitFromSnapshot env remotePath client s = (o, s', tr) ->
  exists stdOut stdErr err,
    tr = [RunCommandEv client (initCommand remotePath) stdOut stdErr err].
Proof.
  unfold etcdadmInitFromSnapshot. fold (initCommand remotePath). intros H.
  apply bind_inv in H. destruct H as [(a & s1 & t1 & t2 & H1 & H2 & ->)|(o1 & H1 & _ & _)];
    apply runChecked_inv in H1; destruct H1 as (stdOut & stdErr & err & -> & _);
    exists stdOut, stdErr, err; [injection H2 as <- <- <-|]; reflexivity.
Qed.

Lemma etcdadmJoin_inv endpoint client s o s' tr :
  etcdadmJoin env endpoint client s = (o, s', tr) ->
  exists stdOut stdErr err,
    tr = [RunCommandEv client (joinCommand endpoint) stdOut stdErr err].
Proof.
  unfold etcdadmJoin. fold (joinCommand endpoint). intros H.
  apply bind_inv in H. destruct H as [(a & s1 & t1 & t2 & H1 & H2 & ->)|(o1 & H1 & _ & _)];
    apply runChecked_inv in H1; destruct H1 as (stdOut & stdErr & err & -> & _);
    exists stdOut, stdErr, err; [injection H2 as <- <- <-|]; reflexivity.
Qed.

Lemma etcdMemberFromMachine_Ret client s etcdMember s' tr :
  etcdMemberFromMachine env client s = (Ret etcdMember, s', tr) ->
  exists stdOut stdErr,
    tr = [RunCommandEv client infoCommand stdOut stdErr None] /\
    json_Unmarshal_EtcdMember env stdOut = inr etcdMember.
Proof.
  unfold etcdMemberFromMachine. fold infoCommand. intros H.
  apply bind_inv_Ret in H. destruct H as (out & s1 & t1 & t2 & H1 & H2 & ->).
  apply runChecked_inv in H1. destruct H1 as (stdOut & stdErr & err & -> & Ho).
  destruct err; [discriminate|]. injection Ho as ->.
  apply annotate_inv_Ret in H2. unfold lift in H2.
  destruct (json_Unmarshal_EtcdMember env stdOut) as [e|m] eqn:E; [discriminate|].
  injection H2 as <- <- <-. exists stdOut, stdErr. split; [reflexivity|exact E].
Qed.

End Seed.

Section SeedAndJoins.
Context {W : Type} (env : Collaborators W).

Lemma annotate_inv {A} wrap (m : M W A) s o s' tr :
  annotate wrap m s = (o, s', tr) ->
  exists o0, m s = (o0, s', tr) /\ (forall a, o = Ret a <-> o0 = Ret a).
Proof.
  unfold annotate. destruct (m s) as [[o0 s1] t1].
  destruct o0; intros [= <- <- <-]; eexists; (split; [reflexivity|]);
    intros ?; split; congruence.
Qed.

Lemma commandKind_init remotePath : commandKind (initCommand remotePath) = KInit.
Proof. reflexivity. Qed.

Lemma commandKind_join endpoint : commandKind (joinCommand endpoint) = KJoin.
Proof. reflexivity. Qed.

(** The first master: the snapshot is written to it and then it is
    initialized from it; no other initialization is run. *)
Lemma recoverFirstMaster_init localPath remotePath firstMWC cluster s o s' tr :
  recoverFirstMaster env localPath remotePath firstMWC cluster s = (o, s', tr) ->
  (failed o /\ commandsOf KInit tr = [])
  \/ exists data stdOut stdErr err rest,
       ioutil_ReadFile env localPath (world s) = inr data /\
       tr = initializingLog firstMWC
            :: WriteFileEv (MWC_Client firstMWC) remotePath 384 data None
            :: RunCommandEv (MWC_Client firstMWC) (initCommand remotePath) stdOut stdErr err
            :: rest /\
       commandsOf KInit rest = [].
Proof.
  unfold recoverFirstMaster. intros H.
  apply bind_inv in H. destruct H as [(a & s1 & t1 & t2 & H1 & H & ->)|(o1 & H1 & Hf & _)].
  2:{ injection H1 as <- _ _. exfalso. eapply Hf. reflexivity. }
  injection H1 as <- <- <-.
  apply bind_inv in H. destruct H as [(a & s1 & t1 & t3 & H1 & H & ->)|(o1 & H1 & Hf & ->)].
  2:{ left. split; [apply failed_castFailure; exact Hf|].
      apply (commandsOf_none KInit [KLog; KFile]); [|kind_absent].
      apply Forall_cons. split; [reflexivity|].
      eapply Forall_impl;
        [exact (emits_annotate _ _ _ (emits_writeEtcdSnapshot env _ _ _) _ _ _ _ H1)|].
      intros ev. apply hasKind_weaken. kinds_subset. }
  destruct a. apply annotate_inv_Ret, writeEtcdSnapshot_Ret in H1.
  destruct H1 as (data & Hdata & ->).
  right. exists data.
  apply bind_inv in H. destruct H as [(a & s2 & t1 & t4 & H1 & H & ->)|(o1 & H1 & Hf & ->)].
  - apply annotate_inv in H1. destruct H1 as (o0 & H1 & _).
    apply etcdadmInitFromSnapshot_inv in H1. destruct H1 as (stdOut & stdErr & err & ->).
    exists stdOut, stdErr, err, t4. repeat split; [exact Hdata|].
    apply (commandsOf_none KInit [KInfo; KStore]); [|kind_absent].
    revert H. generalize s2 o s' t4.
    change (emits (hasKind [KInfo; KStore])
              ((fun _ : unit =>
                  firstEtcdMember ←
                    annotate (fun err => Errorf "error reading etcd member data from machine %q: %v"
                                [AStr (Machine_Name (MWC_Machine firstMWC)); AErr err])
                             (etcdMemberFromMachine env (MWC_Client firstMWC));
                  annotate (fun err => Errorf
                              "unable to update machine %q status with etcd member %q: %v"
                              [AStr (Machine_Name (MWC_Machine firstMWC));
                               AEtcdMember firstEtcdMember; AErr err])
                           (updateMachineEtcdMember env firstEtcdMember (MWC_Machine firstMWC));;
                  cluster0 ←
                    annotate (fun err => Errorf
                                "unable to update cluster status with etcd member %q: %v"
                                [AEtcdMember firstEtcdMember; AErr err])
                             (insertClusterEtcdMember env firstEtcdMember cluster);
                  mret (firstEtcdMember, cluster0)) a)).
    apply emits_bind; [|intros firstEtcdMember].
    { apply emits_annotate. eapply emits_impl; [|apply emits_etcdMemberFromMachine].
      intros ev. apply hasKind_weaken. kinds_subset. }
    apply emits_bind; [|intros _].
    { apply emits_annotate. eapply emits_impl; [|apply emits_updateMachineEtcdMember].
      intros ev. apply hasKind_weaken. kinds_subset. }
    apply emits_bind; [|intros cluster'; apply emits_mret].
    apply emits_annotate. eapply emits_impl; [|apply emits_insertClusterEtcdMember].
    intros ev. apply hasKind_weaken. kinds_subset.
  - apply annotate_inv in H1. destruct H1 as (o0 & H1 & _).
    apply etcdadmInitFromSnapshot_inv in H1. destruct H1 as (stdOut & stdErr & err & ->).
    exists stdOut, stdErr, err, []. repeat split. exact Hdata.
Qed.

(** When the first master is recovered, its member was read back from
    it after the initialization. *)
Lemma recoverFirstMaster_Ret localPath remotePath firstMWC cluster s
      firstEtcdMember cluster' s' tr :
  recoverFirstMaster env localPath remotePath firstMWC cluster s =
    (Ret (firstEtcdMember, cluster'), s', tr) ->
  exists stdOut,
    infoOutputs tr = [(MWC_Client firstMWC, stdOut)] /\
    json_Unmarshal_EtcdMember env stdOut = inr firstEtcdMember.
Proof.
  unfold recoverFirstMaster. intros H.
  apply bind_inv_Ret in H. destruct H as ([] & s1 & t1 & t2 & H1 & H & ->).
  injection H1 as <- <-.
  apply bind_inv_Ret in H. destruct H as ([] & s2 & t3 & t4 & H2 & H & ->).
  apply bind_inv_Ret in H. destruct H as ([] & s3 & t5 & t6 & H3 & H & ->).
  apply bind_inv_Ret in H. destruct H as (member & s4 & t7 & t8 & H4 & H & ->).
  apply bind_inv_Ret in H. destruct H as (machine' & s5 & t9 & t10 & H5 & H & ->).
  apply bind_inv_Ret in H. destruct H as (cl & s6 & t11 & t12 & H6 & H & ->).
  injection H as <- <- <- <-.
  apply annotate_inv_Ret, etcdMemberFromMachine_Ret in H4.
  destruct H4 as (stdOut & stdErr & -> & Hun).
  exists stdOut. split; [|exact Hun].
  change (infoOutputs ([initializingLog firstMWC] ++ t3 ++ t5 ++
            [RunCommandEv (MWC_Client firstMWC) infoCommand stdOut stdErr None]
            ++ t9 ++ t11 ++ []) = [(MWC_Client firstMWC, stdOut)]).
  rewrite !infoOutputs_app.
  rewrite (infoOutputs_none [KFile] t3), (infoOutputs_none [KInit] t5),
          (infoOutputs_none [KStore] t9), (infoOutputs_none [KStore] t11);
    try kind_absent.
  - reflexivity.
  - exact (emits_annotate _ _ _ (emits_insertClusterEtcdMember env _ _) _ _ _ _ H6).
  - exact (emits_annotate _ _ _ (emits_updateMachineEtcdMember env _ _) _ _ _ _ H5).
  - apply annotate_inv_Ret, etcdadmInitFromSnapshot_inv in H3.
    destruct H3 as (o1 & e1 & err & ->). apply Forall_cons. split; [reflexivity|constructor].
  - exact (emits_annotate _ _ _ (emits_writeEtcdSnapshot env _ _ _) _ _ _ _ H2).
Qed.

End SeedAndJoins.

Section Joins.
Context {W : Type} (env : Collaborators W).

(** The joins of the loop "Recover the other masters": in the order of
    the masters, all with the same endpoint, and all of them when the
    loop completes. *)
Lemma joinLoop_joins endpoint otherMWCs cluster s o s' tr :
  joinLoop env endpoint otherMWCs cluster s = (o, s', tr) ->
  commandsOf KJoin tr `prefix_of` expectedJoins endpoint otherMWCs
  /\ (forall a, o = Ret a -> commandsOf KJoin tr = expectedJoins endpoint otherMWCs).
Proof.
  revert cluster s o s' tr.
  induction otherMWCs as [|mwc rest IH]; intros cluster s o s' tr; simpl.
  - intros [= <- <- <-]. split; [apply prefix_nil|reflexivity].
  - intros H.
    assert (Hskip : forall (o : outcome Cluster) (t : list Event),
               failed o -> commandsOf KJoin t = [] ->
               ((MWC_Client mwc, joinCommand endpoint) :: commandsOf KJoin t)
                 `prefix_of` ((MWC_Client mwc, joinCommand endpoint)
                                :: expectedJoins endpoint rest)
               /\ (forall a, o = Ret a ->
                      (MWC_Client mwc, joinCommand endpoint) :: commandsOf KJoin t =
                      (MWC_Client mwc, joinCommand endpoint) :: expectedJoins endpoint rest)).
    { intros o0 t Hf ->. split; [apply prefix_cons, prefix_nil|].
      intros x ->. exfalso. eapply Hf. reflexivity. }
    apply (bind_skip KJoin [KLog]) in H; [|emits_auto|kind_absent].
    destruct H as [(Hf & -> & _)|(a & s1 & t1 & t2 & _ & H & -> & ->)].
    { split; [apply prefix_nil|]. intros x ->. exfalso. eapply Hf. reflexivity. }
    apply bind_inv in H. destruct H as [(a1 & s2 & t3 & t4 & H1 & H & ->)|(o1 & H1 & Hf & ->)].
    2:{ apply annotate_inv in H1. destruct H1 as (o0 & H1 & _).
        apply etcdadmJoin_inv in H1. destruct H1 as (stdOut & stdErr & err & ->).
        apply (Hskip (castFailure o1) []); [apply failed_castFailure; exact Hf|reflexivity]. }
    apply annotate_inv in H1. destruct H1 as (o0 & H1 & _).
    apply etcdadmJoin_inv in H1. destruct H1 as (stdOut & stdErr & err & ->).
    change (commandsOf KJoin
              ([RunCommandEv (MWC_Client mwc) (joinCommand endpoint) stdOut stdErr err] ++ t4))
      with ((MWC_Client mwc, joinCommand endpoint) :: commandsOf KJoin t4).
    apply (bind_skip KJoin [KInfo]) in H;
      [|apply emits_annotate, emits_etcdMemberFromMachine|kind_absent].
    destruct H as [(Hf & Hnone & _)|(member & s3 & t5 & t6 & _ & H & -> & ->)];
      [exact (Hskip _ _ Hf Hnone)|].
    apply (bind_skip KJoin [KStore]) in H;
      [|apply emits_annotate, emits_updateMachineEtcdMember|kind_absent].
    destruct H as [(Hf & Hnone & _)|(machine' & s4 & t7 & t8 & _ & H & -> & ->)];
      [exact (Hskip _ _ Hf Hnone)|].
    apply (bind_skip KJoin [KStore]) in H;
      [|apply emits_annotate, emits_insertClusterEtcdMember|kind_absent].
    destruct H as [(Hf & Hnone & _)|(cluster' & s5 & t9 & t10 & _ & H & -> & ->)];
      [exact (Hskip _ _ Hf Hnone)|].
    destruct (IH _ _ _ _ _ H) as [Hpre Hall]. split.
    + apply prefix_cons, Hpre.
    + intros x Ho. rewrite (Hall x Ho). reflexivity.
Qed.

End Joins.

Section Errs.
Context {W : Type} (env : Collaborators W).

Lemma errs_mret {A} (a : A) : errs (W:=W) (mret a).
Proof. intros s o s' tr [= <- <- <-]. left. eexists. reflexivity. Qed.

Lemma errs_throw {A} (e : error) : errs (W:=W) (A:=A) (throw e).
Proof. intros s o s' tr [= <- <- <-]. right. eexists. reflexivity. Qed.

Lemma errs_lift {A} (r : error + A) : errs (W:=W) (lift r).
Proof. destruct r; [apply errs_throw|apply errs_mret]. Qed.

Lemma errs_ask {A} (f : W -> A) : errs (ask f).
Proof. intros s o s' tr [= <- <- <-]. left. eexists. reflexivity. Qed.

Lemma errs_emit ev : errs (W:=W) (emit ev).
Proof. intros s o s' tr [= <- <- <-]. left. eexists. reflexivity. Qed.

Lemma errs_bind {A B} (m : M W A) (f : A -> M W B) :
  errs m -> (forall a, errs (f a)) -> errs (m ≫= f).
Proof.
  intros Hm Hf s o s' tr H. apply bind_inv in H.
  destruct H as [(a & s1 & t1 & t2 & _ & H2 & _)|(o1 & H1 & Hfail & ->)].
  - exact (Hf _ _ _ _ _ H2).
  - destruct (Hm _ _ _ _ H1) as [[a ->]|[e ->]].
    + exfalso. eapply Hfail. reflexivity.
    + right. exists e. reflexivity.
Qed.

Lemma errs_annotate {A} wrap (m : M W A) : errs m -> errs (annotate wrap m).
Proof.
  intros Hm s o s' tr. unfold annotate.
  destruct (m s) as [[o1 s1] t1] eqn:E. destruct (Hm _ _ _ _ E) as [[a ->]|[e ->]];
    intros [= <- <- <-]; [left|right]; eexists; reflexivity.
Qed.

Lemma errs_storeWrite op f : errs (W:=W) (storeWrite op f).
Proof.
  intros s o s' tr. unfold storeWrite.
  destruct (f (store s)); intros [= <- <- <-]; [right|left]; eexists; reflexivity.
Qed.

Lemma errs_runChecked client cmd : errs (runChecked env client cmd).
Proof.
  intros s o s' tr H. apply runChecked_inv in H.
  destruct H as (stdOut & stdErr & [e|] & _ & ->); [right|left]; eexists; reflexivity.
Qed.

Lemma errs_WriteFile client path mode data : errs (WriteFile env client path mode data).
Proof.
  intros s o s' tr. unfold WriteFile, effect.
  destruct (transport_WriteFile env client path mode data (world s)) as [[e|] w];
    intros [= <- <- <-]; [right|left]; eexists; reflexivity.
Qed.

Lemma errs_recoverFirstMaster localPath remotePath firstMWC cluster :
  errs (recoverFirstMaster env localPath remotePath firstMWC cluster).
Proof.
  unfold recoverFirstMaster, writeEtcdSnapshot, etcdadmInitFromSnapshot,
    etcdMemberFromMachine, updateMachineEtcdMember, insertClusterEtcdMember,
    Machines_UpdateStatus, Clusters_UpdateStatus, Printf.
  repeat first
    [ apply errs_mret | apply errs_lift | apply errs_ask | apply errs_emit
    | apply errs_annotate | apply errs_storeWrite | apply errs_runChecked
    | apply errs_WriteFile
    | apply errs_bind; [|intros ?]
    | match goal with |- errs (let '(_, _) := ?x in _) => destruct x end ].
Qed.

End Errs.


Section Summary.
Context {W : Type} (env : Collaborators W).

Lemma base_app (t0 t2 t3 rest : list Event) :
  t0 ++ cleaningLog :: t2 ++ writingCALog :: t3 ++ rest =
  (t0 ++ cleaningLog :: t2 ++ writingCALog :: t3) ++ rest.
Proof.
  rewrite <- app_assoc. simpl. rewrite <- app_assoc. reflexivity.
Qed.

Lemma base_kinds masters s mwcs s0 t0 cluster o2 s1 t2 etcdCASecret o3 s2 t3 :
  mastersWithClientLoop env masters s = (Ret mwcs, s0, t0) ->
  resetLoop env mwcs cluster s0 = (o2, s1, t2) ->
  writeCALoop env mwcs etcdCASecret s1 = (o3, s2, t3) ->
  Forall (hasKind beforeBootstrapKinds) (t0 ++ cleaningLog :: t2 ++ writingCALog :: t3).
Proof.
  intros E1 E2 E3.
  apply Forall_app. split.
  { eapply Forall_impl; [exact (emits_mastersWithClientLoop _ _ _ _ _ _ E1)|].
    intros ev. apply hasKind_weaken. kinds_subset. }
  apply Forall_cons. split; [reflexivity|].
  apply Forall_app. split.
  { eapply Forall_impl; [exact (emits_resetLoop _ _ _ _ _ _ _ E2)|].
    intros ev. apply hasKind_weaken. kinds_subset. }
  apply Forall_cons. split; [reflexivity|].
  eapply Forall_impl; [exact (emits_writeCALoop _ _ _ _ _ _ _ E3)|].
  intros ev. apply hasKind_weaken. kinds_subset.
Qed.

Lemma seedInitialized_intro localPath remotePath firstMWC (base t4 rest after : list Event)
      data w stdOut stdErr err :
  Forall (hasKind beforeBootstrapKinds) base ->
  ioutil_ReadFile env localPath w = inr data ->
  t4 = initializingLog firstMWC
       :: WriteFileEv (MWC_Client firstMWC) remotePath 384 data None
       :: RunCommandEv (MWC_Client firstMWC) (initCommand remotePath) stdOut stdErr err
       :: rest ->
  commandsOf KInit rest = [] ->
  commandsOf KInit after = [] ->
  seedInitialized env localPath remotePath (MWC_Client firstMWC) (base ++ t4 ++ after).
Proof.
  intros Hbase Hdata -> Hrest Hafter. split.
  - rewrite !commandsOf_app, (commandsOf_none KInit _ _ Hbase), Hafter by kind_absent.
    change (commandsOf KInit
              (initializingLog firstMWC
               :: WriteFileEv (MWC_Client firstMWC) remotePath 384 data None
               :: RunCommandEv (MWC_Client firstMWC) (initCommand remotePath) stdOut stdErr err
               :: rest))
      with ((MWC_Client firstMWC, initCommand remotePath) :: commandsOf KInit rest).
    rewrite Hrest. reflexivity.
  - exists data, w, (base ++ [initializingLog firstMWC]), stdOut, stdErr, err, (rest ++ after).
    split; [exact Hdata|]. rewrite <- !app_assoc. reflexivity.
Qed.

(** What a run that has its sessions did about the seed and the joins. *)
Lemma recoverRun_summary localPath remotePath etcdCASecret cluster masters s o s' tr
      firstMWC otherMWCs s0 t0 :
  recoverRun env localPath remotePath etcdCASecret cluster masters s o s' tr ->
  mastersWithClientLoop env masters s = (Ret (firstMWC :: otherMWCs), s0, t0) ->
  (failed o /\ commandsOf KJoin tr = [] /\
   (commandsOf KInit tr = [] \/
    seedInitialized env localPath remotePath (MWC_Client firstMWC) tr) /\
   (infoOutputs tr <> [] -> exists e, o = Err e))
  \/ exists etcdMember endpoint urls,
       seedInitialized env localPath remotePath (MWC_Client firstMWC) tr /\
       seedReports env tr (MWC_Client firstMWC) etcdMember /\
       ClientURLs etcdMember = endpoint :: urls /\
       commandsOf KJoin tr `prefix_of` expectedJoins endpoint otherMWCs /\
       (o = Ret tt -> commandsOf KJoin tr = expectedJoins endpoint otherMWCs).
Proof.
  intros Hrun Hsess. destruct Hrun as
    [ o1 s' tr E1 Hf
    | mwcs s0' t0' o2 s' t2 E1 E2 Hf
    | mwcs s0' t0' cluster1 s1 t2 o3 s' t3 E1 E2 E3 Hf
    | first others s0' t0' cluster1 s1 t2 s2 t3 o4 s' t4 E1 E2 E3 E4 Hf
    | first others s0' t0' cluster1 s1 t2 s2 t3 member cluster2 s' t4 E1 E2 E3 E4 Hurls
    | first others s0' t0' cluster1 s1 t2 s2 t3 member cluster2 s3 t4 endpoint urls
            o5 s' t5 E1 E2 E3 E4 Hurls E5 Hf
    | first others s0' t0' cluster1 s1 t2 s2 t3 member cluster2 s3 t4 endpoint urls
            cluster3 s4 t5 s' t6 E1 E2 E3 E4 Hurls E5 E6 ].
  - rewrite Hsess in E1. injection E1 as <- <- <-. exfalso. eapply Hf. reflexivity.
  - left. pose proof (reset_prefix_kinds env _ _ _ _ _ _ _ _ _ E1 E2) as Hk.
    split; [apply failed_castFailure; exact Hf|].
    rewrite !(commandsOf_none _ _ _ Hk), (infoOutputs_none _ _ Hk) by kind_absent.
    split; [reflexivity|]. split; [left; reflexivity|congruence].
  - left. pose proof (base_kinds _ _ _ _ _ _ _ _ _ _ _ _ _ E1 E2 E3) as Hk.
    split; [apply failed_castFailure; exact Hf|].
    rewrite !(commandsOf_none _ _ _ Hk), (infoOutputs_none _ _ Hk) by kind_absent.
    split; [reflexivity|]. split; [left; reflexivity|congruence].
  - rewrite Hsess in E1. injection E1 as <- <- <- <-.
    left. pose proof (base_kinds _ _ _ _ _ _ _ _ _ _ _ _ _ Hsess E2 E3) as Hk.
    pose proof (emits_recoverFirstMaster env _ _ _ _ _ _ _ _ E4) as Hk4.
    split; [apply failed_castFailure; exact Hf|].
    rewrite base_app. split; [|split].
    + rewrite commandsOf_app, (commandsOf_none _ _ _ Hk), (commandsOf_none _ _ _ Hk4)
        by kind_absent. reflexivity.
    + destruct (recoverFirstMaster_init env _ _ _ _ _ _ _ _ E4)
        as [[_ Hnone]|(data & stdOut & stdErr & err & rest & Hdata & Ht4 & Hrest)].
      * left. rewrite commandsOf_app, (commandsOf_none _ _ _ Hk), Hnone by kind_absent.
        reflexivity.
      * right. rewrite <- (app_nil_r t4).
        exact (seedInitialized_intro _ _ _ _ _ _ [] _ _ _ _ _ Hk Hdata Ht4 Hrest eq_refl).
    + intros _. destruct (errs_recoverFirstMaster env _ _ _ _ _ _ _ _ E4) as [[a ->]|[e ->]].
      * exfalso. eapply Hf. reflexivity.
      * exists e. reflexivity.
  - rewrite Hsess in E1. injection E1 as <- <- <- <-.
    left. pose proof (base_kinds _ _ _ _ _ _ _ _ _ _ _ _ _ Hsess E2 E3) as Hk.
    pose proof (emits_recoverFirstMaster env _ _ _ _ _ _ _ _ E4) as Hk4.
    split; [intros ?; discriminate|].
    rewrite base_app. split; [|split].
    + rewrite commandsOf_app, (commandsOf_none _ _ _ Hk), (commandsOf_none _ _ _ Hk4)
        by kind_absent. reflexivity.
    + destruct (recoverFirstMaster_init env _ _ _ _ _ _ _ _ E4)
        as [[Hfail _]|(data & stdOut & stdErr & err & rest & Hdata & Ht4 & Hrest)].
      * exfalso. eapply Hfail. reflexivity.
      * right. rewrite <- (app_nil_r t4).
        exact (seedInitialized_intro _ _ _ _ _ _ [] _ _ _ _ _ Hk Hdata Ht4 Hrest eq_refl).
    + intros _. eexists. reflexivity.
  - rewrite Hsess in E1. injection E1 as <- <- <- <-.
    right. exists member, endpoint, urls.
    pose proof (base_kinds _ _ _ _ _ _ _ _ _ _ _ _ _ Hsess E2 E3) as Hk.
    pose proof (emits_recoverFirstMaster env _ _ _ _ _ _ _ _ E4) as Hk4.
    pose proof (emits_joinLoop env _ _ _ _ _ _ _ E5) as Hk5.
    destruct (joinLoop_joins env _ _ _ _ _ _ _ E5) as [Hpre _].
    rewrite base_app.
    set (base := t0 ++ cleaningLog :: t2 ++ writingCALog :: t3) in *.
    split; [|split; [|split; [exact Hurls|split]]].
    + destruct (recoverFirstMaster_init env _ _ _ _ _ _ _ _ E4)
        as [[Hfail _]|(data & stdOut & stdErr & err & rest & Hdata & Ht4 & Hrest)].
      * exfalso. eapply Hfail. reflexivity.
      * apply (seedInitialized_intro _ _ _ _ _ _ _ _ _ _ _ _ Hk Hdata Ht4 Hrest).
        apply (commandsOf_none _ _ _ Hk5). kind_absent.
    + destruct (recoverFirstMaster_Ret env _ _ _ _ _ _ _ _ _ E4) as (stdOut & Hinfo & Hun).
      exists stdOut. split; [|exact Hun].
      rewrite !infoOutputs_app, (infoOutputs_none _ _ Hk), Hinfo by kind_absent.
      reflexivity.
    + assert (commandsOf KJoin (base ++ t4 ++ t5) = commandsOf KJoin t5) as Hj.
      { rewrite !commandsOf_app, (commandsOf_none _ _ _ Hk), (commandsOf_none _ _ _ Hk4);
          [reflexivity|kind_absent..]. }
      rewrite Hj. exact Hpre.
    + intros Ho. destruct o5; discriminate.
  - rewrite Hsess in E1. injection E1 as <- <- <- <-.
    right. exists member, endpoint, urls.
    pose proof (base_kinds _ _ _ _ _ _ _ _ _ _ _ _ _ Hsess E2 E3) as Hk.
    pose proof (emits_recoverFirstMaster env _ _ _ _ _ _ _ _ E4) as Hk4.
    pose proof (emits_joinLoop env _ _ _ _ _ _ _ E5) as Hk5.
    pose proof (emits_restartLoop env _ _ _ _ _ E6) as Hk6.
    destruct (joinLoop_joins env _ _ _ _ _ _ _ E5) as [_ Hall].
    rewrite base_app.
    set (base := t0 ++ cleaningLog :: t2 ++ writingCALog :: t3) in *.
    assert (Hjoins : commandsOf KJoin (base ++ t4 ++ t5 ++ t6) =
                     expectedJoins endpoint otherMWCs).
    { rewrite !commandsOf_app, (commandsOf_none _ _ _ Hk), (commandsOf_none _ _ _ Hk4),
        (commandsOf_none _ _ _ Hk6) by kind_absent.
      rewrite app_nil_r. exact (Hall _ eq_refl). }
    split; [|split; [|split; [exact Hurls|split]]].
    + destruct (recoverFirstMaster_init env _ _ _ _ _ _ _ _ E4)
        as [[Hfail _]|(data & stdOut & stdErr & err & rest & Hdata & Ht4 & Hrest)].
      * exfalso. eapply Hfail. reflexivity.
      * apply (seedInitialized_intro _ _ _ _ _ _ _ _ _ _ _ _ Hk Hdata Ht4 Hrest).
        rewrite commandsOf_app, (commandsOf_none _ _ _ Hk5), (commandsOf_none _ _ _ Hk6)
          by kind_absent. reflexivity.
    + destruct (recoverFirstMaster_Ret env _ _ _ _ _ _ _ _ _ E4) as (stdOut & Hinfo & Hun).
      exists stdOut. split; [|exact Hun].
      rewrite !infoOutputs_app, (infoOutputs_none _ _ Hk), Hinfo by kind_absent.
      reflexivity.
    + rewrite Hjoins. reflexivity.
    + intros _. exact Hjoins.
Qed.

End Summary.

(** C3: in a run of [recoverEtcd] whose sessions are established, the
    seed is the first master of the input; only the seed is initialized,
    from the remote path the snapshot was written to just before, on
    its own session; the joins are run on the sessions of the remaining
    masters in input order (all of them when the run succeeds, a prefix
    when it stops), each with the first client URL of the member the
    seed reported; and when the seed reports no client URL, the run
    ends with an error and no join is run. *)
Theorem recoverEtcd_seed_and_joins {W : Type} (env : Collaborators W)
    (localPath remotePath : string) (etcdCASecret : option Secret)
    (cluster : Cluster) (masters : list Machine)
    (s : State W) (o : outcome unit) (s' : State W) (tr : list Event)
    (firstMWC : mastersWithClientEntry) (otherMWCs : list mastersWithClientEntry)
    (s0 : State W) (t0 : list Event) :
  recoverEtcd env localPath remotePath etcdCASecret cluster masters s = (o, s', tr) ->
  mastersWithClientLoop env masters s = (Ret (firstMWC :: otherMWCs), s0, t0) ->
  MWC_Machine firstMWC :: (MWC_Machine <$> otherMWCs) = masters
  /\ (commandsOf KInit tr = [] \/
      seedInitialized env localPath remotePath (MWC_Client firstMWC) tr)
  /\ (commandsOf KJoin tr = [] \/
      exists etcdMember endpoint urls,
        seedReports env tr (MWC_Client firstMWC) etcdMember /\
        ClientURLs etcdMember = endpoint :: urls /\
        commandsOf KJoin tr `prefix_of` expectedJoins endpoint otherMWCs)
  /\ (o = Ret tt ->
      seedInitialized env localPath remotePath (MWC_Client firstMWC) tr /\
      exists etcdMember endpoint urls,
        seedReports env tr (MWC_Client firstMWC) etcdMember /\
        ClientURLs etcdMember = endpoint :: urls /\
        commandsOf KJoin tr = expectedJoins endpoint otherMWCs)
  /\ (forall seed etcdMember,
         seedReports env tr seed etcdMember -> ClientURLs etcdMember = [] ->
         (exists e, o = Err e) /\ commandsOf KJoin tr = []).
Proof.
  intros Hrun Hsess.
  pose proof (mastersWithClientLoop_machines env _ _ _ _ _ Hsess) as Hmachines.
  split; [exact Hmachines|].
  assert (Hne : masters <> []) by (rewrite <- Hmachines; discriminate).
  pose proof (recoverEtcd_recoverRun env _ _ _ _ _ _ _ _ _ Hne Hrun) as Hcourse.
  destruct (recoverRun_summary env _ _ _ _ _ _ _ _ _ _ _ _ _ Hcourse Hsess)
    as [(Hf & Hjoins & Hinit & Herr)|(member & endpoint & urls & Hinit & Hrep & Hurls & Hpre & Hall)].
  - split; [exact Hinit|]. split; [left; exact Hjoins|].
    split; [intros ->; exfalso; eapply Hf; reflexivity|].
    intros seed etcdMember (stdOut & Hhead & _) _. split; [|exact Hjoins].
    apply Herr. intros Hnil. rewrite Hnil in Hhead. discriminate.
  - split; [right; exact Hinit|].
    split; [right; exists member, endpoint, urls; repeat split; assumption|].
    split.
    + intros Ho. split; [exact Hinit|].
      exists member, endpoint, urls. repeat split; try assumption. exact (Hall Ho).
    + intros seed etcdMember (stdOut & Hhead & Hun) Hnone. exfalso.
      destruct Hrep as (stdOut' & Hhead' & Hun').
      rewrite Hhead in Hhead'. injection Hhead' as _ <-.
      rewrite Hun in Hun'. injection Hun' as ->. congruence.
Qed.

Lemma recoverEtcd_seed_and_joins_witness :
  exists o s' tr,
    recoverEtcd (Example.collaborators false false ["https://10.0.0.1:2379"])
                "snapshot.db" EtcdSnapshotRemotePath (Some Example.etcdCA)
                Example.cluster [Example.master1; Example.master2]
                (Example.deployment [Example.master1; Example.master2]) = (o, s', tr)
    /\ o = Ret tt
    /\ seedInitialized (Example.collaborators false false ["https://10.0.0.1:2379"])
                       "snapshot.db" EtcdSnapshotRemotePath ExampleSessions.client tr
    /\ exists etcdMember endpoint urls,
         seedReports (Example.collaborators false false ["https://10.0.0.1:2379"])
                     tr ExampleSessions.client etcdMember /\
         ClientURLs etcdMember = endpoint :: urls /\
         commandsOf KJoin tr = expectedJoins endpoint [ExampleSessions.mwc2].
Proof.
  eexists _, _, _. split; [vm_compute; reflexivity|]. split; [reflexivity|].
  refine (proj1 (proj2 (proj2 (proj2
            (recoverEtcd_seed_and_joins
               (Example.collaborators false false ["https://10.0.0.1:2379"])
               "snapshot.db" EtcdSnapshotRemotePath (Some Example.etcdCA)
               Example.cluster [Example.master1; Example.master2]
               (Example.deployment [Example.master1; Example.master2])
               _ _ _ ExampleSessions.mwc1 [ExampleSessions.mwc2]
               (Example.deployment [Example.master1; Example.master2]) [] _ _)))) eq_refl);
    vm_compute; reflexivity.
Defined.

(** ** The provider-config codec *)

Module CodecFacts.
Import Codec.

(** Over a total and lossless serializer, what
    [EncodeToProviderConfig] returns is decoded back by
    [DecodeFromProviderConfig]. *)
Lemma lossless_round_trip {Object K} (shape : Object -> K)
    (codec : SSHProviderConfigCodec Object) :
  lossless shape codec ->
  forall x out, shape out = shape x ->
    exists providerConfig,
      EncodeToProviderConfig codec x = Ret providerConfig
      /\ DecodeFromProviderConfig codec providerConfig out = Ret x.
Proof.
  intros Hlaw x out Hshape.
  destruct (Hlaw x out Hshape) as (buf & Henc & Hdec).
  exists {| Value := Some {| Raw := buf |} |}.
  unfold EncodeToProviderConfig, DecodeFromProviderConfig.
  rewrite Henc. split; [reflexivity|].
  cbn. rewrite Hdec. reflexivity.
Qed.

(** A failure of the serializer is wrapped, on either side. *)
Lemma EncodeToProviderConfig_wraps {Object} (codec : SSHProviderConfigCodec Object) x err :
  Encode (encoder codec) x = inl err ->
  EncodeToProviderConfig codec x = Err (Errorf "encoding failed: %v" [AErr err]).
Proof. intros H. unfold EncodeToProviderConfig. rewrite H. reflexivity. Qed.

Lemma DecodeFromProviderConfig_wraps {Object} (codec : SSHProviderConfigCodec Object)
    raw out err :
  Decode (decoder codec) raw out = inl err ->
  DecodeFromProviderConfig codec {| Value := Some {| Raw := raw |} |} out
  = Err (Errorf "decoding failed: %v" [AErr err]).
Proof. intros H. unfold DecodeFromProviderConfig. cbn. rewrite H. reflexivity. Qed.

End CodecFacts.

Module WireFacts.
Import Wire.

Lemma get_positive_put p rest : get_positive (put_positive p ++ rest) = Some (p, rest).
Proof. induction p as [q IH|q IH|]; cbn; [rewrite IH..|]; reflexivity. Qed.

Lemma reads_N : reads put_N get_N.
Proof. intros [|p] rest; cbn; [|rewrite get_positive_put]; reflexivity. Qed.

Lemma reads_Z : reads put_Z get_Z.
Proof. intros [|p|p] rest; cbn; [|rewrite get_positive_put..]; reflexivity. Qed.

Lemma length_list_ascii_of_string s :
  length (String.list_ascii_of_string s) = String.length s.
Proof. induction s as [|c s IH]; cbn; [|rewrite IH]; reflexivity. Qed.

Lemma reads_string : reads put_string get_string.
Proof.
  intros s rest. unfold put_string, get_string.
  rewrite <- app_assoc, reads_N, Nat2N.id, <- length_list_ascii_of_string.
  cbv zeta.
  rewrite length_app.
  destruct (Nat.leb_spec (length (String.list_ascii_of_string s))
              (length (String.list_ascii_of_string s) + length rest)) as [_|Hlt]; [|lia].
  rewrite take_app_length, drop_app_length, String.string_of_list_ascii_of_string.
  reflexivity.
Qed.

Lemma get_many_put {A} (put : A -> list ascii) get (l : list A) rest :
  reads put get ->
  get_many get (length l) (concat (put <$> l) ++ rest) = Some (l, rest).
Proof.
  intros Hget. induction l as [|a l IH]; [reflexivity|].
  cbn. rewrite <- app_assoc, Hget, IH. reflexivity.
Qed.

Lemma reads_list {A} (put : A -> list ascii) get :
  reads put get -> reads (put_list put) (get_list get).
Proof.
  intros Hget l rest. unfold put_list, get_list.
  rewrite <- app_assoc, reads_N, Nat2N.id. apply get_many_put, Hget.
Qed.

Lemma reads_option {A} (put : A -> list ascii) get :
  reads put get -> reads (put_option put) (get_option get).
Proof. intros Hget [x|] rest; cbn; [rewrite Hget|]; reflexivity. Qed.

(** One field read, the rest of the record follows. *)
Lemma get_bind_put {A B} (put : A -> list ascii) get (f : A -> reader B) x rest :
  reads put get -> get_bind get f (put x ++ rest) = f x rest.
Proof. intros Hget. unfold get_bind. rewrite Hget. reflexivity. Qed.

Ltac fields :=
  repeat rewrite <- app_assoc;
  repeat first
    [ rewrite (get_bind_put _ _ _ _ _ reads_string)
    | rewrite (get_bind_put _ _ _ _ _ reads_N)
    | rewrite (get_bind_put _ _ _ _ _ reads_Z)
    | rewrite (get_bind_put _ _ _ _ _ (reads_list _ _ reads_string)) ];
  try reflexivity.

Lemma reads_TypeMeta : reads put_TypeMeta get_TypeMeta.
Proof. intros [k v] rest. unfold put_TypeMeta, get_TypeMeta. cbn. fields. Qed.

Lemma reads_SSHConfig : reads put_SSHConfig get_SSHConfig.
Proof.
  intros [h p ks [n]] rest. unfold put_SSHConfig, get_SSHConfig. cbn. fields.
Qed.

Lemma reads_EtcdMember : reads put_EtcdMember get_EtcdMember.
Proof.
  intros [i n ps cs] rest. unfold put_EtcdMember, get_EtcdMember. cbn. fields.
Qed.

(** The body is read back by the reader of its own shape. *)
Lemma get_body_put x into rest :
  kindOfConfig into = kindOfConfig x ->
  get_body into (put_body x ++ rest) = Some (x, rest).
Proof.
  intros Hkind.
  destruct x as [[[n]]|[ms]|[t n rs]|[t m c]|c v], into; try discriminate Hkind;
    cbn [get_body put_body EtcdCASecret LocalObjectReference_Name EtcdMembers
         SPMachineSpec_TypeMeta ProvisionedMachineName SPMachineSpec_Roles
         SPMachineStatus_TypeMeta SPMachineStatus_EtcdMember SPMachineStatus_SSHConfig];
    repeat rewrite <- app_assoc;
    repeat first
      [ rewrite (get_bind_put _ _ _ _ _ reads_string)
      | rewrite (get_bind_put _ _ _ _ _ reads_TypeMeta)
      | rewrite (get_bind_put _ _ _ _ _ (reads_list _ _ reads_string))
      | rewrite (get_bind_put _ _ _ _ _ (reads_list _ _ reads_EtcdMember))
      | rewrite (get_bind_put _ _ _ _ _ (reads_option _ _ reads_EtcdMember))
      | rewrite (get_bind_put _ _ _ _ _ (reads_option _ _ reads_SSHConfig)) ];
    reflexivity.
Qed.

Lemma header_put k v body :
  get_bind get_string (fun k => get_bind get_string (fun v => get_ret (k, v)))
           (put_string k ++ put_string v ++ body)
  = Some ((k, v), body).
Proof. fields. Qed.

Lemma decode_encode x into :
  kindOfConfig into = kindOfConfig x ->
  exists buf, encode x = inr buf /\ decode buf into = inr x.
Proof.
  intros Hkind. eexists. split; [reflexivity|].
  unfold decode.
  rewrite String.list_ascii_of_string_of_list_ascii. rewrite header_put.
  rewrite Hkind, !String.eqb_refl. cbn [negb].
  rewrite <- (app_nil_r (put_body x)), (get_body_put x into [] Hkind).
  reflexivity.
Qed.

Lemma codec_lossless : Codec.lossless kindOfConfig codec.
Proof. intros x out Hkind. exact (decode_encode x out Hkind). Qed.

(** A payload of another kind than the target is refused. *)
Lemma decode_mismatch x into buf :
  kindOfConfig into <> kindOfConfig x ->
  encode x = inr buf ->
  decode buf into = inl (SchemaMismatch (kindOfConfig x) (kindOfConfig into)).
Proof.
  intros Hkind Henc.
  assert (buf = String.string_of_list_ascii
                  (put_string (kindOfConfig x) ++ put_string version ++ put_body x))
    as -> by (unfold encode in Henc; congruence).
  unfold decode.
  rewrite String.list_ascii_of_string_of_list_ascii, header_put.
  destruct (String.eqb_spec (kindOfConfig x) (kindOfConfig into)) as [E|_];
    [congruence|reflexivity].
Qed.

End WireFacts.

(** C8: for every shape of typed provider configuration (the spec and
    the status of a cluster, the spec and the status of a machine, the
    spec of a provisioned machine), [EncodeToProviderConfig] returns a
    provider config, and [DecodeFromProviderConfig], decoding it into
    an object of that shape, returns the value that was encoded:
    decode(encode(x)) = x. *)
Theorem codec_decode_encode (x out : Wire.TypedProviderConfig) :
  Wire.kindOfConfig out = Wire.kindOfConfig x ->
  exists providerConfig,
    Codec.EncodeToProviderConfig Wire.codec x = Ret providerConfig
    /\ Codec.DecodeFromProviderConfig Wire.codec providerConfig out = Ret x.
Proof.
  apply (CodecFacts.lossless_round_trip Wire.kindOfConfig Wire.codec),
    WireFacts.codec_lossless.
Qed.

Lemma codec_decode_encode_witness :
  let x := Wire.MachineStatusConfig
             {| SPMachineStatus_TypeMeta := Example.providerTypeMeta "MachineStatus";
                SPMachineStatus_EtcdMember :=
                  Some (Example.member 1 ["https://10.0.0.1:2379"]);
                SPMachineStatus_SSHConfig := Some Example.sshConfig |} in
  let out := Wire.MachineStatusConfig
               {| SPMachineStatus_TypeMeta := {| Kind := ""; APIVersion := "" |};
                  SPMachineStatus_EtcdMember := None;
                  SPMachineStatus_SSHConfig := None |} in
  Wire.kindOfConfig out = Wire.kindOfConfig x
  /\ exists providerConfig,
    Codec.EncodeToProviderConfig Wire.codec x = Ret providerConfig
    /\ Codec.DecodeFromProviderConfig Wire.codec providerConfig out = Ret x.
Proof.
  split; [reflexivity | apply codec_decode_encode; reflexivity].
Defined.

(** ** The fields of the join command *)

Module FieldsFacts.
Import GoStrings.

Lemma string_of_list_ascii_nonempty (cur : list ascii) :
  cur <> [] -> String.string_of_list_ascii cur <> "".
Proof. destruct cur; [congruence|discriminate]. Qed.

Lemma closeField_Forall (P : string -> Prop) cur fields :
  (cur <> [] -> P (String.string_of_list_ascii cur)) ->
  Forall P fields -> Forall P (closeField cur fields).
Proof.
  intros Hcur Hf. destruct cur as [|c cur]; [exact Hf|].
  constructor; [apply Hcur; discriminate|exact Hf].
Qed.

Lemma fieldsLoop_nonempty f s pending keep cur :
  Forall (fun field => field <> "") (fieldsLoop f s pending keep cur).
Proof.
  revert pending keep cur. induction s as [|b rest IH]; intros pending keep cur.
  - simpl. apply closeField_Forall; [apply string_of_list_ascii_nonempty|constructor].
  - cbn [fieldsLoop]. destruct pending as [|k]; [|apply IH].
    destruct (DecodeRune (N_of_ascii <$> b :: rest)) as [r size].
    destruct (f r); [|apply IH].
    apply closeField_Forall; [apply string_of_list_ascii_nonempty|apply IH].
Qed.

Lemma Fields_nonempty s : Forall (fun field => field <> "") (Fields s).
Proof. apply fieldsLoop_nonempty. Qed.

Lemma asciiSpace_IsSpace b : asciiSpace b = true -> IsSpace (N_of_ascii b) = true.
Proof.
  unfold asciiSpace, IsSpace, inRange. intros H.
  apply orb_true_iff in H. destruct H as [H|H]; rewrite H; [reflexivity|].
  rewrite orb_true_r. reflexivity.
Qed.

Lemma asciiSpace_high b : (0x80 <= N_of_ascii b)%N -> asciiSpace b = false.
Proof.
  unfold asciiSpace. intros H.
  destruct (N.leb_spec (N_of_ascii b) 13); [lia|].
  destruct (N.eqb_spec (N_of_ascii b) 32); [lia|].
  rewrite andb_false_r. reflexivity.
Qed.

Lemma inRange_high lo hi b : (0x80 <= lo)%N -> inRange lo hi b = true -> (0x80 <= b)%N.
Proof.
  unfold inRange. intros Hlo H. apply andb_true_iff in H. destruct H as [H _].
  apply N.leb_le in H. lia.
Qed.

(** The rune at the head of a string: an ASCII byte is its own rune,
    and the bytes after the first of a longer rune are not ASCII. *)
Lemma DecodeRune_spec (s0 : N) (t : list N) r size :
  DecodeRune (s0 :: t) = (r, size) ->
  ((s0 < 0x80)%N -> r = s0)
  /\ Forall (fun b => (0x80 <= b)%N) (take (Nat.pred size) t).
Proof.
  unfold DecodeRune.
  destruct (N.ltb_spec s0 0x80) as [Hlt|Hge].
  { intros [= <- <-]. split; [reflexivity|constructor]. }
  intros H. split; [lia|].
  repeat case_match; simplify_eq; cbn [Nat.pred take]; try constructor;
    repeat match goal with
    | H : _ && _ = true |- _ => apply andb_true_iff in H; destruct H
    end;
    repeat constructor;
    try (eapply inRange_high; [|eassumption]; lia).
Qed.

Lemma fieldsLoop_clean s pending keep cur :
  Forall (fun b => asciiSpace b = false) cur ->
  Forall (fun b => (0x80 <= N_of_ascii b)%N) (take pending s) ->
  Forall (fun field =>
            Forall (fun b => asciiSpace b = false) (String.list_ascii_of_string field))
         (fieldsLoop IsSpace s pending keep cur).
Proof.
  revert pending keep cur. induction s as [|b rest IH]; intros pending keep cur Hcur Hpend.
  - simpl. apply closeField_Forall; [|constructor].
    intros _. rewrite String.list_ascii_of_string_of_list_ascii. exact Hcur.
  - cbn [fieldsLoop]. destruct pending as [|k].
    + destruct (DecodeRune (N_of_ascii <$> b :: rest)) as [r size] eqn:E.
      rewrite fmap_cons in E. apply DecodeRune_spec in E. destruct E as [Hr Hcont].
      assert (Forall (fun b => (0x80 <= N_of_ascii b)%N) (take (Nat.pred size) rest))
        as Hrest.
      { rewrite <- fmap_take, Forall_fmap in Hcont. exact Hcont. }
      destruct (IsSpace r) eqn:Hspace.
      * apply closeField_Forall.
        -- intros _. rewrite String.list_ascii_of_string_of_list_ascii. exact Hcur.
        -- apply IH; [constructor|exact Hrest].
      * apply IH; [|exact Hrest]. apply Forall_app. split; [exact Hcur|].
        constructor; [|constructor].
        destruct (N.ltb_spec (N_of_ascii b) 0x80) as [Hlt|Hge];
          [|apply asciiSpace_high, Hge].
        destruct (asciiSpace b) eqn:Hb; [|reflexivity].
        apply asciiSpace_IsSpace in Hb. rewrite <- (Hr Hlt), Hspace in Hb. discriminate.
    + cbn [take] in Hpend. apply Forall_cons in Hpend. destruct Hpend as [Hb Hpend].
      apply IH; [|exact Hpend].
      destruct keep; [|exact Hcur].
      apply Forall_app. split; [exact Hcur|].
      constructor; [apply asciiSpace_high, Hb|constructor].
Qed.

Lemma Fields_clean s :
  Forall (fun field =>
            Forall (fun b => asciiSpace b = false) (String.list_ascii_of_string field))
         (Fields s).
Proof. apply fieldsLoop_clean; constructor. Qed.

End FieldsFacts.

(** X1: the token and the hash that
    [tokenAndCAHashFromKubeadmJoinCommand] returns are not empty and
    hold no ASCII white space (they are fields of [strings.Fields]). *)
Theorem tokenAndCAHash_fields_clean (cmdStdout token caHash : string) :
  tokenAndCAHashFromKubeadmJoinCommand cmdStdout = Ret (token, caHash) ->
  (token <> "" /\ caHash <> "")
  /\ forall b, b ∈ String.list_ascii_of_string token ++ String.list_ascii_of_string caHash ->
               asciiSpace b = false.
Proof.
  unfold tokenAndCAHashFromKubeadmJoinCommand.
  destruct (Nat.eqb_spec (length (GoStrings.Fields cmdStdout)) 7) as [Hlen|];
    [|discriminate].
  cbn [negb]. intros [= <- <-].
  assert (forall i, (i < 7)%nat -> nth i (GoStrings.Fields cmdStdout) "" ∈ GoStrings.Fields cmdStdout)
    as Hin.
  { intros i Hi. apply list_elem_of_In, nth_In. lia. }
  pose proof (FieldsFacts.Fields_nonempty cmdStdout) as Hne.
  pose proof (FieldsFacts.Fields_clean cmdStdout) as Hclean.
  rewrite Forall_forall in Hne, Hclean.
  split; [split; apply Hne, Hin; lia|].
  intros b Hb. apply elem_of_app in Hb.
  destruct Hb as [Hb|Hb];
    [ specialize (Hclean _ (Hin 4%nat ltac:(lia)))
    | specialize (Hclean _ (Hin 6%nat ltac:(lia))) ];
    rewrite Forall_forall in Hclean; apply Hclean, Hb.
Qed.

Lemma tokenAndCAHash_fields_clean_witness :
  ("abcdef.123456" <> "" /\ "sha256:deadbeef" <> "")
  /\ forall b, b ∈ String.list_ascii_of_string "abcdef.123456"
                   ++ String.list_ascii_of_string "sha256:deadbeef" ->
               asciiSpace b = false.
Proof.
  apply (tokenAndCAHash_fields_clean
           "kubeadm join 1.2.3.4:6443 --token abcdef.123456 --discovery-token-ca-cert-hash sha256:deadbeef").
  vm_compute. reflexivity.
Defined.

(** ** When the check of [delete machine] lets the deletion go on *)

(** X2: [deleteMustNotOrphanNodes] exits exactly when the target holds
    the Master role, the machines of the namespace list the Master role
    once in all, and they list the Node role at least once; in every
    other case it returns. Either way it makes no event and leaves the
    state as it was. What is counted are the role entries of the
    machines in the store, not the machines. *)
Theorem deleteMustNotOrphanNodes_decides {W : Type}
    (targetMachine : Machine) (s : State W) :
  deleteMustNotOrphanNodes targetMachine s =
  (let items := listObjects Machine_ObjectMeta DefaultNamespace (Machines (store s)) in
   if RoleContains MasterRole (Machine_Spec_Roles targetMachine)
      && (roleEntries MasterRole items =? 1)%Z
      && (0 <? roleEntries NodeRole items)%Z
   then Exit (WouldOrphanNodes (roleEntries NodeRole items))
   else Ret tt,
   s, []).
Proof.
  unfold deleteMustNotOrphanNodes.
  destruct (RoleContains MasterRole (Machine_Spec_Roles targetMachine)); [|reflexivity].
  rewrite run_bind. unfold orFatalf, Machines_List, storeRead. cbn beta iota.
  rewrite countRoles_entries. cbn beta iota zeta.
  destruct (roleEntries MasterRole _ =? 1)%Z; [|reflexivity].
  destruct (0 <? roleEntries NodeRole _)%Z; reflexivity.
Qed.

(** ** What a computation leaves unchanged *)

Section Preserving.
Context {W : Type} (R : State W -> State W -> Prop).
Context (R_refl : forall s, R s s) (R_trans : forall s1 s2 s3, R s1 s2 -> R s2 s3 -> R s1 s3).

Lemma preserves_mret {A} (a : A) : preserves R (mret a).
Proof. intros s o s' tr [= <- <- <-]. apply R_refl. Qed.

Lemma preserves_stop {A} (o : outcome A) : preserves R (stop o).
Proof. intros s o' s' tr [= <- <- <-]. apply R_refl. Qed.

Lemma preserves_lift {A} (r : error + A) : preserves R (lift r).
Proof. destruct r; [apply preserves_stop|apply preserves_mret]. Qed.

Lemma preserves_deref {A} (p : option A) : preserves R (deref p).
Proof. destruct p; [apply preserves_mret|apply preserves_stop]. Qed.

Lemma preserves_ask {A} (f : W -> A) : preserves R (ask f).
Proof. intros s o s' tr [= <- <- <-]. apply R_refl. Qed.

Lemma preserves_emit ev : preserves R (emit ev).
Proof. intros s o s' tr [= <- <- <-]. apply R_refl. Qed.

Lemma preserves_storeRead {A} (f : Store -> error + A) : preserves R (storeRead f).
Proof. intros s o s' tr [= <- <- <-]. apply R_refl. Qed.

Lemma preserves_bind {A B} (m : M W A) (f : A -> M W B) :
  preserves R m -> (forall a, preserves R (f a)) -> preserves R (m ≫= f).
Proof.
  intros Hm Hf s o s' tr. rewrite run_bind.
  destruct (m s) as [[o1 s1] t1] eqn:E1. specialize (Hm _ _ _ _ E1).
  destruct o1 as [a|e|e|]; try (intros [= <- <- <-]; exact Hm).
  destruct (f a s1) as [[o2 s2] t2] eqn:E2. intros [= <- <- <-].
  exact (R_trans _ _ _ Hm (Hf _ _ _ _ _ E2)).
Qed.

Lemma preserves_annotate {A} wrap (m : M W A) : preserves R m -> preserves R (annotate wrap m).
Proof.
  intros Hm s o s' tr. unfold annotate.
  destruct (m s) as [[o1 s1] t1] eqn:E1. specialize (Hm _ _ _ _ E1).
  destruct o1; intros [= <- <- <-]; exact Hm.
Qed.

Lemma preserves_orFatalf {A} wrap (m : M W A) : preserves R m -> preserves R (orFatalf wrap m).
Proof.
  intros Hm s o s' tr. unfold orFatalf.
  destruct (m s) as [[o1 s1] t1] eqn:E1. specialize (Hm _ _ _ _ E1).
  destruct o1; intros [= <- <- <-]; exact Hm.
Qed.

Lemma preserves_try {A} (m : M W A) : preserves R m -> preserves R (try m).
Proof.
  intros Hm s o s' tr. unfold try.
  destruct (m s) as [[o1 s1] t1] eqn:E1. specialize (Hm _ _ _ _ E1).
  destruct o1; intros [= <- <- <-]; exact Hm.
Qed.

End Preserving.

(** The calls that reach a machine or the local state change the
    outside only. *)
Section SameStore.
Context {W : Type} (env : Collaborators W).

Lemma sameStore_refl (s : State W) : sameStore s s.
Proof. reflexivity. Qed.

Lemma sameStore_trans (s1 s2 s3 : State W) :
  sameStore s1 s2 -> sameStore s2 s3 -> sameStore s1 s3.
Proof. unfold sameStore. congruence. Qed.

Lemma sameStore_RunCommand c cmd : preserves sameStore (RunCommand env c cmd).
Proof.
  intros s o s' tr. unfold RunCommand.
  destruct (transport_RunCommand env c cmd (world s)) as [[[stdOut stdErr] err] w].
  intros [= <- <- <-]. reflexivity.
Qed.

Lemma sameStore_ReadFile c path : preserves sameStore (ReadFile env c path).
Proof.
  intros s o s' tr. unfold ReadFile.
  destruct (transport_ReadFile env c path (world s)) as [[data err] w].
  intros [= <- <- <-]. reflexivity.
Qed.

Lemma sameStore_WriteFile c path mode data :
  preserves sameStore (WriteFile env c path mode data).
Proof. intros s o s' tr [= <- <- <-]. reflexivity. Qed.

Lemma sameStore_MkdirAll c path mode : preserves sameStore (MkdirAll env c path mode).
Proof. intros s o s' tr [= <- <- <-]. reflexivity. Qed.

Lemma sameStore_MoveFile c src dst : preserves sameStore (MoveFile env c src dst).
Proof. intros s o s' tr [= <- <- <-]. reflexivity. Qed.

Lemma sameStore_PullFromAPIs : preserves sameStore (PullFromAPIs env).
Proof. intros s o s' tr [= <- <- <-]. reflexivity. Qed.

Lemma sameStore_runChecked c cmd : preserves sameStore (runChecked env c cmd).
Proof.
  unfold runChecked.
  apply preserves_bind; [exact sameStore_trans|apply sameStore_RunCommand|].
  intros [[stdOut stdErr] [err|]];
    [apply preserves_stop|apply preserves_mret]; exact sameStore_refl.
Qed.

End SameStore.

Ltac sameStore_step :=
  first
    [ apply (preserves_mret _ sameStore_refl)
    | apply (preserves_stop _ sameStore_refl)
    | apply (preserves_lift _ sameStore_refl)
    | apply (preserves_deref _ sameStore_refl)
    | apply (preserves_ask _ sameStore_refl)
    | apply (preserves_emit _ sameStore_refl)
    | apply (preserves_storeRead _ sameStore_refl)
    | apply preserves_annotate | apply preserves_orFatalf | apply preserves_try
    | apply sameStore_runChecked | apply sameStore_RunCommand
    | apply sameStore_ReadFile | apply sameStore_WriteFile
    | apply sameStore_MkdirAll | apply sameStore_MoveFile
    | apply sameStore_PullFromAPIs
    | apply (preserves_bind _ sameStore_trans); [|intros ?]
    | match goal with
      | |- preserves _ (match ?x with _ => _ end) => destruct x
      | |- preserves _ (let '(_, _) := ?x in _) => destruct x
      end ].

Ltac sameStore_auto := unfold Printf, Println, throw, panic, Fatalf; repeat sameStore_step.

Section SameStoreOf.
Context {W : Type} (env : Collaborators W).

Lemma sameStore_sshMachineClientFromSSHConfig sshConfig :
  preserves sameStore (sshMachineClientFromSSHConfig env sshConfig).
Proof. unfold sshMachineClientFromSSHConfig, Secrets_Get. sameStore_auto. Qed.

Lemma sameStore_masterMachineAndProvisionedMachine :
  preserves sameStore (masterMachineAndProvisionedMachine env).
Proof.
  unfold masterMachineAndProvisionedMachine, Machines_List, ProvisionedMachines_Get.
  sameStore_auto.
Qed.

Lemma sameStore_bootstrapTokenSecretFromMachine machine provisionedMachine :
  preserves sameStore (bootstrapTokenSecretFromMachine env machine provisionedMachine).
Proof.
  unfold bootstrapTokenSecretFromMachine.
  apply (preserves_bind _ sameStore_trans);
    [apply preserves_annotate, sameStore_sshMachineClientFromSSHConfig|intros c].
  sameStore_auto.
Qed.

Lemma sameStore_adminKubeconfigFromMachine machine provisionedMachine :
  preserves sameStore (adminKubeconfigFromMachine env machine provisionedMachine).
Proof.
  unfold adminKubeconfigFromMachine.
  apply (preserves_bind _ sameStore_trans);
    [apply preserves_annotate, sameStore_sshMachineClientFromSSHConfig|intros c].
  sameStore_auto.
Qed.

Lemma sameStore_writeAdminKubeconfigToMachine kubeconfig machine provisionedMachine :
  preserves sameStore
    (writeAdminKubeconfigToMachine env kubeconfig machine provisionedMachine).
Proof.
  unfold writeAdminKubeconfigToMachine.
  apply (preserves_bind _ sameStore_trans);
    [apply preserves_annotate, sameStore_sshMachineClientFromSSHConfig|intros c].
  sameStore_auto.
Qed.

Lemma sameStore_drainAndDeleteNodeForMachine drainTimeout drainGracePeriodSeconds
    targetMachine targetProvisionedMachine :
  preserves sameStore
    (drainAndDeleteNodeForMachine env drainTimeout drainGracePeriodSeconds
       targetMachine targetProvisionedMachine).
Proof.
  unfold drainAndDeleteNodeForMachine.
  apply (preserves_bind _ sameStore_trans);
    [apply preserves_annotate, sameStore_sshMachineClientFromSSHConfig|intros c].
  sameStore_auto.
Qed.

End SameStoreOf.

(** ** Computations that never exit the process *)

Section NeverExits.
Context {W : Type}.

Lemma neverExits_mret {A} (a : A) : neverExits (W:=W) (mret a).
Proof. intros s o s' tr [= <- <- <-] e. discriminate. Qed.

Lemma neverExits_throw {A} (e : error) : neverExits (W:=W) (A:=A) (throw e).
Proof. intros s o s' tr [= <- <- <-] e'. discriminate. Qed.

Lemma neverExits_panic {A} : neverExits (W:=W) (A:=A) panic.
Proof. intros s o s' tr [= <- <- <-] e'. discriminate. Qed.

Lemma neverExits_lift {A} (r : error + A) : neverExits (W:=W) (lift r).
Proof. destruct r; [apply neverExits_throw|apply neverExits_mret]. Qed.

Lemma neverExits_deref {A} (p : option A) : neverExits (W:=W) (deref p).
Proof. destruct p; [apply neverExits_mret|apply neverExits_panic]. Qed.

Lemma neverExits_ask {A} (f : W -> A) : neverExits (ask f).
Proof. intros s o s' tr [= <- <- <-] e. discriminate. Qed.

Lemma neverExits_emit ev : neverExits (W:=W) (emit ev).
Proof. intros s o s' tr [= <- <- <-] e. discriminate. Qed.

Lemma neverExits_storeRead {A} (f : Store -> error + A) : neverExits (W:=W) (storeRead f).
Proof.
  intros s o s' tr. unfold storeRead. destruct (f (store s)); intros [= <- <- <-] e';
    discriminate.
Qed.

Lemma neverExits_storeWrite op f : neverExits (W:=W) (storeWrite op f).
Proof.
  intros s o s' tr. unfold storeWrite. destruct (f (store s)); intros [= <- <- <-] e';
    discriminate.
Qed.

Lemma neverExits_bind {A B} (m : M W A) (f : A -> M W B) :
  neverExits m -> (forall a, neverExits (f a)) -> neverExits (m ≫= f).
Proof.
  intros Hm Hf s o s' tr. rewrite run_bind.
  destruct (m s) as [[o1 s1] t1] eqn:E1. specialize (Hm _ _ _ _ E1).
  destruct o1 as [a|e|e|]; try (intros [= <- <- <-] e'; discriminate).
  - destruct (f a s1) as [[o2 s2] t2] eqn:E2. intros [= <- <- <-].
    exact (Hf _ _ _ _ _ E2).
  - exfalso. exact (Hm e eq_refl).
Qed.

Lemma neverExits_annotate {A} wrap (m : M W A) : neverExits m -> neverExits (annotate wrap m).
Proof.
  intros Hm s o s' tr. unfold annotate.
  destruct (m s) as [[o1 s1] t1] eqn:E1. specialize (Hm _ _ _ _ E1).
  destruct o1; intros [= <- <- <-] e'; try discriminate. apply Hm.
Qed.

Lemma neverExits_try {A} (m : M W A) : neverExits m -> neverExits (try m).
Proof.
  intros Hm s o s' tr. unfold try.
  destruct (m s) as [[o1 s1] t1] eqn:E1. specialize (Hm _ _ _ _ E1).
  destruct o1 as [a|e|e|]; intros [= <- <- <-] e'; try discriminate.
  intros _. exact (Hm e eq_refl).
Qed.

Context (env : Collaborators W).

Lemma neverExits_RunCommand c cmd : neverExits (RunCommand env c cmd).
Proof.
  intros s o s' tr. unfold RunCommand.
  destruct (transport_RunCommand env c cmd (world s)) as [[[stdOut stdErr] err] w].
  intros [= <- <- <-] e. discriminate.
Qed.

Lemma neverExits_effect r ev (s : State W) o s' tr :
  effect r ev s = (o, s', tr) -> forall e, o <> Exit e.
Proof. unfold effect. destruct r.1; intros [= <- <- <-] e'; discriminate. Qed.

Lemma neverExits_WriteFile c path mode data : neverExits (WriteFile env c path mode data).
Proof. intros s o s' tr. apply neverExits_effect. Qed.

Lemma neverExits_MkdirAll c path mode : neverExits (MkdirAll env c path mode).
Proof. intros s o s' tr. apply neverExits_effect. Qed.

Lemma neverExits_MoveFile c src dst : neverExits (MoveFile env c src dst).
Proof. intros s o s' tr. apply neverExits_effect. Qed.

Lemma neverExits_runChecked c cmd : neverExits (runChecked env c cmd).
Proof.
  unfold runChecked. apply neverExits_bind; [apply neverExits_RunCommand|].
  intros [[stdOut stdErr] [err|]]; [apply neverExits_throw|apply neverExits_mret].
Qed.

End NeverExits.

Ltac neverExits_step :=
  first
    [ apply neverExits_mret | apply neverExits_throw | apply neverExits_panic
    | apply neverExits_lift | apply neverExits_deref | apply neverExits_ask
    | apply neverExits_emit | apply neverExits_storeRead | apply neverExits_storeWrite
    | apply neverExits_annotate | apply neverExits_try
    | apply neverExits_runChecked | apply neverExits_RunCommand
    | apply neverExits_WriteFile | apply neverExits_MkdirAll | apply neverExits_MoveFile
    | apply neverExits_bind; [|intros ?]
    | match goal with
      | |- neverExits (match ?x with _ => _ end) => destruct x
      | |- neverExits (let '(_, _) := ?x in _) => destruct x
      end ].

Ltac neverExits_auto := unfold Printf, Println; repeat neverExits_step.

Section NeverExitsOf.
Context {W : Type} (env : Collaborators W).

Lemma neverExits_sshMachineClientFromSSHConfig sshConfig :
  neverExits (sshMachineClientFromSSHConfig env sshConfig).
Proof. unfold sshMachineClientFromSSHConfig, Secrets_Get. neverExits_auto. Qed.

Lemma neverExits_mastersWithClientLoop masters :
  neverExits (mastersWithClientLoop env masters).
Proof.
  induction masters as [|master masters IH]; simpl; [apply neverExits_mret|].
  apply neverExits_bind; [neverExits_auto|intros machineStatus].
  apply neverExits_bind;
    [apply neverExits_annotate, neverExits_sshMachineClientFromSSHConfig|intros c].
  apply neverExits_bind; [exact IH|intros mwcs]. apply neverExits_mret.
Qed.

Lemma neverExits_removeClusterEtcdMember etcdMember cluster :
  neverExits (removeClusterEtcdMember env etcdMember cluster).
Proof. unfold removeClusterEtcdMember, Clusters_UpdateStatus. neverExits_auto. Qed.

Lemma neverExits_insertClusterEtcdMember etcdMember cluster :
  neverExits (insertClusterEtcdMember env etcdMember cluster).
Proof. unfold insertClusterEtcdMember, Clusters_UpdateStatus. neverExits_auto. Qed.

Lemma neverExits_updateMachineEtcdMember etcdMember machine :
  neverExits (updateMachineEtcdMember env etcdMember machine).
Proof. unfold updateMachineEtcdMember, Machines_UpdateStatus. neverExits_auto. Qed.

Lemma neverExits_etcdMemberFromMachine c : neverExits (etcdMemberFromMachine env c).
Proof. unfold etcdMemberFromMachine. neverExits_auto. Qed.

Lemma neverExits_resetLoop mwcs cluster : neverExits (resetLoop env mwcs cluster).
Proof.
  revert cluster. induction mwcs as [|mwc rest IH]; intros cluster; simpl;
    [apply neverExits_mret|].
  apply neverExits_bind; [unfold resetEtcdSkipRemoveMember; neverExits_auto|intros _].
  apply neverExits_bind; [neverExits_auto|intros machineStatus].
  apply neverExits_bind; [neverExits_auto|intros etcdMember].
  apply neverExits_bind;
    [apply neverExits_annotate, neverExits_removeClusterEtcdMember|intros cluster'].
  apply IH.
Qed.

Lemma neverExits_writeSecretToMachine c secret certKey keyKey certPath keyPath :
  neverExits (writeSecretToMachine env c secret certKey keyKey certPath keyPath).
Proof. unfold writeSecretToMachine. neverExits_auto. Qed.

Lemma neverExits_writeCALoop mwcs etcdCASecret :
  neverExits (writeCALoop env mwcs etcdCASecret).
Proof.
  induction mwcs as [|mwc rest IH]; simpl; [apply neverExits_mret|].
  apply neverExits_bind;
    [apply neverExits_annotate, neverExits_writeSecretToMachine|intros _]. exact IH.
Qed.

Lemma neverExits_recoverFirstMaster localPath remotePath firstMWC cluster :
  neverExits (recoverFirstMaster env localPath remotePath firstMWC cluster).
Proof.
  unfold recoverFirstMaster.
  apply neverExits_bind; [neverExits_auto|intros _].
  apply neverExits_bind; [unfold writeEtcdSnapshot; neverExits_auto|intros _].
  apply neverExits_bind; [unfold etcdadmInitFromSnapshot; neverExits_auto|intros _].
  apply neverExits_bind;
    [apply neverExits_annotate, neverExits_etcdMemberFromMachine|intros member].
  apply neverExits_bind;
    [apply neverExits_annotate, neverExits_updateMachineEtcdMember|intros _].
  apply neverExits_bind;
    [apply neverExits_annotate, neverExits_insertClusterEtcdMember|intros cluster'].
  apply neverExits_mret.
Qed.

Lemma neverExits_joinLoop endpoint mwcs cluster :
  neverExits (joinLoop env endpoint mwcs cluster).
Proof.
  revert cluster. induction mwcs as [|mwc rest IH]; intros cluster; simpl;
    [apply neverExits_mret|].
  apply neverExits_bind; [neverExits_auto|intros _].
  apply neverExits_bind; [unfold etcdadmJoin; neverExits_auto|intros _].
  apply neverExits_bind;
    [apply neverExits_annotate, neverExits_etcdMemberFromMachine|intros member].
  apply neverExits_bind;
    [apply neverExits_annotate, neverExits_updateMachineEtcdMember|intros _].
  apply neverExits_bind;
    [apply neverExits_annotate, neverExits_insertClusterEtcdMember|intros cluster'].
  apply IH.
Qed.

Lemma neverExits_restartLoop mwcs : neverExits (restartLoop env mwcs).
Proof.
  induction mwcs as [|mwc rest IH]; simpl; [apply neverExits_mret|].
  apply neverExits_bind; [neverExits_auto|intros _].
  apply neverExits_bind; [unfold restartKubelet; neverExits_auto|intros r].
  apply neverExits_bind; [neverExits_auto|intros _]. exact IH.
Qed.

End NeverExitsOf.

Lemma neverExits_recoverEtcd {W : Type} (env : Collaborators W)
    (localPath remotePath : string) (etcdCASecret : option Secret)
    (cluster : Cluster) (masters : list Machine) :
  neverExits (recoverEtcd env localPath remotePath etcdCASecret cluster masters).
Proof.
  unfold recoverEtcd. destruct (length masters =? 0)%nat; [apply neverExits_mret|].
  apply neverExits_bind; [apply neverExits_mastersWithClientLoop|intros mwcs].
  apply neverExits_bind; [neverExits_auto|intros _].
  apply neverExits_bind; [apply neverExits_resetLoop|intros cluster1].
  apply neverExits_bind; [neverExits_auto|intros _].
  apply neverExits_bind; [apply neverExits_writeCALoop|intros _].
  destruct mwcs as [|firstMWC otherMWCs]; [apply neverExits_panic|].
  apply neverExits_bind; [apply neverExits_recoverFirstMaster|intros [member cluster2]].
  destruct (ClientURLs member) as [|endpoint urls]; [apply neverExits_throw|].
  apply neverExits_bind; [apply neverExits_joinLoop|intros cluster3].
  apply neverExits_bind; [apply neverExits_restartLoop|intros _].
  apply neverExits_mret.
Qed.

(** X3: [recoverEtcd] never exits the process: whatever the masters,
    the secret, the store and the machines do, it returns (with [nil] or
    with an error) or panics, and leaves [log.Fatalf] to its caller. *)
Theorem recoverEtcd_never_exits {W : Type} (env : Collaborators W)
    (localPath remotePath : string) (etcdCASecret : option Secret)
    (cluster : Cluster) (masters : list Machine) (s : State W) (e : error) :
  (recoverEtcd env localPath remotePath etcdCASecret cluster masters s).1.1 <> Exit e.
Proof.
  destruct (recoverEtcd env localPath remotePath etcdCASecret cluster masters s)
    as [[o s'] tr] eqn:E.
  exact (neverExits_recoverEtcd env _ _ _ _ _ _ _ _ _ E e).
Qed.

(** ** Sessions *)

Section Sessions.
Context {W : Type} (env : Collaborators W).

(** How [sshMachineClientFromSSHConfig] ends, case by case. *)
Lemma sshMachineClientFromSSHConfig_run (sshConfig : option SSHConfig) (s : State W) :
  sshMachineClientFromSSHConfig env sshConfig s =
  match sshConfig with
  | None => (Panic, s, [])
  | Some cfg =>
    let name := LocalObjectReference_Name (CredentialSecret cfg) in
    match getObject Secret_ObjectMeta DefaultNamespace name (Secrets (store s)) with
    | None => (Err (Errorf "unable to find SSH credential %q" [AStr name]), s, [])
    | Some secret =>
      match UsernameAndKeyFromSecret env secret with
      | inl err =>
        (Err (Errorf "unable to read SSH credential from secret: %v" [AErr err]), s, [])
      | inr (username, privateKey) =>
        let insecureIgnoreHostKey := (length (PublicKeys cfg) =? 0)%nat in
        let client := {| Client_host := Host cfg; Client_port := Port cfg;
                         Client_username := username; Client_privateKey := privateKey;
                         Client_publicKeys := PublicKeys cfg;
                         Client_insecureIgnoreHostKey := insecureIgnoreHostKey |} in
        (match NewClient env client with Some err => Err err | None => Ret client end,
         s, if insecureIgnoreHostKey then [sshIdentityWarning] else [])
      end
    end
  end.
Proof.
  destruct sshConfig as [cfg|]; [|reflexivity].
  cbv [sshMachineClientFromSSHConfig mbind M_bind mret M_ret deref try Secrets_Get
       storeRead found annotate lift throw stop Printf emit panic].
  destruct (getObject Secret_ObjectMeta DefaultNamespace
              (LocalObjectReference_Name (CredentialSecret cfg)) (Secrets (store s)))
    as [secret|]; [|reflexivity].
  destruct (UsernameAndKeyFromSecret env secret) as [err|[username privateKey]];
    [reflexivity|].
  destruct (length (PublicKeys cfg) =? 0)%nat;
    (destruct (NewClient env _); reflexivity).
Qed.

Lemma sshMachineClientFromSSHConfig_trace (sshConfig : option SSHConfig)
    (s s' : State W) o tr :
  sshMachineClientFromSSHConfig env sshConfig s = (o, s', tr) ->
  s' = s /\ (tr = [] \/ tr = [sshIdentityWarning]).
Proof.
  rewrite sshMachineClientFromSSHConfig_run.
  destruct sshConfig as [cfg|]; [|intros [= <- <- <-]; auto].
  cbv zeta. destruct (getObject _ _ _ _) as [secret|]; [|intros [= <- <- <-]; auto].
  destruct (UsernameAndKeyFromSecret env secret) as [err|[username privateKey]];
    [intros [= <- <- <-]; auto|].
  destruct (length (PublicKeys cfg) =? 0)%nat; intros [= <- <- <-]; auto.
Qed.

End Sessions.

(** X4: a session that [sshMachineClientFromSSHConfig] returns is to
    the host and port of the configuration, with the user name and the
    key of the credential secret the configuration names, found in the
    store; the check of the host key is switched off exactly when the
    configuration lists no public key, and exactly then the warning is
    logged. The state is as it was. *)
Theorem sshMachineClientFromSSHConfig_session {W : Type} (env : Collaborators W)
    (sshConfig : option SSHConfig) (s s' : State W) (client : Client) (tr : list Event) :
  sshMachineClientFromSSHConfig env sshConfig s = (Ret client, s', tr) ->
  exists cfg secret,
    sshConfig = Some cfg
    /\ getObject Secret_ObjectMeta DefaultNamespace
                 (LocalObjectReference_Name (CredentialSecret cfg))
                 (Secrets (store s)) = Some secret
    /\ UsernameAndKeyFromSecret env secret =
       inr (Client_username client, Client_privateKey client)
    /\ Client_host client = Host cfg
    /\ Client_port client = Port cfg
    /\ Client_publicKeys client = PublicKeys cfg
    /\ (Client_insecureIgnoreHostKey client = true <-> PublicKeys cfg = [])
    /\ tr = (if Client_insecureIgnoreHostKey client then [sshIdentityWarning] else [])
    /\ s' = s.
Proof.
  rewrite sshMachineClientFromSSHConfig_run.
  destruct sshConfig as [cfg|]; [|discriminate]. cbv zeta.
  destruct (getObject _ _ _ _) as [secret|] eqn:Hsecret; [|discriminate].
  destruct (UsernameAndKeyFromSecret env secret) as [err|[username privateKey]] eqn:Hcred;
    [discriminate|].
  destruct (NewClient env _); [discriminate|].
  intros [= <- <- <-]. exists cfg, secret. cbn.
  repeat split; try reflexivity; try assumption.
  - intros H. apply Nat.eqb_eq in H. destruct (PublicKeys cfg); [reflexivity|discriminate].
  - intros ->. reflexivity.
Qed.

Lemma sshMachineClientFromSSHConfig_session_witness :
  exists cfg secret,
    Some Example.sshConfig = Some cfg
    /\ getObject Secret_ObjectMeta DefaultNamespace
                 (LocalObjectReference_Name (CredentialSecret cfg))
                 (Secrets (store (Example.deployment [Example.master1]))) = Some secret
    /\ UsernameAndKeyFromSecret (Example.collaborators false false []) secret =
       inr (Client_username ExampleSessions.client,
            Client_privateKey ExampleSessions.client)
    /\ Client_host ExampleSessions.client = Host cfg
    /\ Client_port ExampleSessions.client = Port cfg
    /\ Client_publicKeys ExampleSessions.client = PublicKeys cfg
    /\ (Client_insecureIgnoreHostKey ExampleSessions.client = true <-> PublicKeys cfg = [])
    /\ [] = (if Client_insecureIgnoreHostKey ExampleSessions.client
             then [sshIdentityWarning] else [])
    /\ Example.deployment [Example.master1] = Example.deployment [Example.master1].
Proof.
  apply (sshMachineClientFromSSHConfig_session
           (Example.collaborators false false []) (Some Example.sshConfig)
           (Example.deployment [Example.master1]) (Example.deployment [Example.master1])
           ExampleSessions.client []).
  vm_compute. reflexivity.
Defined.

(** X5: opening a session changes nothing: on every run of
    [sshMachineClientFromSSHConfig] the state is as it was and the only
    event there can be is the warning; it never exits the process, and
    it panics exactly when the configuration is nil. *)
Theorem sshMachineClientFromSSHConfig_changes_nothing {W : Type} (env : Collaborators W)
    (sshConfig : option SSHConfig) (s : State W) :
  exists o tr,
    sshMachineClientFromSSHConfig env sshConfig s = (o, s, tr)
    /\ (tr = [] \/ tr = [sshIdentityWarning])
    /\ (o = Panic <-> sshConfig = None)
    /\ forall e, o <> Exit e.
Proof.
  rewrite sshMachineClientFromSSHConfig_run.
  destruct sshConfig as [cfg|].
  - cbv zeta. destruct (getObject _ _ _ _) as [secret|].
    + destruct (UsernameAndKeyFromSecret env secret) as [err|[username privateKey]].
      * eexists _, _. split; [reflexivity|]. split; [left; reflexivity|].
        split; [split; discriminate|discriminate].
      * eexists _, _. split; [reflexivity|].
        split; [destruct (length (PublicKeys cfg) =? 0)%nat; [right|left]; reflexivity|].
        destruct (NewClient env _); (split; [split; discriminate|discriminate]).
    + eexists _, _. split; [reflexivity|]. split; [left; reflexivity|].
      split; [split; discriminate|discriminate].
  - eexists _, _. split; [reflexivity|]. split; [left; reflexivity|].
    split; [split; reflexivity|discriminate].
Qed.

(** ** The master a node gets its token from *)

Lemma find_first {A} (p : A -> bool) (l : list A) (x : A) :
  List.find p l = Some x ->
  exists before after,
    l = before ++ x :: after /\ Forall (fun y => p y = false) before /\ p x = true.
Proof.
  induction l as [|y l IH]; simpl; [discriminate|].
  destruct (p y) eqn:Hy.
  - intros [= ->]. exists [], l. repeat split; [constructor|exact Hy].
  - intros H. destruct (IH H) as (before & after & -> & Hb & Hx).
    exists (y :: before), after. repeat split; [constructor; assumption|exact Hx].
Qed.

Lemma find_none {A} (p : A -> bool) (l : list A) :
  Forall (fun y => p y = false) l -> List.find p l = None.
Proof.
  induction 1 as [|y l Hy _ IH]; simpl; [reflexivity|]. rewrite Hy. exact IH.
Qed.

Section Master.
Context {W : Type} (env : Collaborators W).

Lemma masterMachineAndProvisionedMachine_run (s : State W) :
  masterMachineAndProvisionedMachine env s =
  (match List.find (fun machine => RoleContains MasterRole (Machine_Spec_Roles machine))
                   (listObjects Machine_ObjectMeta DefaultNamespace (Machines (store s))) with
   | None =>
     Err (Errorf "unable to find any machine with Master role, cannot obtain bootstrap token" [])
   | Some masterMachine =>
     match GetMachineSpec env masterMachine with
     | inl err => Err (Errorf "unable to decode machine spec: %v" [AErr err])
     | inr masterMachineSpec =>
       let name := ProvisionedMachineName masterMachineSpec in
       match getObject ProvisionedMachine_ObjectMeta DefaultNamespace name
                       (ProvisionedMachines (store s)) with
       | None => Err (Errorf "unable to get provisioned machine: %v"
                             [AErr (NotFound "provisionedmachines" name)])
       | Some masterProvisionedMachine => Ret (masterMachine, masterProvisionedMachine)
       end
     end
   end, s, []).
Proof.
  cbv [masterMachineAndProvisionedMachine mbind M_bind mret M_ret Machines_List
       ProvisionedMachines_Get storeRead found annotate lift throw stop].
  destruct (List.find _ _) as [masterMachine|]; [|reflexivity].
  destruct (GetMachineSpec env masterMachine) as [err|spec]; [reflexivity|].
  destruct (getObject _ _ _ _); reflexivity.
Qed.

End Master.

(** X6: the master that [masterMachineAndProvisionedMachine] returns is
    the first machine of the namespace, in the order of the store, that
    holds the Master role, and the provisioned machine is the one its
    provider spec names, as found in the store; nothing is changed and
    no event is made. *)
Theorem masterMachineAndProvisionedMachine_first {W : Type} (env : Collaborators W)
    (s s' : State W) (masterMachine : Machine)
    (masterProvisionedMachine : ProvisionedMachine) (tr : list Event) :
  masterMachineAndProvisionedMachine env s =
    (Ret (masterMachine, masterProvisionedMachine), s', tr) ->
  (exists before after,
      listObjects Machine_ObjectMeta DefaultNamespace (Machines (store s)) =
        before ++ masterMachine :: after
      /\ Forall (fun machine => RoleContains MasterRole (Machine_Spec_Roles machine) = false)
                before
      /\ RoleContains MasterRole (Machine_Spec_Roles masterMachine) = true)
  /\ (exists masterMachineSpec,
        GetMachineSpec env masterMachine = inr masterMachineSpec
        /\ getObject ProvisionedMachine_ObjectMeta DefaultNamespace
                     (ProvisionedMachineName masterMachineSpec)
                     (ProvisionedMachines (store s)) = Some masterProvisionedMachine)
  /\ s' = s /\ tr = [].
Proof.
  rewrite masterMachineAndProvisionedMachine_run.
  destruct (List.find _ _) as [m|] eqn:Hfind; [|discriminate].
  destruct (GetMachineSpec env m) as [err|spec] eqn:Hspec; [discriminate|].
  cbv zeta. destruct (getObject _ _ _ _) as [pm|] eqn:Hpm; [|discriminate].
  intros [= <- <- <- <-].
  split; [exact (find_first _ _ _ Hfind)|].
  split; [exists spec; split; [exact Hspec|exact Hpm]|]. split; reflexivity.
Qed.

Lemma masterMachineAndProvisionedMachine_first_witness :
  (exists before after,
      listObjects Machine_ObjectMeta DefaultNamespace
        (Machines (store (Example.deployment
                            [Example.node1; Example.master1; Example.master2]))) =
        before ++ Example.master1 :: after
      /\ Forall (fun machine => RoleContains MasterRole (Machine_Spec_Roles machine) = false)
                before
      /\ RoleContains MasterRole (Machine_Spec_Roles Example.master1) = true)
  /\ (exists masterMachineSpec,
        GetMachineSpec (Example.collaborators false false []) Example.master1 =
          inr masterMachineSpec
        /\ getObject ProvisionedMachine_ObjectMeta DefaultNamespace
                     (ProvisionedMachineName masterMachineSpec)
                     (ProvisionedMachines
                        (store (Example.deployment
                                  [Example.node1; Example.master1; Example.master2]))) =
           Some (Example.provisionedMachine "10.0.0.1"))
  /\ Example.deployment [Example.node1; Example.master1; Example.master2] =
     Example.deployment [Example.node1; Example.master1; Example.master2]
  /\ @nil Event = [].
Proof.
  apply (masterMachineAndProvisionedMachine_first
           (Example.collaborators false false [])
           (Example.deployment [Example.node1; Example.master1; Example.master2])
           (Example.deployment [Example.node1; Example.master1; Example.master2])
           Example.master1 (Example.provisionedMachine "10.0.0.1") []).
  vm_compute. reflexivity.
Defined.

(** X7: when no machine of the namespace holds the Master role,
    [masterMachineAndProvisionedMachine] returns the error "unable to
    find any machine with Master role", without an event and with the
    state as it was. *)
Theorem masterMachineAndProvisionedMachine_no_master {W : Type} (env : Collaborators W)
    (s : State W) :
  Forall (fun machine => RoleContains MasterRole (Machine_Spec_Roles machine) = false)
         (listObjects Machine_ObjectMeta DefaultNamespace (Machines (store s))) ->
  masterMachineAndProvisionedMachine env s =
    (Err (Errorf "unable to find any machine with Master role, cannot obtain bootstrap token"
                 []), s, []).
Proof.
  intros H. rewrite masterMachineAndProvisionedMachine_run, (find_none _ _ H).
  reflexivity.
Qed.

Lemma masterMachineAndProvisionedMachine_no_master_witness :
  masterMachineAndProvisionedMachine (Example.collaborators false false [])
    (Example.deployment [Example.node1]) =
    (Err (Errorf "unable to find any machine with Master role, cannot obtain bootstrap token"
                 []), Example.deployment [Example.node1], []).
Proof.
  apply (masterMachineAndProvisionedMachine_no_master
           (Example.collaborators false false []) (Example.deployment [Example.node1])).
  repeat constructor.
Defined.

(** ** The bootstrap token *)

Section BootstrapToken.
Context {W : Type} (env : Collaborators W).

Lemma bootstrapTokenSecretFromMachine_run machine provisionedMachine
    (s s1 : State W) client t1 :
  sshMachineClientFromSSHConfig env (ProvisionedMachine_Spec_SSHConfig provisionedMachine) s
    = (Ret client, s1, t1) ->
  bootstrapTokenSecretFromMachine env machine provisionedMachine s =
  (let '((stdOut, stdErr, err), w) :=
     transport_RunCommand env client kubeadmTokenCommand (world s1) in
   (match err with
    | Some err =>
      Err (Errorf "error running %q: %v (%s) (%s)"
                  [AStr kubeadmTokenCommand; AErr err; AStr stdOut; AStr stdErr])
    | None =>
      match tokenAndCAHashFromKubeadmJoinCommand stdOut with
      | Ret (token, caHash) =>
        Ret {| Secret_TypeMeta := {| Kind := "Secret"; APIVersion := "v1" |};
               Secret_ObjectMeta :=
                 {| ObjectMeta_Name := DefaultBootstrapTokenSecretName;
                    ObjectMeta_Namespace := DefaultNamespace;
                    ObjectMeta_CreationTimestamp := metav1_Now env w |};
               Secret_Data := {[ "token" := token; "cahash" := caHash ]} |}
      | _ =>
        Err (Errorf "unable to parse bootstrap token from stdout of %q: %q"
                    [AStr kubeadmTokenCommand; AStr stdOut])
      end
    end,
    {| store := store s1; world := w |},
    t1 ++ [RunCommandEv client kubeadmTokenCommand stdOut stdErr err])).
Proof.
  intros Hsession. unfold bootstrapTokenSecretFromMachine.
  rewrite (run_bind_Ret _ _ _ _ _ _ (run_annotate_Ret _ _ _ _ _ _ Hsession)).
  rewrite run_bind. unfold RunCommand. fold kubeadmTokenCommand.
  destruct (transport_RunCommand env client kubeadmTokenCommand (world s1))
    as [[[stdOut stdErr] err] w].
  destruct err as [err|]; [reflexivity|].
  cbv [mbind M_bind mret M_ret annotate stop ask throw].
  unfold tokenAndCAHashFromKubeadmJoinCommand.
  destruct (negb _); reflexivity.
Qed.

End BootstrapToken.

(** X8: a secret that [bootstrapTokenSecretFromMachine] returns is the
    bootstrap token secret of the default namespace, and its data are
    the token and the hash parsed from the output of the one command it
    ran, [kubeadm token create --print-join-command], on the session of
    the master, which succeeded; the store is as it was. *)
Theorem bootstrapTokenSecretFromMachine_secret {W : Type} (env : Collaborators W)
    (machine : Machine) (provisionedMachine : ProvisionedMachine)
    (s s' : State W) (secret : Secret) (tr : list Event) :
  bootstrapTokenSecretFromMachine env machine provisionedMachine s = (Ret secret, s', tr) ->
  exists client pre stdOut stdErr token caHash,
    sshMachineClientFromSSHConfig env
      (ProvisionedMachine_Spec_SSHConfig provisionedMachine) s = (Ret client, s, pre)
    /\ tr = pre ++ [RunCommandEv client kubeadmTokenCommand stdOut stdErr None]
    /\ tokenAndCAHashFromKubeadmJoinCommand stdOut = Ret (token, caHash)
    /\ Secret_Data secret = {[ "token" := token; "cahash" := caHash ]}
    /\ Secret_Name secret = DefaultBootstrapTokenSecretName
    /\ ObjectMeta_Namespace (Secret_ObjectMeta secret) = DefaultNamespace
    /\ store s' = store s.
Proof.
  intros Hrun.
  destruct (sshMachineClientFromSSHConfig env
              (ProvisionedMachine_Spec_SSHConfig provisionedMachine) s)
    as [[o1 s1] t1] eqn:Hsession.
  destruct o1 as [client|e|e|];
    try (unfold bootstrapTokenSecretFromMachine in Hrun;
         rewrite run_bind in Hrun; unfold annotate in Hrun; rewrite Hsession in Hrun;
         discriminate).
  assert (s1 = s) as ->.
  { destruct (sshMachineClientFromSSHConfig_session env _ _ _ _ _ Hsession)
      as (? & ? & ?). tauto. }
  rewrite (bootstrapTokenSecretFromMachine_run env _ _ _ _ _ _ Hsession) in Hrun.
  destruct (transport_RunCommand env client kubeadmTokenCommand (world s))
    as [[[stdOut stdErr] err] w].
  destruct err as [err|]; [discriminate|].
  destruct (tokenAndCAHashFromKubeadmJoinCommand stdOut) as [[token caHash]|e|e|] eqn:Hparse;
    try discriminate.
  injection Hrun as <- <- <-.
  exists client, t1, stdOut, stdErr, token, caHash.
  repeat split; first [reflexivity|exact Hparse].
Qed.

Lemma bootstrapTokenSecretFromMachine_secret_witness :
  exists client pre stdOut stdErr token caHash,
    sshMachineClientFromSSHConfig ExampleNode.collaborators
      (ProvisionedMachine_Spec_SSHConfig (Example.provisionedMachine "10.0.0.1"))
      (Example.deployment [Example.master1]) =
      (Ret client, Example.deployment [Example.master1], pre)
    /\ [RunCommandEv ExampleSessions.client kubeadmTokenCommand
                     ExampleNode.joinCommandLine "" None] =
       pre ++ [RunCommandEv client kubeadmTokenCommand stdOut stdErr None]
    /\ tokenAndCAHashFromKubeadmJoinCommand stdOut = Ret (token, caHash)
    /\ Secret_Data ExampleNode.tokenSecret = {[ "token" := token; "cahash" := caHash ]}
    /\ Secret_Name ExampleNode.tokenSecret = DefaultBootstrapTokenSecretName
    /\ ObjectMeta_Namespace (Secret_ObjectMeta ExampleNode.tokenSecret) = DefaultNamespace
    /\ store (Example.deployment [Example.master1]) =
       store (Example.deployment [Example.master1]).
Proof.
  apply (bootstrapTokenSecretFromMachine_secret ExampleNode.collaborators
           Example.master1 (Example.provisionedMachine "10.0.0.1")
           (Example.deployment [Example.master1]) (Example.deployment [Example.master1])
           ExampleNode.tokenSecret
           [RunCommandEv ExampleSessions.client kubeadmTokenCommand
                         ExampleNode.joinCommandLine "" None]).
  vm_compute. reflexivity.
Defined.

(** X9: when the command on the master succeeds but its output does
    not split into seven fields, [bootstrapTokenSecretFromMachine]
    returns the error "unable to parse bootstrap token from stdout"
    that quotes the command and the output (the count of fields found
    is dropped); the command is the only event after those of the
    session, and the store is as it was. *)
Theorem bootstrapTokenSecretFromMachine_unparseable {W : Type} (env : Collaborators W)
    (machine : Machine) (provisionedMachine : ProvisionedMachine)
    (s s1 : State W) (client : Client) (t1 : list Event)
    (stdOut stdErr : string) (w : W) :
  sshMachineClientFromSSHConfig env
    (ProvisionedMachine_Spec_SSHConfig provisionedMachine) s = (Ret client, s1, t1) ->
  transport_RunCommand env client kubeadmTokenCommand (world s1) =
    ((stdOut, stdErr, None), w) ->
  length (GoStrings.Fields stdOut) <> 7%nat ->
  bootstrapTokenSecretFromMachine env machine provisionedMachine s =
    (Err (Errorf "unable to parse bootstrap token from stdout of %q: %q"
                 [AStr kubeadmTokenCommand; AStr stdOut]),
     {| store := store s; world := w |},
     t1 ++ [RunCommandEv client kubeadmTokenCommand stdOut stdErr None]).
Proof.
  intros Hsession Hrun Hlen.
  rewrite (bootstrapTokenSecretFromMachine_run env _ _ _ _ _ _ Hsession), Hrun.
  assert (s1 = s) as ->.
  { destruct (sshMachineClientFromSSHConfig_session env _ _ _ _ _ Hsession)
      as (? & ? & ?). tauto. }
  unfold tokenAndCAHashFromKubeadmJoinCommand.
  destruct (Nat.eqb_spec (length (GoStrings.Fields stdOut)) 7); [contradiction|].
  reflexivity.
Qed.

Lemma bootstrapTokenSecretFromMachine_unparseable_witness :
  bootstrapTokenSecretFromMachine (Example.collaborators false false [])
    Example.master1 (Example.provisionedMachine "10.0.0.1")
    (Example.deployment [Example.master1]) =
    (Err (Errorf "unable to parse bootstrap token from stdout of %q: %q"
                 [AStr kubeadmTokenCommand; AStr ""]),
     {| store := store (Example.deployment [Example.master1]); world := tt |},
     [] ++ [RunCommandEv ExampleSessions.client kubeadmTokenCommand "" "" None]).
Proof.
  apply (bootstrapTokenSecretFromMachine_unparseable
           (Example.collaborators false false [])
           Example.master1 (Example.provisionedMachine "10.0.0.1")
           (Example.deployment [Example.master1]) (Example.deployment [Example.master1])
           ExampleSessions.client [] "" "" tt).
  - vm_compute. reflexivity.
  - vm_compute. reflexivity.
  - vm_compute. discriminate.
Defined.

(** ** Draining the node of a machine *)

Section Drain.
Context {W : Type} (env : Collaborators W).
Context (drainTimeout drainGracePeriodSeconds : Z).

Lemma drainAndDeleteNodeForMachine_run targetMachine targetProvisionedMachine
    (s s1 : State W) client t1 :
  sshMachineClientFromSSHConfig env
    (ProvisionedMachine_Spec_SSHConfig targetProvisionedMachine) s = (Ret client, s1, t1) ->
  drainAndDeleteNodeForMachine env drainTimeout drainGracePeriodSeconds
    targetMachine targetProvisionedMachine s =
  (let name := Machine_Name targetMachine in
   let '((stdOut1, stdErr1, err1), w1) :=
     transport_RunCommand env client lookupNodeCommand (world s1) in
   let ev1 := RunCommandEv client lookupNodeCommand stdOut1 stdErr1 err1 in
   match err1 with
   | Some err =>
     (Err (Errorf "unable to identify the cluster node: %v (%s) (%s)"
                  [AErr err; AStr stdOut1; AStr stdErr1]),
      {| store := store s1; world := w1 |}, t1 ++ [ev1])
   | None =>
     let nodeName := strings_TrimSpace env stdOut1 in
     if (String.length nodeName =? 0)%nat
     then (Ret tt, {| store := store s1; world := w1 |}, t1 ++ [ev1])
     else
       let drain := drainCommand env drainTimeout drainGracePeriodSeconds nodeName in
       let '((stdOut2, stdErr2, err2), w2) := transport_RunCommand env client drain w1 in
       let ev2 := RunCommandEv client drain stdOut2 stdErr2 err2 in
       let draining := LogEv "Draining cluster node %q for machine %q"
                             [AStr nodeName; AStr name] in
       match err2 with
       | Some err =>
         (Err (Errorf "unable to drain cluster node %q: %v (%s) (%s)"
                      [AStr nodeName; AErr err; AStr stdOut2; AStr stdErr2]),
          {| store := store s1; world := w2 |}, t1 ++ [ev1; draining; ev2])
       | None =>
         let '((stdOut3, stdErr3, err3), w3) :=
           transport_RunCommand env client (deleteNodeCommand nodeName) w2 in
         let ev3 := RunCommandEv client (deleteNodeCommand nodeName) stdOut3 stdErr3 err3 in
         let deleting := LogEv "Deleting cluster node %q for machine %q"
                               [AStr nodeName; AStr name] in
         match err3 with
         | Some err =>
           (Err (Errorf "unable to delete cluster node %q: %v (%s) (%s)"
                        [AStr nodeName; AErr err; AStr stdOut3; AStr stdErr3]),
            {| store := store s1; world := w3 |},
            t1 ++ [ev1; draining; ev2; LogEv "%s" [AStr stdOut2]; deleting; ev3])
         | None =>
           (Ret tt, {| store := store s1; world := w3 |},
            t1 ++ [ev1; draining; ev2; LogEv "%s" [AStr stdOut2]; deleting; ev3;
                   LogEv "%s" [AStr stdOut3]])
         end
       end
   end).
Proof.
  intros Hsession. unfold drainAndDeleteNodeForMachine.
  rewrite (run_bind_Ret _ _ _ _ _ _ (run_annotate_Ret _ _ _ _ _ _ Hsession)).
  fold lookupNodeCommand.
  cbv [mbind M_bind mret M_ret RunCommand throw stop Printf Println emit].
  destruct (transport_RunCommand env client lookupNodeCommand (world s1))
    as [[[stdOut1 stdErr1] err1] w1].
  destruct err1 as [err|]; [reflexivity|].
  destruct (String.length (strings_TrimSpace env stdOut1) =? 0)%nat eqn:Hlen;
    cbn [negb]; [rewrite app_nil_r; reflexivity|].
  fold (drainCommand env drainTimeout drainGracePeriodSeconds
          (strings_TrimSpace env stdOut1)).
  fold (deleteNodeCommand (strings_TrimSpace env stdOut1)).
  cbn [store world].
  destruct (transport_RunCommand env client
              (drainCommand env drainTimeout drainGracePeriodSeconds
                 (strings_TrimSpace env stdOut1)) w1)
    as [[[stdOut2 stdErr2] err2] w2].
  destruct err2 as [err|]; [reflexivity|].
  cbn [store world].
  destruct (transport_RunCommand env client
              (deleteNodeCommand (strings_TrimSpace env stdOut1)) w2)
    as [[[stdOut3 stdErr3] err3] w3].
  destruct err3 as [err|]; reflexivity.
Qed.

End Drain.

Lemma length_zero_empty (x : string) : (String.length x =? 0)%nat = true -> x = "".
Proof. destruct x; [reflexivity|discriminate]. Qed.

Lemma length_nonzero_nonempty (x : string) : (String.length x =? 0)%nat = false -> x <> "".
Proof. destruct x; [discriminate|discriminate]. Qed.

(** X10: the commands of a run of [drainAndDeleteNodeForMachine] are,
    in this order, the lookup of the node, its drain and its deletion,
    each run only when the one before succeeded: no command when the
    session cannot be opened; the lookup alone when it fails or prints
    no node name (then nothing is drained and the function returns
    [nil]); the drain, and the deletion after a successful drain, for
    the node name printed by the lookup. The function returns [nil]
    only after a lookup without node or a successful deletion, and the
    store is as it was. *)
Theorem drainAndDeleteNodeForMachine_commands {W : Type} (env : Collaborators W)
    (drainTimeout drainGracePeriodSeconds : Z)
    (targetMachine : Machine) (targetProvisionedMachine : ProvisionedMachine)
    (s s' : State W) (o : outcome unit) (tr : list Event) :
  drainAndDeleteNodeForMachine env drainTimeout drainGracePeriodSeconds
    targetMachine targetProvisionedMachine s = (o, s', tr) ->
  store s' = store s
  /\ ((commandsRun tr = [] /\ o <> Ret tt)
      \/ (exists stdOut1 err,
            commandsRun tr = [(lookupNodeCommand, stdOut1, err)]
            /\ match err with
               | Some _ => o <> Ret tt
               | None => o = Ret tt /\ strings_TrimSpace env stdOut1 = ""
               end)
      \/ (exists stdOut1 nodeName,
            nodeName = strings_TrimSpace env stdOut1 /\ nodeName <> ""
            /\ let drain := drainCommand env drainTimeout drainGracePeriodSeconds nodeName in
               (exists stdOut2 err,
                   commandsRun tr = [(lookupNodeCommand, stdOut1, None);
                                     (drain, stdOut2, Some err)]
                   /\ o <> Ret tt)
               \/ (exists stdOut2 stdOut3 err,
                      commandsRun tr = [(lookupNodeCommand, stdOut1, None);
                                        (drain, stdOut2, None);
                                        (deleteNodeCommand nodeName, stdOut3, err)]
                      /\ (o = Ret tt <-> err = None)))).
Proof.
  intros Hrun.
  destruct (sshMachineClientFromSSHConfig env
              (ProvisionedMachine_Spec_SSHConfig targetProvisionedMachine) s)
    as [[o1 s1] t1] eqn:Hsession.
  destruct (sshMachineClientFromSSHConfig_trace env _ _ _ _ _ Hsession) as [-> Ht1].
  assert (commandsRun t1 = []) as Hnone by (destruct Ht1 as [->| ->]; reflexivity).
  assert (forall l, commandsRun (t1 ++ l) = commandsRun l) as Happ.
  { intros l. unfold commandsRun. rewrite omap_app. fold (commandsRun t1).
    rewrite Hnone. reflexivity. }
  destruct o1 as [client|e|e|].
  2-4: unfold drainAndDeleteNodeForMachine in Hrun; rewrite run_bind in Hrun;
       unfold annotate in Hrun; rewrite Hsession in Hrun; injection Hrun as <- <- <-;
       (split; [reflexivity|left; split; [exact Hnone|discriminate]]).
  rewrite (drainAndDeleteNodeForMachine_run env _ _ _ _ _ _ _ _ Hsession) in Hrun.
  cbv zeta in Hrun.
  destruct (transport_RunCommand env client lookupNodeCommand (world s))
    as [[[stdOut1 stdErr1] err1] w1].
  destruct err1 as [err|].
  { injection Hrun as <- <- <-. split; [reflexivity|]. right; left.
    exists stdOut1, (Some err). rewrite Happ. split; [reflexivity|discriminate]. }
  destruct (String.length (strings_TrimSpace env stdOut1) =? 0)%nat eqn:Hlen.
  { injection Hrun as <- <- <-. split; [reflexivity|]. right; left.
    exists stdOut1, None. rewrite Happ. split; [reflexivity|].
    split; [reflexivity|apply length_zero_empty, Hlen]. }
  apply length_nonzero_nonempty in Hlen.
  destruct (transport_RunCommand env client _ w1) as [[[stdOut2 stdErr2] err2] w2].
  destruct err2 as [err|].
  { injection Hrun as <- <- <-. split; [reflexivity|]. right; right.
    exists stdOut1, (strings_TrimSpace env stdOut1).
    split; [reflexivity|]. split; [exact Hlen|]. left.
    exists stdOut2, err. rewrite Happ. split; [reflexivity|discriminate]. }
  destruct (transport_RunCommand env client _ w2) as [[[stdOut3 stdErr3] err3] w3].
  destruct err3 as [err|]; injection Hrun as <- <- <-;
    (split; [reflexivity|]; right; right;
     exists stdOut1, (strings_TrimSpace env stdOut1);
     split; [reflexivity|]; split; [exact Hlen|]; right).
  - exists stdOut2, stdOut3, (Some err). rewrite Happ. split; [reflexivity|].
    split; discriminate.
  - exists stdOut2, stdOut3, None. rewrite Happ. split; [reflexivity|].
    split; reflexivity.
Qed.

Lemma drainAndDeleteNodeForMachine_commands_witness :
  let tr :=
    [RunCommandEv ExampleSessions.client lookupNodeCommand "node/node1" "" None;
     LogEv "Draining cluster node %q for machine %q" [AStr "node/node1"; AStr "10.0.0.1"];
     RunCommandEv ExampleSessions.client
       (drainCommand ExampleNode.collaborators 300 30 "node/node1") "" "" None;
     LogEv "%s" [AStr ""];
     LogEv "Deleting cluster node %q for machine %q" [AStr "node/node1"; AStr "10.0.0.1"];
     RunCommandEv ExampleSessions.client (deleteNodeCommand "node/node1") "" "" None;
     LogEv "%s" [AStr ""]] in
  store (Example.deployment [Example.master1]) = store (Example.deployment [Example.master1])
  /\ ((commandsRun tr = [] /\ Ret tt <> Ret tt)
      \/ (exists stdOut1 err,
            commandsRun tr = [(lookupNodeCommand, stdOut1, err)]
            /\ match err with
               | Some _ => Ret tt <> Ret tt
               | None => Ret tt = Ret tt
                         /\ strings_TrimSpace ExampleNode.collaborators stdOut1 = ""
               end)
      \/ (exists stdOut1 nodeName,
            nodeName = strings_TrimSpace ExampleNode.collaborators stdOut1
            /\ nodeName <> ""
            /\ let drain := drainCommand ExampleNode.collaborators 300 30 nodeName in
               (exists stdOut2 err,
                   commandsRun tr = [(lookupNodeCommand, stdOut1, None);
                                     (drain, stdOut2, Some err)]
                   /\ Ret tt <> Ret tt)
               \/ (exists stdOut2 stdOut3 err,
                      commandsRun tr = [(lookupNodeCommand, stdOut1, None);
                                        (drain, stdOut2, None);
                                        (deleteNodeCommand nodeName, stdOut3, err)]
                      /\ (Ret tt = Ret tt <-> err = None)))).
Proof.
  apply (drainAndDeleteNodeForMachine_commands ExampleNode.collaborators 300 30
           Example.master1 (Example.provisionedMachine "10.0.0.1")
           (Example.deployment [Example.master1]) (Example.deployment [Example.master1])
           (Ret tt)).
  vm_compute. reflexivity.
Defined.

(** ** Calls that fail end the run *)

Section StopsAtError.
Context {W : Type}.

(** Events without an error stop nothing. *)
Lemma stops_of_emits {A} (m : M W A) :
  emits (fun ev => errorOf ev = None) m -> stopsAtError m.
Proof.
  intros Hm s o s' tr E pre ev post -> Hev. exfalso. apply Hev.
  specialize (Hm _ _ _ _ E). rewrite Forall_app, Forall_cons in Hm. tauto.
Qed.

Lemma stops_bind {A B} (m : M W A) (f : A -> M W B) :
  stopsAtError m -> (forall a, stopsAtError (f a)) -> stopsAtError (m ≫= f).
Proof.
  intros Hm Hf s o s' tr E pre ev post Htr Hev.
  apply bind_inv in E.
  destruct E as [(a & s1 & t1 & t2 & E1 & E2 & ->)|(o1 & E1 & Hfail & ->)].
  - apply app_eq_app in Htr. destruct Htr as (l & [[Ht1 Hpost]|[Hpre Ht2]]).
    + destruct l as [|x l].
      * simpl in Hpost. exact (Hf a _ _ _ _ E2 [] ev post (eq_sym Hpost) Hev).
      * simpl in Hpost. injection Hpost as Hx Hpost. subst x.
        destruct (Hm _ _ _ _ E1 pre ev l Ht1 Hev) as [_ Hfail].
        exfalso. exact (Hfail a eq_refl).
    + exact (Hf a _ _ _ _ E2 l ev post Ht2 Hev).
  - destruct (Hm _ _ _ _ E1 pre ev post Htr Hev) as [-> Hf1].
    split; [reflexivity|apply failed_castFailure, Hf1].
Qed.

Lemma stops_annotate {A} wrap (m : M W A) : stopsAtError m -> stopsAtError (annotate wrap m).
Proof.
  intros Hm s o s' tr. unfold annotate.
  destruct (m s) as [[o1 s1] t1] eqn:E1. specialize (Hm _ _ _ _ E1).
  destruct o1; intros [= <- <- <-] pre ev post Htr Hev;
    destruct (Hm pre ev post Htr Hev) as [-> Hf]; (split; [reflexivity|]);
    first [exact Hf|intros ?; discriminate].
Qed.

Lemma stops_orFatalf {A} wrap (m : M W A) : stopsAtError m -> stopsAtError (orFatalf wrap m).
Proof.
  intros Hm s o s' tr. unfold orFatalf.
  destruct (m s) as [[o1 s1] t1] eqn:E1. specialize (Hm _ _ _ _ E1).
  destruct o1; intros [= <- <- <-] pre ev post Htr Hev;
    destruct (Hm pre ev post Htr Hev) as [-> Hf]; (split; [reflexivity|]);
    first [exact Hf|intros ?; discriminate].
Qed.

(** One event, with an error exactly when the call does not return. *)
Lemma stops_single {A} (m : M W A) :
  (forall s o s' tr, m s = (o, s', tr) ->
     exists ev, tr = [ev] /\ (errorOf ev <> None -> failed o)) ->
  stopsAtError m.
Proof.
  intros Hm s o s' tr E pre ev post Htr Hev.
  destruct (Hm _ _ _ _ E) as (ev0 & -> & Hfail).
  destruct pre as [|x pre]; [|destruct pre; discriminate].
  injection Htr as <- <-. split; [reflexivity|exact (Hfail Hev)].
Qed.

Lemma stops_storeWrite op f : stopsAtError (W:=W) (storeWrite op f).
Proof.
  apply stops_single. intros s o s' tr. unfold storeWrite.
  destruct (f (store s)); intros [= <- <- <-]; eexists; (split; [reflexivity|]).
  - intros _ a. discriminate.
  - intros H. exfalso. apply H. reflexivity.
Qed.

Context (env : Collaborators W).

Lemma stops_storeWriteNil op : stopsAtError (storeWriteNil env op).
Proof.
  apply stops_single. intros s o s' tr. unfold storeWriteNil.
  intros [= <- <- <-]. eexists; split; [reflexivity|].
  destruct (store_rejectsNil env); intros _ a; discriminate.
Qed.

Lemma stops_effect r ev :
  (forall err, errorOf (ev err) = err) ->
  stopsAtError (fun s : State W => effect r ev s).
Proof.
  intros Hev. apply stops_single. intros s o s' tr. unfold effect.
  intros [= <- <- <-]. eexists; split; [reflexivity|]. rewrite Hev.
  destruct r.1; [intros _ a; discriminate|intros H; exfalso; apply H; reflexivity].
Qed.

Lemma stops_WriteFile c path mode data : stopsAtError (WriteFile env c path mode data).
Proof.
  intros s o s' tr E.
  exact (stops_effect (transport_WriteFile env c path mode data (world s))
           (WriteFileEv c path mode data) (fun _ => eq_refl) s o s' tr E).
Qed.

Lemma stops_MkdirAll c path mode : stopsAtError (MkdirAll env c path mode).
Proof.
  intros s o s' tr E.
  exact (stops_effect (transport_MkdirAll env c path mode (world s))
           (MkdirAllEv c path mode) (fun _ => eq_refl) s o s' tr E).
Qed.

Lemma stops_MoveFile c src dst : stopsAtError (MoveFile env c src dst).
Proof.
  intros s o s' tr E.
  exact (stops_effect (transport_MoveFile env c src dst (world s))
           (MoveFileEv c src dst) (fun _ => eq_refl) s o s' tr E).
Qed.

Lemma stops_PullFromAPIs : stopsAtError (PullFromAPIs env).
Proof.
  intros s o s' tr E.
  exact (stops_effect (state_PullFromAPIs env (store s) (world s))
           PullFromAPIsEv (fun _ => eq_refl) s o s' tr E).
Qed.

Lemma stops_ReadFile c path : stopsAtError (ReadFile env c path).
Proof.
  apply stops_single. intros s o s' tr. unfold ReadFile.
  destruct (transport_ReadFile env c path (world s)) as [[data err] w].
  intros [= <- <- <-]. eexists; split; [reflexivity|].
  destruct err; [intros _ a; discriminate|intros H; exfalso; apply H; reflexivity].
Qed.

Lemma stops_actuate call ev insecureIgnoreHostKey cluster machine :
  (forall m err, errorOf (ev m err) = err) ->
  stopsAtError (actuate (W:=W) call ev insecureIgnoreHostKey cluster machine).
Proof.
  intros Hev. apply stops_single. intros s o s' tr. unfold actuate.
  destruct (call _ _ _ _ _) as [[r st] w].
  destruct r; intros [= <- <- <-]; eexists; (split; [reflexivity|]); rewrite Hev.
  - intros _ a. discriminate.
  - intros H. exfalso. apply H. reflexivity.
Qed.

(** A command whose error is tested right after it. *)
Lemma stops_RunCommand_bind {B} c cmd (k : string * string * option error -> M W B) :
  (forall stdOut stdErr, stopsAtError (k (stdOut, stdErr, None))) ->
  (forall stdOut stdErr err s,
      exists o, k (stdOut, stdErr, Some err) s = (o, s, []) /\ failed o) ->
  stopsAtError (RunCommand env c cmd ≫= k).
Proof.
  intros Hok Herr s o s' tr. rewrite run_bind. unfold RunCommand.
  destruct (transport_RunCommand env c cmd (world s)) as [[[stdOut stdErr] err] w].
  destruct err as [err|].
  - destruct (Herr stdOut stdErr err {| store := store s; world := w |}) as (o1 & -> & Hf).
    intros [= <- <- <-] pre ev post Htr _.
    destruct pre as [|x pre]; [|destruct pre; discriminate].
    injection Htr as <- <-. split; [reflexivity|exact Hf].
  - destruct (k (stdOut, stdErr, None) {| store := store s; world := w |})
      as [[o2 s2] t2] eqn:E2.
    intros [= <- <- <-] pre ev post Htr Hev.
    destruct pre as [|x pre].
    + injection Htr as <- _. exfalso. apply Hev. reflexivity.
    + injection Htr as _ Htr. exact (Hok _ _ _ _ _ _ E2 pre ev post Htr Hev).
Qed.

Lemma stops_runChecked c cmd : stopsAtError (runChecked env c cmd).
Proof.
  unfold runChecked. apply stops_RunCommand_bind.
  - intros stdOut stdErr. apply stops_of_emits, emits_mret.
  - intros stdOut stdErr err s. eexists. split; [reflexivity|]. intros a. discriminate.
Qed.

End StopsAtError.

Ltac stops_step :=
  first
    [ solve [apply stops_of_emits; emits_auto]
    | apply stops_annotate | apply stops_orFatalf
    | apply stops_storeWrite | apply stops_storeWriteNil
    | apply stops_WriteFile | apply stops_MkdirAll | apply stops_MoveFile
    | apply stops_PullFromAPIs | apply stops_ReadFile | apply stops_runChecked
    | apply stops_actuate; intros; reflexivity
    | apply stops_RunCommand_bind;
      [ intros ? ?
      | intros ? ? ? ?; eexists; split; [reflexivity|intros ?; discriminate] ]
    | apply stops_bind; [|intros ?]
    | match goal with
      | |- stopsAtError (match ?x with _ => _ end) => destruct x
      | |- stopsAtError (let '(_, _) := ?x in _) => destruct x
      end ].

Ltac stops_auto := unfold Printf, Println, throw, panic, Fatalf; repeat stops_step.

Section StopsAtErrorOf.
Context {W : Type} (env : Collaborators W).

Lemma stops_sshMachineClientFromSSHConfig sshConfig :
  stopsAtError (sshMachineClientFromSSHConfig env sshConfig).
Proof.
  apply stops_of_emits. unfold sshMachineClientFromSSHConfig, Secrets_Get. emits_auto.
Qed.

Lemma stops_drainAndDeleteNodeForMachine drainTimeout drainGracePeriodSeconds
    targetMachine targetProvisionedMachine :
  stopsAtError (drainAndDeleteNodeForMachine env drainTimeout drainGracePeriodSeconds
                  targetMachine targetProvisionedMachine).
Proof.
  unfold drainAndDeleteNodeForMachine.
  apply stops_bind; [apply stops_annotate, stops_sshMachineClientFromSSHConfig|intros c].
  stops_auto.
Qed.

Lemma stops_machineCmdDelete_updateClusterStatus machineStatus cluster :
  stopsAtError (machineCmdDelete_updateClusterStatus env machineStatus cluster).
Proof.
  unfold machineCmdDelete_updateClusterStatus, Clusters_UpdateStatus. stops_auto.
Qed.

Lemma stops_machineCmdDelete drainTimeout drainGracePeriodSeconds ip :
  stopsAtError (machineCmdDelete env drainTimeout drainGracePeriodSeconds ip).
Proof.
  unfold machineCmdDelete.
  apply stops_bind; [unfold Machines_Get; stops_auto|intros targetMachine].
  apply stops_bind; [stops_auto|intros targetMachineSpec].
  apply stops_bind; [unfold ProvisionedMachines_Get; stops_auto|intros pm].
  apply stops_bind; [unfold Clusters_Get; stops_auto|intros cluster].
  apply stops_bind;
    [unfold deleteMustNotOrphanNodes, Machines_List; stops_auto|intros _].
  apply stops_bind;
    [apply stops_orFatalf, stops_drainAndDeleteNodeForMachine|intros _].
  apply stops_bind; [stops_auto|intros sshConfig].
  apply stops_bind; [stops_auto|intros _].
  apply stops_bind; [stops_auto|intros _].
  apply stops_bind; [stops_auto|intros [cluster' targetMachine']].
  apply stops_bind; [stops_auto|intros _].
  apply stops_bind; [stops_auto|intros machineStatus].
  apply stops_bind; [apply stops_machineCmdDelete_updateClusterStatus|intros _].
  unfold Machines_Delete, ProvisionedMachines_Delete. stops_auto.
Qed.

End StopsAtErrorOf.

(** X11: in a run of [delete machine], a call that returned an error
    (a remote command, the actuator, a call of the store, the sync of
    the on-disk state) is the last event of the run, and the command
    does not complete: nothing is attempted after a failure. *)
Theorem machineCmdDelete_stops_at_error {W : Type} (env : Collaborators W)
    (drainTimeout drainGracePeriodSeconds : Z) (ip : string)
    (s s' : State W) (o : outcome unit) (pre post : list Event) (ev : Event) :
  machineCmdDelete env drainTimeout drainGracePeriodSeconds ip s =
    (o, s', pre ++ ev :: post) ->
  errorOf ev <> None ->
  post = [] /\ o <> Ret tt.
Proof.
  intros Hrun Hev.
  destruct (stops_machineCmdDelete env _ _ _ _ _ _ _ Hrun pre ev post eq_refl Hev)
    as [Hpost Hfail].
  split; [exact Hpost|apply Hfail].
Qed.

Lemma machineCmdDelete_stops_at_error_witness :
  @nil Event = []
  /\ Exit (Errorf "Unable to drain and delete cluster node for machine %q: %v"
             [AStr "10.0.0.2";
              AErr (Errorf "unable to identify the cluster node: %v (%s) (%s)"
                           [AErr ExampleFailing.exitStatus; AStr "";
                            AStr "permission denied"])])
     <> Ret tt.
Proof.
  apply (machineCmdDelete_stops_at_error ExampleFailing.collaborators 300 30 "10.0.0.2"
           (Example.deployment [Example.master1; Example.master2])
           (Example.deployment [Example.master1; Example.master2])
           _ []
           []
           (RunCommandEv ExampleSessions.client lookupNodeCommand "" "permission denied"
                         (Some ExampleFailing.exitStatus))).
  - vm_compute. reflexivity.
  - discriminate.
Defined.

(** ** Steps in order *)

Section Follows.
Context {W : Type} (step : Event -> option nat).

Lemma omap_step_none (tr : list Event) :
  Forall (fun ev => step ev = None) tr -> omap step tr = [].
Proof.
  induction 1 as [|ev tr Hev _ IH]; [reflexivity|]. simpl. rewrite Hev. exact IH.
Qed.

(** A computation without steps. *)
Lemma follows_quiet {A} (m : M W A) :
  emits (fun ev => step ev = None) m -> follows step [[]] m.
Proof.
  intros Hm s o s' tr E. exists []. split; [apply list_elem_of_here|].
  rewrite (omap_step_none _ (Hm _ _ _ _ E)). split; [apply prefix_nil|reflexivity].
Qed.

Lemma follows_bind {A B} (m : M W A) (f : A -> M W B) p ps :
  ps <> [] ->
  follows step [p] m -> (forall a, follows step ps (f a)) ->
  follows step ((fun q => p ++ q) <$> ps) (m ≫= f).
Proof.
  intros Hps Hm Hf s o s' tr E. apply bind_inv in E.
  destruct E as [(a & s1 & t1 & t2 & E1 & E2 & ->)|(o1 & E1 & Hfail & ->)].
  - destruct (Hm _ _ _ _ E1) as (p' & Hp' & _ & Hall).
    apply list_elem_of_singleton in Hp'. subst p'.
    specialize (Hall (ex_intro _ a eq_refl)).
    destruct (Hf a _ _ _ _ E2) as (q & Hq & Hpre & Hcomplete).
    exists (p ++ q). split; [apply list_elem_of_fmap; exists q; auto|].
    rewrite omap_app, Hall. split; [apply prefix_app, Hpre|].
    intros Hret. f_equal. exact (Hcomplete Hret).
  - destruct (Hm _ _ _ _ E1) as (p' & Hp' & Hpre & _).
    apply list_elem_of_singleton in Hp'. subst p'.
    destruct ps as [|q ps]; [congruence|].
    exists (p ++ q).
    split; [apply list_elem_of_fmap; exists q; split; [reflexivity|apply list_elem_of_here]|].
    split; [apply prefix_app_r, Hpre|].
    intros (b & Hb). destruct o1; discriminate.
Qed.

(** More patterns allow more. *)
Lemma follows_weaken {A} (m : M W A) ps ps' :
  ps ⊆ ps' -> follows step ps m -> follows step ps' m.
Proof.
  intros Hsub Hm s o s' tr E. destruct (Hm _ _ _ _ E) as (p & Hp & H).
  exists p. split; [apply Hsub, Hp|exact H].
Qed.

Lemma follows_annotate {A} wrap (m : M W A) ps :
  follows step ps m -> follows step ps (annotate wrap m).
Proof.
  intros Hm s o s' tr. unfold annotate.
  destruct (m s) as [[o1 s1] t1] eqn:E1. specialize (Hm _ _ _ _ E1).
  destruct Hm as (p & Hp & Hpre & Hc).
  destruct o1; intros [= <- <- <-]; exists p; (split; [exact Hp|split; [exact Hpre|]]);
    first [exact Hc|intros (? & ?); discriminate].
Qed.

Lemma follows_orFatalf {A} wrap (m : M W A) ps :
  follows step ps m -> follows step ps (orFatalf wrap m).
Proof.
  intros Hm s o s' tr. unfold orFatalf.
  destruct (m s) as [[o1 s1] t1] eqn:E1. specialize (Hm _ _ _ _ E1).
  destruct Hm as (p & Hp & Hpre & Hc).
  destruct o1; intros [= <- <- <-]; exists p; (split; [exact Hp|split; [exact Hpre|]]);
    first [exact Hc|intros (? & ?); discriminate].
Qed.

(** One event that is the step [n]. *)
Lemma follows_single {A} (m : M W A) (n : nat) :
  (forall s o s' tr, m s = (o, s', tr) -> exists ev, tr = [ev] /\ step ev = Some n) ->
  follows step [[n]] m.
Proof.
  intros Hm s o s' tr E. destruct (Hm _ _ _ _ E) as (ev & -> & Hev).
  exists [n]. split; [apply list_elem_of_here|].
  simpl. rewrite Hev. split; reflexivity.
Qed.

Lemma follows_storeWrite op f n :
  (forall err, step (StoreEv op err) = Some n) ->
  follows (W:=W) step [[n]] (storeWrite op f).
Proof.
  intros Hstep. apply follows_single. intros s o s' tr. unfold storeWrite.
  destruct (f (store s)); intros [= <- <- <-]; eexists; split; try reflexivity;
    apply Hstep.
Qed.

Context (env : Collaborators W).

Lemma follows_PullFromAPIs n :
  (forall err, step (PullFromAPIsEv err) = Some n) ->
  follows step [[n]] (PullFromAPIs env).
Proof.
  intros Hstep. apply follows_single. intros s o s' tr [= <- <- <-].
  eexists; split; [reflexivity|apply Hstep].
Qed.

Lemma follows_actuate call ev insecureIgnoreHostKey cluster machine n :
  (forall m err, step (ev m err) = Some n) ->
  follows step [[n]] (actuate (W:=W) call ev insecureIgnoreHostKey cluster machine).
Proof.
  intros Hstep. apply follows_single. intros s o s' tr. unfold actuate.
  destruct (call _ _ _ _ _) as [[r st] w].
  destruct r; intros [= <- <- <-]; eexists; (split; [reflexivity|apply Hstep]).
Qed.

End Follows.

(** ** Phases *)

Section Splits.
Context {W : Type} (P Q : Event -> Prop).

Lemma splits_bind {A B} (m : M W A) (f : A -> M W B) :
  emits P m -> (forall a, splits P Q (f a)) -> splits P Q (m ≫= f).
Proof.
  intros Hm Hf s o s' tr E. apply bind_inv in E.
  destruct E as [(a & s1 & t1 & t2 & E1 & E2 & ->)|(o1 & E1 & Hfail & ->)].
  - destruct (Hf a _ _ _ _ E2) as (before & after & -> & Hb & Ha).
    exists (t1 ++ before), after. rewrite app_assoc. split; [reflexivity|].
    split; [apply Forall_app; split; [exact (Hm _ _ _ _ E1)|exact Hb]|exact Ha].
  - exists tr, []. rewrite app_nil_r. split; [reflexivity|].
    split; [exact (Hm _ _ _ _ E1)|constructor].
Qed.

Lemma splits_of_emits {A} (m : M W A) : emits Q m -> splits P Q m.
Proof.
  intros Hm s o s' tr E. exists [], tr. split; [reflexivity|].
  split; [constructor|exact (Hm _ _ _ _ E)].
Qed.

End Splits.

Section FollowsMore.
Context {W : Type} (step : Event -> option nat).

Lemma follows_bind_quiet {A B} (m : M W A) (f : A -> M W B) ps :
  ps <> [] ->
  emits (fun ev => step ev = None) m -> (forall a, follows step ps (f a)) ->
  follows step ps (m ≫= f).
Proof.
  intros Hps Hm Hf.
  pose proof (follows_bind step m f [] ps Hps (follows_quiet step m Hm) Hf) as H.
  rewrite list_fmap_id in H. exact H.
Qed.

Lemma follows_bind_step {A B} (m : M W A) (f : A -> M W B) n ps :
  ps <> [] ->
  follows step [[n]] m -> (forall a, follows step ps (f a)) ->
  follows step (cons n <$> ps) (m ≫= f).
Proof. intros Hps Hm Hf. exact (follows_bind step m f [n] ps Hps Hm Hf). Qed.

End FollowsMore.

(** ** The steps of [delete machine] *)

Section DeleteSteps.
Context {W : Type} (env : Collaborators W).
Context (drainTimeout drainGracePeriodSeconds : Z).

Lemma emits_drainAndDeleteNodeForMachine targetMachine targetProvisionedMachine :
  emits (fun ev => commandOrLog ev = true)
        (drainAndDeleteNodeForMachine env drainTimeout drainGracePeriodSeconds
           targetMachine targetProvisionedMachine).
Proof.
  unfold drainAndDeleteNodeForMachine, sshMachineClientFromSSHConfig, Secrets_Get.
  emits_auto.
Qed.

Lemma commandOrLog_deleteStep ev : commandOrLog ev = true -> deleteStep ev = None.
Proof. destruct ev; try discriminate; reflexivity. Qed.

Lemma follows_machineCmdDelete_updateClusterStatus machineStatus cluster :
  follows deleteStep
    [match SPMachineStatus_EtcdMember machineStatus with Some _ => [1%nat] | None => [] end]
    (machineCmdDelete_updateClusterStatus env machineStatus cluster).
Proof.
  unfold machineCmdDelete_updateClusterStatus.
  destruct (SPMachineStatus_EtcdMember machineStatus) as [etcdMember|].
  - apply follows_bind_quiet; [discriminate|emits_auto|intros clusterStatus].
    apply follows_bind_quiet; [discriminate|emits_auto|intros cluster'].
    apply follows_orFatalf. unfold Clusters_UpdateStatus.
    apply follows_storeWrite. reflexivity.
  - apply follows_quiet. emits_auto.
Qed.

Lemma follows_machineCmdDelete ip :
  follows deleteStep [[0; 1; 2; 3; 4]; [0; 2; 3; 4]]%nat
          (machineCmdDelete env drainTimeout drainGracePeriodSeconds ip).
Proof.
  unfold machineCmdDelete.
  apply follows_bind_quiet; [discriminate|unfold Machines_Get; emits_auto|intros m].
  apply follows_bind_quiet; [discriminate|emits_auto|intros spec].
  apply follows_bind_quiet;
    [discriminate|unfold ProvisionedMachines_Get; emits_auto|intros pm].
  apply follows_bind_quiet; [discriminate|unfold Clusters_Get; emits_auto|intros cluster].
  apply follows_bind_quiet;
    [discriminate|unfold deleteMustNotOrphanNodes, Machines_List; emits_auto|intros _].
  apply follows_bind_quiet; [discriminate| |intros _].
  { apply emits_orFatalf.
    eapply emits_impl; [|apply emits_drainAndDeleteNodeForMachine].
    exact commandOrLog_deleteStep. }
  apply follows_bind_quiet; [discriminate|emits_auto|intros sshConfig].
  apply follows_bind_quiet; [discriminate|emits_auto|intros _].
  apply follows_bind_quiet; [discriminate|emits_auto|intros _].
  apply (follows_bind_step deleteStep _ _ 0%nat [[1; 2; 3; 4]; [2; 3; 4]]%nat);
    [discriminate|apply follows_orFatalf, follows_actuate; reflexivity|].
  intros [cluster' m'].
  apply follows_bind_quiet; [discriminate|emits_auto|intros _].
  apply follows_bind_quiet; [discriminate|emits_auto|intros machineStatus].
  assert (follows deleteStep [[2; 3; 4]]%nat
            (orFatalf (fun err => Errorf "unable to delete machine %q: %v"
                                         [AStr (Machine_Name m'); AErr err])
                      (Machines_Delete DefaultNamespace (Machine_Name m'));;
             orFatalf (fun err => Errorf "unable to delete provisioned machine %q: %v"
                                         [AStr (ProvisionedMachine_Name pm); AErr err])
                      (ProvisionedMachines_Delete DefaultNamespace
                         (ProvisionedMachine_Name pm));;
             orFatalf (fun err => Errorf "Unable to sync on-disk state: %v" [AErr err])
                      (PullFromAPIs env);;
             Println "Machine deleted successfully.")) as Htail.
  { apply (follows_bind_step deleteStep _ _ 2%nat [[3; 4]]%nat); [discriminate| |intros _].
    { apply follows_orFatalf. unfold Machines_Delete. apply follows_storeWrite.
      reflexivity. }
    apply (follows_bind_step deleteStep _ _ 3%nat [[4]]%nat); [discriminate| |intros _].
    { apply follows_orFatalf. unfold ProvisionedMachines_Delete.
      apply follows_storeWrite. reflexivity. }
    apply (follows_bind_step deleteStep _ _ 4%nat [[]]); [discriminate| |intros _].
    { apply follows_orFatalf, follows_PullFromAPIs. reflexivity. }
    apply follows_quiet. emits_auto. }
  pose proof (follows_machineCmdDelete_updateClusterStatus machineStatus cluster') as Hup.
  destruct (SPMachineStatus_EtcdMember machineStatus) as [etcdMember|].
  - eapply follows_weaken;
      [|exact (follows_bind_step deleteStep _ _ 1%nat [[2; 3; 4]]%nat
                 ltac:(discriminate) Hup (fun _ => Htail))].
    intros p Hp. apply list_elem_of_singleton in Hp. subst p. apply list_elem_of_here.
  - eapply follows_weaken;
      [|exact (follows_bind deleteStep _ _ [] [[2; 3; 4]]%nat
                 ltac:(discriminate) Hup (fun _ => Htail))].
    intros p Hp. apply list_elem_of_singleton in Hp. subst p.
    apply list_elem_of_further, list_elem_of_here.
Qed.

End DeleteSteps.

(** X12: after the drain, a run of [delete machine] goes through its
    steps in the order of the source and skips none: the teardown by
    the actuator, the update of the cluster status (only when the
    machine status carries an etcd member), the deletion of the
    machine, the deletion of the provisioned machine, the sync of the
    on-disk state. A run that stops early has done a beginning of this
    sequence, and a run that completes has done all of it. *)
Theorem machineCmdDelete_steps {W : Type} (env : Collaborators W)
    (drainTimeout drainGracePeriodSeconds : Z) (ip : string)
    (s s' : State W) (o : outcome unit) (tr : list Event) :
  machineCmdDelete env drainTimeout drainGracePeriodSeconds ip s = (o, s', tr) ->
  exists p,
    (p = [0; 1; 2; 3; 4] \/ p = [0; 2; 3; 4])%nat
    /\ omap deleteStep tr `prefix_of` p
    /\ (o = Ret tt -> omap deleteStep tr = p).
Proof.
  intros Hrun.
  destruct (follows_machineCmdDelete env _ _ _ _ _ _ _ Hrun) as (p & Hp & Hpre & Hc).
  exists p. split.
  - apply elem_of_cons in Hp. destruct Hp as [->|Hp]; [left; reflexivity|].
    apply list_elem_of_singleton in Hp. right. exact Hp.
  - split; [exact Hpre|]. intros ->. apply Hc. exists tt. reflexivity.
Qed.

Lemma machineCmdDelete_steps_witness :
  exists o s' tr,
    machineCmdDelete (Example.collaborators false false []) 300 30 "10.0.0.2"
      (Example.deployment [Example.master1; Example.master2]) = (o, s', tr)
    /\ o = Ret tt
    /\ omap deleteStep tr = [0; 1; 2; 3; 4]%nat
    /\ exists p,
         (p = [0; 1; 2; 3; 4] \/ p = [0; 2; 3; 4])%nat
         /\ omap deleteStep tr `prefix_of` p
         /\ (o = Ret tt -> omap deleteStep tr = p).
Proof.
  eexists _, _, _. split; [vm_compute; reflexivity|].
  split; [reflexivity|]. split; [reflexivity|].
  eapply (machineCmdDelete_steps (Example.collaborators false false []) 300 30 "10.0.0.2"
            (Example.deployment [Example.master1; Example.master2])).
  vm_compute. reflexivity.
Defined.

Section DeletePhases.
Context {W : Type} (env : Collaborators W).
Context (drainTimeout drainGracePeriodSeconds : Z).

Lemma splits_machineCmdDelete ip :
  splits (fun ev => commandOrLog ev = true) (fun ev => teardownOrLog ev = true)
         (machineCmdDelete env drainTimeout drainGracePeriodSeconds ip).
Proof.
  unfold machineCmdDelete.
  apply splits_bind; [unfold Machines_Get; emits_auto|intros m].
  apply splits_bind; [emits_auto|intros spec].
  apply splits_bind; [unfold ProvisionedMachines_Get; emits_auto|intros pm].
  apply splits_bind; [unfold Clusters_Get; emits_auto|intros cluster].
  apply splits_bind; [unfold deleteMustNotOrphanNodes, Machines_List; emits_auto|intros _].
  apply splits_bind;
    [apply emits_orFatalf, emits_drainAndDeleteNodeForMachine|intros _].
  apply splits_of_emits.
  unfold actuate, machineCmdDelete_updateClusterStatus, Clusters_UpdateStatus,
    Machines_Delete, ProvisionedMachines_Delete, PullFromAPIs.
  apply emits_bind; [emits_auto|intros sshConfig].
  apply emits_bind; [emits_auto|intros _].
  apply emits_bind; [emits_auto|intros _].
  apply emits_bind.
  { apply emits_orFatalf. intros s o s' tr.
    destruct (actuator_Delete env _ _ _ _ _) as [[r st] w].
    destruct r; intros [= <- <- <-]; repeat constructor. }
  intros [cluster' m'].
  apply emits_bind; [emits_auto|intros _].
  apply emits_bind; [emits_auto|intros machineStatus].
  apply emits_bind; [emits_auto|intros _].
  apply emits_bind; [emits_auto|intros _].
  apply emits_bind; [emits_auto|intros _].
  apply emits_bind; [|intros _; emits_auto].
  apply emits_orFatalf. intros s o s' tr [= <- <- <-]. repeat constructor.
Qed.

End DeletePhases.

(** X13: the events of a run of [delete machine] come in two phases:
    first log lines and remote commands only (the lookup and the drain
    of the node), then log lines and the steps that change things (the
    teardown by the actuator, the calls of the store, the sync). No
    remote command is run once the teardown has started, and the store
    is not written before it. *)
Theorem machineCmdDelete_phases {W : Type} (env : Collaborators W)
    (drainTimeout drainGracePeriodSeconds : Z) (ip : string)
    (s s' : State W) (o : outcome unit) (tr : list Event) :
  machineCmdDelete env drainTimeout drainGracePeriodSeconds ip s = (o, s', tr) ->
  exists before after,
    tr = before ++ after
    /\ Forall (fun ev => commandOrLog ev = true) before
    /\ Forall (fun ev => teardownOrLog ev = true) after.
Proof. apply splits_machineCmdDelete. Qed.

Lemma machineCmdDelete_phases_witness :
  exists o s' tr,
    machineCmdDelete ExampleNode.collaborators 300 30 "10.0.0.2"
      (Example.deployment [Example.master1; Example.master2]) = (o, s', tr)
    /\ o = Ret tt
    /\ exists before after,
         tr = before ++ after
         /\ Forall (fun ev => commandOrLog ev = true) before
         /\ Forall (fun ev => teardownOrLog ev = true) after.
Proof.
  eexists _, _, _. split; [vm_compute; reflexivity|]. split; [reflexivity|].
  eapply (machineCmdDelete_phases ExampleNode.collaborators 300 30 "10.0.0.2"
            (Example.deployment [Example.master1; Example.master2])).
  vm_compute. reflexivity.
Defined.

(** ** Looking up and checking *)

Section LooksUp.
Context {W : Type}.

Lemma looksUp_mret {A} (a : A) : looksUp (W:=W) (mret a).
Proof. intros s o s' tr [= <- <- <-]. repeat split. left. eexists. reflexivity. Qed.

Lemma looksUp_throw {A} (e : error) : looksUp (W:=W) (A:=A) (throw e).
Proof. intros s o s' tr [= <- <- <-]. repeat split. right. eexists. reflexivity. Qed.

Lemma looksUp_lift {A} (r : error + A) : looksUp (W:=W) (lift r).
Proof. destruct r; [apply looksUp_throw|apply looksUp_mret]. Qed.

Lemma looksUp_ask {A} (f : W -> A) : looksUp (ask f).
Proof. intros s o s' tr [= <- <- <-]. repeat split. left. eexists. reflexivity. Qed.

Lemma looksUp_storeRead {A} (f : Store -> error + A) : looksUp (W:=W) (storeRead f).
Proof.
  intros s o s' tr. unfold storeRead.
  destruct (f (store s)); intros [= <- <- <-]; repeat split; [right|left]; eexists;
    reflexivity.
Qed.

Lemma looksUp_bind {A B} (m : M W A) (f : A -> M W B) :
  looksUp m -> (forall a, looksUp (f a)) -> looksUp (m ≫= f).
Proof.
  intros Hm Hf s o s' tr E. apply bind_inv in E.
  destruct E as [(a & s1 & t1 & t2 & E1 & E2 & ->)|(o1 & E1 & Hfail & ->)].
  - destruct (Hm _ _ _ _ E1) as (-> & -> & _). exact (Hf a _ _ _ _ E2).
  - destruct (Hm _ _ _ _ E1) as (-> & -> & [[a ->]|[e ->]]).
    + exfalso. exact (Hfail a eq_refl).
    + repeat split. right. eexists. reflexivity.
Qed.

Lemma looksUp_annotate {A} wrap (m : M W A) : looksUp m -> looksUp (annotate wrap m).
Proof.
  intros Hm s o s' tr. unfold annotate.
  destruct (m s) as [[o1 s1] t1] eqn:E1.
  destruct (Hm _ _ _ _ E1) as (-> & -> & [[a ->]|[e ->]]); intros [= <- <- <-];
    repeat split; [left|right]; eexists; reflexivity.
Qed.

Lemma checks_mret {A} (a : A) : checks (W:=W) (mret a).
Proof. intros s o s' tr [= <- <- <-]. repeat split. left. eexists. reflexivity. Qed.

Lemma checks_Fatalf {A} format args : checks (W:=W) (A:=A) (Fatalf format args).
Proof. intros s o s' tr [= <- <- <-]. repeat split. right. eexists. reflexivity. Qed.

Lemma checks_orFatalf {A} wrap (m : M W A) : looksUp m -> checks (orFatalf wrap m).
Proof.
  intros Hm s o s' tr. unfold orFatalf.
  destruct (m s) as [[o1 s1] t1] eqn:E1.
  destruct (Hm _ _ _ _ E1) as (-> & -> & [[a ->]|[e ->]]); intros [= <- <- <-];
    repeat split; [left|right]; eexists; reflexivity.
Qed.

Lemma checks_try {A} (m : M W A) : looksUp m -> checks (try m).
Proof.
  intros Hm s o s' tr. unfold try.
  destruct (m s) as [[o1 s1] t1] eqn:E1.
  destruct (Hm _ _ _ _ E1) as (-> & -> & [[a ->]|[e ->]]); intros [= <- <- <-];
    repeat split; left; eexists; reflexivity.
Qed.

Lemma checks_bind {A B} (m : M W A) (f : A -> M W B) :
  checks m -> (forall a, checks (f a)) -> checks (m ≫= f).
Proof.
  intros Hm Hf s o s' tr E. apply bind_inv in E.
  destruct E as [(a & s1 & t1 & t2 & E1 & E2 & ->)|(o1 & E1 & Hfail & ->)].
  - destruct (Hm _ _ _ _ E1) as (-> & -> & _). exact (Hf a _ _ _ _ E2).
  - destruct (Hm _ _ _ _ E1) as (-> & -> & [[a ->]|[e ->]]).
    + exfalso. exact (Hfail a eq_refl).
    + repeat split. right. eexists. reflexivity.
Qed.

Lemma checksThen_bind {A B} Q (m : M W A) (f : A -> M W B) :
  checks m -> (forall a, checksThen Q (f a)) -> checksThen Q (m ≫= f).
Proof.
  intros Hm Hf s o s' tr E. apply bind_inv in E.
  destruct E as [(a & s1 & t1 & t2 & E1 & E2 & ->)|(o1 & E1 & Hfail & ->)].
  - destruct (Hm _ _ _ _ E1) as (-> & -> & _). exact (Hf a _ _ _ _ E2).
  - destruct (Hm _ _ _ _ E1) as (-> & -> & [[a ->]|[e ->]]).
    + exfalso. exact (Hfail a eq_refl).
    + left. repeat split. eexists. reflexivity.
Qed.

End LooksUp.

Ltac looksUp_step :=
  first
    [ apply looksUp_mret | apply looksUp_throw | apply looksUp_lift
    | apply looksUp_ask | apply looksUp_storeRead | apply looksUp_annotate
    | apply looksUp_bind; [|intros ?]
    | match goal with
      | |- looksUp (match ?x with _ => _ end) => destruct x
      | |- looksUp (let '(_, _) := ?x in _) => destruct x
      end ].

Ltac looksUp_auto := repeat looksUp_step.

Ltac checks_step :=
  first
    [ apply checks_mret | apply checks_Fatalf
    | apply checks_orFatalf; looksUp_auto
    | apply checks_try; looksUp_auto
    | apply checks_bind; [|intros ?]
    | match goal with
      | |- checks (match ?x with _ => _ end) => destruct x
      | |- checks (let '(_, _) := ?x in _) => destruct x
      end ].

Ltac checks_auto := repeat checks_step.

(** ** The public keys of [create machine] *)

Module SplitFacts.
Import GoStrings.

Lemma splitLoop_length sep s cur :
  length (splitLoop sep s cur) = S (length (List.filter (fun c => Ascii.eqb c sep) s)).
Proof.
  revert cur. induction s as [|c s IH]; intros cur; simpl; [reflexivity|].
  destruct (Ascii.eqb c sep); simpl; rewrite IH; reflexivity.
Qed.

Lemma Split_length s sep :
  length (Split s sep) =
  S (length (List.filter (fun c => Ascii.eqb c sep) (String.list_ascii_of_string s))).
Proof. apply splitLoop_length. Qed.

End SplitFacts.

Section PublicKeys.
Context {W : Type} (env : Collaborators W).

Lemma publicKeysLoop_checks files publicKeys : checks (publicKeysLoop env files publicKeys).
Proof.
  revert publicKeys. induction files as [|file files IH]; intros publicKeys; simpl.
  - apply checks_mret.
  - apply checks_bind; [checks_auto|intros publicKey]. apply IH.
Qed.

Lemma publicKeysLoop_keys files publicKeys (s s' : State W) keys tr :
  publicKeysLoop env files publicKeys s = (Ret keys, s', tr) ->
  exists new,
    keys = publicKeys ++ new
    /\ Forall2 (fun file key =>
                  exists publicKey,
                    sshutil_PublicKeyFromFile env file (world s) = inr publicKey
                    /\ key = ssh_MarshalAuthorizedKey env publicKey)
               files new.
Proof.
  revert publicKeys s s' keys tr.
  induction files as [|file files IH]; intros publicKeys s s' keys tr; simpl.
  - intros [= <- <- <-]. exists []. rewrite app_nil_r. split; [reflexivity|constructor].
  - intros E. apply bind_inv_Ret in E. destruct E as (k & s1 & t1 & t2 & E1 & E2 & ->).
    assert (s1 = s /\ sshutil_PublicKeyFromFile env file (world s) = inr k) as [-> Hk].
    { revert E1. unfold orFatalf, ask, lift. rewrite run_bind.
      destruct (sshutil_PublicKeyFromFile env file (world s)) as [err|k'];
        [discriminate|]. intros [= <- <- <-]. split; reflexivity. }
    destruct (IH _ _ _ _ _ E2) as (new & -> & Hnew).
    exists (ssh_MarshalAuthorizedKey env k :: new).
    rewrite <- app_assoc. split; [reflexivity|].
    constructor; [exists k; split; [exact Hk|reflexivity]|exact Hnew].
Qed.

End PublicKeys.

(** X14: the public keys that [create machine] reads are one key for
    every item of the comma-separated flag, in order, each the
    authorized-key form of the key in that file; the list is never
    empty, because a flag without a comma, the empty flag included, is
    one item. Reading them makes no event and changes nothing. *)
Theorem publicKeysLoop_one_key_per_item {W : Type} (env : Collaborators W)
    (publicKeyFiles : string) (s s' : State W) (publicKeys : list string)
    (tr : list Event) :
  publicKeysLoop env (GoStrings.Split publicKeyFiles ",") [] s = (Ret publicKeys, s', tr) ->
  Forall2 (fun file key =>
             exists publicKey,
               sshutil_PublicKeyFromFile env file (world s) = inr publicKey
               /\ key = ssh_MarshalAuthorizedKey env publicKey)
          (GoStrings.Split publicKeyFiles ",") publicKeys
  /\ length publicKeys =
     S (length (List.filter (fun c => Ascii.eqb c ",")
                            (String.list_ascii_of_string publicKeyFiles)))
  /\ publicKeys <> []
  /\ s' = s /\ tr = [].
Proof.
  intros E.
  destruct (publicKeysLoop_keys env _ _ _ _ _ _ E) as (new & -> & Hnew).
  destruct (publicKeysLoop_checks env _ _ _ _ _ _ E) as (-> & -> & _).
  rewrite app_nil_l.
  assert (length new = S (length (List.filter (fun c => Ascii.eqb c ",")
                                    (String.list_ascii_of_string publicKeyFiles))))
    as Hlen.
  { rewrite <- (Forall2_length _ _ _ Hnew). apply SplitFacts.Split_length. }
  split; [exact Hnew|]. split; [exact Hlen|].
  split; [destruct new; [discriminate|discriminate]|]. split; reflexivity.
Qed.

Lemma publicKeysLoop_one_key_per_item_witness :
  Forall2 (fun file key =>
             exists publicKey,
               sshutil_PublicKeyFromFile (Example.collaborators false false []) file
                 (world (Example.deployment [])) = inr publicKey
               /\ key = ssh_MarshalAuthorizedKey (Example.collaborators false false [])
                          publicKey)
          (GoStrings.Split "" ",") ["ssh-ed25519 AAAA"]
  /\ length ["ssh-ed25519 AAAA"] =
     S (length (List.filter (fun c => Ascii.eqb c ",") (String.list_ascii_of_string "")))
  /\ ["ssh-ed25519 AAAA"] <> []
  /\ Example.deployment [] = Example.deployment [] /\ @nil Event = [].
Proof.
  apply (publicKeysLoop_one_key_per_item (Example.collaborators false false []) ""
           (Example.deployment []) (Example.deployment []) ["ssh-ed25519 AAAA"] []).
  vm_compute. reflexivity.
Defined.

(** ** More events *)

Section EmitsMore.
Context {W : Type} (P : Event -> Prop) (env : Collaborators W).

Lemma emits_actuate call ev insecureIgnoreHostKey cluster machine :
  (forall m err, P (ev m err)) ->
  emits P (actuate (W:=W) call ev insecureIgnoreHostKey cluster machine).
Proof.
  intros H s o s' tr. unfold actuate. destruct (call _ _ _ _ _) as [[r st] w].
  destruct r; intros [= <- <- <-]; (constructor; [apply H|constructor]).
Qed.

Lemma emits_ReadFile c path :
  (forall err, P (ReadFileEv c path err)) -> emits P (ReadFile env c path).
Proof.
  intros H s o s' tr. unfold ReadFile.
  destruct (transport_ReadFile env c path (world s)) as [[data err] w].
  intros [= <- <- <-]. constructor; [apply H|constructor].
Qed.

Lemma emits_PullFromAPIs :
  (forall err, P (PullFromAPIsEv err)) -> emits P (PullFromAPIs env).
Proof. intros H s o s' tr [= <- <- <-]. constructor; [apply H|constructor]. Qed.

Lemma emits_storeWriteNil op :
  (forall err, P (StoreEv op err)) -> emits P (storeWriteNil env op).
Proof. intros H s o s' tr [= <- <- <-]. constructor; [apply H|constructor]. Qed.

End EmitsMore.

Ltac emits_more :=
  first
    [ emits_step
    | apply emits_actuate; intros; reflexivity
    | apply emits_ReadFile; intros; reflexivity
    | apply emits_PullFromAPIs; intros; reflexivity
    | apply emits_storeWriteNil; intros; reflexivity ].

Ltac emits_all :=
  unfold Printf, Println, throw, panic, Fatalf,
    masterMachineAndProvisionedMachine, bootstrapTokenSecretFromMachine,
    adminKubeconfigFromMachine, writeAdminKubeconfigToMachine,
    sshMachineClientFromSSHConfig, machineCmdCreate_updateClusterStatus,
    machineCmdDelete_updateClusterStatus,
    Machines_List, Machines_Get, ProvisionedMachines_Get, Clusters_Get, Secrets_Get,
    Secrets_Create, Secrets_Update, Clusters_UpdateStatus, Machines_UpdateStatus,
    Machines_Delete, ProvisionedMachines_Delete,
    Machines_Create, ProvisionedMachines_Create;
  repeat emits_more.

(** ** [create machine]: checks first, then the two objects *)

Section CreateChecks.
Context {W : Type} (env : Collaborators W).

Lemma looksUp_newProvisionedMachineAndMachine name role vipNetworkInterface sshConfig :
  looksUp (newProvisionedMachineAndMachine env name role vipNetworkInterface sshConfig).
Proof. unfold newProvisionedMachineAndMachine. looksUp_auto. Qed.

Lemma storeWrite_inv op f (s : State W) o s' tr :
  storeWrite op f s = (o, s', tr) ->
  (exists e, f (store s) = inl e /\ o = Err e /\ s' = s /\ tr = [StoreEv op (Some e)])
  \/ (exists st, f (store s) = inr st /\ o = Ret tt
                 /\ s' = {| store := st; world := world s |} /\ tr = [StoreEv op None]).
Proof.
  unfold storeWrite. destruct (f (store s)) as [e|st]; intros [= <- <- <-].
  - left. exists e. repeat split.
  - right. exists st. repeat split.
Qed.

End CreateChecks.

Section CreatePersist.
Context {W : Type} (env : Collaborators W).

Lemma not_created op err (tr : list Event) m e :
  isCreateMachine (StoreEv op err) = false ->
  Forall (fun ev => isCreateMachine ev = false) tr ->
  StoreEv (CreateMachine m) (Some e) ∈ StoreEv op err :: tr -> False.
Proof.
  intros Hop Htr Hin. apply elem_of_cons in Hin. destruct Hin as [Heq|Hin].
  - rewrite <- Heq in Hop. discriminate.
  - rewrite Forall_forall in Htr. specialize (Htr _ Hin). discriminate.
Qed.

Lemma create_persisted wrap1 wrap2 newProvisionedMachine newMachine (rest : M W unit) :
  (forall err, wrap2 err = Errorf "Unable to create machine: %v" [AErr err]) ->
  emits (fun ev => isCreateMachine ev = false) rest ->
  forall s o s' tr,
    (orFatalf wrap1 (ProvisionedMachines_Create env DefaultNamespace newProvisionedMachine);;
     orFatalf wrap2 (Machines_Create env DefaultNamespace newMachine);;
     rest) s = (o, s', tr) ->
    persisted s o s' tr.
Proof.
  intros Hwrap Hrest s o s' tr E.
  apply bind_inv in E.
  destruct E as [([] & s1 & t1 & t2 & E1 & E2 & ->)|(o1 & E1 & Hfail & ->)].
  - (* the provisioned machine is created *)
    assert (exists pm, newProvisionedMachine = Some pm
                       /\ t1 = [StoreEv (CreateProvisionedMachine (Some pm)) None]
                       /\ ProvisionedMachines (store s1) =
                          ProvisionedMachines (store s) ++ [pm]
                       /\ Machines (store s1) = Machines (store s)) as Hpm.
    { revert E1. unfold orFatalf, ProvisionedMachines_Create.
      destruct newProvisionedMachine as [pm|].
      - destruct (storeWrite _ _ s) as [[o1 s1'] t1'] eqn:Ew.
        apply storeWrite_inv in Ew.
        destruct Ew as [(e & _ & -> & _ & _)|(st & Hst & -> & -> & ->)];
          [discriminate|].
        intros [= <- <-]. exists pm. split; [reflexivity|]. split; [reflexivity|].
        unfold createObject in Hst.
        destruct (getObject _ _ _ _); [discriminate|]. injection Hst as <-.
        split; reflexivity.
      - unfold storeWriteNil. destruct (store_rejectsNil env); discriminate. }
    destruct Hpm as (pm & -> & -> & Hpms & Hms).
    split; [eexists _, _, _; reflexivity|]. intros m e Hin.
    apply bind_inv in E2.
    destruct E2 as [([] & s2 & t3 & t4 & E2 & E3 & ->)|(o2 & E2 & Hfail & ->)].
    + (* the machine is created, or the nil machine is handed over *)
      exfalso.
      assert (Forall (fun ev => isCreateMachine ev = false \/ errorOf ev = None) t3) as Ht3.
      { revert E2. unfold orFatalf, Machines_Create. destruct newMachine as [machine|].
        - destruct (storeWrite _ _ s1) as [[o2 s2'] t2'] eqn:Ew.
          apply storeWrite_inv in Ew.
          destruct Ew as [(e' & _ & -> & _ & _)|(st & _ & -> & -> & ->)];
            [discriminate|].
          intros [= <- <-]. constructor; [right; reflexivity|constructor].
        - unfold storeWriteNil. destruct (store_rejectsNil env); discriminate. }
      specialize (Hrest _ _ _ _ E3).
      apply elem_of_cons in Hin. destruct Hin as [Heq|Hin]; [discriminate|].
      apply elem_of_app in Hin. destruct Hin as [Hin|Hin].
      * rewrite Forall_forall in Ht3. destruct (Ht3 _ Hin); discriminate.
      * rewrite Forall_forall in Hrest. specialize (Hrest _ Hin). discriminate.
    + (* the machine is refused *)
      revert E2. unfold orFatalf, Machines_Create. destruct newMachine as [machine|].
      * destruct (storeWrite _ _ s1) as [[o3 s3] t3] eqn:Ew.
        apply storeWrite_inv in Ew.
        destruct Ew as [(e' & _ & -> & -> & ->)|(st & _ & -> & -> & ->)].
        -- intros [= <- <- <-].
           apply elem_of_cons in Hin. destruct Hin as [Heq|Hin]; [discriminate|].
           apply list_elem_of_singleton in Hin. injection Hin as <- <-.
           exists pm. rewrite Hwrap. repeat split; assumption.
        -- intros [= <- <- <-]. exfalso. exact (Hfail tt eq_refl).
      * unfold storeWriteNil. destruct (store_rejectsNil env) as [e'|].
        -- intros [= <- <- <-].
           apply elem_of_cons in Hin. destruct Hin as [Heq|Hin]; [discriminate|].
           apply list_elem_of_singleton in Hin. injection Hin as <- <-.
           exists pm. rewrite Hwrap. repeat split; assumption.
        -- intros [= <- <- <-].
           apply elem_of_cons in Hin. destruct Hin as [Heq|Hin]; [discriminate|].
           apply list_elem_of_singleton in Hin. discriminate.
  - (* the provisioned machine is refused *)
    assert (exists p err, tr = [StoreEv (CreateProvisionedMachine p) err]) as (p & err & ->).
    { revert E1. unfold orFatalf, ProvisionedMachines_Create.
      destruct newProvisionedMachine as [pm|].
      - destruct (storeWrite _ _ s) as [[o2 s2] t2] eqn:Ew.
        apply storeWrite_inv in Ew.
        destruct Ew as [(e' & _ & -> & -> & ->)|(st & _ & -> & -> & ->)];
          intros [= <- <- <-]; eexists _, _; reflexivity.
      - unfold storeWriteNil.
        destruct (store_rejectsNil env); intros [= <- <- <-]; eexists _, _; reflexivity. }
    split; [eexists _, _, _; reflexivity|]. intros m e Hin.
    apply list_elem_of_singleton in Hin. discriminate.
Qed.

Lemma checksThen_machineCmdCreate ipFlag ifaceFlag roleFlag portFlag publicKeysFlag :
  checksThen persisted
    (machineCmdCreate env ipFlag ifaceFlag roleFlag portFlag publicKeysFlag).
Proof.
  unfold machineCmdCreate. cbv zeta.
  apply checksThen_bind; [checks_auto|intros _].
  apply checksThen_bind; [checks_auto|intros port].
  apply checksThen_bind; [apply publicKeysLoop_checks|intros publicKeys].
  apply checksThen_bind; [unfold Clusters_Get; checks_auto|intros r].
  apply checksThen_bind; [checks_auto|intros cluster].
  apply checksThen_bind; [unfold Secrets_Get; checks_auto|intros r2].
  apply checksThen_bind; [checks_auto|intros sshCredentialSecret].
  apply checksThen_bind;
    [apply checks_try, looksUp_newProvisionedMachineAndMachine|intros r3].
  intros s o s' tr E. right. revert s o s' tr E.
  destruct (match r3 with inl _ => (None, None) | inr (p, m) => (Some p, Some m) end)
    as [newProvisionedMachine newMachine].
  apply create_persisted; [reflexivity|].
  emits_all.
Qed.

End CreatePersist.

(** X15: [create machine] checks before it acts: a run that makes no
    event has changed nothing and exits the process (the role, the
    port, a public key file, the cluster or the SSH credential was
    refused); every other run starts with the creation of the
    provisioned machine in the store. *)
Theorem machineCmdCreate_checks_first {W : Type} (env : Collaborators W)
    (ipFlag ifaceFlag roleFlag portFlag publicKeysFlag : string)
    (s s' : State W) (o : outcome unit) (tr : list Event) :
  machineCmdCreate env ipFlag ifaceFlag roleFlag portFlag publicKeysFlag s = (o, s', tr) ->
  (tr = [] /\ s' = s /\ exists e, o = Exit e)
  \/ (exists p err rest, tr = StoreEv (CreateProvisionedMachine p) err :: rest).
Proof.
  intros E. destruct (checksThen_machineCmdCreate env _ _ _ _ _ _ _ _ _ E) as [H|[H _]];
    [left; exact H|right; exact H].
Qed.

Lemma machineCmdCreate_checks_first_witness :
  (@nil Event = [] /\ Example.deployment [Example.master1] = Example.deployment [Example.master1]
   /\ exists e,
        Exit (Errorf "Machine role %q is not supported, must be %q or %q."
                     [AStr "Etcd"; AStr MasterRole; AStr NodeRole]) = Exit (A:=unit) e)
  \/ (exists p err rest, @nil Event = StoreEv (CreateProvisionedMachine p) err :: rest).
Proof.
  apply (machineCmdCreate_checks_first (Example.collaborators false false [])
           "10.0.0.9" "eth0" "Etcd" "22" "host.pub"
           (Example.deployment [Example.master1])).
  vm_compute. reflexivity.
Defined.

(** X16: [create machine] does not undo the creation of the
    provisioned machine: when the store refuses the machine, the run
    has made two events, the creation of the provisioned machine, which
    succeeded, and the refused creation of the machine; it exits with
    "Unable to create machine", and the store holds the new provisioned
    machine without its machine. *)
Theorem machineCmdCreate_machine_refused {W : Type} (env : Collaborators W)
    (ipFlag ifaceFlag roleFlag portFlag publicKeysFlag : string)
    (s s' : State W) (o : outcome unit) (tr : list Event)
    (m : option Machine) (e : error) :
  machineCmdCreate env ipFlag ifaceFlag roleFlag portFlag publicKeysFlag s = (o, s', tr) ->
  StoreEv (CreateMachine m) (Some e) ∈ tr ->
  exists pm,
    tr = [StoreEv (CreateProvisionedMachine (Some pm)) None;
          StoreEv (CreateMachine m) (Some e)]
    /\ o = Exit (Errorf "Unable to create machine: %v" [AErr e])
    /\ ProvisionedMachines (store s') = ProvisionedMachines (store s) ++ [pm]
    /\ Machines (store s') = Machines (store s).
Proof.
  intros E Hin.
  destruct (checksThen_machineCmdCreate env _ _ _ _ _ _ _ _ _ E) as [(-> & _)|[_ H]].
  - apply elem_of_nil in Hin. contradiction.
  - exact (H m e Hin).
Qed.

Lemma machineCmdCreate_machine_refused_witness :
  exists o s' tr m e,
    machineCmdCreate (Example.collaborators false false [])
      "10.0.0.9" "eth0" "Master" "22" "host.pub" ExampleOrphan.state = (o, s', tr)
    /\ StoreEv (CreateMachine m) (Some e) ∈ tr
    /\ exists pm,
         tr = [StoreEv (CreateProvisionedMachine (Some pm)) None;
               StoreEv (CreateMachine m) (Some e)]
         /\ o = Exit (Errorf "Unable to create machine: %v" [AErr e])
         /\ ProvisionedMachines (store s') =
            ProvisionedMachines (store ExampleOrphan.state) ++ [pm]
         /\ Machines (store s') = Machines (store ExampleOrphan.state).
Proof.
  eexists _, _, _, _, _. split; [vm_compute; reflexivity|].
  split; [apply list_elem_of_further, list_elem_of_here|].
  eapply (machineCmdCreate_machine_refused (Example.collaborators false false [])
            "10.0.0.9" "eth0" "Master" "22" "host.pub" ExampleOrphan.state).
  - vm_compute. reflexivity.
  - apply list_elem_of_further, list_elem_of_here.
Defined.

(** ** [create machine]: a failure ends the run *)

Section CreateStops.
Context {W : Type} (env : Collaborators W).

Lemma stops_machineCmdCreate ipFlag ifaceFlag roleFlag portFlag publicKeysFlag :
  stopsAtError (machineCmdCreate env ipFlag ifaceFlag roleFlag portFlag publicKeysFlag).
Proof.
  unfold machineCmdCreate. cbv zeta.
  apply stops_bind; [stops_auto|intros _].
  apply stops_bind; [stops_auto|intros port].
  apply stops_bind.
  { apply stops_of_emits. intros s o s' tr E.
    destruct (publicKeysLoop_checks env _ _ _ _ _ _ E) as (_ & -> & _). constructor. }
  intros publicKeys.
  apply stops_bind; [unfold Clusters_Get; stops_auto|intros r].
  apply stops_bind; [stops_auto|intros cluster].
  apply stops_bind; [unfold Secrets_Get; stops_auto|intros r2].
  apply stops_bind; [stops_auto|intros sshCredentialSecret].
  apply stops_bind.
  { apply stops_of_emits. intros s o s' tr E.
    destruct (checks_try _ (looksUp_newProvisionedMachineAndMachine env _ _ _ _)
                _ _ _ _ E) as (_ & -> & _). constructor. }
  intros r3.
  destruct (match r3 with inl _ => (None, None) | inr (p, m) => (Some p, Some m) end)
    as [newProvisionedMachine newMachine].
  apply stops_bind; [unfold ProvisionedMachines_Create; stops_auto|intros _].
  apply stops_bind; [unfold Machines_Create; stops_auto|intros _].
  apply stops_bind; [stops_auto|intros newMachine'].
  apply stops_bind.
  { apply stops_of_emits. emits_all. }
  intros master.
  apply stops_bind.
  { destruct (RoleContains NodeRole (Machine_Spec_Roles newMachine'));
      [|apply stops_of_emits; emits_all].
    apply stops_bind; [stops_auto|intros _].
    apply stops_bind; [stops_auto|intros [masterMachine masterProvisionedMachine]].
    apply stops_bind.
    { apply stops_orFatalf. unfold bootstrapTokenSecretFromMachine.
      apply stops_bind;
        [apply stops_annotate, stops_sshMachineClientFromSSHConfig|intros c].
      stops_auto. }
    intros secret.
    apply stops_bind; [unfold Secrets_Get; stops_auto|intros r4].
    unfold Secrets_Create, Secrets_Update. stops_auto. }
  intros _.
  apply stops_bind; [stops_auto|intros _].
  apply stops_bind; [stops_auto|intros [cluster' newMachine'']].
  apply stops_bind.
  { destruct (RoleContains NodeRole (Machine_Spec_Roles newMachine''));
      [|apply stops_of_emits; emits_all].
    apply stops_bind; [stops_auto|intros _].
    apply stops_bind; [stops_auto|intros [masterMachine masterProvisionedMachine]].
    apply stops_bind.
    { apply stops_orFatalf. unfold adminKubeconfigFromMachine.
      apply stops_bind;
        [apply stops_annotate, stops_sshMachineClientFromSSHConfig|intros c].
      apply stops_ReadFile. }
    intros kubeconfig.
    apply stops_bind; [stops_auto|intros pm].
    apply stops_orFatalf. unfold writeAdminKubeconfigToMachine.
    apply stops_bind;
      [apply stops_annotate, stops_sshMachineClientFromSSHConfig|intros c].
    apply stops_WriteFile. }
  intros _.
  apply stops_bind; [stops_auto|intros _].
  apply stops_bind; [stops_auto|intros machineStatus].
  apply stops_bind.
  { unfold machineCmdCreate_updateClusterStatus, Clusters_UpdateStatus. stops_auto. }
  intros _. stops_auto.
Qed.

End CreateStops.

(** X17: in a run of [create machine], a call that acts (a create or
    an update in the store, the command on the master, the actuator,
    the reading or the writing of the kubeconfig, the sync of the
    on-disk state) and returned an error is the last event of the run,
    and the command does not complete: nothing is attempted after such
    a failure. The lookups of the store make no event and are not
    meant: when the bootstrap token secret is not found the command
    goes on and creates it. *)
Theorem machineCmdCreate_stops_at_error {W : Type} (env : Collaborators W)
    (ipFlag ifaceFlag roleFlag portFlag publicKeysFlag : string)
    (s s' : State W) (o : outcome unit) (pre post : list Event) (ev : Event) :
  machineCmdCreate env ipFlag ifaceFlag roleFlag portFlag publicKeysFlag s =
    (o, s', pre ++ ev :: post) ->
  errorOf ev <> None ->
  post = [] /\ o <> Ret tt.
Proof.
  intros Hrun Hev.
  destruct (stops_machineCmdCreate env _ _ _ _ _ _ _ _ _ Hrun pre ev post eq_refl Hev)
    as [Hpost Hfail].
  split; [exact Hpost|apply Hfail].
Qed.

Lemma machineCmdCreate_stops_at_error_witness :
  exists o s' created refused,
    machineCmdCreate (Example.collaborators false false [])
      "10.0.0.9" "eth0" "Master" "22" "host.pub" ExampleOrphan.state =
      (o, s', [created] ++ refused :: [])
    /\ errorOf refused <> None
    /\ @nil Event = [] /\ o <> Ret tt.
Proof.
  eexists _, _, _, _. split; [vm_compute; reflexivity|].
  split; [discriminate|].
  eapply (machineCmdCreate_stops_at_error (Example.collaborators false false [])
            "10.0.0.9" "eth0" "Master" "22" "host.pub" ExampleOrphan.state
            _ _ [_] [] _).
  - vm_compute. reflexivity.
  - discriminate.
Defined.

(** ** The steps of [create machine] *)

Section FollowsLeaves.
Context {W : Type} (step : Event -> option nat) (env : Collaborators W).

Lemma follows_stop_failed {A} (o : outcome A) p :
  failed o -> follows (W:=W) step [p] (stop o).
Proof.
  intros Hf s o' s' tr [= <- <- <-]. exists p. split; [apply list_elem_of_here|].
  split; [apply prefix_nil|]. intros (a & ->). exfalso. exact (Hf a eq_refl).
Qed.

Lemma follows_panic_bind {A B} (f : A -> M W B) p : follows step [p] (panic ≫= f).
Proof.
  intros s o s' tr [= <- <- <-]. exists p. split; [apply list_elem_of_here|].
  split; [apply prefix_nil|]. intros (a & ?). discriminate.
Qed.

Lemma follows_mret_bind {A B} (a : A) (f : A -> M W B) ps :
  follows step ps (f a) -> follows step ps (mret a ≫= f).
Proof.
  intros Hf s o s' tr E. apply (Hf s o s' tr).
  cbv [mbind M_bind mret M_ret] in E. destruct (f a s) as [[o2 s2] t2]. exact E.
Qed.

Lemma follows_storeWriteNil op n :
  (forall err, step (StoreEv op err) = Some n) ->
  follows step [[n]] (storeWriteNil env op).
Proof.
  intros Hstep. apply follows_single. intros s o s' tr [= <- <- <-].
  eexists; split; [reflexivity|apply Hstep].
Qed.

Lemma follows_RunCommand c cmd n :
  (forall stdOut stdErr err, step (RunCommandEv c cmd stdOut stdErr err) = Some n) ->
  follows step [[n]] (RunCommand env c cmd).
Proof.
  intros Hstep. apply follows_single. intros s o s' tr. unfold RunCommand.
  destruct (transport_RunCommand env c cmd (world s)) as [[[stdOut stdErr] err] w].
  intros [= <- <- <-]. eexists; split; [reflexivity|apply Hstep].
Qed.

Lemma follows_ReadFile c path n :
  (forall err, step (ReadFileEv c path err) = Some n) ->
  follows step [[n]] (ReadFile env c path).
Proof.
  intros Hstep. apply follows_single. intros s o s' tr. unfold ReadFile.
  destruct (transport_ReadFile env c path (world s)) as [[data err] w].
  intros [= <- <- <-]. eexists; split; [reflexivity|apply Hstep].
Qed.

Lemma follows_WriteFile c path mode data n :
  (forall err, step (WriteFileEv c path mode data err) = Some n) ->
  follows step [[n]] (WriteFile env c path mode data).
Proof.
  intros Hstep. apply follows_single. intros s o s' tr [= <- <- <-].
  eexists; split; [reflexivity|apply Hstep].
Qed.

End FollowsLeaves.

Section CreateSteps.
Context {W : Type} (env : Collaborators W).

Lemma emits_publicKeysLoop P files publicKeys :
  emits P (publicKeysLoop env files publicKeys).
Proof.
  intros s o s' tr E.
  destruct (publicKeysLoop_checks env _ _ _ _ _ _ E) as (_ & -> & _). constructor.
Qed.

(** The bootstrap token of a node: the command on the master, then the
    secret. *)
Lemma follows_create_token master :
  follows createStep [[2; 3]]%nat
    (Println "Getting a bootstrap token from a master";;
     '(masterMachine, masterProvisionedMachine) ← deref master;
     newBootstrapTokenSecret ←
       orFatalf (fun err => Errorf "Unable to read bootstrap token from master: %v" [AErr err])
                (bootstrapTokenSecretFromMachine env masterMachine masterProvisionedMachine);
     r ← try (Secrets_Get DefaultNamespace DefaultBootstrapTokenSecretName);
     match r with
     | inl err =>
       if negb (IsNotFound err)
       then Fatalf "Unable to get bootstrap token secret: %v" [AErr err]
       else orFatalf (fun err => Errorf "Unable to create bootstrap token secret: %v" [AErr err])
                     (Secrets_Create DefaultNamespace newBootstrapTokenSecret)
     | inr _ =>
       orFatalf (fun err => Errorf "Unable to update bootstrap token secret: %v" [AErr err])
                (Secrets_Update DefaultNamespace newBootstrapTokenSecret)
     end).
Proof.
  apply follows_bind_quiet; [discriminate|emits_all|intros _].
  destruct master as [[masterMachine masterProvisionedMachine]|];
    [|apply follows_panic_bind].
  apply follows_mret_bind.
  apply (follows_bind_step createStep _ _ 2%nat [[3%nat]]); [discriminate| |intros secret].
  { apply follows_orFatalf. unfold bootstrapTokenSecretFromMachine.
    apply follows_bind_quiet; [discriminate|emits_all|intros c].
    apply (follows_bind_step createStep _ _ 2%nat [[]]); [discriminate| |].
    - apply follows_RunCommand. reflexivity.
    - intros [[stdOut stdErr] err]. apply follows_quiet. emits_all. }
  apply follows_bind_quiet; [discriminate|emits_all|intros r].
  destruct r as [err|x].
  - destruct (negb (IsNotFound err)).
    + apply follows_stop_failed. intros a. discriminate.
    + apply follows_orFatalf. unfold Secrets_Create. apply follows_storeWrite. reflexivity.
  - apply follows_orFatalf. unfold Secrets_Update. apply follows_storeWrite. reflexivity.
Qed.

(** The admin kubeconfig of a node: read on the master, written on the
    new machine. *)
Lemma follows_create_kubeconfig master newMachine newProvisionedMachine :
  follows createStep [[5; 6]]%nat
    (Println "Writing admin kubeconfig to machine";;
     '(masterMachine, masterProvisionedMachine) ← deref master;
     kubeconfig ←
       orFatalf (fun err => Errorf "Unable to get admin kubeconfig from master: %v" [AErr err])
                (adminKubeconfigFromMachine env masterMachine masterProvisionedMachine);
     newProvisionedMachine ← deref newProvisionedMachine;
     orFatalf (fun err => Errorf "Unable to write admin kubeconfig to machine: %v" [AErr err])
              (writeAdminKubeconfigToMachine env kubeconfig newMachine newProvisionedMachine)).
Proof.
  apply follows_bind_quiet; [discriminate|emits_all|intros _].
  destruct master as [[masterMachine masterProvisionedMachine]|];
    [|apply follows_panic_bind].
  apply follows_mret_bind.
  apply (follows_bind_step createStep _ _ 5%nat [[6%nat]]); [discriminate| |intros kubeconfig].
  { apply follows_orFatalf. unfold adminKubeconfigFromMachine.
    apply follows_bind_quiet; [discriminate|emits_all|intros c].
    apply follows_ReadFile. reflexivity. }
  destruct newProvisionedMachine as [pm|]; [|apply follows_panic_bind].
  apply follows_mret_bind. apply follows_orFatalf. unfold writeAdminKubeconfigToMachine.
  apply follows_bind_quiet; [discriminate|emits_all|intros c].
  apply follows_WriteFile. reflexivity.
Qed.

(** The end of the command: the cluster status and the sync. *)
Lemma follows_create_status (newMachine : Machine) cluster :
  follows createStep [[8]; [7; 8]]%nat
    (Println "Updating cluster status";;
     machineStatus ←
       orFatalf (fun err => Errorf "Unable to get machine %q status: %v"
                                   [AStr (Machine_Name newMachine); AErr err])
                (lift (GetMachineStatus env newMachine));
     machineCmdCreate_updateClusterStatus env machineStatus cluster;;
     orFatalf (fun err => Errorf "Unable to sync on-disk state: %v" [AErr err])
              (PullFromAPIs env);;
     Println "Machine created successfully.").
Proof.
  apply follows_bind_quiet; [discriminate|emits_all|intros _].
  apply follows_bind_quiet; [discriminate|emits_all|intros machineStatus].
  assert (follows createStep [[8%nat]]
            (orFatalf (fun err => Errorf "Unable to sync on-disk state: %v" [AErr err])
                      (PullFromAPIs env);;
             Println "Machine created successfully.")) as Htail.
  { apply (follows_bind_step createStep _ _ 8%nat [[]]); [discriminate| |intros _].
    - apply follows_orFatalf, follows_PullFromAPIs. reflexivity.
    - apply follows_quiet. emits_all. }
  unfold machineCmdCreate_updateClusterStatus.
  destruct (SPMachineStatus_EtcdMember machineStatus) as [etcdMember|].
  - apply (follows_weaken createStep _ [[7; 8]]%nat);
      [intros p Hp; apply list_elem_of_further; exact Hp|].
    apply (follows_bind_step createStep _ _ 7%nat [[8%nat]]); [discriminate| |intros _; exact Htail].
    apply follows_bind_quiet; [discriminate|emits_all|intros clusterStatus].
    apply follows_bind_quiet; [discriminate|emits_all|intros cluster'].
    apply follows_orFatalf. unfold Clusters_UpdateStatus.
    apply follows_storeWrite. reflexivity.
  - apply (follows_weaken createStep _ [[8%nat]]);
      [intros p Hp; apply list_elem_of_singleton in Hp; subst p; apply list_elem_of_here|].
    apply follows_mret_bind. exact Htail.
Qed.

Lemma follows_machineCmdCreate ipFlag ifaceFlag roleFlag portFlag publicKeysFlag :
  follows createStep createPatterns
          (machineCmdCreate env ipFlag ifaceFlag roleFlag portFlag publicKeysFlag).
Proof.
  unfold machineCmdCreate, createPatterns. cbv zeta.
  apply follows_bind_quiet; [discriminate|emits_all|intros _].
  apply follows_bind_quiet; [discriminate|emits_all|intros port].
  apply follows_bind_quiet; [discriminate|apply emits_publicKeysLoop|intros publicKeys].
  apply follows_bind_quiet; [discriminate|emits_all|intros r].
  apply follows_bind_quiet; [discriminate|emits_all|intros cluster].
  apply follows_bind_quiet; [discriminate|emits_all|intros r2].
  apply follows_bind_quiet; [discriminate|emits_all|intros sshCredentialSecret].
  apply follows_bind_quiet; [discriminate| |intros r3].
  { intros s o s' tr E.
    destruct (checks_try _ (looksUp_newProvisionedMachineAndMachine env _ _ _ _)
                _ _ _ _ E) as (_ & -> & _). constructor. }
  destruct (match r3 with inl _ => (None, None) | inr (p, m) => (Some p, Some m) end)
    as [newProvisionedMachine newMachine].
  apply (follows_bind_step createStep _ _ 0%nat
           [[1; 4; 8]; [1; 4; 7; 8];
            [1; 2; 3; 4; 5; 6; 8]; [1; 2; 3; 4; 5; 6; 7; 8];
            [1; 2; 3; 4; 8]; [1; 2; 3; 4; 7; 8]]%nat); [discriminate| |intros _].
  { apply follows_orFatalf. unfold ProvisionedMachines_Create.
    destruct newProvisionedMachine;
      [apply follows_storeWrite|apply follows_storeWriteNil]; reflexivity. }
  apply (follows_bind_step createStep _ _ 1%nat
           [[4; 8]; [4; 7; 8];
            [2; 3; 4; 5; 6; 8]; [2; 3; 4; 5; 6; 7; 8];
            [2; 3; 4; 8]; [2; 3; 4; 7; 8]]%nat); [discriminate| |intros _].
  { apply follows_orFatalf. unfold Machines_Create.
    destruct newMachine;
      [apply follows_storeWrite|apply follows_storeWriteNil]; reflexivity. }
  apply follows_bind_quiet; [discriminate|emits_all|intros newMachine'].
  (* after the actuator: the kubeconfig of a node, then the end *)
  assert (forall master (newMachine'' : Machine) cluster',
    follows createStep
      (if RoleContains NodeRole (Machine_Spec_Roles newMachine'')
       then match master with
            | Some _ => [[5; 6; 8]; [5; 6; 7; 8]]
            | None => [[8]; [7; 8]]
            end
       else [[8]; [7; 8]])%nat
      ((if RoleContains NodeRole (Machine_Spec_Roles newMachine'') then
          Println "Writing admin kubeconfig to machine";;
          '(masterMachine, masterProvisionedMachine) ← deref master;
          kubeconfig ←
            orFatalf (fun err => Errorf "Unable to get admin kubeconfig from master: %v"
                                        [AErr err])
                     (adminKubeconfigFromMachine env masterMachine masterProvisionedMachine);
          newProvisionedMachine ← deref newProvisionedMachine;
          orFatalf (fun err => Errorf "Unable to write admin kubeconfig to machine: %v"
                                      [AErr err])
                   (writeAdminKubeconfigToMachine env kubeconfig newMachine''
                                                  newProvisionedMachine)
        else mret tt);;
       Println "Updating cluster status";;
       machineStatus ←
         orFatalf (fun err => Errorf "Unable to get machine %q status: %v"
                                     [AStr (Machine_Name newMachine''); AErr err])
                  (lift (GetMachineStatus env newMachine''));
       machineCmdCreate_updateClusterStatus env machineStatus cluster';;
       orFatalf (fun err => Errorf "Unable to sync on-disk state: %v" [AErr err])
                (PullFromAPIs env);;
       Println "Machine created successfully.")) as Hafter.
  { intros master newMachine'' cluster'.
    destruct (RoleContains NodeRole (Machine_Spec_Roles newMachine'')).
    - destruct master as [mp|].
      + exact (follows_bind createStep _ _ [5; 6]%nat [[8]; [7; 8]]%nat
                 ltac:(discriminate)
                 (follows_create_kubeconfig (Some mp) newMachine'' newProvisionedMachine)
                 (fun _ => follows_create_status newMachine'' cluster')).
      + apply follows_bind_quiet; [discriminate| |intros _].
        * intros s o s' tr.
          cbv [Println Printf emit mbind M_bind deref panic stop].
          intros [= <- <- <-]. repeat constructor.
        * apply follows_create_status.
    - apply follows_mret_bind. apply follows_create_status. }
  destruct (RoleContains NodeRole (Machine_Spec_Roles newMachine')) eqn:HisNode.
  - (* a node *)
    apply (follows_weaken createStep _
             [[2; 3; 4; 5; 6; 8]; [2; 3; 4; 5; 6; 7; 8]; [2; 3; 4; 8]; [2; 3; 4; 7; 8]]%nat).
    { intros q Hq. do 2 apply list_elem_of_further. exact Hq. }
    apply follows_bind_quiet; [discriminate|emits_all|intros master].
    apply (follows_bind createStep _ _ [2; 3]%nat
             [[4; 5; 6; 8]; [4; 5; 6; 7; 8]; [4; 8]; [4; 7; 8]]%nat);
      [discriminate|apply follows_create_token|intros _].
    apply follows_bind_quiet; [discriminate|emits_all|intros _].
    apply (follows_bind_step createStep _ _ 4%nat
             [[5; 6; 8]; [5; 6; 7; 8]; [8]; [7; 8]]%nat); [discriminate| |].
    { apply follows_orFatalf, follows_actuate. reflexivity. }
    intros [cluster' newMachine''].
    eapply follows_weaken; [|apply (Hafter master newMachine'' cluster')].
    destruct (RoleContains NodeRole (Machine_Spec_Roles newMachine''));
      [destruct master|]; intros q Hq;
      repeat (apply elem_of_cons in Hq; destruct Hq as [->|Hq]);
      try (apply elem_of_nil in Hq; contradiction);
      repeat first [apply list_elem_of_here|apply list_elem_of_further].
  - (* a master *)
    apply (follows_weaken createStep _ [[4; 8]; [4; 7; 8]]%nat).
    { intros q Hq.
      repeat (apply elem_of_cons in Hq; destruct Hq as [->|Hq]);
        try (apply elem_of_nil in Hq; contradiction);
        repeat first [apply list_elem_of_here|apply list_elem_of_further]. }
    apply follows_mret_bind.
    apply follows_mret_bind.
    apply follows_bind_quiet; [discriminate|emits_all|intros _].
    apply (follows_bind_step createStep _ _ 4%nat [[8]; [7; 8]]%nat); [discriminate| |].
    { apply follows_orFatalf, follows_actuate. reflexivity. }
    intros [cluster' newMachine''].
    eapply follows_weaken; [|apply (Hafter None newMachine'' cluster')].
    destruct (RoleContains NodeRole (Machine_Spec_Roles newMachine''));
      intros q Hq; exact Hq.
Qed.

End CreateSteps.

(** X18: a run of [create machine] goes through its steps in the order
    of the source and skips none: the creation of the provisioned
    machine and of the machine; for a node the command that issues the
    bootstrap token and the creation or update of its secret; the
    provisioning by the actuator; for a node the reading of the admin
    kubeconfig on the master and its writing on the new machine; the
    update of the cluster status (only when the machine status carries
    an etcd member); the sync of the on-disk state. A run that stops
    early has done a beginning of such a sequence and a run that
    completes has done all of it; no other call is made, so nothing
    created is deleted again. *)
Theorem machineCmdCreate_steps {W : Type} (env : Collaborators W)
    (ipFlag ifaceFlag roleFlag portFlag publicKeysFlag : string)
    (s s' : State W) (o : outcome unit) (tr : list Event) :
  machineCmdCreate env ipFlag ifaceFlag roleFlag portFlag publicKeysFlag s = (o, s', tr) ->
  exists p,
    p ∈ createPatterns
    /\ omap createStep tr `prefix_of` p
    /\ (o = Ret tt -> omap createStep tr = p).
Proof.
  intros Hrun.
  destruct (follows_machineCmdCreate env _ _ _ _ _ _ _ _ _ Hrun) as (p & Hp & Hpre & Hc).
  exists p. split; [exact Hp|]. split; [exact Hpre|].
  intros ->. apply Hc. exists tt. reflexivity.
Qed.

Lemma machineCmdCreate_steps_witness :
  exists o s' tr,
    machineCmdCreate ExampleNode.collaborators "10.0.0.9" "eth0" "Node" "22" "host.pub"
      (Example.deployment [Example.master1]) = (o, s', tr)
    /\ o = Ret tt
    /\ omap createStep tr = [0; 1; 2; 3; 4; 5; 6; 8]%nat
    /\ exists p,
         p ∈ createPatterns
         /\ omap createStep tr `prefix_of` p
         /\ (o = Ret tt -> omap createStep tr = p).
Proof.
  eexists _, _, _. split; [vm_compute; reflexivity|].
  split; [reflexivity|]. split; [reflexivity|].
  eapply (machineCmdCreate_steps ExampleNode.collaborators
            "10.0.0.9" "eth0" "Node" "22" "host.pub"
            (Example.deployment [Example.master1])).
  vm_compute. reflexivity.
Defined.

(** ** The masters of the recovery command *)

Section Masters.
Context {W : Type}.

Lemma mastersOfRoles_run machine roles masters (s : State W) :
  mastersOfRoles machine roles masters s =
  (let found := (fun _ => machine)
                  <$> List.filter (fun role => String.eqb role MasterRole) roles in
   (Ret (masters ++ found), s, foundMasterLog <$> found)).
Proof.
  revert masters. induction roles as [|role roles IH]; intros masters; simpl.
  - rewrite app_nil_r. reflexivity.
  - destruct (String.eqb role MasterRole); simpl.
    + rewrite run_bind. cbn [Printf emit]. cbv beta iota zeta.
      rewrite IH. cbv zeta. rewrite <- app_assoc. reflexivity.
    + apply IH.
Qed.

Lemma masterEntries_cons machine items :
  masterEntries (machine :: items) = masterEntriesOf machine ++ masterEntries items.
Proof. reflexivity. Qed.

Lemma mastersOfItems_run items masters (s : State W) :
  mastersOfItems items masters s =
  (Ret (masters ++ masterEntries items), s, foundMasterLog <$> masterEntries items).
Proof.
  revert masters. induction items as [|machine items IH]; intros masters; simpl.
  - rewrite app_nil_r. reflexivity.
  - rewrite run_bind, mastersOfRoles_run. cbv beta iota zeta. rewrite IH.
    fold (masterEntriesOf machine).
    rewrite masterEntries_cons, fmap_app, <- app_assoc. reflexivity.
Qed.

Lemma masterEntriesOf_NoDup machine :
  NoDup (Machine_Spec_Roles machine) ->
  masterEntriesOf machine =
  if RoleContains MasterRole (Machine_Spec_Roles machine) then [machine] else [].
Proof.
  intros Hnd. unfold masterEntriesOf.
  assert (List.filter (fun role => String.eqb role MasterRole) (Machine_Spec_Roles machine)
          = List.filter (String.eqb MasterRole) (Machine_Spec_Roles machine)) as ->.
  { apply List.filter_ext. intros role. apply String.eqb_sym. }
  destruct (RoleContains MasterRole (Machine_Spec_Roles machine)) eqn:E.
  - pose proof (filter_eqb_NoDup _ _ Hnd E) as Hlen.
    destruct (List.filter _ _) as [|r [|r' l]]; try discriminate. reflexivity.
  - rewrite (RoleContains_false_filter _ _ E). reflexivity.
Qed.

Lemma masterEntries_NoDup items :
  Forall (fun machine => NoDup (Machine_Spec_Roles machine)) items ->
  masterEntries items = machinesWithRole MasterRole items.
Proof.
  induction 1 as [|machine items Hnd _ IH]; [reflexivity|].
  rewrite masterEntries_cons, (masterEntriesOf_NoDup _ Hnd), IH.
  unfold machinesWithRole. simpl.
  destruct (RoleContains MasterRole (Machine_Spec_Roles machine)); reflexivity.
Qed.

End Masters.

(** X19: the masters that [recoverEtcdCmd] hands to [recoverEtcd] are
    the machines of the list, in order, each once for every Master
    entry of its roles (so a machine that lists Master twice is there
    twice), and one line is logged for each; when no machine repeats a
    role they are exactly the machines that hold the Master role. *)
Theorem mastersOfItems_master_entries {W : Type} (items : list Machine) (s : State W) :
  mastersOfItems items [] s =
    (Ret (masterEntries items), s, foundMasterLog <$> masterEntries items)
  /\ (Forall (fun machine => NoDup (Machine_Spec_Roles machine)) items ->
      masterEntries items = machinesWithRole MasterRole items).
Proof.
  split; [rewrite mastersOfItems_run; reflexivity|apply masterEntries_NoDup].
Qed.

Lemma mastersOfItems_master_entries_witness :
  masterEntries [Example.node1; Example.master1; Example.master2] =
  machinesWithRole MasterRole [Example.node1; Example.master1; Example.master2].
Proof.
  apply (proj2 (mastersOfItems_master_entries
                  [Example.node1; Example.master1; Example.master2]
                  (Example.deployment []))).
  repeat constructor; vm_compute; intros H; inversion H; subst;
    repeat match goal with H : _ ∈ [] |- _ => inversion H end.
Defined.

(** X20: with a cluster, a cluster spec that decodes and the etcd CA
    secret in the store, but no Master entry among the roles of the
    machines, [recover etcd] reports success: it runs no remote
    command and changes nothing in the store; its only events are the
    sync of the on-disk state and the line "Recovered etcd
    successfully". *)
Theorem recoverEtcdCmd_no_masters {W : Type} (env : Collaborators W)
    (localPath : string) (s : State W)
    (cluster : Cluster) (clusterProviderSpec : SPClusterSpec) (etcdCASecret : Secret)
    (w : W) :
  getObject Cluster_ObjectMeta DefaultNamespace DefaultClusterName (Clusters (store s))
    = Some cluster ->
  GetClusterSpec env cluster = inr clusterProviderSpec ->
  getObject Secret_ObjectMeta DefaultNamespace
            (LocalObjectReference_Name (EtcdCASecret clusterProviderSpec))
            (Secrets (store s)) = Some etcdCASecret ->
  masterEntries (listObjects Machine_ObjectMeta DefaultNamespace (Machines (store s))) = [] ->
  state_PullFromAPIs env (store s) (world s) = (None, w) ->
  recoverEtcdCmd env localPath s =
    (Ret tt, {| store := store s; world := w |},
     [PullFromAPIsEv None; LogEv "%s" [AStr "Recovered etcd successfully."]]).
Proof.
  intros Hcluster Hspec Hsecret Hmasters Hpull. unfold recoverEtcdCmd. cbv zeta.
  rewrite (run_bind_Ret _ _ s (inr cluster) s [])
    by (unfold try, Clusters_Get, storeRead; rewrite Hcluster; reflexivity).
  rewrite (run_bind_Ret _ _ s cluster s []) by reflexivity.
  rewrite (run_bind_Ret _ _ s clusterProviderSpec s [])
    by (unfold orFatalf, lift; rewrite Hspec; reflexivity).
  rewrite (run_bind_Ret _ _ s (inr etcdCASecret) s [])
    by (unfold try, Secrets_Get, storeRead; rewrite Hsecret; reflexivity).
  rewrite (run_bind_Ret _ _ s (Some etcdCASecret) s []) by reflexivity.
  rewrite (run_bind_Ret _ _ s
             (listObjects Machine_ObjectMeta DefaultNamespace (Machines (store s))) s [])
    by reflexivity.
  rewrite (run_bind_Ret _ _ s [] s [])
    by (rewrite mastersOfItems_run, Hmasters; reflexivity).
  rewrite (run_bind_Ret _ _ s tt s []) by reflexivity.
  rewrite (run_bind_Ret _ _ s tt {| store := store s; world := w |} [PullFromAPIsEv None])
    by (unfold orFatalf, PullFromAPIs, effect; rewrite Hpull; reflexivity).
  reflexivity.
Qed.

Lemma recoverEtcdCmd_no_masters_witness :
  recoverEtcdCmd (Example.collaborators false false []) "snapshot.db"
    (Example.deployment [Example.node1]) =
    (Ret tt,
     {| store := store (Example.deployment [Example.node1]); world := tt |},
     [PullFromAPIsEv None; LogEv "%s" [AStr "Recovered etcd successfully."]]).
Proof.
  apply (recoverEtcdCmd_no_masters (Example.collaborators false false []) "snapshot.db"
           (Example.deployment [Example.node1]) Example.cluster
           {| EtcdCASecret := {| LocalObjectReference_Name := "etcd-ca" |} |}
           Example.etcdCA tt); vm_compute; reflexivity.
Defined.

(** ** The etcd CA of the recovery *)

Section NilSecret.
Context {W : Type} (env : Collaborators W).

Lemma writeCALoop_nil mwc rest (s : State W) :
  writeCALoop env (mwc :: rest) None s = (Panic, s, []).
Proof. reflexivity. Qed.

Lemma recoverRun_nil_secret localPath remotePath cluster masters s o s' tr :
  recoverRun env localPath remotePath None cluster masters s o s' tr ->
  masters <> [] ->
  o <> Ret tt
  /\ Forall (hasKind [KLog; KReset; KStore]) tr
  /\ forall mwcs s0 t0 cluster1 s1 t2,
       mastersWithClientLoop env masters s = (Ret mwcs, s0, t0) ->
       resetLoop env mwcs cluster s0 = (Ret cluster1, s1, t2) ->
       o = Panic /\ s' = s1 /\ tr = t0 ++ cleaningLog :: t2 ++ [writingCALog].
Proof.
  intros Hrun Hne.
  assert (forall mwcs s0 t0, mastersWithClientLoop env masters s = (Ret mwcs, s0, t0) ->
                             exists mwc rest, mwcs = mwc :: rest) as Hcons.
  { intros mwcs s0 t0 E. apply mastersWithClientLoop_machines in E.
    destruct mwcs as [|mwc rest]; [simpl in E; congruence|eauto]. }
  destruct Hrun as
    [ o1 s' tr E1 Hf
    | mwcs s0 t0 o2 s' t2 E1 E2 Hf
    | mwcs s0 t0 cluster1 s1 t2 o3 s' t3 E1 E2 E3 Hf
    | firstMWC otherMWCs s0 t0 cluster1 s1 t2 s2 t3 o4 s' t4 E1 E2 E3
    | firstMWC otherMWCs s0 t0 cluster1 s1 t2 s2 t3 m c2 s' t4 E1 E2 E3
    | firstMWC otherMWCs s0 t0 cluster1 s1 t2 s2 t3 m c2 s3 t4 ep urls o5 s' t5 E1 E2 E3
    | firstMWC otherMWCs s0 t0 cluster1 s1 t2 s2 t3 m c2 s3 t4 ep urls c3 s4 t5 s' t6 E1 E2 E3 ].
  4-7: rewrite writeCALoop_nil in E3; discriminate.
  - split; [destruct o1; [exfalso; exact (Hf _ eq_refl)|discriminate..]|].
    split.
    + eapply Forall_impl; [exact (emits_mastersWithClientLoop _ _ _ _ _ _ E1)|].
      intros ev. apply hasKind_weaken. kinds_subset.
    + intros mwcs s0 t0 cluster1 s1 t2 E1'. rewrite E1 in E1'. injection E1' as ->.
      exfalso. exact (Hf _ eq_refl).
  - split; [destruct o2; [exfalso; exact (Hf _ eq_refl)|discriminate..]|].
    split.
    + apply Forall_app. split.
      * eapply Forall_impl; [exact (emits_mastersWithClientLoop _ _ _ _ _ _ E1)|].
        intros ev. apply hasKind_weaken. kinds_subset.
      * constructor; [reflexivity|].
        eapply Forall_impl; [exact (emits_resetLoop _ _ _ _ _ _ _ E2)|].
        intros ev. apply hasKind_weaken. kinds_subset.
    + intros mwcs' s0' t0' cluster1 s1 t2' E1' E2'.
      rewrite E1 in E1'. injection E1' as <- <- <-.
      rewrite E2 in E2'. injection E2' as ->. exfalso. exact (Hf _ eq_refl).
  - destruct (Hcons _ _ _ E1) as (mwc & rest & ->).
    rewrite writeCALoop_nil in E3. injection E3 as <- <- <-.
    split; [discriminate|]. split.
    + apply Forall_app. split.
      * eapply Forall_impl; [exact (emits_mastersWithClientLoop _ _ _ _ _ _ E1)|].
        intros ev. apply hasKind_weaken. kinds_subset.
      * constructor; [reflexivity|]. apply Forall_app. split.
        -- eapply Forall_impl; [exact (emits_resetLoop _ _ _ _ _ _ _ E2)|].
           intros ev. apply hasKind_weaken. kinds_subset.
        -- constructor; [reflexivity|constructor].
    + intros mwcs' s0' t0' cluster1' s1' t2' E1' E2'.
      rewrite E1 in E1'. injection E1' as <- <- <-.
      rewrite E2 in E2'. injection E2' as <- <- <-.
      repeat split.
Qed.

End NilSecret.

(** X21: with a nil etcd CA secret and at least one master,
    [recoverEtcd] never succeeds and never gets to write a file or to
    bootstrap: its events are log lines, reset commands and updates of
    the cluster status only. When the sessions are opened and the
    reset loop completes, so that etcd is reset on every master, it
    panics on the nil secret right after the line "Writing etcd CA to
    all masters". *)
Theorem recoverEtcd_nil_secret {W : Type} (env : Collaborators W)
    (localPath remotePath : string) (cluster : Cluster) (masters : list Machine)
    (s s' : State W) (o : outcome unit) (tr : list Event) :
  masters <> [] ->
  recoverEtcd env localPath remotePath None cluster masters s = (o, s', tr) ->
  o <> Ret tt
  /\ Forall (hasKind [KLog; KReset; KStore]) tr
  /\ forall mwcs s0 t0 cluster1 s1 t2,
       mastersWithClientLoop env masters s = (Ret mwcs, s0, t0) ->
       resetLoop env mwcs cluster s0 = (Ret cluster1, s1, t2) ->
       o = Panic /\ s' = s1 /\ tr = t0 ++ cleaningLog :: t2 ++ [writingCALog].
Proof.
  intros Hne Hrun.
  exact (recoverRun_nil_secret env _ _ _ _ _ _ _ _
           (recoverEtcd_recoverRun env _ _ _ _ _ _ _ _ _ Hne Hrun) Hne).
Qed.

Lemma recoverEtcd_nil_secret_witness :
  exists o s' tr,
    recoverEtcd (Example.collaborators false false []) "snapshot.db"
      EtcdSnapshotRemotePath None Example.cluster [Example.master1]
      (Example.deployment [Example.master1]) = (o, s', tr)
    /\ o = Panic
    /\ o <> Ret tt
    /\ Forall (hasKind [KLog; KReset; KStore]) tr.
Proof.
  eexists _, _, _. split; [vm_compute; reflexivity|]. split; [reflexivity|].
  pose proof (recoverEtcd_nil_secret (Example.collaborators false false []) "snapshot.db"
                EtcdSnapshotRemotePath Example.cluster [Example.master1]
                (Example.deployment [Example.master1])) as H.
  edestruct H as (H1 & H2 & _); [discriminate|vm_compute; reflexivity|].
  split; [exact H1|exact H2].
Defined.

Section CA.
Context {W : Type} (env : Collaborators W).

Lemma effect_Ret (r : option error * W) ev (s s' : State W) tr :
  effect r ev s = (Ret tt, s', tr) -> tr = [ev None].
Proof. unfold effect. destruct r as [[e|] w]; [discriminate|]. intros [= <- <-]. reflexivity. Qed.

Lemma writeSecretToMachine_ca client secret (s s' : State W) tr :
  writeSecretToMachine env client secret "tls.crt" "tls.key"
    "/etc/etcd/pki/ca.crt" "/etc/etcd/pki/ca.key" s = (Ret tt, s', tr) ->
  exists x cert key,
    secret = Some x
    /\ Secret_Data x !! "tls.crt" = Some cert
    /\ Secret_Data x !! "tls.key" = Some key
    /\ tr = caEvents env client cert key.
Proof.
  unfold writeSecretToMachine. destruct secret as [x|]; [|discriminate].
  intros E. apply bind_inv_Ret in E. destruct E as (x' & s0 & t0 & ta & E0 & E & ->).
  injection E0 as <- <- <-.
  destruct (Secret_Data x !! "tls.crt") as [cert|] eqn:Hcert; [|discriminate].
  destruct (Secret_Data x !! "tls.key") as [key|] eqn:Hkey; [|discriminate].
  exists x, cert, key.
  split; [reflexivity|]. split; [exact Hcert|]. split; [exact Hkey|].
  apply bind_inv_Ret in E. destruct E as ([] & s1 & t1 & tb & E1 & E & ->).
  apply annotate_inv_Ret, effect_Ret in E1. subst t1.
  apply bind_inv_Ret in E. destruct E as ([] & s2 & t2 & tc & E2 & E & ->).
  apply annotate_inv_Ret, effect_Ret in E2. subst t2.
  apply bind_inv_Ret in E. destruct E as ([] & s3 & t3 & td & E3 & E & ->).
  apply annotate_inv_Ret, effect_Ret in E3. subst t3.
  apply bind_inv_Ret in E. destruct E as ([] & s4 & t4 & te & E4 & E & ->).
  apply annotate_inv_Ret, effect_Ret in E4. subst t4.
  apply bind_inv_Ret in E. destruct E as ([] & s5 & t5 & tf & E5 & E & ->).
  apply effect_Ret in E5. subst t5.
  apply effect_Ret in E. subst tf. reflexivity.
Qed.

Lemma writeCALoop_ca mwc rest secret (s s' : State W) tr :
  writeCALoop env (mwc :: rest) secret s = (Ret tt, s', tr) ->
  exists x cert key,
    secret = Some x
    /\ Secret_Data x !! "tls.crt" = Some cert
    /\ Secret_Data x !! "tls.key" = Some key
    /\ tr = caTrace env (mwc :: rest) cert key.
Proof.
  assert (forall mwcs x cert key (s s' : State W) tr,
             Secret_Data x !! "tls.crt" = Some cert ->
             Secret_Data x !! "tls.key" = Some key ->
             writeCALoop env mwcs (Some x) s = (Ret tt, s', tr) ->
             tr = caTrace env mwcs cert key) as Hall.
  { induction mwcs as [|m ms IH]; intros x cert key s0 s1 t Hcert Hkey; simpl.
    - intros [= <- <-]. reflexivity.
    - intros E. apply bind_inv_Ret in E. destruct E as ([] & s2 & t1 & t2 & E1 & E2 & ->).
      apply annotate_inv_Ret, writeSecretToMachine_ca in E1.
      destruct E1 as (x' & cert' & key' & [= <-] & Hcert' & Hkey' & ->).
      rewrite Hcert in Hcert'. injection Hcert' as <-.
      rewrite Hkey in Hkey'. injection Hkey' as <-.
      rewrite (IH _ _ _ _ _ _ Hcert Hkey E2). reflexivity. }
  intros E. pose proof E as E'. simpl in E'.
  apply bind_inv_Ret in E'. destruct E' as ([] & s2 & t1 & t2 & E1 & _ & _).
  apply annotate_inv_Ret, writeSecretToMachine_ca in E1.
  destruct E1 as (x & cert & key & -> & Hcert & Hkey & _).
  exists x, cert, key. repeat split; try assumption.
  exact (Hall _ _ _ _ _ _ _ Hcert Hkey E).
Qed.

Lemma caTrace_kinds mwcs cert key :
  Forall (hasKind beforeBootstrapKinds) (caTrace env mwcs cert key).
Proof.
  induction mwcs as [|m ms IH]; [constructor|].
  unfold caTrace. simpl. repeat (constructor; [reflexivity|]). exact IH.
Qed.

Lemma recoverRun_ca localPath remotePath etcdCASecret cluster masters s o s' tr :
  recoverRun env localPath remotePath etcdCASecret cluster masters s o s' tr ->
  Forall (hasKind beforeBootstrapKinds) tr
  \/ exists mwcs x cert key before after,
       MWC_Machine <$> mwcs = masters
       /\ etcdCASecret = Some x
       /\ Secret_Data x !! "tls.crt" = Some cert
       /\ Secret_Data x !! "tls.key" = Some key
       /\ Forall (hasKind beforeBootstrapKinds) before
       /\ tr = (before ++ writingCALog :: caTrace env mwcs cert key) ++ after.
Proof.
  intros Hrun.
  destruct Hrun as
    [ o1 s' tr E1 Hf
    | mwcs s0 t0 o2 s' t2 E1 E2 Hf
    | mwcs s0 t0 cluster1 s1 t2 o3 s' t3 E1 E2 E3 Hf
    | firstMWC otherMWCs s0 t0 cluster1 s1 t2 s2 t3 o4 s' t4 E1 E2 E3
    | firstMWC otherMWCs s0 t0 cluster1 s1 t2 s2 t3 m c2 s' t4 E1 E2 E3
    | firstMWC otherMWCs s0 t0 cluster1 s1 t2 s2 t3 m c2 s3 t4 ep urls o5 s' t5 E1 E2 E3
    | firstMWC otherMWCs s0 t0 cluster1 s1 t2 s2 t3 m c2 s3 t4 ep urls c3 s4 t5 s' t6 E1 E2 E3 ].
  4-7: right;
      destruct (writeCALoop_ca _ _ _ _ _ _ E3) as (x & cert & key & -> & Hcert & Hkey & ->);
      exists (firstMWC :: otherMWCs), x, cert, key, (t0 ++ cleaningLog :: t2);
      eexists;
      (split; [exact (mastersWithClientLoop_machines env _ _ _ _ _ E1)|]);
      (split; [reflexivity|]); (split; [exact Hcert|]); (split; [exact Hkey|]);
      (split; [exact (reset_prefix_kinds env _ _ _ _ _ _ _ _ _ E1 E2)|]);
      rewrite <- !app_assoc; cbn [app]; rewrite <- ?app_assoc; reflexivity.
  1-3: left.
  - eapply Forall_impl; [exact (emits_mastersWithClientLoop _ _ _ _ _ _ E1)|].
    intros ev. apply hasKind_weaken. kinds_subset.
  - exact (reset_prefix_kinds env _ _ _ _ _ _ _ _ _ E1 E2).
  - rewrite app_comm_cons, app_assoc. apply Forall_app. split.
    + exact (reset_prefix_kinds env _ _ _ _ _ _ _ _ _ E1 E2).
    + constructor; [reflexivity|].
      eapply Forall_impl; [exact (emits_writeCALoop _ _ _ _ _ _ _ E3)|].
      intros ev. apply hasKind_weaken. kinds_subset.
Qed.

End CA.

(** X22: in every run of [recoverEtcd], before any bootstrapping
    command (the seed initialization or a join) the etcd CA was
    written to every master: the secret is not nil and holds
    [tls.crt] and [tls.key], and after the line "Writing etcd CA to all
    masters" the trace holds, for every master in order, the two
    directories made, the certificate written with mode 0644 and the
    key with mode 0600 under [/tmp], and both moved to
    [/etc/etcd/pki], each call without error. *)
Theorem recoverEtcd_ca_before_bootstrap {W : Type} (env : Collaborators W)
    (localPath remotePath : string) (etcdCASecret : option Secret)
    (cluster : Cluster) (masters : list Machine)
    (s s' : State W) (o : outcome unit) (pre post : list Event) (ev : Event) :
  recoverEtcd env localPath remotePath etcdCASecret cluster masters s =
    (o, s', pre ++ ev :: post) ->
  isBootstrap ev ->
  exists mwcs x cert key before after,
    MWC_Machine <$> mwcs = masters
    /\ etcdCASecret = Some x
    /\ Secret_Data x !! "tls.crt" = Some cert
    /\ Secret_Data x !! "tls.key" = Some key
    /\ pre = before ++ writingCALog :: caTrace env mwcs cert key ++ after.
Proof.
  intros Hrun Hev.
  destruct masters as [|m0 ms].
  { unfold recoverEtcd in Hrun. cbn in Hrun. injection Hrun as _ _ Htr.
    destruct pre; discriminate. }
  apply recoverEtcd_recoverRun in Hrun; [|discriminate].
  apply recoverRun_ca in Hrun.
  destruct Hrun as [Hkinds|(mwcs & x & cert & key & before & after & Hm & Hx & Hc & Hk & Hb & Htr)].
  - exfalso. rewrite Forall_app, Forall_cons in Hkinds. destruct Hkinds as (_ & Hk & _).
    exact (beforeBootstrap_not_bootstrap _ Hk Hev).
  - assert (Forall (fun x => ~ isBootstrap x)
                   (before ++ writingCALog :: caTrace env mwcs cert key)) as Hnot.
    { eapply Forall_impl; [|exact beforeBootstrap_not_bootstrap].
      apply Forall_app. split; [exact Hb|].
      constructor; [reflexivity|apply caTrace_kinds]. }
    destruct (app_split_after _ _ _ _ _ _ (eq_sym Htr) Hnot Hev) as (pre' & -> & _).
    exists mwcs, x, cert, key, before, pre'.
    repeat split; try assumption. rewrite <- app_assoc. reflexivity.
Qed.

Lemma recoverEtcd_ca_before_bootstrap_witness :
  exists pre,
    length pre = 12%nat
    /\ exists mwcs x cert key before after,
         MWC_Machine <$> mwcs = [Example.master1]
         /\ Some Example.etcdCA = Some x
         /\ Secret_Data x !! "tls.crt" = Some cert
         /\ Secret_Data x !! "tls.key" = Some key
         /\ pre = before ++ writingCALog
                  :: caTrace (Example.collaborators false false ["https://10.0.0.1:2379"])
                             mwcs cert key ++ after.
Proof.
  eexists [_; _; _; _; _; _; _; _; _; _; _; _]. split; [reflexivity|].
  eapply (recoverEtcd_ca_before_bootstrap
            (Example.collaborators false false ["https://10.0.0.1:2379"])
            "snapshot.db" EtcdSnapshotRemotePath (Some Example.etcdCA)
            Example.cluster [Example.master1]
            (Example.deployment [Example.master1]) _ _ _ _
            (RunCommandEv ExampleSessions.client (initCommand EtcdSnapshotRemotePath)
                          "" "" None)).
  - vm_compute. reflexivity.
  - left. vm_compute. reflexivity.
Defined.

(** ** [get machine] *)

Section Get.
Context {W : Type}.

Lemma machineCmdGet_items_checks ip : checks (W:=W) (machineCmdGet_items ip).
Proof.
  unfold machineCmdGet_items, Machines_List, Machines_Get.
  destruct (String.length ip =? 0)%nat; checks_auto.
Qed.

Lemma machineCmdGet_print_written printers outputFmt items :
  (machineCmdGet_print printers outputFmt items).2 <> "" ->
  ((outputFmt = "yaml" \/ outputFmt = "json")
   /\ (machineCmdGet_print printers outputFmt items).1 = Ret tt)
  \/ outputFmt = "".
Proof.
  unfold machineCmdGet_print.
  destruct (String.eqb_spec outputFmt "yaml").
  { destruct (yaml_Marshal printers items); cbn; [congruence|auto]. }
  destruct (String.eqb_spec outputFmt "json").
  { destruct (json_Marshal printers items); cbn; [congruence|auto]. }
  destruct (String.eqb_spec outputFmt ""); [auto|]. cbn. congruence.
Qed.

End Get.

(** X23: [get machine] only reads: whatever the flags and the store,
    a run makes no event and leaves the state as it was; it returns,
    exits or panics on a template that does not parse, and never
    returns an error. *)
Theorem machineCmdGet_reads_only {W : Type} (printers : Printers)
    (outputFmt ip : string) (s : State W) :
  exists o written,
    machineCmdGet printers outputFmt ip s = ((o, s, []), written)
    /\ forall e, o <> Err e.
Proof.
  unfold machineCmdGet.
  destruct (machineCmdGet_items ip s) as [[o1 s1] t1] eqn:E.
  destruct (machineCmdGet_items_checks ip _ _ _ _ E) as (-> & -> & [[items ->]|[e ->]]).
  - destruct (machineCmdGet_print printers outputFmt items) as [o written] eqn:Ep.
    exists o, written. split; [reflexivity|].
    revert Ep. unfold machineCmdGet_print.
    repeat case_match; intros [= <- <-]; discriminate.
  - eexists _, _. split; [reflexivity|]. discriminate.
Qed.

(** X24: [get machine] writes to the standard output only after it
    found the machines, and then only when it succeeds with [yaml] or
    [json], or with the text template, which writes as it goes: a
    failed lookup, a failed marshaller and an unsupported format leave
    the output empty. *)
Theorem machineCmdGet_written {W : Type} (printers : Printers)
    (outputFmt ip : string) (s : State W) :
  (machineCmdGet printers outputFmt ip s).2 <> "" ->
  (exists items, machineCmdGet_items ip s = (Ret items, s, []))
  /\ (((outputFmt = "yaml" \/ outputFmt = "json")
       /\ (machineCmdGet printers outputFmt ip s).1.1.1 = Ret tt)
      \/ outputFmt = "").
Proof.
  unfold machineCmdGet.
  destruct (machineCmdGet_items ip s) as [[o1 s1] t1] eqn:E.
  destruct (machineCmdGet_items_checks ip _ _ _ _ E) as (-> & -> & [[items ->]|[e ->]]);
    cbn; [|congruence].
  intros H. split; [exists items; reflexivity|].
  pose proof (machineCmdGet_print_written printers outputFmt items) as Hp.
  destruct (machineCmdGet_print printers outputFmt items) as [o written]. exact (Hp H).
Qed.

Lemma machineCmdGet_written_witness :
  let s := Example.deployment [Example.master1; Example.node1] in
  (exists items, machineCmdGet_items "10.0.0.1" s = (Ret items, s, []))
  /\ ((("json" = "yaml" \/ "json" = "json")
       /\ (machineCmdGet ExamplePrinters.printers "json" "10.0.0.1" s).1.1.1 = Ret tt)
      \/ "json" = "").
Proof.
  apply (machineCmdGet_written ExamplePrinters.printers "json" "10.0.0.1"
           (Example.deployment [Example.master1; Example.node1])).
  vm_compute. discriminate.
Defined.

(** ** The remote helpers and the store *)

(** X25: the helpers that work on a remote machine read the store and
    never write it: after any run of
    [masterMachineAndProvisionedMachine],
    [bootstrapTokenSecretFromMachine], [adminKubeconfigFromMachine] or
    [writeAdminKubeconfigToMachine], failed or not, the store is as it
    was. *)
Theorem remote_helpers_keep_store {W : Type} (env : Collaborators W)
    (machine : Machine) (provisionedMachine : ProvisionedMachine)
    (kubeconfig : string) (s : State W) :
  store (masterMachineAndProvisionedMachine env s).1.2 = store s
  /\ store (bootstrapTokenSecretFromMachine env machine provisionedMachine s).1.2 = store s
  /\ store (adminKubeconfigFromMachine env machine provisionedMachine s).1.2 = store s
  /\ store (writeAdminKubeconfigToMachine env kubeconfig machine provisionedMachine s).1.2
     = store s.
Proof.
  repeat split.
  - destruct (masterMachineAndProvisionedMachine env s) as [[o s'] tr] eqn:E.
    exact (sameStore_masterMachineAndProvisionedMachine env _ _ _ _ E).
  - destruct (bootstrapTokenSecretFromMachine env machine provisionedMachine s)
      as [[o s'] tr] eqn:E.
    exact (sameStore_bootstrapTokenSecretFromMachine env _ _ _ _ _ _ E).
  - destruct (adminKubeconfigFromMachine env machine provisionedMachine s)
      as [[o s'] tr] eqn:E.
    exact (sameStore_adminKubeconfigFromMachine env _ _ _ _ _ _ E).
  - destruct (writeAdminKubeconfigToMachine env kubeconfig machine provisionedMachine s)
      as [[o s'] tr] eqn:E.
    exact (sameStore_writeAdminKubeconfigToMachine env _ _ _ _ _ _ _ E).
Qed.

(** ** More on the provider-config codec *)

(** X26: over a total and lossless serializer,
    [EncodeToProviderConfig] tells objects of one shape apart: two
    objects of the same shape that it encodes to the same provider
    config are equal. *)
Theorem EncodeToProviderConfig_injective {Object K : Type} (shape : Object -> K)
    (codec : Codec.SSHProviderConfigCodec Object) (x y : Object)
    (providerConfig : ProviderConfig) :
  Codec.lossless shape codec ->
  shape x = shape y ->
  Codec.EncodeToProviderConfig codec x = Ret providerConfig ->
  Codec.EncodeToProviderConfig codec y = Ret providerConfig ->
  x = y.
Proof.
  intros Hlaw Hshape Hx Hy.
  destruct (CodecFacts.lossless_round_trip shape codec Hlaw x x eq_refl)
    as (px & Hex & Hdx).
  destruct (CodecFacts.lossless_round_trip shape codec Hlaw y x Hshape)
    as (py & Hey & Hdy).
  congruence.
Qed.

Lemma EncodeToProviderConfig_injective_witness :
  let x := Wire.ProvisionedMachineSpecConfig (Some Example.sshConfig) "eth0" in
  exists providerConfig,
    Codec.EncodeToProviderConfig Wire.codec x = Ret providerConfig /\ x = x.
Proof.
  intros x.
  destruct (CodecFacts.lossless_round_trip Wire.kindOfConfig Wire.codec
              WireFacts.codec_lossless x x eq_refl) as (providerConfig & Henc & _).
  exists providerConfig. split; [exact Henc|].
  exact (EncodeToProviderConfig_injective Wire.kindOfConfig Wire.codec x x providerConfig
           WireFacts.codec_lossless eq_refl Henc Henc).
Defined.

(** X27: [DecodeFromProviderConfig] panics exactly on a provider
    config whose value is nil, whatever the decoder; a provider config
    that [EncodeToProviderConfig] returned has a value, so decoding it
    returns or fails, and [EncodeToProviderConfig] itself returns or
    fails. *)
Theorem DecodeFromProviderConfig_nil_value {Object : Type}
    (codec : Codec.SSHProviderConfigCodec Object) (providerConfig : ProviderConfig)
    (x out : Object) :
  (Codec.DecodeFromProviderConfig codec providerConfig out = Panic
   <-> Value providerConfig = None)
  /\ match Codec.EncodeToProviderConfig codec x with
     | Ret encoded => Codec.DecodeFromProviderConfig codec encoded out <> Panic
     | Err _ => True
     | Exit _ | Panic => False
     end.
Proof.
  split.
  - unfold Codec.DecodeFromProviderConfig.
    destruct (Value providerConfig) as [value|]; [|tauto].
    destruct (Codec.Decode (Codec.decoder codec) (Raw value) out);
      split; discriminate.
  - unfold Codec.EncodeToProviderConfig, Codec.DecodeFromProviderConfig.
    destruct (Codec.Encode (Codec.encoder codec) x) as [err|buf]; [exact I|].
    cbn. destruct (Codec.Decode (Codec.decoder codec) buf out); discriminate.
Qed.

(** ** Resetting every master before bootstrapping *)

Section ResetStore.
Context {W : Type} (env : Collaborators W).

Lemma sameStore_mastersWithClientLoop masters :
  preserves sameStore (mastersWithClientLoop env masters).
Proof.
  induction masters as [|master masters' IH]; simpl.
  - apply (preserves_mret _ sameStore_refl).
  - apply (preserves_bind _ sameStore_trans); [sameStore_auto|intros machineStatus].
    apply (preserves_bind _ sameStore_trans);
      [apply preserves_annotate, sameStore_sshMachineClientFromSSHConfig|intros client].
    apply (preserves_bind _ sameStore_trans); [exact IH|intros mwcs].
    apply (preserves_mret _ sameStore_refl).
Qed.

End ResetStore.

(** The payload helpers of the deployment with encoded payloads
    round-trip the status of a cluster. *)
Lemma ExampleMembers_statusRoundTrip : statusRoundTrip ExampleMembers.collaborators.
Proof.
  intros clusterStatus cluster cluster' Hput.
  change (ExampleMembers.putClusterStatus clusterStatus cluster = inr cluster') in Hput.
  change (ExampleMembers.getClusterStatus cluster' = inr clusterStatus).
  unfold ExampleMembers.putClusterStatus, ExampleMembers.payload in Hput.
  destruct (WireFacts.decode_encode (Wire.ClusterStatusConfig clusterStatus)
              (Wire.ClusterStatusConfig {| EtcdMembers := [] |}) eq_refl)
    as (buf & Henc & Hdec).
  rewrite Henc in Hput. injection Hput as <-.
  unfold ExampleMembers.getClusterStatus, ExampleMembers.decodePayload.
  cbn [Cluster_Status_ProviderStatus Raw]. rewrite Hdec. reflexivity.
Qed.

(** C4: in every run of [recoverEtcd], before any bootstrapping command
    (the seed initialization or a join) the trace holds the complete
    reset of all masters, starting from the cluster object the run was
    given and the store it started in: for every master in order, its
    reset command with peer removal skipped succeeded; the status of
    the cluster object was decoded, the member of the master was deleted
    from the set of its members, so that the remaining records are
    exactly those of the set under another id; that status was encoded
    into the cluster object and persisted by a status update of the
    store that succeeded, and the next master goes on from there. When
    the payload helpers round-trip the status, the cluster object the
    reset loop leaves decodes to a status without the member of any
    master. When the reset loop does not complete, the run ends with
    the outcome of the loop and nothing is bootstrapped; in particular
    a reset that fails, or a removal that fails, on a master whose
    predecessors were reset ends the run with the error for that
    master. *)
Theorem recoverEtcd_reset_before_bootstrap {W : Type} (env : Collaborators W)
    (localPath remotePath : string) (etcdCASecret : option Secret)
    (cluster : Cluster) (masters : list Machine)
    (s : State W) (o : outcome unit) (s' : State W) (tr : list Event) :
  recoverEtcd env localPath remotePath etcdCASecret cluster masters s = (o, s', tr) ->
  (forall pre ev post,
      tr = pre ++ ev :: post -> isBootstrap ev ->
      exists mwcs t_sessions t_reset t_rest cluster1 st1,
        MWC_Machine <$> mwcs = masters /\
        pre = t_sessions ++ cleaningLog :: t_reset ++ t_rest /\
        resetTrace env mwcs cluster (store s) cluster1 st1 t_reset /\
        (statusRoundTrip env -> Forall (memberAbsent env cluster1) mwcs))
  /\ (forall mwcs s0 t0 o2 s2 t2,
         mastersWithClientLoop env masters s = (Ret mwcs, s0, t0) ->
         resetLoop env mwcs cluster s0 = (o2, s2, t2) -> failed o2 ->
         o = castFailure o2 /\ s' = s2 /\ tr = t0 ++ cleaningLog :: t2 /\
         Forall (fun ev => ~ isBootstrap ev) tr)
  /\ (forall before mwc after s0 t0 cluster1 s1 t1,
         mastersWithClientLoop env masters s = (Ret (before ++ mwc :: after), s0, t0) ->
         resetLoop env before cluster s0 = (Ret cluster1, s1, t1) ->
         (forall e s2 t,
             resetEtcdSkipRemoveMember env (MWC_Client mwc) s1 = (Err e, s2, t) ->
             o = Err (Errorf "unable to reset etcd on machine %q: %v"
                             [AStr (Machine_Name (MWC_Machine mwc)); AErr e]) /\
             Forall (fun ev => ~ isBootstrap ev) tr)
         /\ (forall s2 t machineStatus etcdMember e s3 t',
                resetEtcdSkipRemoveMember env (MWC_Client mwc) s1 = (Ret tt, s2, t) ->
                GetMachineStatus env (MWC_Machine mwc) = inr machineStatus ->
                SPMachineStatus_EtcdMember machineStatus = Some etcdMember ->
                removeClusterEtcdMember env etcdMember cluster1 s2 = (Err e, s3, t') ->
                o = Err (Errorf
                           "unable to remove etcd member information for machine %q from cluster status: %v"
                           [AStr (Machine_Name (MWC_Machine mwc)); AErr e]) /\
                Forall (fun ev => ~ isBootstrap ev) tr)).
Proof.
  intros Hrun.
  assert (HB : forall mwcs s0 t0 o2 s2 t2,
             mastersWithClientLoop env masters s = (Ret mwcs, s0, t0) ->
             resetLoop env mwcs cluster s0 = (o2, s2, t2) -> failed o2 ->
             o = castFailure o2 /\ s' = s2 /\ tr = t0 ++ cleaningLog :: t2 /\
             Forall (fun ev => ~ isBootstrap ev) tr).
  { intros mwcs s0 t0 o2 s2 t2 E1 E2 Hf.
    destruct masters as [|m0 ms].
    - injection E1 as <- <- <-. injection E2 as <- <- <-.
      exfalso. eapply Hf. reflexivity.
    - rewrite (recoverEtcd_reset_failed env _ _ _ _ _ _ _ _ _ _ _ _ E1 E2 Hf) in Hrun
        by discriminate.
      injection Hrun as <- <- <-. repeat split.
      eapply Forall_impl; [exact (reset_prefix_kinds env _ _ _ _ _ _ _ _ _ E1 E2)|].
      exact beforeBootstrap_not_bootstrap. }
  split; [|split; [exact HB|]].
  - intros pre ev post Htr Hev.
    destruct masters as [|m0 ms].
    { injection Hrun as <- <- <-. destruct pre; discriminate. }
    apply recoverEtcd_recoverRun in Hrun; [|discriminate].
    apply recoverRun_bootstrap in Hrun.
    destruct Hrun as [Hall|(mwcs & s0 & t0 & cluster1 & s1 & t2 & t_rest & E1 & E2 & Htr')].
    + exfalso. rewrite Htr in Hall. apply Forall_app in Hall. destruct Hall as [_ Hall].
      apply Forall_cons in Hall. destruct Hall as [Hk _].
      exact (beforeBootstrap_not_bootstrap _ Hk Hev).
    + rewrite Htr' in Htr.
      destruct (app_split_after isBootstrap _ _ _ _ _ Htr) as (pre' & -> & _).
      * eapply Forall_impl; [exact (reset_prefix_kinds env _ _ _ _ _ _ _ _ _ E1 E2)|].
        exact beforeBootstrap_not_bootstrap.
      * exact Hev.
      * pose proof (resetLoop_resetTrace env _ _ _ _ _ _ E2) as Hreset.
        rewrite (sameStore_mastersWithClientLoop env _ _ _ _ _ E1) in Hreset.
        exists mwcs, t0, t2, pre', cluster1, (store s1).
        split; [exact (mastersWithClientLoop_machines env _ _ _ _ _ E1)|].
        split; [rewrite <- app_assoc; reflexivity|].
        split; [exact Hreset|].
        intros Hlaw. exact (resetTrace_memberAbsent env _ _ _ _ _ _ Hlaw Hreset).
  - intros before mwc after s0 t0 cluster1 s1 t1 E1 Ebefore. split.
    + intros e s2 t Hreset.
      pose proof (resetLoop_app env before (mwc :: after) _ _ _ _ _ Ebefore) as Happ.
      rewrite (resetLoop_reset_fails env mwc after cluster1 s1 e s2 t Hreset) in Happ.
      destruct (HB _ _ _ _ _ _ E1 Happ) as (-> & _ & _ & Hall);
        [intros ?; discriminate|].
      split; [reflexivity|exact Hall].
    + intros s2 t machineStatus etcdMember e s3 t' Hreset Hst Hmem Hrem.
      pose proof (resetLoop_app env before (mwc :: after) _ _ _ _ _ Ebefore) as Happ.
      rewrite (resetLoop_removal_fails env mwc after cluster1 s1 s2 t machineStatus
                 etcdMember e s3 t' Hreset Hst Hmem Hrem) in Happ.
      destruct (HB _ _ _ _ _ _ E1 Happ) as (-> & _ & _ & Hall);
        [intros ?; discriminate|].
      split; [reflexivity|exact Hall].
Qed.

Lemma recoverEtcd_reset_before_bootstrap_witness :
  statusRoundTrip ExampleMembers.collaborators
  /\ (exists cluster1 s1 t,
         resetLoop ExampleMembers.collaborators [ExampleMembers.mwc1; ExampleMembers.mwc2]
                   ExampleMembers.cluster ExampleMembers.state = (Ret cluster1, s1, t)
         /\ GetClusterStatus ExampleMembers.collaborators ExampleMembers.cluster =
            inr {| EtcdMembers := [ExampleMembers.member 1; ExampleMembers.member 2;
                                   ExampleMembers.member 9] |}
         /\ GetClusterStatus ExampleMembers.collaborators cluster1 =
            inr {| EtcdMembers := [ExampleMembers.member 9] |}
         /\ Clusters (store s1) = [cluster1])
  /\ exists o s' tr,
       recoverEtcd ExampleMembers.collaborators
                   "snapshot.db" EtcdSnapshotRemotePath (Some Example.etcdCA)
                   ExampleMembers.cluster [ExampleMembers.master1; ExampleMembers.master2]
                   ExampleMembers.state = (o, s', tr)
       /\ o = Ret tt
       /\ forall pre ev post,
            tr = pre ++ ev :: post -> isBootstrap ev ->
            exists mwcs t_sessions t_reset t_rest cluster1 st1,
              MWC_Machine <$> mwcs = [ExampleMembers.master1; ExampleMembers.master2] /\
              pre = t_sessions ++ cleaningLog :: t_reset ++ t_rest /\
              resetTrace ExampleMembers.collaborators mwcs ExampleMembers.cluster
                         (store ExampleMembers.state) cluster1 st1 t_reset /\
              (statusRoundTrip ExampleMembers.collaborators ->
               Forall (memberAbsent ExampleMembers.collaborators cluster1) mwcs).
Proof.
  split; [exact ExampleMembers_statusRoundTrip|].
  split; [eexists _, _, _; repeat split; vm_compute; reflexivity|].
  eexists _, _, _. split; [vm_compute; reflexivity|]. split; [reflexivity|].
  refine (proj1 (recoverEtcd_reset_before_bootstrap
                   ExampleMembers.collaborators
                   "snapshot.db" EtcdSnapshotRemotePath (Some Example.etcdCA)
                   ExampleMembers.cluster [ExampleMembers.master1; ExampleMembers.master2]
                   ExampleMembers.state _ _ _ _)).
  vm_compute. reflexivity.
Defined.

(** ** The last master that lists its role twice *)

(** C1, on the code as written: [deleteMustNotOrphanNodes] counts the
    Master and Node entries of the role lists, not the machines. Here
    the target is the only machine with the Master role and lists that
    role twice, and a machine with the Node role exists: the count of
    masters is 2, the check returns, and [delete machine] goes through
    all its steps and deletes the last master; the node stays. *)
Theorem machineCmdDelete_repeated_role_deletes_last_master :
  let env := Example.collaborators false false [] in
  let s := ExampleRepeated.state in
  let items := listObjects Machine_ObjectMeta DefaultNamespace (Machines (store s)) in
  machinesWithRole MasterRole items = [ExampleRepeated.master]
  /\ machinesWithRole NodeRole items = [Example.node1]
  /\ roleEntries MasterRole items = 2%Z
  /\ deleteMustNotOrphanNodes ExampleRepeated.master s = (Ret tt, s, [])
  /\ exists s' tr,
       machineCmdDelete env 300 30 "10.0.0.1" s = (Ret tt, s', tr)
       /\ omap deleteStep tr = [0; 1; 2; 3; 4]%nat
       /\ Machines (store s') = [Example.node1].
Proof.
  cbv zeta. repeat split; try (vm_compute; reflexivity).
  eexists _, _. repeat split; vm_compute; reflexivity.
Qed.
